(** * ft245r: FT245R/FT232R synchronous bit-bang programmer

    A shallow embedding of [src/ft245r.c] (avrdude) and the properties of its
    pin encoder, SPI and TPI codecs, FIFO flow control, request queue,
    paged operations and session control.

    Conventions.
    - C integers are [Z]; an [unsigned char] assignment is written as
      reduction modulo 256, a [uint32_t] shift as reduction modulo 2^32.
    - A C buffer that a function fills from position 0 is the list of the
      bytes written, in order; [buf + k] is an index offset.
    - The private data [my] of the driver is the record [pdata]; the FTDI
      library behind [my.handle] is an abstract transport (class
      [FtdiTransport]).
    - Loops that poll the transport ([ft245r_flush], [ft245r_rx_buf_fill_and_get])
      are bounded by a fuel parameter; running out of fuel is the outcome
      [Hang]. *)

From Stdlib Require Import String Ascii.
From Stdlib Require Import ZArith List Bool Lia.
Import ListNotations.
Local Open Scope Z_scope.

(** ** Constants *)

Definition FT245R_CYCLES : Z := 2.
Definition FT245R_CMD_SIZE : Z := 4 * 8 * FT245R_CYCLES.
Definition FT245R_FRAGMENT_SIZE : Z := 8 * FT245R_CMD_SIZE.
Definition REQ_OUTSTANDINGS : Z := 10.
Definition FT245R_BUFSIZE : Z := 8192.
Definition FT245R_MIN_FIFO_SIZE : Z := 128.
Definition TPIPCR_GT_0b : Z := 7.
(** Modelled from the spec: [ON] and [OFF] come from libavrdude.h, which
    is not part of the sources at hand; the spec has a pin driven "on" or
    "off", a level that [set_pin] passes to [SET_BITS_0] as a truth value. *)
Definition ON : Z := 1.
Definition OFF : Z := 0.

(** ** Pins *)

Inductive pinname : Type :=
| PPI_AVR_VCC | PPI_AVR_BUFF | PIN_AVR_RESET | PIN_AVR_SCK | PIN_AVR_SDO
| PIN_AVR_SDI | PIN_LED_ERR | PIN_LED_RDY | PIN_LED_PGM | PIN_LED_VFY.

(** [pgm->pin[name].mask[0]] and [pgm->pin[name].inverse[0]]. *)
Record pindef : Type := mkPindef { mask0 : Z; inverse0 : Z }.

Definition pinmap : Type := pinname -> pindef.

(** Modelled from the spec: the macros [GET_BITS_0] and [SET_BITS_0] come
    from libavrdude.h, which is not part of the sources at hand.  The spec
    describes a pin as "a bit mask over the FTDI 8-bit port plus an inversion
    flag": reading a pin masks the byte after undoing the inversion, writing
    it replaces the masked bits by the (possibly inverted) level. *)
Definition GET_BITS_0 (x : Z) (pin : pinmap) (name : pinname) : Z :=
  Z.land (Z.lxor x (inverse0 (pin name))) (mask0 (pin name)).

(** Modelled from the spec: see [GET_BITS_0].  The result is stored in an
    [unsigned char], hence the reduction modulo 256. *)
Definition SET_BITS_0 (x : Z) (pin : pinmap) (name : pinname) (v : bool) : Z :=
  (Z.lor (Z.land x (Z.lnot (mask0 (pin name))))
         (Z.land (mask0 (pin name))
                 (if v then Z.lnot (inverse0 (pin name)) else inverse0 (pin name))))
  mod 256.

(** C truth value of an integer expression. *)
Definition truthy (x : Z) : bool := negb (x =? 0).

(** ** 4.A Bit encoder

    [add_bit] updates the output register [my.ft245r_out] and appends two bus
    bytes to the buffer: SDO set up with SCK low, then SCK high. *)
Definition add_bit (pin : pinmap) (out : Z) (buf : list Z) (bit : bool)
  : Z * list Z :=
  let o0 := SET_BITS_0 out pin PIN_AVR_SDO bit in
  let o1 := SET_BITS_0 o0 pin PIN_AVR_SCK false in
  let o2 := SET_BITS_0 o1 pin PIN_AVR_SCK true in
  (o2, buf ++ [o1; o2]).

(** The loop of [set_data]: [j] iterations left, [bit] the current mask. *)
Fixpoint set_data_loop (pin : pinmap) (j : nat) (bit data : Z)
         (out : Z) (buf : list Z) : Z * list Z :=
  match j with
  | O => (out, buf)
  | S j' =>
      let '(out', buf') := add_bit pin out buf (truthy (Z.land data bit)) in
      set_data_loop pin j' (Z.shiftr bit 1) data out' buf'
  end.

(** [set_data]: new output register and the bytes written ([buf_pos] is
    their number). *)
Definition set_data (pin : pinmap) (out : Z) (data : Z) : Z * list Z :=
  set_data_loop pin 8 128 data out [].

(** Array read [buf[i]]; a cell beyond the bytes the list holds is a cell the
    caller never wrote and reads as 0 here. *)
Definition rd (buf : list Z) (i : Z) : Z := nth (Z.to_nat i) buf 0.

Fixpoint extract_data_loop (pin : pinmap) (buf : list Z) (base : Z) (j : nat)
         (buf_pos bit r : Z) : Z :=
  match j with
  | O => r
  | S j' =>
      let r' := if truthy (GET_BITS_0 (rd buf (base + buf_pos)) pin PIN_AVR_SDI)
                then Z.lor r bit else r in
      extract_data_loop pin buf base j' (buf_pos + FT245R_CYCLES)
                        (Z.shiftr bit 1) r'
  end.

(** [extract_data]: [buf += offset*(8*FT245R_CYCLES)], first sample at
    [buf_pos = FT245R_CYCLES]. *)
Definition extract_data (pin : pinmap) (buf : list Z) (offset : Z) : Z :=
  extract_data_loop pin buf (offset * (8 * FT245R_CYCLES)) 8 FT245R_CYCLES 128 0.

(** ** 4.E TPI codec *)

(** [extract_tpi_data]: returns the byte and the advanced [*buf_pos]. *)
Fixpoint extract_tpi_data_loop (pin : pinmap) (buf : list Z) (j : nat)
         (buf_pos bit byte : Z) : Z * Z :=
  match j with
  | O => (byte, buf_pos)
  | S j' =>
      let p1 := buf_pos + 1 in
      let byte' := if truthy (GET_BITS_0 (rd buf p1) pin PIN_AVR_SDI)
                   then Z.lor byte bit else byte in
      extract_tpi_data_loop pin buf j' (p1 + 1) ((Z.shiftl bit 1) mod 256) byte'
  end.

Definition extract_tpi_data (pin : pinmap) (buf : list Z) (buf_pos : Z) : Z * Z :=
  extract_tpi_data_loop pin buf 8 buf_pos 1 0.

Fixpoint set_tpi_data_loop (pin : pinmap) (j : nat) (bit byte : Z)
         (parity : bool) (out : Z) (buf : list Z) : bool * (Z * list Z) :=
  match j with
  | O => (parity, (out, buf))
  | S j' =>
      let b := truthy (Z.land byte bit) in
      let '(out', buf') := add_bit pin out buf b in
      set_tpi_data_loop pin j' ((Z.shiftl bit 1) mod 256) byte (xorb parity b)
                        out' buf'
  end.

(** [set_tpi_data]: start bit, eight data bits, parity bit, two stop bits. *)
Definition set_tpi_data (pin : pinmap) (out : Z) (byte : Z) : Z * list Z :=
  let '(out0, buf0) := add_bit pin out [] false in
  let '(parity, (out1, buf1)) := set_tpi_data_loop pin 8 1 byte false out0 buf0 in
  let '(out2, buf2) := add_bit pin out1 buf1 parity in
  let '(out3, buf3) := add_bit pin out2 buf2 true in
  add_bit pin out3 buf3 true.

(** ** 3. Driver session *)

(** [struct ft245r_request]; the [next] pointer is the list structure. *)
Record ft245r_request : Type := mkReq { addr : Z; bytes : Z; n : Z }.

(** [struct pdata].  [req_queue] is the chain [req_head .. req_tail], oldest
    first; [req_pool] is the chain of recycled nodes. *)
Record pdata : Type := mkPdata {
  ft245r_ddr : Z;
  ft245r_out : Z;
  tx_len : Z;
  tx_buf : list Z;
  rx_discard : Z;
  rx_pending : Z;
  rx_len : Z;
  rx_wr : Z;
  rx_rd : Z;
  rx_buf : list Z;
  req_queue : list ft245r_request;
  req_pool : list ft245r_request
}.

Definition set_out (p : pdata) (o : Z) : pdata :=
  mkPdata (ft245r_ddr p) o (tx_len p) (tx_buf p) (rx_discard p) (rx_pending p)
          (rx_len p) (rx_wr p) (rx_rd p) (rx_buf p) (req_queue p) (req_pool p).

Definition set_tx (p : pdata) (len : Z) (buf : list Z) : pdata :=
  mkPdata (ft245r_ddr p) (ft245r_out p) len buf (rx_discard p) (rx_pending p)
          (rx_len p) (rx_wr p) (rx_rd p) (rx_buf p) (req_queue p) (req_pool p).

Definition set_discard (p : pdata) (d : Z) : pdata :=
  mkPdata (ft245r_ddr p) (ft245r_out p) (tx_len p) (tx_buf p) d (rx_pending p)
          (rx_len p) (rx_wr p) (rx_rd p) (rx_buf p) (req_queue p) (req_pool p).

Definition set_pending (p : pdata) (n : Z) : pdata :=
  mkPdata (ft245r_ddr p) (ft245r_out p) (tx_len p) (tx_buf p) (rx_discard p) n
          (rx_len p) (rx_wr p) (rx_rd p) (rx_buf p) (req_queue p) (req_pool p).

Definition set_ring (p : pdata) (len wr rd : Z) (buf : list Z) : pdata :=
  mkPdata (ft245r_ddr p) (ft245r_out p) (tx_len p) (tx_buf p) (rx_discard p)
          (rx_pending p) len wr rd buf (req_queue p) (req_pool p).

Definition set_reqs (p : pdata) (q pool : list ft245r_request) : pdata :=
  mkPdata (ft245r_ddr p) (ft245r_out p) (tx_len p) (tx_buf p) (rx_discard p)
          (rx_pending p) (rx_len p) (rx_wr p) (rx_rd p) (rx_buf p) q pool.

Definition set_ddr (p : pdata) (d : Z) : pdata :=
  mkPdata d (ft245r_out p) (tx_len p) (tx_buf p) (rx_discard p)
          (rx_pending p) (rx_len p) (rx_wr p) (rx_rd p) (rx_buf p)
          (req_queue p) (req_pool p).

(** Array write [buf[i] = v]; the source never writes past the array, and a
    write outside the list is dropped here. *)
Fixpoint upd_nat (buf : list Z) (i : nat) (v : Z) : list Z :=
  match buf, i with
  | [], _ => []
  | _ :: t, O => v :: t
  | h :: t, S i' => h :: upd_nat t i' v
  end.

Definition upd (buf : list Z) (i v : Z) : list Z :=
  if i <? 0 then buf else upd_nat buf (Z.to_nat i) v.

(** The cells [src .. src+len-1] of an array, as handed to the transport. *)
Definition slice (buf : list Z) (src len : Z) : list Z :=
  firstn (Z.to_nat len) (skipn (Z.to_nat src) buf).

(** The first [k] cells of [raw], read cell by cell. *)
Definition cells (raw : list Z) (k : Z) : list Z :=
  map (fun i => rd raw (Z.of_nat i)) (seq 0 (Z.to_nat k)).

(** ** Observable actions

    The trace records, in order, the calls that leave the driver (transport
    and shell) and the driver's own named actions.  No function reads it. *)
Inductive event : Type :=
| EvWrite (pending : Z) (data : list Z) (size rv : Z)
| EvRead (size nread : Z)
| EvBitmode (bitmask mode : Z)
| EvReadPins (rc : Z)
| EvUsleep (usec : Z)
| EvSetPin (name : pinname) (val : Z)
| EvCmd (cmd res : list Z)
| EvPut (r : ft245r_request)
| EvDo (r : ft245r_request)
| EvWritePage (a : Z) (outstanding : list ft245r_request)
| EvShell (what : Z) (a : Z)
| EvOpenDev (serial : option string) (devnum : Z) (rc : Z)
| EvTransport (what : Z) (arg rc : Z).

(** ** FTDI transport interface (consumed) *)

Definition BITMODE_RESET : Z := 0.
Definition BITMODE_SYNCBB : Z := 4.

Class FtdiTransport (T : Type) : Type := {
  (** [ftdi_read_data(h, raw, size)]: return value and the contents of [raw]. *)
  ftdi_read_data : T -> Z -> (Z * list Z) * T;
  (** [ftdi_write_data(h, src, size)]. *)
  ftdi_write_data : T -> list Z -> Z -> Z * T;
  ftdi_set_bitmode : T -> Z -> Z -> Z * T;
  (** [ftdi_read_pins(h, &byte)]: return value and the byte. *)
  ftdi_read_pins : T -> (Z * Z) * T;
  (** [ftdi_usb_open_desc_index(h, vid, pid, product, serial, index)]; a
      [NULL] string is [None]. *)
  ftdi_usb_open_desc_index :
    T -> Z -> Z -> option string -> option string -> Z -> Z * T;
  ftdi_set_latency_timer : T -> Z -> Z * T;
  ftdi_set_baudrate : T -> Z -> Z * T;
  ftdi_usb_close : T -> T
}.

(** ** The world the driver runs in, and its monad *)

Record world (T : Type) : Type := mkWorld {
  drv : pdata;            (* my *)
  dev : T;                (* the device behind my.handle *)
  image : list Z;         (* m->buf of the memory being operated on *)
  trace : list event
}.
Arguments mkWorld {T}.
Arguments drv {T}.
Arguments dev {T}.
Arguments image {T}.
Arguments trace {T}.

Inductive outcome (A : Type) : Type :=
| Ret (a : A)
| Hang.
Arguments Ret {A}.
Arguments Hang {A}.

Definition M (T A : Type) : Type := world T -> outcome A * world T.

Definition ret {T A} (a : A) : M T A := fun w => (Ret a, w).

Definition bind {T A B} (c : M T A) (k : A -> M T B) : M T B :=
  fun w => match c w with
           | (Ret a, w') => k a w'
           | (Hang, w') => (Hang, w')
           end.

Definition hang {T A} : M T A := fun w => (Hang, w).

Notation "x <- c ;; k" := (bind c (fun x => k))
  (at level 61, c at next level, right associativity).
Notation "c ;;; k" := (bind c (fun _ => k))
  (at level 61, right associativity).

Definition get_drv {T} : M T pdata := fun w => (Ret (drv w), w).
Definition put_drv {T} (p : pdata) : M T unit :=
  fun w => (Ret tt, mkWorld p (dev w) (image w) (trace w)).
Definition modify_drv {T} (f : pdata -> pdata) : M T unit :=
  fun w => (Ret tt, mkWorld (f (drv w)) (dev w) (image w) (trace w)).
Definition emit {T} (e : event) : M T unit :=
  fun w => (Ret tt, mkWorld (drv w) (dev w) (image w) (trace w ++ [e])).
Definition get_image {T} : M T (list Z) := fun w => (Ret (image w), w).
Definition put_image {T} (b : list Z) : M T unit :=
  fun w => (Ret tt, mkWorld (drv w) (dev w) b (trace w)).
(** A transport call: run it on the device and keep its result. *)
Definition call {T A} (f : T -> A * T) : M T A :=
  fun w => let '(a, d) := f (dev w) in
           (Ret a, mkWorld (drv w) d (image w) (trace w)).

Notation "' pat <- c ;; k" := (bind c (fun x => match x with pat => k end))
  (at level 61, pat pattern, c at next level, right associativity).

(** ** 4.B RX ring *)

Definition ft245r_rx_buf_purge (p : pdata) : pdata :=
  set_ring p 0 0 0 (rx_buf p).

(** [byte] is a [uint8_t] parameter. *)
Definition ft245r_rx_buf_put (p : pdata) (byte : Z) : pdata :=
  let wr := rx_wr p + 1 in
  set_ring p (rx_len p + 1)
           (if FT245R_BUFSIZE <=? wr then 0 else wr)
           (rx_rd p)
           (upd (rx_buf p) (rx_wr p) (byte mod 256)).

(** The result is a [uint8_t]. *)
Definition ft245r_rx_buf_get (p : pdata) : Z * pdata :=
  let byte := rd (rx_buf p) (rx_rd p) mod 256 in
  let r := rx_rd p + 1 in
  (byte, set_ring p (rx_len p - 1) (rx_wr p)
                  (if FT245R_BUFSIZE <=? r then 0 else r) (rx_buf p)).

(** ** Part and memory descriptions (supplied by the shell)

    [OPCODE] is the shell's opcode template; [m->op[X] == NULL] is [None]. *)
Record AVRPART (OPCODE : Type) : Type := mkPart {
  is_tpi : bool;
  op_PGM_ENABLE : option OPCODE;
  op_CHIP_ERASE : option OPCODE;
  pollindex : Z;
  pollvalue : Z;
  chip_erase_delay : Z
}.
Arguments mkPart {OPCODE}.
Arguments is_tpi {OPCODE}.
Arguments op_PGM_ENABLE {OPCODE}.
Arguments op_CHIP_ERASE {OPCODE}.
Arguments pollindex {OPCODE}.
Arguments pollvalue {OPCODE}.
Arguments chip_erase_delay {OPCODE}.

(** [m->buf] lives in the world ([image]); the rest of [AVRMEM] is fixed
    during a call. *)
Record AVRMEM (OPCODE : Type) : Type := mkMem {
  mem_is_flash : bool;
  mem_is_eeprom : bool;
  paged : bool;
  page_size : Z;
  op_LOADPAGE_LO : option OPCODE;
  op_LOADPAGE_HI : option OPCODE;
  op_READ_LO : option OPCODE;
  op_READ_HI : option OPCODE;
  op_LOAD_EXT_ADDR : option OPCODE
}.
Arguments mkMem {OPCODE}.
Arguments mem_is_flash {OPCODE}.
Arguments mem_is_eeprom {OPCODE}.
Arguments paged {OPCODE}.
Arguments page_size {OPCODE}.
Arguments op_LOADPAGE_LO {OPCODE}.
Arguments op_LOADPAGE_HI {OPCODE}.
Arguments op_READ_LO {OPCODE}.
Arguments op_READ_HI {OPCODE}.
Arguments op_LOAD_EXT_ADDR {OPCODE}.

(** [(int) x] for an [unsigned int] [x]. *)
Definition to_int (x : Z) : Z :=
  let y := x mod 2 ^ 32 in if y <? 2 ^ 31 then y else y - 2 ^ 32.

(** [(unsigned int) x]. *)
Definition to_uint (x : Z) : Z := x mod 2 ^ 32.

(** ** C library functions used by [ft245r_open] *)

Local Open Scope string_scope.

(** [isspace] in the C locale. *)
Definition isspace (c : ascii) : bool :=
  let k := nat_of_ascii c in
  Nat.eqb k 32 || (Nat.leb 9 k && Nat.leb k 13).

Fixpoint skip_space (s : string) : string :=
  match s with
  | String c r => if isspace c then skip_space r else s
  | EmptyString => s
  end.

(** The characters a [%Ws] conversion stores: at most [w] non-space ones. *)
Fixpoint scan_token (w : nat) (s : string) : string :=
  match w, s with
  | S w', String c r => if isspace c then "" else String c (scan_token w' r)
  | _, _ => ""
  end.

(** Matching the literal part of a format: the rest of the input, or the
    value [sscanf] returns when the match stops (EOF = -1 at the end of the
    input, 0 on a different character). *)
Fixpoint scan_literal (lit s : string) : Z + string :=
  match lit, s with
  | EmptyString, _ => inr s
  | String _ _, EmptyString => inl (-1)%Z
  | String a lit', String c r =>
      if Ascii.eqb a c then scan_literal lit' r else inl 0%Z
  end.

(** [sscanf(port, "usb:%8s", device)] with [device] initially empty: the
    return value and [device] afterwards. *)
Definition sscanf_usb_8s (port : string) : Z * string :=
  match scan_literal "usb:" port with
  | inl r => (r, "")
  | inr rest =>
      match skip_space rest with
      | EmptyString => ((-1)%Z, "")
      | rest' => (1%Z, scan_token 8 rest')
      end
  end.

Definition digit_value (c : ascii) : option Z :=
  let k := nat_of_ascii c in
  if Nat.leb 48 k && Nat.leb k 57 then Some (Z.of_nat (k - 48)) else None.

(** The decimal digits at the head of [s]: their value and their number. *)
Fixpoint scan_digits (s : string) (acc : Z) (cnt : nat) : Z * nat :=
  match s with
  | String c r =>
      match digit_value c with
      | Some d => scan_digits r (acc * 10 + d)%Z (S cnt)
      | None => (acc, cnt)
      end
  | EmptyString => (acc, cnt)
  end.

(** [strtol(s, &endptr, 10)] on a 64-bit [long]: the value and
    [endptr - s] (0 when no conversion is done). *)
Definition strtol10 (s : string) : Z * nat :=
  let s1 := skip_space s in
  let nsp := (String.length s - String.length s1)%nat in
  let '(neg, s2, nsign) :=
    match s1 with
    | String "-" r => (true, r, 1%nat)
    | String "+" r => (false, r, 1%nat)
    | _ => (false, s1, 0%nat)
    end in
  let '(v, nd) := scan_digits s2 0%Z 0%nat in
  match nd with
  | O => (0%Z, 0%nat)
  | _ =>
      let v' := if neg then (- v)%Z else v in
      (Z.max (- 2 ^ 63) (Z.min (2 ^ 63 - 1) v'), (nsp + nsign + nd)%nat)
  end.

(** [char *startptr = device + 2] in the zero-filled [char device[9]]. *)
Definition drop2 (device : string) : string :=
  substring 2 (String.length device - 2) device.

Local Close Scope string_scope.

(** ** Programmer fields used by [ft245r_open] *)

Record PROGRAMMER : Type := mkPgm {
  port : string;
  usbsn : string;
  usbvid : Z;
  usbpid : list Z;
  usbproduct : string;
  baudrate : Z;
  (** [(int) (1.0/pgm->bitclock)] when [pgm->bitclock] is not zero. *)
  bitclock_rate : option Z
}.

(** Modelled from the spec: usbdevs.h is not part of the sources at hand;
    the spec calls these the default VID ("FTDI's") and PID ("FT245"). *)
Definition USB_VENDOR_FTDI : Z := 1027.
Definition USB_DEVICE_FT245 : Z := 24577.

(** The port parsing of [ft245r_open]: [devnum] and the new [pgm->usbsn]. *)
Definition parse_port (usbsn0 : string) (port : string) : Z * string :=
  let '(r, device) := sscanf_usb_8s port in
  if negb (r =? 1) then (0, EmptyString)
  else if Nat.eqb (String.length device) 8 then (0, device)
  else if negb (String.eqb (substring 0 2 device) "ft")
          || Nat.leb (String.length device) 8
       then
         let startptr := drop2 device in
         let '(v, used) := strtol10 startptr in
         let devnum := to_int v in
         if Nat.eqb used 0 || negb (Nat.eqb used (String.length startptr))
         then (-1, usbsn0)
         else (devnum, usbsn0)
       else (-1, usbsn0).

(** [pin_checklist]: pin and whether it is mandatory. *)
Definition pin_checklist : list (pinname * bool) :=
  [(PIN_AVR_SCK, true); (PIN_AVR_SDO, true); (PIN_AVR_SDI, true);
   (PIN_AVR_RESET, true); (PPI_AVR_BUFF, false)].

Section Driver.

Context {T : Type} `{FtdiTransport T}.

(** [pgm->pin]. *)
Variable pin : pinmap.

(** Bound on the iterations of each transport-polling loop. *)
Variable fuel : nat.

(** ** 4.C FIFO flow controller *)

Definition ft245r_fill : M T Z :=
  p <- get_drv ;;
  '(nread, raw) <- call (fun d => ftdi_read_data d (rx_pending p)) ;;
  emit (EvRead (rx_pending p) nread) ;;;
  if nread <? 0 then ret (-1)
  else
    modify_drv (fun p =>
      fold_left ft245r_rx_buf_put (cells raw nread)
                (set_pending p (rx_pending p - nread))) ;;;
    ret nread.

Fixpoint ft245r_rx_buf_fill_and_get_loop (k : nat) : M T Z :=
  p <- get_drv ;;
  if rx_len p =? 0 then
    match k with
    | O => hang
    | S k' =>
        result <- ft245r_fill ;;
        if result <? 0 then ret result
        else ft245r_rx_buf_fill_and_get_loop k'
    end
  else
    let '(byte, p') := ft245r_rx_buf_get p in
    put_drv p' ;;; ret byte.

Definition ft245r_rx_buf_fill_and_get : M T Z :=
  ft245r_rx_buf_fill_and_get_loop fuel.

(** The [while(len > 0)] loop of [ft245r_flush]; [src] is the offset into
    [my.tx.buf]. *)
Fixpoint ft245r_flush_loop (k : nat) (src len : Z) : M T Z :=
  if 0 <? len then
    match k with
    | O => hang
    | S k' =>
        p <- get_drv ;;
        let avail0 := FT245R_MIN_FIFO_SIZE - rx_pending p in
        avail1 <- (if avail0 <=? 0 then ft245r_fill else ret avail0) ;;
        if (avail0 <=? 0) && (avail1 <? 0) then ret (-1)
        else
          let avail := if len <? avail1 then len else avail1 in
          p1 <- get_drv ;;
          let data := slice (tx_buf p1) src avail in
          rv <- call (fun d => ftdi_write_data d data avail) ;;
          emit (EvWrite (rx_pending p1) data avail rv) ;;;
          if negb (rv =? avail) then ret (-1)
          else
            modify_drv (fun p => set_pending p (rx_pending p + avail)) ;;;
            ft245r_flush_loop k' (src + avail) (len - avail)
    end
  else ret 0.

Definition ft245r_flush : M T Z :=
  p <- get_drv ;;
  if tx_len p =? 0 then ret 0
  else ft245r_flush_loop fuel 0 (tx_len p).

(** [my.tx.len = 0] *)
Definition tx_reset : M T unit := modify_drv (fun p => set_tx p 0 (tx_buf p)).

(** [ft245r_send2]; [baud_multiplier] is the constant 1, so the inner loop
    runs once per byte.  [buf] holds the [len] bytes to send. *)
Fixpoint ft245r_send2 (buf : list Z) (discard_rx_data : bool) : M T Z :=
  match buf with
  | [] => ret 0
  | b :: rest =>
      modify_drv (fun p =>
        let p1 := if discard_rx_data
                  then set_discard p (rx_discard p + 1) else p in
        set_tx p1 (tx_len p1 + 1) (upd (tx_buf p1) (tx_len p1) (b mod 256))) ;;;
      p <- get_drv ;;
      (if FT245R_MIN_FIFO_SIZE <=? tx_len p
       then ft245r_flush ;;; tx_reset
       else ret tt) ;;;
      ft245r_send2 rest discard_rx_data
  end.

Definition ft245r_send (buf : list Z) : M T Z := ft245r_send2 buf false.

Definition ft245r_send_and_discard (buf : list Z) : M T Z :=
  ft245r_send2 buf true.

(** The [while(my.rx.discard > 0)] loop of [ft245r_recv]; it runs
    [my.rx.discard] times, since only its last statement changes that
    counter.  A negative result is the early return. *)
Fixpoint recv_discard (k : nat) : M T Z :=
  match k with
  | O => ret 0
  | S k' =>
      result <- ft245r_rx_buf_fill_and_get ;;
      if result <? 0 then ret result
      else
        modify_drv (fun p => set_discard p (rx_discard p - 1)) ;;;
        recv_discard k'
  end.

(** The [for] loop of [ft245r_recv]: [k] bytes still to store, [got] the
    bytes stored so far (cells [0 .. i-1] of the caller's buffer). *)
Fixpoint recv_store (k : nat) (got : list Z) : M T (Z * list Z) :=
  match k with
  | O => ret (0, got)
  | S k' =>
      result <- ft245r_rx_buf_fill_and_get ;;
      if result <? 0 then ret (result, got)
      else recv_store k' (got ++ [result mod 256])
  end.

(** [ft245r_recv(pgm, buf, len)]: the return value and the caller's buffer
    afterwards (cells not stored keep their old content). *)
Definition ft245r_recv (buf : list Z) (len : Z) : M T (Z * list Z) :=
  ft245r_flush ;;;
  tx_reset ;;;
  ft245r_fill ;;;
  p <- get_drv ;;
  result <- recv_discard (Z.to_nat (rx_discard p)) ;;
  if result <? 0 then ret (result, buf)
  else
    '(rc, got) <- recv_store (Z.to_nat len) [] ;;
    ret (rc, got ++ skipn (length got) buf).

Definition ft245r_drain (display : Z) : M T Z :=
  r <- call (fun d => ftdi_set_bitmode d 0 BITMODE_RESET) ;;
  emit (EvBitmode 0 BITMODE_RESET) ;;;
  if negb (r =? 0) then ret (-1)
  else
    p <- get_drv ;;
    r <- call (fun d => ftdi_set_bitmode d (ft245r_ddr p) BITMODE_SYNCBB) ;;
    emit (EvBitmode (ft245r_ddr p) BITMODE_SYNCBB) ;;;
    if negb (r =? 0) then ret (-1)
    else modify_drv ft245r_rx_buf_purge ;;; ret 0.

Definition ft245r_usleep (usec : Z) : M T unit :=
  ft245r_flush ;;;
  tx_reset ;;;
  emit (EvUsleep usec).

(** ** Pin access *)

Definition get_pin (pinname : pinname) : M T Z :=
  ft245r_flush ;;;
  tx_reset ;;;
  '(rc, byte) <- call ftdi_read_pins ;;
  emit (EvReadPins rc) ;;;
  if negb (rc =? 0) then ret (-1)
  else ret (if truthy (GET_BITS_0 (byte mod 256) pin pinname) then 1 else 0).

Definition set_pin (pinname : pinname) (val : Z) : M T Z :=
  if mask0 (pin pinname) =? 0 then ret 0
  else
    emit (EvSetPin pinname val) ;;;
    modify_drv (fun p =>
      set_out p (SET_BITS_0 (ft245r_out p) pin pinname (truthy val))) ;;;
    p <- get_drv ;;
    ft245r_send_and_discard [ft245r_out p] ;;;
    ret 0.

Definition set_sck (value : Z) : M T Z := set_pin PIN_AVR_SCK value.
Definition set_reset (value : Z) : M T Z := set_pin PIN_AVR_RESET value.
Definition set_buff (value : Z) : M T Z := set_pin PPI_AVR_BUFF value.
Definition set_vcc (value : Z) : M T Z := set_pin PPI_AVR_VCC value.
Definition ft245_rdy_led (value : Z) : M T Z := set_pin PIN_LED_RDY value.
Definition ft245_err_led (value : Z) : M T Z := set_pin PIN_LED_ERR value.
Definition ft245_pgm_led (value : Z) : M T Z := set_pin PIN_LED_PGM value.
Definition ft245_vfy_led (value : Z) : M T Z := set_pin PIN_LED_VFY value.

(** ** 4.D SPI codec and [cmd] *)

(** [set_data] applied to [my.ft245r_out]. *)
Definition set_data_out (data : Z) : M T (list Z) :=
  p <- get_drv ;;
  let '(out', bs) := set_data pin (ft245r_out p) data in
  put_drv (set_out p out') ;;;
  ret bs.

(** [for (...) buf_pos += set_data(pgm, buf + buf_pos, x)] over the bytes
    [xs]. *)
Fixpoint set_data_seq (xs : list Z) : M T (list Z) :=
  match xs with
  | [] => ret []
  | x :: rest =>
      bs <- set_data_out x ;;
      bs' <- set_data_seq rest ;;
      ret (bs ++ bs')
  end.

(** The encoding part of [ft245r_cmd]: the four command bytes through
    [set_data], then [buf[buf_pos] = 0]. *)
Definition cmd_encode (cmd : list Z) : M T (list Z) :=
  enc <- set_data_seq [rd cmd 0; rd cmd 1; rd cmd 2; rd cmd 3] ;;
  ret (enc ++ [0]).

(** [ft245r_cmd]: return value and [res[0..3]]. *)
Definition ft245r_cmd (cmd : list Z) : M T (Z * list Z) :=
  buf <- cmd_encode cmd ;;
  let buf_pos := Z.of_nat (length buf) in
  ft245r_send buf ;;;
  '(_, buf') <- ft245r_recv buf buf_pos ;;
  let res := [extract_data pin buf' 0; extract_data pin buf' 1;
              extract_data pin buf' 2; extract_data pin buf' 3] in
  emit (EvCmd cmd res) ;;;
  ret (0, res).

(** ** 4.E TPI transmit and receive *)

Definition ft245r_tpi_tx (byte : Z) : M T Z :=
  p <- get_drv ;;
  let '(out', buf) := set_tpi_data pin (ft245r_out p) byte in
  put_drv (set_out p out') ;;;
  ft245r_send_and_discard buf ;;;
  ret 0.

(** The 16 sampled SDI bits: the two [extract_tpi_data] calls, the left
    operand of [|] first. *)
Definition tpi_sample (buf : list Z) : Z :=
  let '(lo, pos) := extract_tpi_data pin buf 0 in
  let '(hi, _) := extract_tpi_data pin buf pos in
  Z.lor lo (Z.shiftl hi 8).

(** [m = 0x1; while(m & res) m <<= 1;] on a [uint32_t]: after 32 shifts [m]
    is 0 and the loop has stopped, so 33 rounds cover every run. *)
Fixpoint find_start (k : nat) (res m : Z) : Z :=
  match k with
  | O => m
  | S k' =>
      if truthy (Z.land m res)
      then find_start k' res ((Z.shiftl m 1) mod 2 ^ 32)
      else m
  end.

(** The data loop of [ft245r_tpi_rx]: returns [m], [byte] and [parity]. *)
Fixpoint tpi_data_bits (k : nat) (i : Z) (res m byte : Z) (parity : bool)
  : Z * Z * bool :=
  match k with
  | O => (m, byte, parity)
  | S k' =>
      let m' := (Z.shiftl m 1) mod 2 ^ 32 in
      let bit := truthy (Z.land res m') in
      tpi_data_bits k' (i + 1) res m'
                    (Z.lor byte (Z.shiftl (if bit then 1 else 0) i))
                    (xorb parity bit)
  end.

(** The part of [ft245r_tpi_rx] after the exchange: return value and the
    content of [*bytep], whose previous content is [bytep]. *)
Definition tpi_rx_decode (res : Z) (bytep : Z) : Z * Z :=
  let m := find_start 33 res 1 in
  if 16 <=? m then (-1, bytep)
  else
    let '(m1, byte, parity) := tpi_data_bits 8 0 res m 0 false in
    let m2 := (Z.shiftl m1 1) mod 2 ^ 32 in
    if negb (Bool.eqb (truthy (Z.land res m2)) parity) then (-1, bytep)
    else if (Z.land res ((Z.shiftl m2 1) mod 2 ^ 32) =? 0)
            || (Z.land res ((Z.shiftl m2 2) mod 2 ^ 32) =? 0)
         then (-1, bytep)
         else (0, byte mod 256).

(** The exchange of [ft245r_tpi_rx]: SDO is kept high for 16 bit times and
    the echo is received into the same buffer. *)
Definition tpi_rx_exchange : M T (list Z) :=
  buf <- set_data_seq [255; 255] ;;
  let len := Z.of_nat (length buf) in
  ft245r_send buf ;;;
  '(_, buf') <- ft245r_recv buf len ;;
  ret buf'.

Definition ft245r_tpi_rx (bytep : Z) : M T (Z * Z) :=
  buf <- tpi_rx_exchange ;;
  ret (tpi_rx_decode (tpi_sample buf) bytep).

(** The receive loop of [ft245r_cmd_tpi]: [res_in] are the cells of [res]
    still to fill, [done] those already visited, [r] the current [ret]. *)
Fixpoint cmd_tpi_rx (res_in done : list Z) (r : Z) : M T (Z * list Z) :=
  match res_in with
  | [] => ret (r, done)
  | old :: rest =>
      '(r', b) <- ft245r_tpi_rx old ;;
      if r' <? 0 then ret (r', done ++ b :: rest)
      else cmd_tpi_rx rest (done ++ [b]) r'
  end.

Fixpoint cmd_tpi_tx (cmd : list Z) : M T unit :=
  match cmd with
  | [] => ret tt
  | c :: rest => ft245r_tpi_tx c ;;; cmd_tpi_tx rest
  end.

Definition ft245r_cmd_tpi (cmd res : list Z) : M T (Z * list Z) :=
  cmd_tpi_tx cmd ;;;
  cmd_tpi_rx res [] 0.

(** ** Shell operations (consumed) *)

Context {OPCODE : Type}.
Variable avr_set_bits : OPCODE -> list Z -> list Z.
Variable avr_set_addr : OPCODE -> list Z -> Z -> list Z.
Variable avr_set_input : OPCODE -> list Z -> Z -> list Z.
Variable avr_write_page : AVRMEM OPCODE -> Z -> M T Z.
Variable avr_write_byte_default : AVRMEM OPCODE -> Z -> Z -> M T Z.
(** Return value and [*value]. *)
Variable avr_read_byte_default : AVRMEM OPCODE -> Z -> M T (Z * Z).
Variable avr_tpi_program_enable : AVRPART OPCODE -> Z -> M T Z.

(** ** 4.H Program enable *)

(** The [for(i = 0; i < 4; i++)] loop of [ft245r_program_enable], [k]
    iterations left. *)
Fixpoint program_enable_loop (k : nat) (i : Z) (p : AVRPART OPCODE)
         (cmd : list Z) : M T Z :=
  match k with
  | O => ret (-1)
  | S k' =>
      '(_, res) <- ft245r_cmd cmd ;;
      if rd res (pollindex p - 1) =? pollvalue p then ret 0
      else
        set_pin PIN_AVR_RESET ON ;;;
        ft245r_usleep 20 ;;;
        set_pin PIN_AVR_RESET OFF ;;;
        (if i =? 3
         then ft245r_drain 0 ;;; modify_drv ft245r_rx_buf_purge
         else ret tt) ;;;
        program_enable_loop k' (i + 1) p cmd
  end.

Definition ft245r_program_enable (p : AVRPART OPCODE) : M T Z :=
  if is_tpi p then avr_tpi_program_enable p TPIPCR_GT_0b
  else
    match op_PGM_ENABLE p with
    | None => ret (-1)
    | Some op => program_enable_loop 4 0 p (avr_set_bits op [0; 0; 0; 0])
    end.

(** ** 4.F Request queue *)

Definition put_request (addr bytes n : Z) : M T unit :=
  p <- get_drv ;;
  let node := mkReq addr bytes n in
  put_drv (set_reqs p (req_queue p ++ [node]) (tl (req_pool p))) ;;;
  emit (EvPut node).

(** [m->buf[addr++] = extract_data(pgm, buf, j*4 + 3)] for [j < n]. *)
Fixpoint store_data (k : nat) (j addr : Z) (buf image : list Z) : list Z :=
  match k with
  | O => image
  | S k' =>
      store_data k' (j + 1) (addr + 1) buf
                 (upd image addr (extract_data pin buf (j * 4 + 3)))
  end.

Definition do_request (m : AVRMEM OPCODE) : M T Z :=
  p <- get_drv ;;
  match req_queue p with
  | [] => ret 0
  | r :: rest =>
      put_drv (set_reqs p rest (mkReq 0 0 0 :: req_pool p)) ;;;
      emit (EvDo r) ;;;
      '(_, buf) <- ft245r_recv [] (bytes r) ;;
      img <- get_image ;;
      put_image (store_data (Z.to_nat (n r)) 0 (addr r) buf img) ;;;
      ret 1
  end.

(** [while(do_request(pgm, m)) continue;] with [k] calls at most. *)
Fixpoint do_request_loop (k : nat) (m : AVRMEM OPCODE) : M T unit :=
  match k with
  | O => ret tt
  | S k' =>
      r <- do_request m ;;
      if r =? 0 then ret tt else do_request_loop k' m
  end.

(** Each call that returns 1 removes one node and none is added meanwhile,
    so one call more than the queue is long ends the loop. *)
Definition do_all_requests (m : AVRMEM OPCODE) : M T unit :=
  p <- get_drv ;;
  do_request_loop (S (length (req_queue p))) m.

(** ** 4.G Paged flash and EEPROM *)

Fixpoint paged_write_gen_loop (k : nat) (m : AVRMEM OPCODE) (addr n_bytes : Z)
  : M T Z :=
  match k with
  | O => ret (to_int n_bytes)
  | S k' =>
      img <- get_image ;;
      rc <- avr_write_byte_default m addr (rd img addr) ;;
      if negb (rc =? 0) then ret (-2)
      else paged_write_gen_loop k' m (to_uint (addr + 1)) n_bytes
  end.

Definition ft245r_paged_write_gen (m : AVRMEM OPCODE)
           (page_size addr n_bytes : Z) : M T Z :=
  paged_write_gen_loop (Z.to_nat (to_int n_bytes)) m addr n_bytes.

(** The four command bytes [cmd[0..3]] encoded by [set_data] one after the
    other. *)
Definition encode_cmd (cmd : list Z) : M T (list Z) :=
  set_data_seq [rd cmd 0; rd cmd 1; rd cmd 2; rd cmd 3].

(** The terminator of a fragment: SCK pulled low at the end of the window,
    otherwise the last byte repeated. *)
Definition close_fragment (last : bool) (buf : list Z) : M T (list Z) :=
  if last then
    modify_drv (fun p =>
      set_out p (SET_BITS_0 (ft245r_out p) pin PIN_AVR_SCK false)) ;;;
    p <- get_drv ;;
    ret (buf ++ [ft245r_out p])
  else ret (buf ++ [rd buf (Z.of_nat (length buf) - 1)]).

(** The [while(i < (int) n_bytes)] loop of [ft245r_paged_write_flash] with
    [k] iterations left.  [do_page_write] is 0 at the head of every
    iteration (it is cleared in the branch that tests it), so it is a value
    local to the iteration.  [buf_pos] is the length of [buf]. *)
Fixpoint paged_write_flash_loop (k : nat) (m : AVRMEM OPCODE) (lo hi : OPCODE)
         (n_bytes i j addr addr_save : Z) (buf : list Z) (req_count : Z)
  : M T Z :=
  match k with
  | O => do_all_requests m ;;; ret (to_int n_bytes)
  | S k' =>
      let spi := if Z.odd addr then hi else lo in
      img <- get_image ;;
      let cmd := avr_set_input spi
                   (avr_set_addr spi (avr_set_bits spi [0; 0; 0; 0]) (addr / 2))
                   (rd img addr) in
      enc <- encode_cmd cmd ;;
      let buf := buf ++ enc in
      let i := i + 1 in
      let j := j + 1 in
      let addr := to_uint (addr + 1) in
      let finished := to_int n_bytes <=? i in
      let do_page_write :=
        paged m && ((Z.rem i (page_size m) =? 0) || finished) in
      if do_page_write || finished
         || (FT245R_FRAGMENT_SIZE / FT245R_CMD_SIZE <=? j)
      then
        buf <- close_fragment finished buf ;;
        ft245r_send buf ;;;
        put_request addr_save (Z.of_nat (length buf)) 0 ;;;
        let req_count := req_count + 1 in
        (if REQ_OUTSTANDINGS <? req_count then do_request m else ret 0) ;;;
        if do_page_write then
          do_all_requests m ;;;
          p <- get_drv ;;
          let a := addr_save - Z.rem addr_save (page_size m) in
          emit (EvWritePage a (req_queue p)) ;;;
          rc <- avr_write_page m a ;;
          if negb (rc =? 0) then ret (-2)
          else paged_write_flash_loop k' m lo hi n_bytes i 0 addr
                                      (to_int addr) [] 0
        else paged_write_flash_loop k' m lo hi n_bytes i 0 addr
                                    (to_int addr) [] req_count
      else paged_write_flash_loop k' m lo hi n_bytes i j addr addr_save
                                  buf req_count
  end.

Definition ft245r_paged_write_flash (m : AVRMEM OPCODE)
           (page_size addr n_bytes : Z) : M T Z :=
  match op_LOADPAGE_LO m, op_LOADPAGE_HI m with
  | Some lo, Some hi =>
      paged_write_flash_loop (Z.to_nat (to_int n_bytes)) m lo hi n_bytes
                             0 0 addr (to_int addr) [] 0
  | _, _ => ret (-1)
  end.

Definition ft245r_paged_write (m : AVRMEM OPCODE)
           (page_size addr n_bytes : Z) : M T Z :=
  if n_bytes =? 0 then ret 0
  else if mem_is_flash m then ft245r_paged_write_flash m page_size addr n_bytes
  else if mem_is_eeprom m then ft245r_paged_write_gen m page_size addr n_bytes
  else ret (-2).

Fixpoint paged_load_gen_loop (k : nat) (m : AVRMEM OPCODE) (addr i : Z)
  : M T Z :=
  match k with
  | O => ret 0
  | S k' =>
      '(rc, rbyte) <- avr_read_byte_default m (to_uint (addr + i)) ;;
      if negb (rc =? 0) then ret (-2)
      else
        img <- get_image ;;
        put_image (upd img (to_uint (addr + i)) (rbyte mod 256)) ;;;
        paged_load_gen_loop k' m addr (i + 1)
  end.

Definition ft245r_paged_load_gen (m : AVRMEM OPCODE)
           (page_size addr n_bytes : Z) : M T Z :=
  paged_load_gen_loop (Z.to_nat (to_int n_bytes)) m addr 0.

(** The [while(i < (int) n_bytes)] loop of [ft245r_paged_load_flash]. *)
Fixpoint paged_load_flash_loop (k : nat) (m : AVRMEM OPCODE) (lo hi : OPCODE)
         (n_bytes i j addr addr_save : Z) (buf : list Z) (req_count : Z)
  : M T Z :=
  match k with
  | O => do_all_requests m ;;; ret 0
  | S k' =>
      let spi := if Z.odd addr then hi else lo in
      let cmd := avr_set_addr spi (avr_set_bits spi [0; 0; 0; 0]) (addr / 2) in
      enc <- encode_cmd cmd ;;
      let buf := buf ++ enc in
      let i := i + 1 in
      let j := j + 1 in
      let addr := to_uint (addr + 1) in
      let finished := to_int n_bytes <=? i in
      if finished || (FT245R_FRAGMENT_SIZE / FT245R_CMD_SIZE <=? j)
      then
        buf <- close_fragment finished buf ;;
        ft245r_send buf ;;;
        put_request addr_save (Z.of_nat (length buf)) j ;;;
        let req_count := req_count + 1 in
        (if REQ_OUTSTANDINGS <? req_count then do_request m else ret 0) ;;;
        paged_load_flash_loop k' m lo hi n_bytes i 0 addr (to_int addr) []
                              req_count
      else paged_load_flash_loop k' m lo hi n_bytes i j addr addr_save buf
                                 req_count
  end.

Definition ft245r_paged_load_flash (m : AVRMEM OPCODE)
           (page_size addr n_bytes : Z) : M T Z :=
  match op_READ_LO m, op_READ_HI m with
  | Some lo, Some hi =>
      (match op_LOAD_EXT_ADDR m with
       | Some ext =>
           enc <- encode_cmd
                    (avr_set_addr ext (avr_set_bits ext [0; 0; 0; 0]) (addr / 2)) ;;
           ft245r_send_and_discard enc ;;; ret tt
       | None => ret tt
       end) ;;;
      paged_load_flash_loop (Z.to_nat (to_int n_bytes)) m lo hi n_bytes
                            0 0 addr (to_int addr) [] 0
  | _, _ => ret (-1)
  end.

Definition ft245r_paged_load (m : AVRMEM OPCODE)
           (page_size addr n_bytes : Z) : M T Z :=
  if n_bytes =? 0 then ret 0
  else if mem_is_flash m then ft245r_paged_load_flash m page_size addr n_bytes
  else if mem_is_eeprom m then ft245r_paged_load_gen m page_size addr n_bytes
  else ret (-2).

(** ** 4.H Open *)

Variable pins_check : pinmap -> list (pinname * bool) -> Z.

Definition ft245r_set_bitclock (pgm : PROGRAMMER) : M T Z :=
  let rate := match bitclock_rate pgm with
              | Some r => r
              | None => if baudrate pgm =? 0 then 150000 else baudrate pgm
              end in
  r <- call (fun d => ftdi_set_baudrate d rate) ;;
  emit (EvTransport 2 rate r) ;;;
  if negb (r =? 0) then ret (-1) else ret 0.

Definition opt_string (s : string) : option string :=
  match s with EmptyString => None | _ => Some s end.

Definition initial_out : Z :=
  let o := SET_BITS_0 0 pin PIN_AVR_RESET true in
  let o := SET_BITS_0 o pin PIN_AVR_SCK false in
  let o := SET_BITS_0 o pin PIN_AVR_SDO false in
  let o := SET_BITS_0 o pin PPI_AVR_BUFF false in
  let o := SET_BITS_0 o pin PPI_AVR_VCC false in
  let o := SET_BITS_0 o pin PIN_LED_ERR false in
  let o := SET_BITS_0 o pin PIN_LED_RDY false in
  let o := SET_BITS_0 o pin PIN_LED_PGM false in
  SET_BITS_0 o pin PIN_LED_VFY false.

Definition output_ddr : Z :=
  (fold_left Z.lor
     (map (fun name => mask0 (pin name))
          [PIN_AVR_SCK; PIN_AVR_SDO; PIN_AVR_RESET; PPI_AVR_BUFF; PPI_AVR_VCC;
           PIN_LED_ERR; PIN_LED_RDY; PIN_LED_PGM; PIN_LED_VFY]) 0) mod 256.

(** The [cleanup:] label: close the device, then fail. *)
Definition open_cleanup (pgm : PROGRAMMER) : M T (Z * PROGRAMMER) :=
  call (fun d => (tt, ftdi_usb_close d)) ;;;
  ret (-1, pgm).

(** [ft245r_open]: the return value and [pgm] afterwards. *)
Definition ft245r_open (pgm : PROGRAMMER) (portname : string)
  : M T (Z * PROGRAMMER) :=
  let rv := pins_check pin pin_checklist in
  if negb (rv =? 0) then ret (rv, pgm)
  else
    let '(devnum, sn) := parse_port (usbsn pgm) portname in
    let pgm := mkPgm portname sn (usbvid pgm) (usbpid pgm) (usbproduct pgm)
                     (baudrate pgm) (bitclock_rate pgm) in
    if devnum <? 0 then ret (-1, pgm)
    else
      let pid := match usbpid pgm with
                 | [] => USB_DEVICE_FT245
                 | x :: _ => x
                 end in
      let vid := if usbvid pgm =? 0 then USB_VENDOR_FTDI else usbvid pgm in
      rv <- call (fun d => ftdi_usb_open_desc_index d vid pid
                             (opt_string (usbproduct pgm))
                             (opt_string (usbsn pgm)) devnum) ;;
      emit (EvOpenDev (opt_string (usbsn pgm)) devnum rv) ;;;
      if negb (rv =? 0) then ret (-1, pgm)
      else
        modify_drv (fun p => set_out (set_ddr p output_ddr) initial_out) ;;;
        rv <- call (fun d => ftdi_set_latency_timer d 1) ;;
        emit (EvTransport 1 1 rv) ;;;
        if negb (rv =? 0) then open_cleanup pgm
        else
          rv <- call (fun d => ftdi_set_bitmode d output_ddr BITMODE_SYNCBB) ;;
          emit (EvBitmode output_ddr BITMODE_SYNCBB) ;;;
          if negb (rv =? 0) then open_cleanup pgm
          else
            rv <- ft245r_set_bitclock pgm ;;
            if negb (rv =? 0) then open_cleanup pgm
            else
              ft245r_drain 0 ;;;
              p <- get_drv ;;
              ft245r_send_and_discard [ft245r_out p] ;;;
              ret (0, pgm).

End Driver.
(** ** Reference transports

    A device in synchronous bit-bang mode: every byte written drives the
    pins, and the level sampled just before it is driven is queued for
    reading.  [respond] maps the driven byte to the sampled one (the target
    seen through the pins). *)
Record bitbang : Type := mkBitbang {
  bb_pins : Z;            (* byte currently driven *)
  bb_fifo : list Z        (* sampled bytes not yet read *)
}.

Fixpoint bb_clock (respond : Z -> Z) (pins : Z) (data : list Z)
  : Z * list Z :=
  match data with
  | [] => (pins, [])
  | b :: rest =>
      let '(pins', echo) := bb_clock respond b rest in
      (pins', respond pins :: echo)
  end.

Definition bitbang_transport (respond : Z -> Z) : FtdiTransport bitbang := {|
  ftdi_read_data d size :=
    let k := Z.to_nat size in
    ((Z.of_nat (length (firstn k (bb_fifo d))), firstn k (bb_fifo d)),
     mkBitbang (bb_pins d) (skipn k (bb_fifo d)));
  ftdi_write_data d data size :=
    let '(pins', echo) := bb_clock respond (bb_pins d) data in
    (Z.of_nat (length data), mkBitbang pins' (bb_fifo d ++ echo));
  ftdi_set_bitmode d bitmask mode :=
    (0, if mode =? BITMODE_RESET then mkBitbang (bb_pins d) [] else d);
  ftdi_read_pins d := ((0, respond (bb_pins d)), d);
  ftdi_usb_open_desc_index d vid pid product serial index := (0, d);
  ftdi_set_latency_timer d ms := (0, d);
  ftdi_set_baudrate d rate := (0, d);
  ftdi_usb_close d := d
|}.

(** SDO strapped to SDI: the sampled byte carries the SDO level on SDI. *)
Definition loopback (pin : pinmap) (x : Z) : Z :=
  SET_BITS_0 x pin PIN_AVR_SDI (truthy (GET_BITS_0 x pin PIN_AVR_SDO)).

(** A target that never answers: SDI stays low. *)
Definition silent (pin : pinmap) (x : Z) : Z :=
  SET_BITS_0 x pin PIN_AVR_SDI false.

(** A transport whose every call reports an error. *)
Definition failing_transport : FtdiTransport unit := {|
  ftdi_read_data d size := ((-1, []), d);
  ftdi_write_data d data size := (-1, d);
  ftdi_set_bitmode d bitmask mode := (-1, d);
  ftdi_read_pins d := ((-1, 0), d);
  ftdi_usb_open_desc_index d vid pid product serial index := (-1, d);
  ftdi_set_latency_timer d ms := (-1, d);
  ftdi_set_baudrate d rate := (-1, d);
  ftdi_usb_close d := d
|}.

(** The default pin assignment of the file header: sck = D0, sdi = D1,
    sdo = D2, reset = D4; the other pins are not wired. *)
Definition default_pins : pinmap :=
  fun name =>
    match name with
    | PIN_AVR_SCK => mkPindef 1 0
    | PIN_AVR_SDI => mkPindef 2 0
    | PIN_AVR_SDO => mkPindef 4 0
    | PIN_AVR_RESET => mkPindef 16 0
    | _ => mkPindef 0 0
    end.

(** The session right after [setup]: zeroed private data. *)
Definition pdata0 : pdata :=
  mkPdata 0 0 0 (repeat 0 (Z.to_nat FT245R_MIN_FIFO_SIZE)) 0 0 0 0 0
          (repeat 0 (Z.to_nat FT245R_BUFSIZE)) [] [].

Definition world0 {T} (d : T) (img : list Z) : world T :=
  mkWorld pdata0 d img [].

(** The same device behind a transport that completes every transfer in
    full: a read that finds the queue short is padded with the level
    sampled at that moment. *)
Definition eager_transport (respond : Z -> Z) : FtdiTransport bitbang := {|
  ftdi_read_data d size :=
    let k := Z.to_nat size in
    ((size, firstn k (bb_fifo d ++ repeat (respond (bb_pins d)) k)),
     mkBitbang (bb_pins d) (skipn k (bb_fifo d)));
  ftdi_write_data d data size :=
    let '(pins', echo) := bb_clock respond (bb_pins d) data in
    (size, mkBitbang pins' (bb_fifo d ++ echo));
  ftdi_set_bitmode d bitmask mode :=
    (0, if mode =? BITMODE_RESET then mkBitbang (bb_pins d) [] else d);
  ftdi_read_pins d := ((0, respond (bb_pins d)), d);
  ftdi_usb_open_desc_index d vid pid product serial index := (0, d);
  ftdi_set_latency_timer d ms := (0, d);
  ftdi_set_baudrate d rate := (0, d);
  ftdi_usb_close d := d
|}.

(** A stand-in for the shell's opcode helpers in concrete runs: an opcode
    is its four command bytes, the address goes to bytes 1 and 2, the data
    to byte 3. *)
Definition ref_set_bits (op : list Z) (cmd : list Z) : list Z := op.

Definition ref_set_addr (op : list Z) (cmd : list Z) (a : Z) : list Z :=
  [rd cmd 0; (a / 256) mod 256; a mod 256; rd cmd 3].

Definition ref_set_input (op : list Z) (cmd : list Z) (v : Z) : list Z :=
  [rd cmd 0; rd cmd 1; rd cmd 2; v mod 256].

(** Byte access that always succeeds and a pin check that accepts. *)
Definition ref_write_byte {T} (m : AVRMEM (list Z)) (a v : Z) : M T Z := ret 0.

Definition ref_read_byte {T} (m : AVRMEM (list Z)) (a : Z) : M T (Z * Z) :=
  ret (0, 255).

Definition ref_tpi_program_enable {T} (p : AVRPART (list Z)) (guard : Z)
  : M T Z := ret 0.

Definition ref_pins_check (pin : pinmap) (checklist : list (pinname * bool))
  : Z := 0.

(** An ISP part that acknowledges program enable with 0x53 in the third
    response byte, and a paged flash memory with 128-byte pages. *)
Definition ref_part : AVRPART (list Z) :=
  mkPart false (Some [172; 83; 0; 0]) (Some [172; 128; 0; 0]) 3 83 9000.

Definition ref_flash : AVRMEM (list Z) :=
  mkMem true false true 128 (Some [64; 0; 0; 0]) (Some [72; 0; 0; 0])
        (Some [32; 0; 0; 0]) (Some [40; 0; 0; 0]) None.


(** The devices of the concrete runs: SDO strapped to SDI, and a target
    that stays silent; both start with all pins low and nothing queued. *)
Definition echo_device : FtdiTransport bitbang :=
  eager_transport (loopback default_pins).

Definition mute_device : FtdiTransport bitbang :=
  eager_transport (silent default_pins).

Definition idle : bitbang := mkBitbang 0 [].

(** A page commit as the shell issues it: the write-page command through
    [ft245r_cmd]. *)
Definition ref_commit {T} `{FtdiTransport T} (pin : pinmap) (fuel : nat)
           (m : AVRMEM (list Z)) (a : Z) : M T Z :=
  ft245r_cmd pin fuel [76; (a / 512) mod 256; (a / 2) mod 256; 0] ;;;
  ret 0.

(** ** Power, buffer and initialisation *)

Section Session.

Context {T : Type} `{FtdiTransport T}.

(** [pgm->pin]. *)
Variable pin : pinmap.

(** Bound on the iterations of each transport-polling loop. *)
Variable fuel : nat.

(** [ft245r_powerup]: apply power, then wait. *)
Definition ft245r_powerup : M T unit :=
  set_vcc pin fuel ON ;;;
  ft245r_usleep fuel 100.

Definition ft245r_powerdown : M T unit :=
  set_vcc pin fuel OFF ;;; ret tt.

Definition ft245r_disable : M T unit :=
  set_buff pin fuel OFF ;;; ret tt.

(** [ft245r_enable]: reset low first, a pause, then the buffer. *)
Definition ft245r_enable : M T unit :=
  set_reset pin fuel OFF ;;;
  ft245r_usleep fuel 1 ;;;
  set_buff pin fuel ON ;;;
  ret tt.

Context {OPCODE : Type}.
Variable avr_set_bits : OPCODE -> list Z -> list Z.
Variable avr_tpi_program_enable : AVRPART OPCODE -> Z -> M T Z.
Variable avr_tpi_chip_erase : AVRPART OPCODE -> M T Z.

(** The shell's global [ovsigck] ("override signature check"). *)
Variable ovsigck : bool.

(** The TPI instruction and register codes of tpi.h, which is not part of
    the sources at hand; they are left open. *)
Variable TPI_CMD_SSTCS TPI_CMD_SLDCS TPI_REG_TPIPCR TPI_REG_TPIIR : Z.

(** What the local [uint8_t byte] of [ft245r_initialize] holds before
    [ft245r_tpi_rx] is called: the source does not initialise it. *)
Variable byte0 : Z.

(** [for(i = 0; i < 16; i++) { set_sck(pgm, 1); set_sck(pgm, 0); }], [k]
    rounds left. *)
Fixpoint sck_pulses (k : nat) : M T unit :=
  match k with
  | O => ret tt
  | S k' =>
      set_sck pin fuel 1 ;;;
      set_sck pin fuel 0 ;;;
      sck_pulses k'
  end.

(** The [if(is_tpi(p))] block of [ft245r_initialize]: [Some rc] is an early
    return, [None] falls through to program enable. *)
Definition initialize_tpi : M T (option Z) :=
  set_pin pin fuel PIN_AVR_SDO 0 ;;;
  r <- get_pin pin fuel PIN_AVR_SDI ;;
  if negb (r =? 0) && negb ovsigck then ret (Some (-1))
  else
    set_pin pin fuel PIN_AVR_SDO 1 ;;;
    r <- get_pin pin fuel PIN_AVR_SDI ;;
    if negb (r =? 1) && negb ovsigck then ret (Some (-1))
    else
      set_pin pin fuel PIN_AVR_SDO 1 ;;;
      sck_pulses 16 ;;;
      ft245r_tpi_tx pin fuel ((Z.lor TPI_CMD_SSTCS TPI_REG_TPIPCR) mod 256) ;;;
      ft245r_tpi_tx pin fuel 7 ;;;
      ft245r_tpi_tx pin fuel ((Z.lor TPI_CMD_SLDCS TPI_REG_TPIIR) mod 256) ;;;
      '(_, byte) <- ft245r_tpi_rx pin fuel byte0 ;;
      if negb (byte =? 128) then ret (Some (-1)) else ret None.

(** [ft245r_initialize]. *)
Definition ft245r_initialize (p : AVRPART OPCODE) : M T Z :=
  set_sck pin fuel OFF ;;;
  ft245r_powerup ;;;
  set_reset pin fuel OFF ;;;
  ft245r_usleep fuel 5000 ;;;
  set_reset pin fuel ON ;;;
  ft245r_usleep fuel 5000 ;;;
  set_reset pin fuel OFF ;;;
  ft245r_usleep fuel 20000 ;;;
  early <- (if is_tpi p then initialize_tpi else ret None) ;;
  match early with
  | Some rc => ret rc
  | None => ft245r_program_enable pin fuel avr_set_bits avr_tpi_program_enable p
  end.

(** [ft245r_chip_erase]; [pgm->cmd] and [pgm->initialize] are the driver's
    own [ft245r_cmd] and [ft245r_initialize]. *)
Definition ft245r_chip_erase (p : AVRPART OPCODE) : M T Z :=
  if is_tpi p then avr_tpi_chip_erase p
  else
    match op_CHIP_ERASE p with
    | None => ret (-1)
    | Some op =>
        let cmd := avr_set_bits op [0; 0; 0; 0] in
        ft245r_cmd pin fuel cmd ;;;
        ft245r_usleep fuel (chip_erase_delay p) ;;;
        ft245r_initialize p
    end.

End Session.

(** * Specification vocabulary *)

(** ** Pins *)

Definition wired (pin : pinmap) (name : pinname) : Prop :=
  0 < mask0 (pin name) < 256.

Definition separate (pin : pinmap) (a b : pinname) : Prop :=
  Z.land (mask0 (pin a)) (mask0 (pin b)) = 0.

(** ** Bit streams *)

Fixpoint add_bits (pin : pinmap) (out : Z) (buf : list Z) (bits : list bool)
  : Z * list Z :=
  match bits with
  | [] => (out, buf)
  | b :: rest =>
      let '(out', buf') := add_bit pin out buf b in
      add_bits pin out' buf' rest
  end.

Definition levels (pin : pinmap) (name : pinname) (buf : list Z) : list bool :=
  map (fun x => truthy (GET_BITS_0 x pin name)) buf.

Definition clock_pairs (bits : list bool) : list bool :=
  flat_map (fun b => [b; b]) bits.

Definition clock_edges (bits : list bool) : list bool :=
  flat_map (fun _ => [false; true]) bits.

Definition bits_msb (x : Z) : list bool :=
  map (Z.testbit x) [7; 6; 5; 4; 3; 2; 1; 0].

Definition bits_lsb (x : Z) : list bool :=
  map (Z.testbit x) [0; 1; 2; 3; 4; 5; 6; 7].

Definition parity_of (bits : list bool) : bool := fold_left xorb bits false.

Definition value_msb (bits : list bool) : Z :=
  fold_left (fun acc (b : bool) => 2 * acc + (if b then 1 else 0)) bits 0.

Fixpoint value_lsb (bits : list bool) : Z :=
  match bits with
  | [] => 0
  | b :: rest => Z.b2z b + 2 * value_lsb rest
  end.

Definition ones (bits : list bool) : nat := length (filter (fun b : bool => b) bits).

Definition sample_cells : list Z := [2; 4; 6; 8; 10; 12; 14; 16].

Definition tpi_cells : list Z := [1; 3; 5; 7; 9; 11; 13; 15].

(** Position of the first zero among the 16 sampled bits. *)
Definition start_bit (res : Z) : option Z :=
  find (fun k => negb (Z.testbit res k))
       [0; 1; 2; 3; 4; 5; 6; 7; 8; 9; 10; 11; 12; 13; 14; 15].

(** The eight bits after the start bit at position [s], first one first. *)
Definition frame_data (res s : Z) : list bool :=
  map (fun i => Z.testbit res (s + 1 + i)) [0; 1; 2; 3; 4; 5; 6; 7].

(** The frame the sampled bits hold, in the words of the spec: the start
    bit within the first four positions, eight data bits LSB first, a
    parity bit that makes the number of ones even, two stop bits. *)
Definition tpi_frame (res : Z) : option Z :=
  match start_bit res with
  | None => None
  | Some s =>
      if (s <? 4)
         && Bool.eqb (Z.testbit res (s + 9)) (parity_of (frame_data res s))
         && Z.testbit res (s + 10) && Z.testbit res (s + 11)
      then Some (value_lsb (frame_data res s))
      else None
  end.


(** ** Monadic assertions, transports and the FIFO invariant *)


(** [c] never leaves the set of worlds [I], whatever its outcome. *)
Definition keeps {T A} (I : world T -> Prop) (c : M T A) : Prop :=
  forall w, I w -> I (snd (c w)).

(** From [P], [c] returns and establishes [Q]. *)
Definition total {T A} (P : world T -> Prop) (c : M T A)
           (Q : A -> world T -> Prop) : Prop :=
  forall w, P w -> exists a w', c w = (Ret a, w') /\ Q a w'.

Definition cooperative {T} (tr : FtdiTransport T) : Prop :=
  (forall d size, 0 <= size -> fst (fst (ftdi_read_data d size)) = size)
  /\ (forall d data size, fst (ftdi_write_data d data size) = size).

Definition transfer_ok (e : event) : Prop :=
  match e with
  | EvWrite pending data size rv =>
      0 <= pending /\ 0 < size /\ pending + size <= FT245R_MIN_FIFO_SIZE
      /\ rv = size
  | EvRead size nread => 0 <= size <= FT245R_MIN_FIFO_SIZE /\ nread = size
  | _ => True
  end.

Definition fifo_inv {T} (w : world T) : Prop :=
  0 <= rx_pending (drv w) <= FT245R_MIN_FIFO_SIZE
  /\ Forall transfer_ok (trace w).

Inductive io_op : Type :=
| OpSend (buf : list Z) (discard_rx_data : bool)
| OpRecv (len : Z).

Section Calls.
Context {T : Type} `{FtdiTransport T}.
Variable fuel : nat.
Definition run_op (op : io_op) : M T unit :=
  match op with
  | OpSend buf d => ft245r_send2 fuel buf d ;;; ret tt
  | OpRecv len => ft245r_recv fuel [] len ;;; ret tt
  end.
Fixpoint run_ops (ops : list io_op) : M T unit :=
  match ops with
  | [] => ret tt
  | op :: rest => run_op op ;;; run_ops rest
  end.
End Calls.

(** Events of the transport and the clock, as opposed to the driver's own
    actions. *)
Definition is_wire_b (e : event) : bool :=
  match e with
  | EvWrite _ _ _ _ | EvRead _ _ | EvBitmode _ _ | EvReadPins _
  | EvUsleep _ | EvTransport _ _ _ => true
  | _ => false
  end.

Definition is_wire (e : event) : Prop := is_wire_b e = true.

(** The driver's own actions in a trace. *)
Definition driver_events (evs : list event) : list event :=
  filter (fun e => negb (is_wire_b e)) evs.

(** [w'] is [w] with more events, all of them in [ok]. *)
Definition extends {T} (ok : event -> Prop) (w w' : world T) : Prop :=
  exists evs, trace w' = trace w ++ evs /\ Forall ok evs.

(** What the FIFO layer never touches. *)
Definition bystander {T} (w w' : world T) : Prop :=
  ft245r_out (drv w') = ft245r_out (drv w)
  /\ ft245r_ddr (drv w') = ft245r_ddr (drv w)
  /\ req_queue (drv w') = req_queue (drv w)
  /\ req_pool (drv w') = req_pool (drv w)
  /\ image w' = image w
  /\ extends is_wire w w'.

(** What [ft245r_fill] and [ft245r_flush] leave alone. *)
Definition fifo_only {T} (w w' : world T) : Prop :=
  bystander w w'
  /\ tx_len (drv w') = tx_len (drv w)
  /\ tx_buf (drv w') = tx_buf (drv w)
  /\ rx_discard (drv w') = rx_discard (drv w).

(** Bytes on their way back: staged, in flight or in the ring. *)
Definition credit (p : pdata) : Z := rx_len p + rx_pending p + tx_len p.

(** A session between two calls: the TX buffer has room and the ring
    length is not negative. *)
Definition ready {T} (w : world T) : Prop :=
  fifo_inv w
  /\ 0 <= tx_len (drv w) < FT245R_MIN_FIFO_SIZE
  /\ 0 <= rx_len (drv w).

(** A ready session in which every byte to be dropped has been sent. *)
Definition settled {T} (w : world T) : Prop :=
  ready w /\ 0 <= rx_discard (drv w) <= credit (drv w).


(** [c] returns from [w]. *)
Definition returns {T A} (c : M T A) (w : world T) : Prop :=
  exists a w', c w = (Ret a, w').

(** A transport whose reads and writes all report an error. *)
Definition faulty {T} (tr : FtdiTransport T) : Prop :=
  (forall d size, fst (fst (ftdi_read_data d size)) < 0)
  /\ (forall d data size, fst (ftdi_write_data d data size) < 0).

(** [w'] is [w] with another output register. *)
Definition only_out {T} (w w' : world T) : Prop :=
  exists o, w' = mkWorld (set_out (drv w) o) (dev w) (image w) (trace w).

(** ** Program enable *)

(** One failed attempt as the driver acts it out: the command, then RESET
    raised and lowered. *)
Definition failed_round (cmd res : list Z) : list event :=
  [EvCmd cmd res; EvSetPin PIN_AVR_RESET ON; EvSetPin PIN_AVR_RESET OFF].

Definition acknowledged {OPCODE} (p : AVRPART OPCODE) (res : list Z) : Prop :=
  rd res (pollindex p - 1) = pollvalue p.

(** Number of times [set_pin] raised RESET. *)
Definition reset_pulses (evs : list event) : nat :=
  length (filter (fun e => match e with
                           | EvSetPin PIN_AVR_RESET v => truthy v
                           | _ => false
                           end) evs).

(** Number of attempts, i.e. of completed [ft245r_cmd] exchanges. *)
Definition attempts (evs : list event) : nat :=
  length (filter (fun e => match e with EvCmd _ _ => true | _ => false end) evs).

(** The bytes handed to the transport, in order. *)
Definition wire_bytes (evs : list event) : list Z :=
  flat_map (fun e => match e with
                     | EvWrite _ data _ _ => data
                     | _ => []
                     end) evs.

(** Rising edges of a pin in a byte stream that starts from level [prev]. *)
Fixpoint rising_edges (pin : pinmap) (name : pinname) (prev : bool)
         (bytes : list Z) : nat :=
  match bytes with
  | [] => O
  | b :: rest =>
      let l := truthy (GET_BITS_0 b pin name) in
      ((if negb prev && l then 1 else 0) + rising_edges pin name l rest)%nat
  end.

(** Whenever [c] returns, its result is in [P]. *)
Definition yields {T A} (P : A -> Prop) (c : M T A) : Prop :=
  forall w a w', c w = (Ret a, w') -> P a.

(** ** Request queue discipline

    A monitor that reads a trace and checks the drain policy: a post that
    leaves more than [REQ_OUTSTANDINGS] nodes outstanding is followed at
    once by the drain of exactly the oldest node; every other drain belongs
    to a sweep that empties the queue before the next post or page commit;
    nodes leave in the order they came; a page is committed with nothing
    outstanding. *)

Definition req_eqb (a b : ft245r_request) : bool :=
  (addr a =? addr b) && (bytes a =? bytes b) && (n a =? n b).

Record qmon : Type := mkQmon {
  outstanding : list ft245r_request;  (* posted and not yet drained *)
  due : bool;                         (* the cap was exceeded by the last post *)
  sweeping : bool                     (* a drain of all nodes is under way *)
}.


Definition is_nil {A} (l : list A) : bool :=
  match l with [] => true | _ => false end.

Definition qstep (s : qmon) (e : event) : option qmon :=
  match e with
  | EvPut r =>
      if due s || (sweeping s && negb (is_nil (outstanding s))) then None
      else
        let q := outstanding s ++ [r] in
        Some (mkQmon q (REQ_OUTSTANDINGS <? Z.of_nat (length q)) false)
  | EvDo r =>
      match outstanding s with
      | [] => None
      | oldest :: q =>
          if req_eqb r oldest then Some (mkQmon q false (negb (due s)))
          else None
      end
  | EvWritePage a q =>
      if due s || negb (is_nil (outstanding s)) || negb (is_nil q) then None
      else Some (mkQmon [] false false)
  | _ => if due s then None else Some s
  end.

Fixpoint qrun (s : qmon) (evs : list event) : option qmon :=
  match evs with
  | [] => Some s
  | e :: rest =>
      match qstep s e with
      | Some s' => qrun s' rest
      | None => None
      end
  end.

(** Events that are not queue operations. *)
Definition quiet (e : event) : Prop :=
  match e with
  | EvPut _ | EvDo _ | EvWritePage _ _ => False
  | _ => True
  end.

(** A shell operation that leaves the request queue alone. *)
Definition shell_quiet {T A} (c : M T A) : Prop :=
  forall w, req_queue (drv (snd (c w))) = req_queue (drv w)
            /\ extends quiet w (snd (c w)).







(** Bytes the posted requests will ask [ft245r_recv] for. *)
Definition queued_bytes (q : list ft245r_request) : Z :=
  fold_right (fun r acc => bytes r + acc) 0 q.

(** A settled session that has sent at least [extra] bytes more than it
    still has to drop and its posted requests will consume. *)
Definition balanced_by {T} (extra : Z) (w : world T) : Prop :=
  settled w
  /\ Forall (fun r => 0 <= bytes r) (req_queue (drv w))
  /\ rx_discard (drv w) + queued_bytes (req_queue (drv w)) + extra
     <= credit (drv w).

Definition balanced {T} (w : world T) : Prop := balanced_by 0 w.

(** A session between two paged operations: settled, nothing posted. *)
Definition at_rest {T} (w : world T) : Prop :=
  settled w /\ req_queue (drv w) = [].



(** The queue operations of a trace. *)
Definition queue_events (evs : list event) : list event :=
  filter (fun e => match e with
                   | EvPut _ | EvDo _ | EvWritePage _ _ => true
                   | _ => false
                   end) evs.


(** Number of posts, drains and page commits in a trace. *)
Definition count_puts (evs : list event) : nat :=
  length (filter (fun e => match e with EvPut _ => true | _ => false end) evs).

Definition page_commits (evs : list event) : list Z :=
  flat_map (fun e => match e with EvWritePage a _ => [a] | _ => [] end) evs.


(** ** Port strings *)

Definition nonspace (s : string) : Prop :=
  forallb (fun c => negb (isspace c)) (list_ascii_of_string s) = true.

Definition digit_char (d : nat) : ascii := ascii_of_nat (48 + d).



(** ** Streams through the driver *)

(** A list of integers as the bytes they are stored as. *)
Definition byte_list (l : list Z) : list Z := map (fun x => x mod 256) l.

(** The unread bytes of the RX ring, oldest first: [k] cells from [pos],
    wrapping at [FT245R_BUFSIZE]. *)
Fixpoint ring_from (buf : list Z) (pos : Z) (k : nat) : list Z :=
  match k with
  | O => []
  | S k' =>
      rd buf pos
      :: ring_from buf (if FT245R_BUFSIZE <=? pos + 1 then 0 else pos + 1) k'
  end.

Definition ring_contents (p : pdata) : list Z :=
  ring_from (rx_buf p) (rx_rd p) (Z.to_nat (rx_len p)).

(** A ring whose indices are in range and agree with its length. *)
Definition ring_ok (p : pdata) : Prop :=
  length (rx_buf p) = Z.to_nat FT245R_BUFSIZE
  /\ 0 <= rx_rd p < FT245R_BUFSIZE
  /\ 0 <= rx_len p <= FT245R_BUFSIZE
  /\ rx_wr p = (rx_rd p + rx_len p) mod FT245R_BUFSIZE.

(** The bytes staged in the TX buffer. *)
Definition staged (p : pdata) : list Z :=
  firstn (Z.to_nat (tx_len p)) (tx_buf p).

(** Everything handed to the driver for sending: what the transport has
    taken, then what is staged. *)
Definition outbound {T} (w : world T) : list Z :=
  wire_bytes (trace w) ++ staged (drv w).

Definition tx_ok (p : pdata) : Prop :=
  length (tx_buf p) = Z.to_nat FT245R_MIN_FIFO_SIZE.

(** The world after the transport has taken [avail] staged bytes from
    offset [src]: one round of the loop of [ft245r_flush]. *)
Definition after_write {T} `{FtdiTransport T} (w : world T) (src avail : Z)
  : world T :=
  let data := slice (tx_buf (drv w)) src avail in
  let '(rv, d2) := ftdi_write_data (dev w) data avail in
  mkWorld (set_pending (drv w) (rx_pending (drv w) + avail)) d2 (image w)
          (trace w ++ [EvWrite (rx_pending (drv w)) data avail rv]).

(** The world after [ft245r_send2] has staged one byte. *)
Definition after_stage {T} (w : world T) (b : Z) (discard_rx_data : bool)
  : world T :=
  let p1 := if discard_rx_data
            then set_discard (drv w) (rx_discard (drv w) + 1) else drv w in
  mkWorld (set_tx p1 (tx_len p1 + 1) (upd (tx_buf p1) (tx_len p1) (b mod 256)))
          (dev w) (image w) (trace w).

(** The world after [my.tx.len = 0]. *)
Definition after_reset {T} (w : world T) : world T :=
  mkWorld (set_tx (drv w) 0 (tx_buf (drv w))) (dev w) (image w) (trace w).

(** One round of the loop of [ft245r_send2] when the flush returns. *)
Definition send_step {T} `{FtdiTransport T} (fuel : nat) (w : world T)
           (b : Z) (discard_rx_data : bool) : world T :=
  let w1 := after_stage w b discard_rx_data in
  if FT245R_MIN_FIFO_SIZE <=? tx_len (drv w1)
  then after_reset (snd (ft245r_flush fuel w1))
  else w1.

(** ** The bit-bang device seen from the driver *)

(** The driver's count of bytes in flight is the device's queue length. *)
Definition linked (w : world bitbang) : Prop :=
  rx_pending (drv w) = Z.of_nat (length (bb_fifo (dev w))).

(** Sampled bytes not yet handed to a caller: in the ring, then in the
    device's queue. *)
Definition inbound (w : world bitbang) : list Z :=
  ring_contents (drv w) ++ byte_list (bb_fifo (dev w)).

(** The same once the staged bytes have been clocked out, and the byte the
    pins will then be driven with. *)
Definition echo_due (respond : Z -> Z) (w : world bitbang) : list Z :=
  inbound w
  ++ byte_list (snd (bb_clock respond (bb_pins (dev w)) (staged (drv w)))).

Definition pins_due (respond : Z -> Z) (w : world bitbang) : Z :=
  fst (bb_clock respond (bb_pins (dev w)) (staged (drv w))).

(** A session and a device that agree, with room in the ring for every
    byte that is due. *)
Definition tidy (w : world bitbang) : Prop :=
  linked w /\ ready w /\ ring_ok (drv w) /\ tx_ok (drv w)
  /\ credit (drv w) <= FT245R_BUFSIZE.

(** [w'] is [w] after bytes were taken from the ring: nothing but the ring
    and the discard counter differs. *)
Definition popped {T} (w w' : world T) : Prop :=
  dev w' = dev w /\ image w' = image w /\ trace w' = trace w
  /\ tx_len (drv w') = tx_len (drv w) /\ tx_buf (drv w') = tx_buf (drv w)
  /\ rx_pending (drv w') = rx_pending (drv w)
  /\ ft245r_out (drv w') = ft245r_out (drv w)
  /\ ft245r_ddr (drv w') = ft245r_ddr (drv w)
  /\ req_queue (drv w') = req_queue (drv w)
  /\ req_pool (drv w') = req_pool (drv w).

(** [set_data] over the bytes [xs] in turn, from the output register [out]:
    the register afterwards and the bus bytes. *)
Definition set_data_all (pin : pinmap) (out : Z) (xs : list Z) : Z * list Z :=
  fold_left (fun acc x => let r := set_data pin (fst acc) x in
                          (fst r, snd acc ++ snd r))
            xs (out, []).

(** The 65 bus bytes of one [ft245r_cmd]. *)
Definition cmd_frame (pin : pinmap) (out : Z) (cmd : list Z) : list Z :=
  snd (set_data_all pin out [rd cmd 0; rd cmd 1; rd cmd 2; rd cmd 3]) ++ [0].

(** The link is quiet up to echoes the driver will drop. *)
Definition clear (w : world bitbang) : Prop :=
  tidy w /\ rx_discard (drv w) = credit (drv w).

(** [k] bytes taken with [ft245r_rx_buf_get], first one first. *)
Fixpoint rx_buf_gets (k : nat) (p : pdata) : list Z * pdata :=
  match k with
  | O => ([], p)
  | S k' =>
      let r := ft245r_rx_buf_get p in
      let r' := rx_buf_gets k' (snd r) in
      (fst r :: fst r', snd r')
  end.

(** The events of [w'] that [w] does not have yet. *)
Definition since {T} (w w' : world T) : list event :=
  skipn (length (trace w)) (trace w').

(** A transport that takes fewer bytes than it is given, or fails. *)
Definition short_writes {T} (tr : FtdiTransport T) : Prop :=
  forall d data size, 0 <= size -> fst (ftdi_write_data d data size) <> size.

(** The link is [clear] and the ring has room for [room] more echoes. *)
Definition calm (w : world bitbang) (room : Z) : Prop :=
  clear w /\ 0 <= room /\ credit (drv w) + room <= FT245R_BUFSIZE.

(** ** A TPI frame on the line *)

(** The sixteen bit times of a receive window in which a frame for [byte]
    starts after [idle] bit times of high line. *)
Definition tpi_line (idle : nat) (byte : Z) : list bool :=
  repeat true idle
  ++ (false :: bits_lsb byte ++ [parity_of (bits_lsb byte); true; true])
  ++ repeat true (4 - idle).

(** The bytes read back during such a window: the sender keeps its data
    line high while idle and encodes the frame as [set_tpi_data] does, and
    the receiver's SDI carries the sender's data line. *)
Definition tpi_reply (pin : pinmap) (out : Z) (idle : nat) (byte : Z)
  : list Z :=
  let hi := SET_BITS_0 out pin PIN_AVR_SDO true in
  map (loopback pin)
      (repeat hi (2 * idle)
       ++ snd (set_tpi_data pin hi byte)
       ++ repeat hi (2 * (4 - idle))).

(** A pin being driven. *)
Definition pin_event (e : event) : Prop :=
  match e with
  | EvSetPin _ _ => True
  | _ => False
  end.

(** A transport whose configuration calls all succeed. *)
Definition obliging {T} (tr : FtdiTransport T) : Prop :=
  (forall d vid pid product serial index,
      fst (ftdi_usb_open_desc_index d vid pid product serial index) = 0)
  /\ (forall d ms, fst (ftdi_set_latency_timer d ms) = 0)
  /\ (forall d bitmask mode, fst (ftdi_set_bitmode d bitmask mode) = 0)
  /\ (forall d rate, fst (ftdi_set_baudrate d rate) = 0).

(** The rate [ft245r_set_bitclock] asks for. *)
Definition bitclock_of (pgm : PROGRAMMER) : Z :=
  match bitclock_rate pgm with
  | Some r => r
  | None => if baudrate pgm =? 0 then 150000 else baudrate pgm
  end.

(** A device that never answers: every read times out with no byte, every
    other call succeeds. *)
Definition dry_transport : FtdiTransport unit := {|
  ftdi_read_data d size := ((0, []), d);
  ftdi_write_data d data size := (size, d);
  ftdi_set_bitmode d bitmask mode := (0, d);
  ftdi_read_pins d := ((0, 0), d);
  ftdi_usb_open_desc_index d vid pid product serial index := (0, d);
  ftdi_set_latency_timer d ms := (0, d);
  ftdi_set_baudrate d rate := (0, d);
  ftdi_usb_close d := d
|}.

(** Every read of the transport comes back empty. *)
Definition reads_nothing {T} (tr : FtdiTransport T) : Prop :=
  forall d size, fst (fst (ftdi_read_data d size)) = 0.

(** ** Tokens of a port string *)



(** The digit a character is, if it is one. *)
Definition digit_of (c : ascii) : option nat :=
  find (fun d => Ascii.eqb c (digit_char d)) (seq 0 10).








(** * Proof tactics *)

(** Closed shifts of the mask [m] are powers of two. *)
Ltac pow2_shifts :=
  repeat match goal with
         | |- context [Z.shiftl ?a ?b mod 2 ^ 32] =>
             let v := eval vm_compute in (Z.log2 (Z.shiftl a b mod 2 ^ 32)) in
             change (Z.shiftl a b mod 2 ^ 32) with (2 ^ v)
         end.

Ltac closed_positions res :=
  repeat match goal with
         | |- context [Z.testbit res (?a + ?b)] =>
             let v := eval vm_compute in (a + b) in
             change (a + b) with v
         end.

(** Unfold the monad's primitives and the projections of a world. *)
Ltac monad_unfold :=
  unfold tx_reset in *;
  unfold bind, ret, hang, get_drv, put_drv, modify_drv, emit, call,
         get_image, put_image in *;
  cbn [fst snd drv dev image trace] in *.


(** * Properties of the pin encoder and the SPI codec *)

Lemma byte_bits_high m k : 0 <= m < 256 -> 8 <= k -> Z.testbit m k = false.
Proof.
  intros Hm Hk. rewrite <- (Z.mod_small m (2 ^ 8)) by (change (2 ^ 8) with 256; lia).
  apply Z.mod_pow2_bits_high. lia.
Qed.

Lemma land_byte_mod x m : 0 <= m < 256 -> Z.land (x mod 256) m = Z.land x m.
Proof.
  intros Hm. apply Z.bits_inj'. intros k Hk.
  rewrite !Z.land_spec.
  destruct (Z.ltb_spec k 8).
  - change 256 with (2 ^ 8). rewrite Z.mod_pow2_bits_low by lia. reflexivity.
  - rewrite (byte_bits_high m k) by lia. rewrite !andb_false_r. reflexivity.
Qed.

Lemma lxor_mod_land x i m :
  0 <= m < 256 -> Z.land (Z.lxor (x mod 256) i) m = Z.land (Z.lxor x i) m.
Proof.
  intros Hm. apply Z.bits_inj'. intros k Hk.
  rewrite !Z.land_spec, !Z.lxor_spec.
  destruct (Z.ltb_spec k 8).
  - change 256 with (2 ^ 8). rewrite Z.mod_pow2_bits_low by lia. reflexivity.
  - rewrite (byte_bits_high m k) by lia. rewrite !andb_false_r. reflexivity.
Qed.

Lemma GET_SET_same pin a x v :
  0 <= mask0 (pin a) < 256 ->
  GET_BITS_0 (SET_BITS_0 x pin a v) pin a = if v then mask0 (pin a) else 0.
Proof.
  intros Hm. unfold GET_BITS_0, SET_BITS_0.
  rewrite lxor_mod_land by assumption.
  apply Z.bits_inj'. intros k Hk.
  rewrite Z.land_spec, Z.lxor_spec, Z.lor_spec, !Z.land_spec, Z.lnot_spec by lia.
  destruct v.
  - rewrite Z.lnot_spec by lia.
    destruct (Z.testbit (mask0 (pin a)) k), (Z.testbit x k),
      (Z.testbit (inverse0 (pin a)) k); reflexivity.
  - rewrite Z.bits_0.
    destruct (Z.testbit (mask0 (pin a)) k), (Z.testbit x k),
      (Z.testbit (inverse0 (pin a)) k); reflexivity.
Qed.

Lemma GET_SET_other pin a b x v :
  0 <= mask0 (pin b) < 256 -> separate pin a b ->
  GET_BITS_0 (SET_BITS_0 x pin a v) pin b = GET_BITS_0 x pin b.
Proof.
  intros Hm Hs. unfold GET_BITS_0, SET_BITS_0.
  rewrite lxor_mod_land by assumption.
  apply Z.bits_inj'. intros k Hk.
  assert (Hd : Z.testbit (mask0 (pin a)) k && Z.testbit (mask0 (pin b)) k = false).
  { rewrite <- Z.land_spec. unfold separate in Hs. rewrite Hs. apply Z.bits_0. }
  rewrite !Z.land_spec, !Z.lxor_spec, Z.lor_spec, !Z.land_spec, Z.lnot_spec by lia.
  destruct (Z.testbit (mask0 (pin a)) k), (Z.testbit (mask0 (pin b)) k);
    try discriminate; cbn; rewrite ?andb_false_r, ?andb_true_r, ?orb_false_r; reflexivity.
Qed.

Lemma level_SET_same pin a x v :
  wired pin a -> truthy (GET_BITS_0 (SET_BITS_0 x pin a v) pin a) = v.
Proof.
  intros [H0 H1]. rewrite GET_SET_same by lia. unfold truthy.
  destruct v; [ | reflexivity ].
  destruct (Z.eqb_spec (mask0 (pin a)) 0); [ lia | reflexivity ].
Qed.

Lemma level_SET_other pin a b x v :
  0 <= mask0 (pin b) < 256 -> separate pin a b ->
  truthy (GET_BITS_0 (SET_BITS_0 x pin a v) pin b) = truthy (GET_BITS_0 x pin b).
Proof. intros. rewrite GET_SET_other by assumption. reflexivity. Qed.

Lemma truthy_land_pow2 x k : 0 <= k -> truthy (Z.land x (2 ^ k)) = Z.testbit x k.
Proof.
  intros Hk. unfold truthy.
  destruct (Z.testbit x k) eqn:E.
  - destruct (Z.eqb_spec (Z.land x (2 ^ k)) 0) as [H0|]; [ | reflexivity ].
    assert (Z.testbit (Z.land x (2 ^ k)) k = false) by (rewrite H0; apply Z.bits_0).
    rewrite Z.land_spec, E, Z.pow2_bits_true in H by lia. discriminate.
  - destruct (Z.eqb_spec (Z.land x (2 ^ k)) 0) as [|H0]; [ reflexivity | ].
    exfalso. apply H0. apply Z.bits_inj'. intros j Hj.
    rewrite Z.land_spec, Z.bits_0.
    destruct (Z.eq_dec j k) as [->|Hne].
    + rewrite E. reflexivity.
    + rewrite Z.pow2_bits_false by lia. apply andb_false_r.
Qed.

Lemma separate_sym pin a b : separate pin a b -> separate pin b a.
Proof. unfold separate. intros. rewrite Z.land_comm. assumption. Qed.

Lemma set_data_add_bits pin out data :
  set_data pin out data = add_bits pin out [] (bits_msb data).
Proof.
  unfold set_data, bits_msb. cbn [map set_data_loop add_bits].
  change 128 with (2 ^ 7).
  rewrite !Z.shiftr_div_pow2 by lia.
  change (2 ^ 7 / 2 ^ 1) with (2 ^ 6).
  change (2 ^ 6 / 2 ^ 1) with (2 ^ 5).
  change (2 ^ 5 / 2 ^ 1) with (2 ^ 4).
  change (2 ^ 4 / 2 ^ 1) with (2 ^ 3).
  change (2 ^ 3 / 2 ^ 1) with (2 ^ 2).
  change (2 ^ 2 / 2 ^ 1) with (2 ^ 1).
  change (2 ^ 1 / 2 ^ 1) with (2 ^ 0).
  rewrite !truthy_land_pow2 by lia.
  reflexivity.
Qed.

Lemma set_tpi_data_loop_add_bits pin out byte buf :
  set_tpi_data_loop pin 8 1 byte false out buf =
  (parity_of (bits_lsb byte), add_bits pin out buf (bits_lsb byte)).
Proof.
  unfold bits_lsb, parity_of. cbn [map set_tpi_data_loop add_bits fold_left].
  change (Z.land byte 1) with (Z.land byte (2 ^ 0)).
  change (Z.shiftl 1 1 mod 256) with (2 ^ 1).
  change (Z.shiftl (2 ^ 1) 1 mod 256) with (2 ^ 2).
  change (Z.shiftl (2 ^ 2) 1 mod 256) with (2 ^ 3).
  change (Z.shiftl (2 ^ 3) 1 mod 256) with (2 ^ 4).
  change (Z.shiftl (2 ^ 4) 1 mod 256) with (2 ^ 5).
  change (Z.shiftl (2 ^ 5) 1 mod 256) with (2 ^ 6).
  change (Z.shiftl (2 ^ 6) 1 mod 256) with (2 ^ 7).
  rewrite !truthy_land_pow2 by lia.
  repeat (destruct (add_bit _ _ _ _)). reflexivity.
Qed.

Lemma add_bits_app pin out buf xs ys :
  add_bits pin out buf (xs ++ ys) =
  let '(o, b) := add_bits pin out buf xs in add_bits pin o b ys.
Proof.
  revert out buf. induction xs as [|x xs IH]; intros out buf; cbn [add_bits app].
  - reflexivity.
  - destruct (add_bit pin out buf x) as [o b]. apply IH.
Qed.

Lemma set_tpi_data_add_bits pin out byte :
  set_tpi_data pin out byte =
  add_bits pin out []
    (false :: bits_lsb byte ++ [parity_of (bits_lsb byte); true; true]).
Proof.
  unfold set_tpi_data. cbn [add_bits].
  destruct (add_bit pin out [] false) as [o0 b0].
  rewrite set_tpi_data_loop_add_bits, add_bits_app.
  destruct (add_bits pin o0 b0 (bits_lsb byte)) as [o1 b1].
  cbn [add_bits].
  destruct (add_bit pin o1 b1 _) as [o2 b2].
  destruct (add_bit pin o2 b2 true) as [o3 b3].
  destruct (add_bit pin o3 b3 true) as [o4 b4]. reflexivity.
Qed.

Lemma add_bits_levels_sdo pin out buf bits :
  wired pin PIN_AVR_SDO -> separate pin PIN_AVR_SCK PIN_AVR_SDO ->
  levels pin PIN_AVR_SDO (snd (add_bits pin out buf bits)) =
  levels pin PIN_AVR_SDO buf ++ clock_pairs bits.
Proof.
  intros Hw Hs. revert out buf.
  induction bits as [|b bits IH]; intros out buf; cbn [add_bits clock_pairs flat_map].
  - cbn. rewrite app_nil_r. reflexivity.
  - unfold add_bit. rewrite IH. unfold levels at 1. rewrite map_app.
    cbn [map]. fold (levels pin PIN_AVR_SDO buf).
    assert (Hm : 0 <= mask0 (pin PIN_AVR_SDO) < 256) by (destruct Hw; lia).
    rewrite !(level_SET_other pin PIN_AVR_SCK PIN_AVR_SDO) by assumption.
    rewrite !level_SET_same by assumption.
    rewrite <- app_assoc. reflexivity.
Qed.

Lemma add_bits_levels_sck pin out buf bits :
  wired pin PIN_AVR_SCK ->
  levels pin PIN_AVR_SCK (snd (add_bits pin out buf bits)) =
  levels pin PIN_AVR_SCK buf ++ clock_edges bits.
Proof.
  intros Hw. revert out buf.
  induction bits as [|b bits IH]; intros out buf; cbn [add_bits clock_edges flat_map].
  - cbn. rewrite app_nil_r. reflexivity.
  - unfold add_bit. rewrite IH. unfold levels at 1. rewrite map_app.
    cbn [map]. fold (levels pin PIN_AVR_SCK buf).
    rewrite !level_SET_same by assumption.
    rewrite <- app_assoc. reflexivity.
Qed.

Lemma add_bits_length pin out buf bits :
  length (snd (add_bits pin out buf bits)) = (length buf + 2 * length bits)%nat.
Proof.
  revert out buf. induction bits as [|b bits IH]; intros out buf; cbn [add_bits].
  - cbn. lia.
  - unfold add_bit. rewrite IH, length_app. cbn [length]. lia.
Qed.

Lemma forall_byte (P : Z -> bool) :
  forallb P (map Z.of_nat (seq 0 256)) = true ->
  forall b, 0 <= b < 256 -> P b = true.
Proof.
  intros H b Hb. rewrite forallb_forall in H. apply H.
  apply in_map_iff. exists (Z.to_nat b). split; [ lia | ].
  apply in_seq. lia.
Qed.

Lemma value_msb_bits b : 0 <= b < 256 -> value_msb (bits_msb b) = b.
Proof.
  intros Hb. apply Z.eqb_eq.
  apply (forall_byte (fun b => value_msb (bits_msb b) =? b)); [ | assumption ].
  vm_compute. reflexivity.
Qed.

Lemma value_lsb_bits b : 0 <= b < 256 -> value_lsb (bits_lsb b) = b.
Proof.
  intros Hb. apply Z.eqb_eq.
  apply (forall_byte (fun b => value_lsb (bits_lsb b) =? b)); [ | assumption ].
  vm_compute. reflexivity.
Qed.

Lemma even_parity b :
  0 <= b < 256 ->
  Nat.even (ones (bits_lsb b ++ [parity_of (bits_lsb b)])) = true.
Proof.
  intros Hb.
  apply (forall_byte (fun b =>
           Nat.even (ones (bits_lsb b ++ [parity_of (bits_lsb b)]))));
    [ | assumption ].
  vm_compute. reflexivity.
Qed.

Lemma extract_data_value pin buf offset :
  extract_data pin buf offset =
  value_msb (map (fun k => truthy (GET_BITS_0 (rd buf (offset * 16 + k)) pin PIN_AVR_SDI))
                 sample_cells).
Proof.
  unfold extract_data, sample_cells.
  cbn [extract_data_loop map]. unfold FT245R_CYCLES.
  change (8 * 2) with 16.
  change (2 + 2) with 4. change (4 + 2) with 6. change (6 + 2) with 8.
  change (8 + 2) with 10. change (10 + 2) with 12. change (12 + 2) with 14.
  change (14 + 2) with 16.
  generalize (truthy (GET_BITS_0 (rd buf (offset * 16 + 2)) pin PIN_AVR_SDI)).
  generalize (truthy (GET_BITS_0 (rd buf (offset * 16 + 4)) pin PIN_AVR_SDI)).
  generalize (truthy (GET_BITS_0 (rd buf (offset * 16 + 6)) pin PIN_AVR_SDI)).
  generalize (truthy (GET_BITS_0 (rd buf (offset * 16 + 8)) pin PIN_AVR_SDI)).
  generalize (truthy (GET_BITS_0 (rd buf (offset * 16 + 10)) pin PIN_AVR_SDI)).
  generalize (truthy (GET_BITS_0 (rd buf (offset * 16 + 12)) pin PIN_AVR_SDI)).
  generalize (truthy (GET_BITS_0 (rd buf (offset * 16 + 14)) pin PIN_AVR_SDI)).
  generalize (truthy (GET_BITS_0 (rd buf (offset * 16 + 16)) pin PIN_AVR_SDI)).
  intros b0 b1 b2 b3 b4 b5 b6 b7.
  destruct b0, b1, b2, b3, b4, b5, b6, b7; reflexivity.
Qed.

Lemma bb_clock_echo respond pins data :
  snd (bb_clock respond pins data) =
  map respond (firstn (length data) (pins :: data)).
Proof.
  revert pins. induction data as [|b rest IH]; intros pins.
  - reflexivity.
  - cbn [bb_clock length]. specialize (IH b).
    destruct (bb_clock respond b rest) as [p e]. cbn [snd] in *.
    rewrite IH. reflexivity.
Qed.

Lemma level_loopback pin x :
  wired pin PIN_AVR_SDI ->
  truthy (GET_BITS_0 (loopback pin x) pin PIN_AVR_SDI) =
  truthy (GET_BITS_0 x pin PIN_AVR_SDO).
Proof. intros Hw. unfold loopback. apply level_SET_same. assumption. Qed.

Lemma levels_loopback pin buf :
  wired pin PIN_AVR_SDI ->
  levels pin PIN_AVR_SDI (map (loopback pin) buf) = levels pin PIN_AVR_SDO buf.
Proof.
  intros Hw. unfold levels. rewrite map_map.
  apply map_ext. intros x. apply level_loopback. assumption.
Qed.

Lemma level_rd pin name buf k :
  truthy (GET_BITS_0 (rd buf k) pin name) =
  nth (Z.to_nat k) (levels pin name buf) (truthy (GET_BITS_0 0 pin name)).
Proof.
  unfold rd, levels.
  rewrite (map_nth (fun x => truthy (GET_BITS_0 x pin name))). reflexivity.
Qed.




Lemma default_pins_wired :
  wired default_pins PIN_AVR_SDO /\ wired default_pins PIN_AVR_SCK /\
  wired default_pins PIN_AVR_SDI /\ wired default_pins PIN_AVR_RESET /\
  separate default_pins PIN_AVR_SCK PIN_AVR_SDO.
Proof. unfold wired, separate. cbn. repeat split; lia. Qed.


(** * Properties of the TPI receiver *)

Lemma truthy_land_pow2_l x k : 0 <= k -> truthy (Z.land (2 ^ k) x) = Z.testbit x k.
Proof. intros. rewrite Z.land_comm. apply truthy_land_pow2. assumption. Qed.

Lemma land_pow2_eqb x k : 0 <= k -> (Z.land x (2 ^ k) =? 0) = negb (Z.testbit x k).
Proof.
  intros Hk. rewrite <- truthy_land_pow2 by assumption. unfold truthy.
  rewrite negb_involutive. reflexivity.
Qed.

Lemma tpi_data_bits_frame res s :
  s = 0 \/ s = 1 \/ s = 2 \/ s = 3 ->
  tpi_data_bits 8 0 res (2 ^ s) 0 false =
  (2 ^ (s + 8), value_lsb (frame_data res s), parity_of (frame_data res s)).
Proof.
  intros Hs. unfold frame_data, parity_of.
  destruct Hs as [-> | [-> | [-> | ->]]];
    cbn [tpi_data_bits map fold_left value_lsb];
    pow2_shifts; rewrite !truthy_land_pow2 by lia;
    closed_positions res;
    repeat match goal with
           | |- context [Z.testbit res ?k] => destruct (Z.testbit res k)
           end; reflexivity.
Qed.

Lemma find_start_S k res m :
  find_start (S k) res m =
  if truthy (Z.land m res) then find_start k res ((Z.shiftl m 1) mod 2 ^ 32) else m.
Proof. reflexivity. Qed.

Lemma word16_bit_high res e : 0 <= res < 65536 -> 16 <= e -> Z.testbit res e = false.
Proof.
  intros Hr He. rewrite <- (Z.mod_small res (2 ^ 16)) by (change (2 ^ 16) with 65536; lia).
  apply Z.mod_pow2_bits_high. lia.
Qed.

Lemma find_start_late k res : forall e,
  0 <= res < 65536 -> 4 <= e <= 16 -> 16 <= find_start k res (2 ^ e).
Proof.
  induction k as [|k IH]; intros e Hr He.
  - cbn [find_start]. change 16 with (2 ^ 4). apply Z.pow_le_mono_r; lia.
  - rewrite find_start_S, truthy_land_pow2_l by lia.
    destruct (Z.testbit res e) eqn:E.
    + assert (e < 16).
      { destruct (Z.eq_dec e 16) as [->|]; [ | lia ].
        rewrite word16_bit_high in E by lia. discriminate. }
      replace (Z.shiftl (2 ^ e) 1 mod 2 ^ 32) with (2 ^ (e + 1)).
      * apply IH; [ assumption | lia ].
      * rewrite Z.shiftl_mul_pow2, <- Z.pow_add_r by lia.
        symmetry. apply Z.mod_small. split; [ apply Z.pow_nonneg; lia | ].
        apply Z.pow_lt_mono_r; lia.
    + change 16 with (2 ^ 4). apply Z.pow_le_mono_r; lia.
Qed.

Lemma find_cons {A} (f : A -> bool) x l :
  find f (x :: l) = if f x then Some x else find f l.
Proof. reflexivity. Qed.

Theorem tpi_rx_decode_frame res bytep :
  0 <= res < 65536 ->
  tpi_rx_decode res bytep =
  match tpi_frame res with
  | Some d => (0, d)
  | None => (-1, bytep)
  end.
Proof.
  intros Hr.
  assert (Hgood : forall s, s = 0 \/ s = 1 \/ s = 2 \/ s = 3 ->
            find_start 33 res 1 = 2 ^ s -> start_bit res = Some s ->
            tpi_rx_decode res bytep =
            match tpi_frame res with Some d => (0, d) | None => (-1, bytep) end).
  { intros s Hs Hm Hst. unfold tpi_rx_decode, tpi_frame. rewrite Hm, Hst.
    rewrite tpi_data_bits_frame by assumption.
    assert (Hv : value_lsb (frame_data res s) mod 256 = value_lsb (frame_data res s)).
    { unfold frame_data. cbn [map value_lsb].
      repeat match goal with
             | |- context [Z.testbit res ?k] => destruct (Z.testbit res k)
             end; reflexivity. }
    rewrite Hv. clear Hv Hm Hst.
    generalize (value_lsb (frame_data res s)).
    generalize (parity_of (frame_data res s)). intros par v.
    destruct Hs as [-> | [-> | [-> | ->]]];
      pow2_shifts; rewrite !truthy_land_pow2, !land_pow2_eqb by lia;
      closed_positions res;
      repeat match goal with
             | |- context [Z.testbit res ?k] => destruct (Z.testbit res k)
             end; destruct par; reflexivity. }
  destruct (Z.testbit res 0) eqn:E0.
  2:{ apply (Hgood 0); [ lia | | ].
      - rewrite find_start_S.
        change (Z.land 1 res) with (Z.land (2 ^ 0) res). rewrite truthy_land_pow2_l, E0 by lia. reflexivity.
      - unfold start_bit. cbn [find]. rewrite E0. reflexivity. }
  destruct (Z.testbit res 1) eqn:E1.
  2:{ apply (Hgood 1); [ lia | | ].
      - do 2 rewrite find_start_S.
        change (Z.land 1 res) with (Z.land (2 ^ 0) res). rewrite truthy_land_pow2_l, E0 by lia.
        pow2_shifts. rewrite truthy_land_pow2_l, E1 by lia. reflexivity.
      - unfold start_bit. cbn [find]. rewrite E0, E1. reflexivity. }
  destruct (Z.testbit res 2) eqn:E2.
  2:{ apply (Hgood 2); [ lia | | ].
      - do 3 rewrite find_start_S.
        change (Z.land 1 res) with (Z.land (2 ^ 0) res). rewrite truthy_land_pow2_l, E0 by lia.
        pow2_shifts. rewrite truthy_land_pow2_l, E1 by lia.
        rewrite truthy_land_pow2_l, E2 by lia. reflexivity.
      - unfold start_bit. cbn [find]. rewrite E0, E1, E2. reflexivity. }
  destruct (Z.testbit res 3) eqn:E3.
  2:{ apply (Hgood 3); [ lia | | ].
      - do 4 rewrite find_start_S.
        change (Z.land 1 res) with (Z.land (2 ^ 0) res). rewrite truthy_land_pow2_l, E0 by lia.
        pow2_shifts. rewrite truthy_land_pow2_l, E1 by lia.
        rewrite truthy_land_pow2_l, E2 by lia.
        rewrite truthy_land_pow2_l, E3 by lia. reflexivity.
      - unfold start_bit. cbn [find]. rewrite E0, E1, E2, E3. reflexivity. }
  assert (Hm : 16 <= find_start 33 res 1).
  { do 4 rewrite find_start_S.
    change (Z.land 1 res) with (Z.land (2 ^ 0) res). rewrite truthy_land_pow2_l, E0 by lia.
    pow2_shifts. rewrite truthy_land_pow2_l, E1 by lia.
    rewrite truthy_land_pow2_l, E2 by lia.
    rewrite truthy_land_pow2_l, E3 by lia.
    apply find_start_late; [ assumption | lia ]. }
  unfold tpi_rx_decode, tpi_frame.
  destruct (Z.leb_spec 16 (find_start 33 res 1)); [ | lia ].
  unfold start_bit. do 4 rewrite find_cons. rewrite E0, E1, E2, E3. cbn [negb].
  destruct (find _ _) as [s|] eqn:Ef; [ | reflexivity ].
  apply find_some in Ef. destruct Ef as [Hin _].
  assert (4 <= s) by (cbn [In] in Hin; lia).
  destruct (Z.ltb_spec s 4); [ lia | reflexivity ].
Qed.

Lemma extract_tpi_data_value pin buf pos :
  extract_tpi_data pin buf pos =
  (value_lsb (map (fun k => truthy (GET_BITS_0 (rd buf (pos + k)) pin PIN_AVR_SDI))
                  tpi_cells),
   pos + 16).
Proof.
  unfold extract_tpi_data, tpi_cells. cbn [extract_tpi_data_loop map].
  replace (pos + 1 + 1 + 1) with (pos + 3) by lia.
  replace (pos + 3 + 1 + 1) with (pos + 5) by lia.
  replace (pos + 5 + 1 + 1) with (pos + 7) by lia.
  replace (pos + 7 + 1 + 1) with (pos + 9) by lia.
  replace (pos + 9 + 1 + 1) with (pos + 11) by lia.
  replace (pos + 11 + 1 + 1) with (pos + 13) by lia.
  replace (pos + 13 + 1 + 1) with (pos + 15) by lia.
  replace (pos + 15 + 1) with (pos + 16) by lia.
  generalize (truthy (GET_BITS_0 (rd buf (pos + 1)) pin PIN_AVR_SDI)).
  generalize (truthy (GET_BITS_0 (rd buf (pos + 3)) pin PIN_AVR_SDI)).
  generalize (truthy (GET_BITS_0 (rd buf (pos + 5)) pin PIN_AVR_SDI)).
  generalize (truthy (GET_BITS_0 (rd buf (pos + 7)) pin PIN_AVR_SDI)).
  generalize (truthy (GET_BITS_0 (rd buf (pos + 9)) pin PIN_AVR_SDI)).
  generalize (truthy (GET_BITS_0 (rd buf (pos + 11)) pin PIN_AVR_SDI)).
  generalize (truthy (GET_BITS_0 (rd buf (pos + 13)) pin PIN_AVR_SDI)).
  generalize (truthy (GET_BITS_0 (rd buf (pos + 15)) pin PIN_AVR_SDI)).
  intros b7 b6 b5 b4 b3 b2 b1 b0.
  destruct b0, b1, b2, b3, b4, b5, b6, b7; reflexivity.
Qed.

Lemma value_lsb_range bits :
  0 <= value_lsb bits < 2 ^ Z.of_nat (length bits).
Proof.
  induction bits as [|b bits IH].
  - cbn. lia.
  - cbn [value_lsb length]. rewrite Nat2Z.inj_succ, Z.pow_succ_r by lia.
    destruct b; cbn [Z.b2z]; lia.
Qed.

Lemma testbit_value_lsb bits : forall k,
  0 <= k -> Z.testbit (value_lsb bits) k = nth (Z.to_nat k) bits false.
Proof.
  induction bits as [|b bits IH]; intros k Hk.
  - cbn [value_lsb]. rewrite Z.bits_0. destruct (Z.to_nat k); reflexivity.
  - cbn [value_lsb].
    destruct (Z.eq_dec k 0) as [->|Hne].
    + cbn [Z.to_nat nth]. rewrite Z.add_comm, Z.testbit_0_r. reflexivity.
    + replace k with (Z.succ (k - 1)) at 1 by lia.
      rewrite Z.add_comm, Z.testbit_succ_r by lia.
      rewrite IH by lia.
      replace (Z.to_nat k) with (S (Z.to_nat (k - 1))) by lia. reflexivity.
Qed.

Lemma tpi_sample_bits pin buf :
  0 <= tpi_sample pin buf < 65536 /\
  forall k, 0 <= k < 16 ->
    Z.testbit (tpi_sample pin buf) k =
    truthy (GET_BITS_0 (rd buf (2 * k + 1)) pin PIN_AVR_SDI).
Proof.
  unfold tpi_sample. rewrite !extract_tpi_data_value.
  set (lo := value_lsb _). set (hi := value_lsb _).
  assert (Hlo : 0 <= lo < 2 ^ 8) by apply value_lsb_range.
  assert (Hhi : 0 <= hi < 2 ^ 8) by apply value_lsb_range.
  split.
  - split.
    + apply Z.lor_nonneg. split; [ lia | apply Z.shiftl_nonneg; lia ].
    + assert (Hs : 0 <= Z.shiftl hi 8 < 2 ^ 16).
      { rewrite Z.shiftl_mul_pow2 by lia. change (2 ^ 16) with (2 ^ 8 * 2 ^ 8). nia. }
      assert (Hl : 0 <= Z.lor lo (Z.shiftl hi 8)) by (apply Z.lor_nonneg; lia).
      destruct (Z.eq_dec (Z.lor lo (Z.shiftl hi 8)) 0) as [->|Hnz]; [ lia | ].
      change 65536 with (2 ^ 16). apply Z.log2_lt_pow2; [ lia | ].
      rewrite Z.log2_lor by lia.
      apply Z.max_lub_lt.
      * destruct (Z.eq_dec lo 0) as [->|]; [ cbn; lia | ].
        apply Z.log2_lt_pow2; lia.
      * destruct (Z.eq_dec (Z.shiftl hi 8) 0) as [->|]; [ cbn; lia | ].
        apply Z.log2_lt_pow2; lia.
  - intros k Hk. rewrite Z.lor_spec.
    destruct (Z.ltb_spec k 8).
    + rewrite Z.shiftl_spec_low, orb_false_r by lia.
      subst lo. rewrite testbit_value_lsb by lia.
      assert (Hc : k = 0 \/ k = 1 \/ k = 2 \/ k = 3 \/ k = 4 \/ k = 5 \/ k = 6 \/ k = 7) by lia.
      destruct Hc as [->|[->|[->|[->|[->|[->|[->| ->]]]]]]]; reflexivity.
    + rewrite Z.shiftl_spec by lia.
      assert (Hz : Z.testbit lo k = false).
      { destruct (Z.eq_dec lo 0) as [->|]; [ apply Z.bits_0 | ].
        apply Z.bits_above_log2; [ lia | ].
        apply Z.log2_lt_pow2; [ lia | ].
        apply Z.lt_le_trans with (2 ^ 8); [ lia | apply Z.pow_le_mono_r; lia ]. }
      rewrite Hz, orb_false_l. subst hi. rewrite testbit_value_lsb by lia.
      assert (Hc : k = 8 \/ k = 9 \/ k = 10 \/ k = 11 \/ k = 12 \/ k = 13 \/ k = 14 \/ k = 15) by lia.
      destruct Hc as [->|[->|[->|[->|[->|[->|[->| ->]]]]]]]; reflexivity.
Qed.

(** * Properties of the FIFO flow controller *)


Section MonadRules.
Context {T : Type}.

Lemma keeps_ret {A} (I : world T -> Prop) (a : A) : keeps I (ret a).
Proof. intros w Hw. exact Hw. Qed.

Lemma keeps_hang {A} (I : world T -> Prop) : keeps I (@hang T A).
Proof. intros w Hw. exact Hw. Qed.

Lemma keeps_bind {A B} (I : world T -> Prop) (c : M T A) (k : A -> M T B) :
  keeps I c -> (forall a, keeps I (k a)) -> keeps I (bind c k).
Proof.
  intros Hc Hk w Hw. unfold bind. specialize (Hc w Hw).
  destruct (c w) as [[a|] w']; cbn [snd] in *.
  - apply Hk. assumption.
  - assumption.
Qed.

Lemma keeps_get_drv (I : world T -> Prop) : keeps I get_drv.
Proof. intros w Hw. exact Hw. Qed.

Lemma keeps_get_image (I : world T -> Prop) : keeps I get_image.
Proof. intros w Hw. exact Hw. Qed.

Lemma total_ret {A} (P : world T -> Prop) (a : A) (Q : A -> world T -> Prop) :
  (forall w, P w -> Q a w) -> total P (ret a) Q.
Proof. intros HQ w Hw. exists a, w. split; [ reflexivity | auto ]. Qed.

Lemma total_bind {A B} (P : world T -> Prop) (c : M T A) (k : A -> M T B)
      (Q : A -> world T -> Prop) (R : B -> world T -> Prop) :
  total P c Q -> (forall a, total (Q a) (k a) R) -> total P (bind c k) R.
Proof.
  intros Hc Hk w Hw. destruct (Hc w Hw) as (a & w' & Hcw & HQ).
  destruct (Hk a w' HQ) as (b & w'' & Hkw & HR).
  exists b, w''. unfold bind. rewrite Hcw. split; assumption.
Qed.

Lemma total_weaken {A} (P P' : world T -> Prop) (c : M T A)
      (Q Q' : A -> world T -> Prop) :
  total P' c Q' -> (forall w, P w -> P' w) -> (forall a w, Q' a w -> Q a w) ->
  total P c Q.
Proof.
  intros Hc HP HQ w Hw. destruct (Hc w (HP w Hw)) as (a & w' & Hcw & Hq).
  exists a, w'. split; [ assumption | auto ].
Qed.

End MonadRules.


Section Steps.
Context {T : Type}.

Lemma Forall_snoc {A} (P : A -> Prop) l x : Forall P l -> P x -> Forall P (l ++ [x]).
Proof. intros Hl Hx. apply Forall_app. split; [ assumption | constructor; [ assumption | constructor ] ]. Qed.

Lemma extends_refl ok (w : world T) : extends ok w w.
Proof. exists []. split; [ symmetry; apply app_nil_r | constructor ]. Qed.

Lemma extends_trans ok (w1 w2 w3 : world T) :
  extends ok w1 w2 -> extends ok w2 w3 -> extends ok w1 w3.
Proof.
  intros (e1 & H1 & F1) (e2 & H2 & F2). exists (e1 ++ e2). split.
  - rewrite H2, H1, app_assoc. reflexivity.
  - apply Forall_app. split; assumption.
Qed.

Lemma extends_emit ok (w : world T) p d i e :
  ok e -> extends ok w (mkWorld p d i (trace w ++ [e])).
Proof. intros He. exists [e]. split; [ reflexivity | constructor; [ assumption | constructor ] ]. Qed.

Lemma extends_same ok (w : world T) p d i : extends ok w (mkWorld p d i (trace w)).
Proof. exists []. split; [ symmetry; apply app_nil_r | constructor ]. Qed.

Lemma bystander_refl (w : world T) : bystander w w.
Proof. unfold bystander. repeat split; try reflexivity. apply extends_refl. Qed.

Lemma bystander_trans (w1 w2 w3 : world T) :
  bystander w1 w2 -> bystander w2 w3 -> bystander w1 w3.
Proof.
  unfold bystander. intros (a1 & b1 & c1 & d1 & e1 & f1) (a2 & b2 & c2 & d2 & e2 & f2).
  repeat split; try congruence. eapply extends_trans; eassumption.
Qed.

End Steps.

Section RingFacts.

Lemma put_fold_fields l : forall p,
  let p' := fold_left ft245r_rx_buf_put l p in
  rx_pending p' = rx_pending p /\ tx_len p' = tx_len p /\ tx_buf p' = tx_buf p
  /\ rx_discard p' = rx_discard p /\ ft245r_out p' = ft245r_out p
  /\ ft245r_ddr p' = ft245r_ddr p /\ req_queue p' = req_queue p
  /\ req_pool p' = req_pool p
  /\ rx_len p' = rx_len p + Z.of_nat (length l).
Proof.
  induction l as [|x l IH]; intros p; cbn [fold_left length].
  - cbn. repeat split; lia.
  - specialize (IH (ft245r_rx_buf_put p x)). cbn zeta in IH.
    destruct IH as (a & b & c & d & e & f & g & h & i).
    cbn zeta. rewrite a, b, c, d, e, f, g, h, i. cbn. repeat split; lia.
Qed.

Lemma cells_length raw k : length (cells raw k) = Z.to_nat k.
Proof. unfold cells. rewrite length_map, length_seq. reflexivity. Qed.

End RingFacts.

Section Fifo.
Context {T : Type} {tr : FtdiTransport T}.

Lemma fifo_only_refl (w : world T) : fifo_only w w.
Proof. split; [ apply bystander_refl | repeat split ]. Qed.

Lemma fifo_only_trans (w1 w2 w3 : world T) :
  fifo_only w1 w2 -> fifo_only w2 w3 -> fifo_only w1 w3.
Proof.
  intros (a1 & b1 & c1 & d1) (a2 & b2 & c2 & d2).
  split; [ eapply bystander_trans; eassumption | repeat split; congruence ].
Qed.

Lemma fill_fifo_only (w : world T) : fifo_only w (snd (ft245r_fill w)).
Proof.
  unfold ft245r_fill. monad_unfold.
  destruct (ftdi_read_data (dev w) (rx_pending (drv w))) as [[nread raw] d'].
  cbn [fst snd drv dev image trace].
  destruct (nread <? 0); cbn [fst snd drv dev image trace].
  - unfold fifo_only, bystander. cbn [drv image].
    repeat split. apply extends_emit. reflexivity.
  - pose proof (put_fold_fields (cells raw nread)
                  (set_pending (drv w) (rx_pending (drv w) - nread))) as Hf.
    cbn zeta in Hf. destruct Hf as (a & b & c & d & e & f & g & h & i).
    unfold fifo_only, bystander. cbn [drv image].
    rewrite b, c, d, e, f, g, h.
    repeat split. apply extends_emit. reflexivity.
Qed.

Lemma fifo_only_step (w : world T) p d e :
  is_wire e ->
  tx_len p = tx_len (drv w) -> tx_buf p = tx_buf (drv w) ->
  rx_discard p = rx_discard (drv w) -> ft245r_out p = ft245r_out (drv w) ->
  ft245r_ddr p = ft245r_ddr (drv w) -> req_queue p = req_queue (drv w) ->
  req_pool p = req_pool (drv w) ->
  fifo_only w (mkWorld p d (image w) (trace w ++ [e])).
Proof.
  intros. unfold fifo_only, bystander. cbn [drv image].
  repeat split; try assumption. apply extends_emit. assumption.
Qed.

Lemma flush_loop_fifo_only k : forall src len (w : world T),
  fifo_only w (snd (ft245r_flush_loop k src len w)).
Proof.
  induction k as [|k IH]; intros src len w; cbn [ft245r_flush_loop].
  - destruct (0 <? len); apply fifo_only_refl.
  - destruct (0 <? len); [ | apply fifo_only_refl ].
    monad_unfold.
    destruct (FT245R_MIN_FIFO_SIZE - rx_pending (drv w) <=? 0).
    + pose proof (fill_fifo_only w) as Hf.
      destruct (ft245r_fill w) as [[a1|] w1]; cbn [fst snd] in *; [ | exact Hf ].
      cbn [andb]. destruct (a1 <? 0); cbn [fst snd]; [ exact Hf | ].
      match goal with
      | |- context [ftdi_write_data ?a ?b ?c] => destruct (ftdi_write_data a b c) as [rv d2]
      end.
      cbn [fst snd drv dev image trace].
      destruct (negb _); cbn [fst snd].
      * eapply fifo_only_trans; [ exact Hf | ].
        apply fifo_only_step; try reflexivity; reflexivity.
      * eapply fifo_only_trans; [ exact Hf | ].
        eapply fifo_only_trans; [ | apply IH ].
        apply (fifo_only_step w1); try reflexivity; reflexivity.
    + cbn [andb].
      match goal with
      | |- context [ftdi_write_data ?a ?b ?c] => destruct (ftdi_write_data a b c) as [rv d2]
      end.
      cbn [fst snd drv dev image trace].
      destruct (negb _); cbn [fst snd].
      * apply fifo_only_step; try reflexivity; reflexivity.
      * eapply fifo_only_trans; [ | apply IH ].
        apply (fifo_only_step w); try reflexivity; reflexivity.
Qed.

Lemma flush_fifo_only fuel (w : world T) : fifo_only w (snd (ft245r_flush fuel w)).
Proof.
  unfold ft245r_flush. monad_unfold.
  destruct (tx_len (drv w) =? 0); [ apply fifo_only_refl | apply flush_loop_fifo_only ].
Qed.

Lemma fifo_only_same (w : world T) p :
  tx_len p = tx_len (drv w) -> tx_buf p = tx_buf (drv w) ->
  rx_discard p = rx_discard (drv w) -> ft245r_out p = ft245r_out (drv w) ->
  ft245r_ddr p = ft245r_ddr (drv w) -> req_queue p = req_queue (drv w) ->
  req_pool p = req_pool (drv w) ->
  fifo_only w (mkWorld p (dev w) (image w) (trace w)).
Proof.
  intros. unfold fifo_only, bystander. cbn [drv image].
  repeat split; try assumption. apply extends_same.
Qed.

Lemma fifo_only_bystander (w w' : world T) : fifo_only w w' -> bystander w w'.
Proof. intros [Hb _]. exact Hb. Qed.

Lemma bystander_same (w : world T) p :
  ft245r_out p = ft245r_out (drv w) ->
  ft245r_ddr p = ft245r_ddr (drv w) -> req_queue p = req_queue (drv w) ->
  req_pool p = req_pool (drv w) ->
  bystander w (mkWorld p (dev w) (image w) (trace w)).
Proof.
  intros. unfold bystander. cbn [drv image].
  repeat split; try assumption. apply extends_same.
Qed.

Lemma send2_bystander fuel buf d : forall w : world T,
  bystander w (snd (ft245r_send2 fuel buf d w)).
Proof.
  induction buf as [|b rest IH]; intros w; cbn [ft245r_send2].
  - apply bystander_refl.
  - monad_unfold.
    match goal with
    | |- context [FT245R_MIN_FIFO_SIZE <=? ?x] => destruct (FT245R_MIN_FIFO_SIZE <=? x)
    end.
    + match goal with
      | |- context [ft245r_flush fuel ?w1] =>
          pose proof (flush_fifo_only fuel w1) as Hf;
          assert (Hb1 : bystander w w1)
            by (apply bystander_same; destruct d; reflexivity);
          destruct (ft245r_flush fuel w1) as [[r|] w2]
      end; cbn [fst snd] in *.
      * eapply bystander_trans; [ exact Hb1 | ].
        eapply bystander_trans; [ apply fifo_only_bystander; exact Hf | ].
        eapply bystander_trans; [ | apply IH ].
        apply bystander_same; reflexivity.
      * eapply bystander_trans; [ exact Hb1 | apply fifo_only_bystander; exact Hf ].
    + cbn [fst snd]. eapply bystander_trans; [ | apply IH ].
      apply bystander_same; destruct d; reflexivity.
Qed.

Lemma fill_and_get_loop_fifo_only k : forall w : world T,
  fifo_only w (snd (ft245r_rx_buf_fill_and_get_loop k w)).
Proof.
  induction k as [|k IH]; intros w; cbn [ft245r_rx_buf_fill_and_get_loop];
    monad_unfold.
  - destruct (rx_len (drv w) =? 0); cbn [fst snd];
      [ apply fifo_only_refl | apply fifo_only_same; reflexivity ].
  - destruct (rx_len (drv w) =? 0); cbn [fst snd];
      [ | apply fifo_only_same; reflexivity ].
    pose proof (fill_fifo_only w) as Hf.
    destruct (ft245r_fill w) as [[r|] w1]; cbn [fst snd] in *; [ | exact Hf ].
    destruct (r <? 0); cbn [fst snd]; [ exact Hf | ].
    eapply fifo_only_trans; [ exact Hf | apply IH ].
Qed.

Lemma recv_discard_bystander fuel k : forall w : world T,
  bystander w (snd (recv_discard fuel k w))
  /\ tx_len (drv (snd (recv_discard fuel k w))) = tx_len (drv w).
Proof.
  induction k as [|k IH]; intros w; cbn [recv_discard]; monad_unfold.
  - split; [ apply bystander_refl | reflexivity ].
  - unfold ft245r_rx_buf_fill_and_get.
    pose proof (fill_and_get_loop_fifo_only fuel w) as Hf.
    destruct (ft245r_rx_buf_fill_and_get_loop fuel w) as [[r|] w1]; cbn [fst snd] in *.
    + destruct Hf as (Hb & Ht & _).
      destruct (r <? 0); cbn [fst snd]; [ split; assumption | ].
      match goal with
      | |- context [recv_discard fuel k ?w2] => destruct (IH w2) as [Hb2 Ht2]
      end.
      split.
      * eapply bystander_trans; [ exact Hb | ].
        eapply bystander_trans; [ | exact Hb2 ].
        apply bystander_same; reflexivity.
      * rewrite Ht2. cbn [drv tx_len set_discard]. exact Ht.
    + destruct Hf as (Hb & Ht & _). split; assumption.
Qed.

Lemma recv_store_fifo_only fuel k : forall got (w : world T),
  fifo_only w (snd (recv_store fuel k got w)).
Proof.
  induction k as [|k IH]; intros got w; cbn [recv_store]; monad_unfold.
  - apply fifo_only_refl.
  - unfold ft245r_rx_buf_fill_and_get.
    pose proof (fill_and_get_loop_fifo_only fuel w) as Hf.
    destruct (ft245r_rx_buf_fill_and_get_loop fuel w) as [[r|] w1]; cbn [fst snd] in *;
      [ | exact Hf ].
    destruct (r <? 0); cbn [fst snd]; [ exact Hf | ].
    eapply fifo_only_trans; [ exact Hf | apply IH ].
Qed.

Lemma recv_bystander fuel buf len (w : world T) :
  bystander w (snd (ft245r_recv fuel buf len w)).
Proof.
  unfold ft245r_recv. monad_unfold.
  pose proof (flush_fifo_only fuel w) as Hf.
  destruct (ft245r_flush fuel w) as [[r|] w1]; cbn [fst snd] in *;
    [ | apply fifo_only_bystander; exact Hf ].
  eapply bystander_trans; [ apply fifo_only_bystander; exact Hf | ].
  match goal with
  | |- context [ft245r_fill ?w2] =>
      assert (Hb2 : bystander w1 w2) by (apply bystander_same; reflexivity);
      pose proof (fill_fifo_only w2) as Hf2;
      destruct (ft245r_fill w2) as [[r3|] w3]
  end; cbn [fst snd] in *.
  2:{ eapply bystander_trans; [ exact Hb2 | apply fifo_only_bystander; exact Hf2 ]. }
  eapply bystander_trans; [ exact Hb2 | ].
  eapply bystander_trans; [ apply fifo_only_bystander; exact Hf2 | ].
  destruct (recv_discard_bystander fuel (Z.to_nat (rx_discard (drv w3))) w3) as [Hd _].
  destruct (recv_discard fuel (Z.to_nat (rx_discard (drv w3))) w3) as [[r4|] w4];
    cbn [fst snd] in *; [ | exact Hd ].
  destruct (r4 <? 0); cbn [fst snd]; [ exact Hd | ].
  eapply bystander_trans; [ exact Hd | ].
  pose proof (recv_store_fifo_only fuel (Z.to_nat len) [] w4) as Hs.
  destruct (recv_store fuel (Z.to_nat len) [] w4) as [[[rc got]|] w5];
    cbn [fst snd] in *; apply fifo_only_bystander; exact Hs.
Qed.

Hypothesis coop : cooperative tr.

Lemma fill_coop (w : world T) :
  fifo_inv w ->
  exists w', ft245r_fill w = (Ret (rx_pending (drv w)), w')
             /\ fifo_inv w'
             /\ rx_pending (drv w') = 0
             /\ rx_len (drv w') = rx_len (drv w) + rx_pending (drv w).
Proof.
  intros [Hp Ht]. unfold ft245r_fill. monad_unfold.
  destruct coop as [Hread _].
  specialize (Hread (dev w) (rx_pending (drv w)) (proj1 Hp)).
  destruct (ftdi_read_data (dev w) (rx_pending (drv w))) as [[nread raw] d'].
  cbn [fst] in Hread. subst nread. cbn [fst snd drv dev image trace].
  destruct (Z.ltb_spec (rx_pending (drv w)) 0); [ lia | ].
  cbn [fst snd drv dev image trace].
  eexists. split; [ reflexivity | ].
  pose proof (put_fold_fields (cells raw (rx_pending (drv w)))
                (set_pending (drv w) (rx_pending (drv w) - rx_pending (drv w)))) as Hf.
  cbn zeta in Hf. destruct Hf as (a & b & c & d & e & f & g & h & i).
  unfold fifo_inv. cbn [drv trace]. rewrite a, i, cells_length.
  cbn [rx_pending rx_len set_pending].
  unfold FT245R_MIN_FIFO_SIZE in *.
  clear a b c d e f g h i.
  repeat split; try lia.
  apply Forall_snoc; [ assumption | ].
  unfold transfer_ok, FT245R_MIN_FIFO_SIZE. lia.
Qed.

Lemma flush_loop_coop k : forall src len (w : world T),
  fifo_inv w ->
  let r := ft245r_flush_loop k src len w in
  fifo_inv (snd r)
  /\ rx_len (drv w) <= rx_len (drv (snd r))
  /\ (len <= Z.of_nat k ->
      fst r = Ret 0
      /\ rx_len (drv (snd r)) + rx_pending (drv (snd r)) =
         rx_len (drv w) + rx_pending (drv w) + Z.max 0 len).
Proof.
  induction k as [|k IH]; intros src len w Hinv; cbn zeta.
  - cbn [ft245r_flush_loop]. destruct (Z.ltb_spec 0 len); cbn [hang ret fst snd].
    + split; [ exact Hinv | split; [ lia | intros; lia ] ].
    + split; [ exact Hinv | split; [ lia | intros _; split; [ reflexivity | lia ] ] ].
  - cbn [ft245r_flush_loop]. destruct (Z.ltb_spec 0 len).
    2:{ cbn [ret fst snd].
        split; [ exact Hinv | split; [ lia | intros _; split; [ reflexivity | lia ] ] ]. }
    monad_unfold.
    destruct (Z.leb_spec (FT245R_MIN_FIFO_SIZE - rx_pending (drv w)) 0) as [Hfull|Hroom].
    + (* FIFO full: read first *)
      destruct (fill_coop w Hinv) as (w1 & E1 & Hinv1 & Hp1 & Hl1).
      rewrite E1. cbn [andb].
      assert (Hp : rx_pending (drv w) = FT245R_MIN_FIFO_SIZE)
        by (destruct Hinv as [? _]; lia).
      destruct (Z.ltb_spec (rx_pending (drv w)) 0);
        [ unfold FT245R_MIN_FIFO_SIZE in *; lia | ].
      set (avail := if len <? rx_pending (drv w) then len else rx_pending (drv w)).
      assert (Hav : 0 < avail <= FT245R_MIN_FIFO_SIZE /\ avail <= len).
      { subst avail. unfold FT245R_MIN_FIFO_SIZE in *.
        destruct (Z.ltb_spec len (rx_pending (drv w))); lia. }
      destruct coop as [_ Hwrite].
      specialize (Hwrite (dev w1) (slice (tx_buf (drv w1)) src avail) avail).
      destruct (ftdi_write_data (dev w1) (slice (tx_buf (drv w1)) src avail) avail)
        as [rv d2]. cbn [fst] in Hwrite. subst rv.
      cbn [fst snd drv dev image trace]. rewrite Z.eqb_refl. cbn [negb].
      match goal with
      | |- context [ft245r_flush_loop k ?s ?l ?w2] =>
          set (wn := w2);
          assert (Hl2 : rx_len (drv wn) = rx_len (drv w1)) by reflexivity;
          assert (Hp2 : rx_pending (drv wn) = rx_pending (drv w1) + avail)
            by reflexivity;
          assert (Hinv2 : fifo_inv wn);
          [ | specialize (IH s l wn Hinv2) ]
      end.
      { unfold fifo_inv. subst wn. cbn [drv trace rx_pending set_pending].
        destruct Hinv1 as [Hq Ht1]. split; [ lia | ].
        apply Forall_snoc; [ assumption | unfold transfer_ok, FT245R_MIN_FIFO_SIZE in *; lia ]. }
      clearbody wn. cbn zeta in IH. destruct IH as (I1 & I2 & I3).
      split; [ exact I1 | ]. split; [ lia | ].
      intros Hk. destruct I3 as [I3 I4]; [ lia | ].
      split; [ exact I3 | lia ].
    + (* room in the FIFO *)
      cbn [andb].
      set (a0 := FT245R_MIN_FIFO_SIZE - rx_pending (drv w)) in *.
      set (avail := if len <? a0 then len else a0).
      assert (Hav : 0 < avail <= a0 /\ avail <= len).
      { subst avail. destruct (Z.ltb_spec len a0); lia. }
      destruct coop as [_ Hwrite].
      specialize (Hwrite (dev w) (slice (tx_buf (drv w)) src avail) avail).
      destruct (ftdi_write_data (dev w) (slice (tx_buf (drv w)) src avail) avail)
        as [rv d2]. cbn [fst] in Hwrite. subst rv.
      cbn [fst snd drv dev image trace]. rewrite Z.eqb_refl. cbn [negb].
      match goal with
      | |- context [ft245r_flush_loop k ?s ?l ?w2] =>
          set (wn := w2);
          assert (Hl2 : rx_len (drv wn) = rx_len (drv w)) by reflexivity;
          assert (Hp2 : rx_pending (drv wn) = rx_pending (drv w) + avail)
            by reflexivity;
          assert (Hinv2 : fifo_inv wn);
          [ | specialize (IH s l wn Hinv2) ]
      end.
      { unfold fifo_inv. subst wn. cbn [drv trace rx_pending set_pending].
        destruct Hinv as [Hq Ht1]. subst a0. split; [ lia | ].
        apply Forall_snoc; [ assumption | unfold transfer_ok, FT245R_MIN_FIFO_SIZE in *; lia ]. }
      clearbody wn. cbn zeta in IH. destruct IH as (I1 & I2 & I3).
      split; [ exact I1 | ]. split; [ lia | ].
      intros Hk. destruct I3 as [I3 I4]; [ lia | ].
      split; [ exact I3 | lia ].
Qed.

Variable fuel : nat.

Lemma flush_coop (w : world T) :
  fifo_inv w ->
  let r := ft245r_flush fuel w in
  fifo_inv (snd r)
  /\ rx_len (drv w) <= rx_len (drv (snd r))
  /\ (tx_len (drv w) <= Z.of_nat fuel ->
      fst r = Ret 0
      /\ rx_len (drv (snd r)) + rx_pending (drv (snd r)) =
         rx_len (drv w) + rx_pending (drv w) + Z.max 0 (tx_len (drv w))).
Proof.
  intros Hinv. unfold ft245r_flush. monad_unfold.
  destruct (Z.eqb_spec (tx_len (drv w)) 0) as [E|E].
  - cbn [fst snd]. rewrite E.
    split; [ exact Hinv | split; [ lia | intros _; split; [ reflexivity | lia ] ] ].
  - apply flush_loop_coop. assumption.
Qed.

Lemma send2_keeps_fifo buf d : keeps fifo_inv (@ft245r_send2 T tr fuel buf d).
Proof.
  induction buf as [|b rest IH]; intros w Hinv; cbn [ft245r_send2].
  - exact Hinv.
  - monad_unfold.
    match goal with
    | |- context [FT245R_MIN_FIFO_SIZE <=? ?x] => destruct (FT245R_MIN_FIFO_SIZE <=? x)
    end.
    + match goal with
      | |- context [ft245r_flush fuel ?w1] =>
          assert (Hinv1 : fifo_inv w1)
            by (destruct d; exact Hinv);
          pose proof (flush_coop w1 Hinv1) as Hf;
          destruct (ft245r_flush fuel w1) as [[r|] w2]
      end; cbn zeta in Hf; cbn [fst snd] in *.
      * apply IH. destruct Hf as [Hf _]. exact Hf.
      * destruct Hf as [Hf _]. exact Hf.
    + cbn [fst snd]. apply IH. destruct d; exact Hinv.
Qed.

Lemma get_fields p :
  let p' := snd (ft245r_rx_buf_get p) in
  rx_pending p' = rx_pending p /\ tx_len p' = tx_len p
  /\ rx_discard p' = rx_discard p /\ rx_len p' = rx_len p - 1
  /\ 0 <= fst (ft245r_rx_buf_get p) < 256.
Proof.
  cbn. repeat split; try reflexivity; apply Z.mod_pos_bound; lia.
Qed.

Lemma fill_and_get_loop_keeps k : keeps fifo_inv (@ft245r_rx_buf_fill_and_get_loop T tr k).
Proof.
  induction k as [|k IH]; intros w Hinv; cbn [ft245r_rx_buf_fill_and_get_loop];
    monad_unfold.
  - destruct (rx_len (drv w) =? 0); cbn [fst snd]; [ exact Hinv | ].
    destruct Hinv as [Hp Ht]. split; assumption.
  - destruct (rx_len (drv w) =? 0); cbn [fst snd].
    + destruct (fill_coop w Hinv) as (w1 & E1 & Hinv1 & _).
      rewrite E1. destruct (rx_pending (drv w) <? 0); cbn [fst snd].
      * exact Hinv1.
      * apply IH. exact Hinv1.
    + destruct Hinv as [Hp Ht]. split; assumption.
Qed.

Lemma recv_discard_keeps k : keeps fifo_inv (@recv_discard T tr fuel k).
Proof.
  induction k as [|k IH]; intros w Hinv; cbn [recv_discard]; monad_unfold.
  - exact Hinv.
  - unfold ft245r_rx_buf_fill_and_get.
    pose proof (fill_and_get_loop_keeps fuel w Hinv) as Hk.
    destruct (ft245r_rx_buf_fill_and_get_loop fuel w) as [[r|] w1]; cbn [fst snd] in *.
    + destruct (r <? 0); cbn [fst snd]; [ exact Hk | ].
      apply IH. destruct Hk as [Hp Ht]. split; assumption.
    + exact Hk.
Qed.

Lemma recv_store_keeps k : forall got, keeps fifo_inv (@recv_store T tr fuel k got).
Proof.
  induction k as [|k IH]; intros got w Hinv; cbn [recv_store]; monad_unfold.
  - exact Hinv.
  - unfold ft245r_rx_buf_fill_and_get.
    pose proof (fill_and_get_loop_keeps fuel w Hinv) as Hk.
    destruct (ft245r_rx_buf_fill_and_get_loop fuel w) as [[r|] w1]; cbn [fst snd] in *.
    + destruct (r <? 0); cbn [fst snd]; [ exact Hk | ].
      apply IH. exact Hk.
    + exact Hk.
Qed.

Lemma recv_keeps_fifo buf len : keeps fifo_inv (@ft245r_recv T tr fuel buf len).
Proof.
  intros w Hinv. unfold ft245r_recv. monad_unfold.
  pose proof (flush_coop w Hinv) as Hf.
  destruct (ft245r_flush fuel w) as [[r|] w1]; cbn zeta in Hf; cbn [fst snd] in *;
    [ | apply Hf ].
  destruct Hf as [Hinv1 _].
  match goal with
  | |- context [ft245r_fill ?w2] =>
      assert (Hinv2 : fifo_inv w2) by exact Hinv1;
      destruct (fill_coop w2 Hinv2) as (w3 & E3 & Hinv3 & _); rewrite E3
  end.
  pose proof (recv_discard_keeps (Z.to_nat (rx_discard (drv w3))) w3 Hinv3) as Hd.
  destruct (recv_discard fuel (Z.to_nat (rx_discard (drv w3))) w3) as [[r4|] w4];
    cbn [fst snd] in *; [ | exact Hd ].
  destruct (r4 <? 0); cbn [fst snd]; [ exact Hd | ].
  pose proof (recv_store_keeps (Z.to_nat len) [] w4 Hd) as Hs.
  destruct (recv_store fuel (Z.to_nat len) [] w4) as [[[rc got]|] w5];
    cbn [fst snd] in *; exact Hs.
Qed.

Lemma run_ops_keeps_fifo ops : keeps fifo_inv (@run_ops T tr fuel ops).
Proof.
  induction ops as [|op rest IH]; intros w Hinv; cbn [run_ops].
  - exact Hinv.
  - apply keeps_bind; [ | intros _; exact IH | exact Hinv ].
    destruct op as [buf d | len]; cbn [run_op].
    + apply keeps_bind; [ apply send2_keeps_fifo | intros; apply keeps_ret ].
    + apply keeps_bind; [ apply recv_keeps_fifo | intros; apply keeps_ret ].
Qed.

Hypothesis enough : (128 <= fuel)%nat.

Lemma fifo_inv_same (w w' : world T) :
  rx_pending (drv w') = rx_pending (drv w) -> trace w' = trace w ->
  fifo_inv w -> fifo_inv w'.
Proof. unfold fifo_inv. intros -> ->. auto. Qed.

Lemma flush_total (w : world T) :
  fifo_inv w -> 0 <= tx_len (drv w) <= FT245R_MIN_FIFO_SIZE -> 0 <= rx_len (drv w) ->
  exists w', ft245r_flush fuel w = (Ret 0, w')
             /\ fifo_inv w' /\ fifo_only w w'
             /\ 0 <= rx_len (drv w')
             /\ rx_len (drv w') + rx_pending (drv w') = credit (drv w).
Proof.
  intros Hinv Htx Hrx.
  pose proof (flush_coop w Hinv) as Hc. pose proof (flush_fifo_only fuel w) as Hf.
  destruct (ft245r_flush fuel w) as [o w']. cbn zeta in Hc. cbn [fst snd] in *.
  destruct Hc as (H1 & H2 & H3).
  destruct H3 as [-> H3]; [ unfold FT245R_MIN_FIFO_SIZE in *; lia | ].
  exists w'. split; [ reflexivity | ].
  split; [ exact H1 | ]. split; [ exact Hf | ].
  destruct Hf as (Hb & Ht & Htb & Hd).
  split; [ lia | unfold credit; lia ].
Qed.

Lemma send2_total buf d : forall w : world T,
  ready w ->
  exists w', ft245r_send2 fuel buf d w = (Ret 0, w')
             /\ ready w' /\ bystander w w'
             /\ credit (drv w') = credit (drv w) + Z.of_nat (length buf)
             /\ rx_discard (drv w') =
                rx_discard (drv w) + (if d then Z.of_nat (length buf) else 0).
Proof.
  induction buf as [|b rest IH]; intros w Hr; cbn [ft245r_send2 length].
  - exists w. split; [ reflexivity | ]. split; [ exact Hr | ].
    split; [ apply bystander_refl | ]. destruct d; split; lia.
  - monad_unfold.
    set (p1 := if d then set_discard (drv w) (rx_discard (drv w) + 1) else drv w).
    assert (Hp1 : rx_pending p1 = rx_pending (drv w) /\ tx_len p1 = tx_len (drv w)
                  /\ rx_len p1 = rx_len (drv w) /\ ft245r_out p1 = ft245r_out (drv w)
                  /\ ft245r_ddr p1 = ft245r_ddr (drv w)
                  /\ req_queue p1 = req_queue (drv w) /\ req_pool p1 = req_pool (drv w)
                  /\ rx_discard p1 = rx_discard (drv w) + (if d then 1 else 0)).
    { subst p1. destruct d; cbn; repeat split; lia. }
    destruct Hp1 as (Ha & Hb & Hc & Hd & He & Hf & Hg & Hh).
    destruct Hr as (Hinv & Htx & Hrx).
    cbn [tx_len set_tx].
    destruct (Z.leb_spec FT245R_MIN_FIFO_SIZE (tx_len p1 + 1)) as [Hfull|Hroom].
    + match goal with
      | |- context [ft245r_flush fuel ?w1] =>
          destruct (flush_total w1) as (w2 & E2 & Hinv2 & Hfo & Hrx2 & Hcr)
      end.
      { apply (fifo_inv_same w); [ exact Ha | reflexivity | exact Hinv ]. }
      { cbn [drv tx_len set_tx]. unfold FT245R_MIN_FIFO_SIZE in *. lia. }
      { cbn [drv rx_len set_tx]. lia. }
      rewrite E2. cbn [fst snd drv dev image trace].
      destruct Hfo as ((Ho2 & Hd2 & Hq2 & Hpl2 & Hi2 & He2) & Ht2 & Htb2 & Hdi2).
      cbn [drv image tx_len set_tx rx_discard ft245r_out ft245r_ddr req_queue req_pool] in *.
      match goal with
      | |- context [ft245r_send2 fuel rest d ?w3] =>
          destruct (IH w3) as (w4 & E4 & Hr4 & Hb4 & Hc4 & Hd4)
      end.
      { split; [ exact Hinv2 | ]. cbn [drv tx_len set_tx rx_len].
        unfold FT245R_MIN_FIFO_SIZE. split; lia. }
      rewrite E4. exists w4. split; [ reflexivity | ].
      split; [ exact Hr4 | ].
      unfold credit in *. cbn [drv tx_len set_tx rx_len rx_pending rx_discard] in *.
      split.
      * eapply bystander_trans; [ | exact Hb4 ].
        unfold bystander. cbn [drv image ft245r_out ft245r_ddr req_queue req_pool set_tx].
        repeat split; try congruence.
        destruct He2 as (evs & Hevs & Hok). exists evs. split; assumption.
      * unfold FT245R_MIN_FIFO_SIZE in *.
        split; [ | destruct d; lia ]. lia.
    + cbn [fst snd].
      match goal with
      | |- context [ft245r_send2 fuel rest d ?w3] =>
          destruct (IH w3) as (w4 & E4 & Hr4 & Hb4 & Hc4 & Hd4)
      end.
      { split; [ apply (fifo_inv_same w); [ exact Ha | reflexivity | exact Hinv ] | ].
        cbn [drv tx_len set_tx rx_len]. split; lia. }
      rewrite E4. exists w4. split; [ reflexivity | ].
      split; [ exact Hr4 | ].
      unfold credit in *. cbn [drv tx_len set_tx rx_len rx_pending rx_discard] in *.
      split.
      * eapply bystander_trans; [ | exact Hb4 ].
        unfold bystander. cbn [drv image ft245r_out ft245r_ddr req_queue req_pool set_tx].
        repeat split; try congruence. apply extends_same.
      * split; [ | destruct d; lia ]. lia.
Qed.

Lemma get_ready k (w : world T) :
  ready w -> rx_len (drv w) <> 0 ->
  exists b w', ft245r_rx_buf_fill_and_get_loop k w = (Ret b, w')
               /\ 0 <= b < 256 /\ ready w' /\ fifo_only w w'
               /\ rx_len (drv w') + rx_pending (drv w') =
                  rx_len (drv w) + rx_pending (drv w) - 1.
Proof.
  intros (Hinv & Htx & Hrx) Hne.
  destruct k; cbn [ft245r_rx_buf_fill_and_get_loop]; monad_unfold;
    (destruct (Z.eqb_spec (rx_len (drv w)) 0); [ contradiction | ]);
    cbn [fst snd];
    (eexists; eexists; split; [ reflexivity | ]);
    (split; [ apply Z.mod_pos_bound; lia | ]);
    (split; [ split; [ exact Hinv | cbn [drv tx_len rx_len set_ring]; split; lia ] | ]);
    (split; [ apply fifo_only_same; reflexivity | cbn [drv rx_len rx_pending set_ring]; lia ]).
Qed.

Lemma fill_and_get_total (w : world T) :
  ready w -> 0 < rx_len (drv w) + rx_pending (drv w) ->
  exists b w', ft245r_rx_buf_fill_and_get fuel w = (Ret b, w')
               /\ 0 <= b < 256 /\ ready w' /\ fifo_only w w'
               /\ rx_len (drv w') + rx_pending (drv w') =
                  rx_len (drv w) + rx_pending (drv w) - 1.
Proof.
  intros Hr Hpos. unfold ft245r_rx_buf_fill_and_get.
  destruct (Z.eq_dec (rx_len (drv w)) 0) as [Hz|Hnz].
  2:{ apply get_ready; assumption. }
  assert (Hfuel : exists k, fuel = S k) by (exists (pred fuel); lia).
  destruct Hfuel as [k Hfuel]. rewrite Hfuel.
  cbn [ft245r_rx_buf_fill_and_get_loop]. monad_unfold.
  rewrite Hz. cbn [Z.eqb].
  destruct Hr as (Hinv & Htx & Hrx).
  destruct (fill_coop w Hinv) as (w1 & E1 & Hinv1 & Hp1 & Hl1).
  pose proof (fill_fifo_only w) as Hfo. rewrite E1 in *. cbn [fst snd] in Hfo.
  destruct (Z.ltb_spec (rx_pending (drv w)) 0); [ lia | ].
  destruct (get_ready k w1) as (b & w2 & E2 & Hb & Hr2 & Hfo2 & Hs2).
  { split; [ exact Hinv1 | ]. destruct Hfo as (_ & Ht & _). rewrite Ht. split; lia. }
  { lia. }
  rewrite E2. exists b, w2. split; [ reflexivity | ].
  split; [ exact Hb | ]. split; [ exact Hr2 | ].
  split; [ eapply fifo_only_trans; eassumption | lia ].
Qed.

Lemma recv_discard_total k : forall w : world T,
  ready w -> Z.of_nat k <= rx_len (drv w) + rx_pending (drv w) ->
  exists w', recv_discard fuel k w = (Ret 0, w')
             /\ ready w' /\ bystander w w'
             /\ tx_len (drv w') = tx_len (drv w)
             /\ rx_discard (drv w') = rx_discard (drv w) - Z.of_nat k
             /\ rx_len (drv w') + rx_pending (drv w') =
                rx_len (drv w) + rx_pending (drv w) - Z.of_nat k.
Proof.
  induction k as [|k IH]; intros w Hr Hk; cbn [recv_discard].
  - exists w. split; [ reflexivity | ]. split; [ exact Hr | ].
    split; [ apply bystander_refl | ]. cbn. repeat split; lia.
  - monad_unfold.
    destruct (fill_and_get_total w Hr) as (b & w1 & E1 & Hb & Hr1 & Hfo1 & Hs1); [ lia | ].
    rewrite E1. destruct (Z.ltb_spec b 0); [ lia | ].
    cbn [fst snd drv dev image trace].
    destruct Hfo1 as (Hby1 & Ht1 & Htb1 & Hd1).
    match goal with
    | |- context [recv_discard fuel k ?w2] =>
        destruct (IH w2) as (w3 & E3 & Hr3 & Hby3 & Ht3 & Hd3 & Hs3)
    end.
    { destruct Hr1 as (Hi1 & Htx1 & Hrx1). split; [ exact Hi1 | ].
      cbn [drv tx_len rx_len set_discard]. split; assumption. }
    { cbn [drv rx_len rx_pending set_discard]. lia. }
    rewrite E3. exists w3. split; [ reflexivity | ]. split; [ exact Hr3 | ].
    cbn [drv tx_len rx_len rx_pending rx_discard set_discard] in *.
    split.
    + eapply bystander_trans; [ exact Hby1 | ].
      eapply bystander_trans; [ | exact Hby3 ].
      unfold bystander. cbn [drv image]. repeat split. apply extends_same.
    + repeat split; lia.
Qed.

Lemma recv_store_total k : forall got (w : world T),
  ready w -> Z.of_nat k <= rx_len (drv w) + rx_pending (drv w) ->
  exists got' w', recv_store fuel k got w = (Ret (0, got'), w')
             /\ length got' = (length got + k)%nat
             /\ ready w' /\ fifo_only w w'
             /\ rx_len (drv w') + rx_pending (drv w') =
                rx_len (drv w) + rx_pending (drv w) - Z.of_nat k.
Proof.
  induction k as [|k IH]; intros got w Hr Hk; cbn [recv_store].
  - exists got, w. split; [ reflexivity | ]. split; [ lia | ]. split; [ exact Hr | ].
    split; [ apply fifo_only_refl | lia ].
  - monad_unfold.
    destruct (fill_and_get_total w Hr) as (b & w1 & E1 & Hb & Hr1 & Hfo1 & Hs1); [ lia | ].
    rewrite E1. destruct (Z.ltb_spec b 0); [ lia | ].
    destruct (IH (got ++ [b mod 256]) w1 Hr1) as (got' & w3 & E3 & Hl3 & Hr3 & Hfo3 & Hs3);
      [ lia | ].
    rewrite E3. exists got', w3. split; [ reflexivity | ].
    rewrite length_app in Hl3. cbn [length] in Hl3.
    split; [ lia | ]. split; [ exact Hr3 | ].
    split; [ eapply fifo_only_trans; eassumption | lia ].
Qed.

Lemma recv_total buf len (w : world T) :
  settled w -> 0 <= len -> rx_discard (drv w) + len <= credit (drv w) ->
  exists buf' w', ft245r_recv fuel buf len w = (Ret (0, buf'), w')
             /\ ready w' /\ bystander w w'
             /\ rx_discard (drv w') = 0
             /\ tx_len (drv w') = 0
             /\ credit (drv w') = credit (drv w) - rx_discard (drv w) - len.
Proof.
  intros ((Hinv & Htx & Hrx) & Hdis) Hlen Hcr.
  pose proof (recv_bystander fuel buf len w) as Hby.
  unfold ft245r_recv in *. monad_unfold.
  destruct (flush_total w Hinv) as (w1 & E1 & Hinv1 & Hfo1 & Hrx1 & Hs1);
    [ lia | exact Hrx | ].
  rewrite E1 in *. cbn [fst snd drv dev image trace] in *.
  destruct Hfo1 as (_ & Ht1 & _ & Hd1).
  match goal with
  | |- context [ft245r_fill ?w2] =>
      destruct (fill_coop w2) as (w3 & E3 & Hinv3 & Hp3 & Hl3);
      [ exact Hinv1 | pose proof (fill_fifo_only w2) as Hfo3 ]
  end.
  rewrite E3 in *. cbn [fst snd drv dev image trace] in *.
  destruct Hfo3 as (_ & Ht3 & _ & Hd3).
  cbn [drv tx_len rx_len rx_pending rx_discard set_tx] in *.
  destruct (recv_discard_total (Z.to_nat (rx_discard (drv w3))) w3)
    as (w4 & E4 & Hr4 & _ & Ht4 & Hd4 & Hs4).
  { split; [ exact Hinv3 | ]. rewrite Ht3. unfold FT245R_MIN_FIFO_SIZE. split; lia. }
  { unfold credit in *. lia. }
  rewrite E4 in *. cbn [fst snd Z.ltb Z.compare] in *.
  destruct (recv_store_total (Z.to_nat len) [] w4 Hr4)
    as (got & w5 & E5 & Hl5 & Hr5 & Hfo5 & Hs5).
  { unfold credit in *. lia. }
  rewrite E5 in *. cbn [fst snd] in *.
  destruct Hfo5 as (_ & Ht5 & _ & Hd5).
  exists (got ++ skipn (length got) buf), w5.
  split; [ reflexivity | ]. split; [ exact Hr5 | ]. split; [ exact Hby | ].
  unfold credit in *. repeat split; lia.
Qed.
End Fifo.

(** * Properties of the command layer *)

Section Commands.
Context {T : Type} {tr : FtdiTransport T}.
Variable pin : pinmap.

Lemma only_out_refl (w : world T) : only_out w w.
Proof.
  exists (ft245r_out (drv w)). destruct w as [p d i t]. destruct p. reflexivity.
Qed.

Lemma only_out_trans (w1 w2 w3 : world T) :
  only_out w1 w2 -> only_out w2 w3 -> only_out w1 w3.
Proof. intros [o1 ->] [o2 ->]. exists o2. reflexivity. Qed.

Lemma only_out_ready (w w' : world T) : only_out w w' -> ready w -> ready w'.
Proof. intros [o ->] Hr. exact Hr. Qed.

Lemma only_out_settled (w w' : world T) : only_out w w' -> settled w -> settled w'.
Proof. intros [o ->] Hr. exact Hr. Qed.

Lemma set_data_length out data : length (snd (set_data pin out data)) = 16%nat.
Proof. rewrite set_data_add_bits, add_bits_length. reflexivity. Qed.

Lemma set_data_out_spec data (w : world T) :
  exists bs w', set_data_out pin data w = (Ret bs, w')
                /\ only_out w w' /\ length bs = 16%nat
                /\ bs = snd (set_data pin (ft245r_out (drv w)) data).
Proof.
  unfold set_data_out. monad_unfold.
  pose proof (set_data_length (ft245r_out (drv w)) data) as Hl.
  destruct (set_data pin (ft245r_out (drv w)) data) as [o bs]. cbn [snd] in *.
  exists bs. eexists. split; [ reflexivity | ].
  split; [ exists o; reflexivity | split; [ exact Hl | reflexivity ] ].
Qed.

Lemma set_data_seq_spec xs : forall w : world T,
  exists bs w', set_data_seq pin xs w = (Ret bs, w')
                /\ only_out w w' /\ length bs = (16 * length xs)%nat.
Proof.
  induction xs as [|x xs IH]; intros w; cbn [set_data_seq].
  - exists [], w. split; [ reflexivity | ]. split; [ apply only_out_refl | reflexivity ].
  - destruct (set_data_out_spec x w) as (bs & w1 & E1 & Ho1 & Hl1 & _).
    destruct (IH w1) as (bs' & w2 & E2 & Ho2 & Hl2).
    unfold bind. rewrite E1, E2. cbn [ret].
    exists (bs ++ bs'), w2. split; [ reflexivity | ].
    split; [ eapply only_out_trans; eassumption | ].
    rewrite length_app. cbn [length]. lia.
Qed.

Lemma cmd_encode_spec cmd (w : world T) :
  exists enc w', cmd_encode pin cmd w = (Ret (enc ++ [0]), w')
                 /\ only_out w w' /\ length enc = 64%nat.
Proof.
  unfold cmd_encode.
  destruct (set_data_seq_spec [rd cmd 0; rd cmd 1; rd cmd 2; rd cmd 3] w)
    as (enc & w1 & E1 & Ho1 & Hl1).
  unfold bind. rewrite E1. cbn [ret].
  exists enc, w1. split; [ reflexivity | split; [ exact Ho1 | exact Hl1 ] ].
Qed.


Lemma bystander_extends (w w' : world T) :
  bystander w w' -> exists evs, trace w' = trace w ++ evs /\ Forall is_wire evs.
Proof. intros (_ & _ & _ & _ & _ & He). exact He. Qed.

Lemma cmd_trace fuel cmd (w : world T) :
  let r := ft245r_cmd pin fuel cmd w in
  exists evs,
    Forall is_wire evs
    /\ req_queue (drv (snd r)) = req_queue (drv w)
    /\ req_pool (drv (snd r)) = req_pool (drv w)
    /\ image (snd r) = image w
    /\ match fst r with
       | Ret (rc, res) =>
           rc = 0
           /\ (exists buf', res = map (extract_data pin buf') [0; 1; 2; 3])
           /\ trace (snd r) = trace w ++ evs ++ [EvCmd cmd res]
       | Hang => trace (snd r) = trace w ++ evs
       end.
Proof.
  cbn zeta. destruct (ft245r_cmd pin fuel cmd w) as [o wf] eqn:E. cbn [fst snd].
  unfold ft245r_cmd, ft245r_send, bind in E.
  destruct (cmd_encode_spec cmd w) as (enc & w1 & E1 & [o1 Ho1] & Hl1).
  rewrite E1 in E.
  pose proof (send2_bystander fuel (enc ++ [0]) false w1) as Hs.
  destruct (ft245r_send2 fuel (enc ++ [0]) false w1) as [[r2|] w2]; cbn [fst snd] in *.
  2:{ inversion E; subst o wf; clear E.
      destruct Hs as (_ & _ & Hq & Hp & Hi & evs & Ht & Hf).
      exists evs. subst w1. cbn [drv image trace req_queue req_pool set_out] in *.
      repeat split; assumption. }
  pose proof (recv_bystander fuel (enc ++ [0]) (Z.of_nat (length (enc ++ [0]))) w2) as Hr.
  destruct Hs as (_ & _ & Hq & Hp & Hi & evs & Ht & Hf).
  destruct (ft245r_recv fuel (enc ++ [0]) (Z.of_nat (length (enc ++ [0]))) w2)
    as [[[rc buf']|] w3]; cbn [fst snd] in *;
    destruct Hr as (_ & _ & Hq3 & Hp3 & Hi3 & evs3 & Ht3 & Hf3);
    unfold emit, ret in E; inversion E; subst o wf; clear E;
    exists (evs ++ evs3); subst w1;
    cbn [drv image trace req_queue req_pool set_out] in *;
    (split; [ apply Forall_app; split; assumption | ]);
    (split; [ congruence | ]); (split; [ congruence | ]); (split; [ congruence | ]).
  - split; [ reflexivity | ]. split; [ exists buf'; reflexivity | ].
    rewrite Ht3, Ht, <- !app_assoc. reflexivity.
  - rewrite Ht3, Ht, <- !app_assoc. reflexivity.
Qed.

Lemma ready_emit (w : world T) e :
  ready w -> transfer_ok e ->
  ready (mkWorld (drv w) (dev w) (image w) (trace w ++ [e])).
Proof.
  intros ((Hp & Ht) & Htx & Hrx) He.
  split; [ split; [ exact Hp | apply Forall_snoc; assumption ] | split; assumption ].
Qed.

Lemma cmd_total fuel cmd (w : world T) :
  cooperative tr -> (128 <= fuel)%nat -> settled w ->
  exists res w', ft245r_cmd pin fuel cmd w = (Ret (0, res), w')
                 /\ settled w' /\ rx_discard (drv w') = 0.
Proof.
  intros coop enough Hs. unfold ft245r_cmd.
  destruct (cmd_encode_spec cmd w) as (enc & w1 & E1 & Ho1 & Hl1).
  unfold bind at 1. rewrite E1.
  pose proof (only_out_settled w w1 Ho1 Hs) as Hs1.
  assert (Hc1 : credit (drv w1) = credit (drv w) /\
                rx_discard (drv w1) = rx_discard (drv w))
    by (destruct Ho1 as [o ->]; split; reflexivity).
  destruct Hs1 as [Hr1 Hd1].
  destruct (send2_total coop fuel enough (enc ++ [0]) false w1 Hr1)
    as (w2 & E2 & Hr2 & _ & Hc2 & Hd2).
  unfold bind at 1. unfold ft245r_send. rewrite E2.
  rewrite length_app, Hl1 in *. cbn [length Nat.add] in *.
  destruct (recv_total coop fuel enough (enc ++ [0]) (Z.of_nat 65) w2)
    as (buf' & w3 & E3 & Hr3 & _ & Hd3 & Ht3 & Hc3).
  { split; [ exact Hr2 | lia ]. }
  { lia. }
  { lia. }
  unfold bind at 1. rewrite E3. monad_unfold.
  eexists. eexists. split; [ reflexivity | ].
  split; [ | exact Hd3 ].
  split; [ apply ready_emit; [ exact Hr3 | exact I ] | ]. cbn [drv]. lia.
Qed.


Lemma tpi_rx_exchange_total fuel (w : world T) :
  cooperative tr -> (128 <= fuel)%nat -> settled w ->
  exists buf w', tpi_rx_exchange pin fuel w = (Ret buf, w') /\ settled w'.
Proof.
  intros coop enough Hs. unfold tpi_rx_exchange.
  destruct (set_data_seq_spec [255; 255] w) as (enc & w1 & E1 & Ho1 & Hl1).
  unfold bind at 1. rewrite E1.
  pose proof (only_out_settled w w1 Ho1 Hs) as Hs1.
  assert (Hc1 : credit (drv w1) = credit (drv w) /\
                rx_discard (drv w1) = rx_discard (drv w))
    by (destruct Ho1 as [o ->]; split; reflexivity).
  destruct Hs1 as [Hr1 Hd1].
  destruct (send2_total coop fuel enough enc false w1 Hr1)
    as (w2 & E2 & Hr2 & _ & Hc2 & Hd2).
  unfold bind at 1. unfold ft245r_send. rewrite E2.
  rewrite Hl1 in *. cbn [length Nat.mul Nat.add] in *.
  destruct (recv_total coop fuel enough enc (Z.of_nat 32) w2)
    as (buf' & w3 & E3 & Hr3 & _ & Hd3 & Ht3 & Hc3).
  { split; [ exact Hr2 | lia ]. }
  { lia. }
  { lia. }
  unfold bind at 1. rewrite E3. monad_unfold.
  eexists. eexists. split; [ reflexivity | ].
  split; [ exact Hr3 | ]. lia.
Qed.

Lemma tpi_rx_unfold fuel bytep (w : world T) :
  ft245r_tpi_rx pin fuel bytep w =
  match tpi_rx_exchange pin fuel w with
  | (Ret buf, w') => (Ret (tpi_rx_decode (tpi_sample pin buf) bytep), w')
  | (Hang, w') => (Hang, w')
  end.
Proof.
  unfold ft245r_tpi_rx, bind, ret.
  destruct (tpi_rx_exchange pin fuel w) as [[buf|] w']; reflexivity.
Qed.

Lemma returns_bind {A B} (c : M T A) (k : A -> M T B) (w : world T) :
  returns c w -> (forall a w', c w = (Ret a, w') -> returns (k a) w') ->
  returns (bind c k) w.
Proof.
  intros (a & w' & E) Hk. destruct (Hk a w' E) as (b & w'' & E').
  exists b, w''. unfold bind. rewrite E. exact E'.
Qed.

Lemma returns_ret {A} (a : A) (w : world T) : returns (ret a) w.
Proof. exists a, w. reflexivity. Qed.

Section Faulty.
Hypothesis bad : faulty tr.
Variable fuel : nat.
Hypothesis some_fuel : (1 <= fuel)%nat.

Lemma fill_faulty (w : world T) : exists w', ft245r_fill w = (Ret (-1), w').
Proof.
  unfold ft245r_fill. monad_unfold. destruct bad as [Hread _].
  specialize (Hread (dev w) (rx_pending (drv w))).
  destruct (ftdi_read_data (dev w) (rx_pending (drv w))) as [[nread raw] d'].
  cbn [fst snd] in *.
  destruct (Z.ltb_spec nread 0); [ | lia ].
  eexists. reflexivity.
Qed.

Lemma flush_loop_faulty k src len (w : world T) :
  returns (ft245r_flush_loop (S k) src len) w.
Proof.
  cbn [ft245r_flush_loop]. destruct (Z.ltb_spec 0 len); [ | apply returns_ret ].
  monad_unfold. unfold returns.
  destruct (Z.leb_spec (FT245R_MIN_FIFO_SIZE - rx_pending (drv w)) 0) as [Hfull|Hroom].
  - destruct (fill_faulty w) as (w1 & E1). rewrite E1. cbn. eexists; eexists; reflexivity.
  - cbn [andb].
    destruct bad as [_ Hwrite].
    match goal with
    | |- context [ftdi_write_data ?a ?b ?c] =>
        specialize (Hwrite a b c); destruct (ftdi_write_data a b c) as [rv d2]
    end.
    cbn [fst snd] in *.
    match goal with
    | |- context [rv =? ?x] => destruct (Z.eqb_spec rv x) as [Heq|Hne]
    end.
    + exfalso.
      destruct (Z.ltb_spec len (FT245R_MIN_FIFO_SIZE - rx_pending (drv w))); lia.
    + cbn [negb]. eexists; eexists; reflexivity.
Qed.

Lemma flush_faulty (w : world T) : returns (ft245r_flush fuel) w.
Proof.
  unfold ft245r_flush, returns. monad_unfold.
  destruct (tx_len (drv w) =? 0); [ eexists; eexists; reflexivity | ].
  assert (Hf : exists k, fuel = S k) by (exists (pred fuel); lia).
  destruct Hf as [k Hk]. rewrite Hk. exact (flush_loop_faulty k 0 (tx_len (drv w)) w).
Qed.

Lemma send2_faulty buf d : forall w : world T,
  exists w', ft245r_send2 fuel buf d w = (Ret 0, w').
Proof.
  induction buf as [|b rest IH]; intros w; cbn [ft245r_send2].
  - exists w. reflexivity.
  - monad_unfold.
    match goal with
    | |- context [FT245R_MIN_FIFO_SIZE <=? ?x] => destruct (FT245R_MIN_FIFO_SIZE <=? x)
    end.
    + match goal with
      | |- context [ft245r_flush fuel ?w1] =>
          destruct (flush_faulty w1) as (r & w2 & E2)
      end.
      rewrite E2. cbn [fst snd drv dev image trace]. apply IH.
    + apply IH.
Qed.

Lemma fill_and_get_faulty (w : world T) : returns (ft245r_rx_buf_fill_and_get fuel) w.
Proof.
  unfold ft245r_rx_buf_fill_and_get.
  assert (Hf : exists k, fuel = S k) by (exists (pred fuel); lia).
  destruct Hf as [k Hk]. rewrite Hk. unfold returns.
  cbn [ft245r_rx_buf_fill_and_get_loop]. monad_unfold.
  destruct (rx_len (drv w) =? 0).
  - destruct (fill_faulty w) as (w1 & E1). rewrite E1. cbn.
    eexists; eexists; reflexivity.
  - cbn. eexists; eexists; reflexivity.
Qed.

Lemma recv_discard_faulty k : forall w : world T, returns (recv_discard fuel k) w.
Proof.
  induction k as [|k IH]; intros w; cbn [recv_discard].
  - apply returns_ret.
  - apply returns_bind; [ apply fill_and_get_faulty | ].
    intros r w1 _. destruct (r <? 0); [ apply returns_ret | ].
    apply returns_bind; [ eexists; eexists; reflexivity | ].
    intros _ w2 _. apply IH.
Qed.

Lemma recv_store_faulty k : forall got (w : world T), returns (recv_store fuel k got) w.
Proof.
  induction k as [|k IH]; intros got w; cbn [recv_store].
  - apply returns_ret.
  - apply returns_bind; [ apply fill_and_get_faulty | ].
    intros r w1 _. destruct (r <? 0); [ apply returns_ret | apply IH ].
Qed.

Lemma recv_faulty buf len (w : world T) : returns (ft245r_recv fuel buf len) w.
Proof.
  unfold ft245r_recv.
  apply returns_bind; [ apply flush_faulty | intros _ w1 _ ].
  apply returns_bind; [ eexists; eexists; reflexivity | intros _ w2 _ ].
  apply returns_bind; [ destruct (fill_faulty w2) as (w3 & E3); eexists; eexists; exact E3 | ].
  intros _ w3 _.
  apply returns_bind; [ eexists; eexists; reflexivity | intros p w4 _ ].
  apply returns_bind; [ apply recv_discard_faulty | intros r w5 _ ].
  destruct (r <? 0); [ apply returns_ret | ].
  apply returns_bind; [ apply recv_store_faulty | intros [rc got] w6 _ ].
  apply returns_ret.
Qed.

Lemma cmd_faulty cmd (w : world T) :
  exists res w', ft245r_cmd pin fuel cmd w = (Ret (0, res), w').
Proof.
  unfold ft245r_cmd, ft245r_send.
  destruct (cmd_encode_spec cmd w) as (enc & w1 & E1 & _).
  unfold bind at 1. rewrite E1.
  destruct (send2_faulty (enc ++ [0]) false w1) as (w2 & E2).
  unfold bind at 1. rewrite E2.
  destruct (recv_faulty (enc ++ [0]) (Z.of_nat (length (enc ++ [0]))) w2)
    as ([rc buf'] & w3 & E3).
  unfold bind at 1. rewrite E3. monad_unfold.
  eexists; eexists; reflexivity.
Qed.

End Faulty.


(** ** Pins, sleeping and draining *)

Lemma set_pin_unwired fuel name val (w : world T) :
  mask0 (pin name) = 0 -> set_pin pin fuel name val w = (Ret 0, w).
Proof. intros Hm. unfold set_pin. rewrite Hm. reflexivity. Qed.

Lemma set_pin_trace fuel name val (w : world T) :
  mask0 (pin name) <> 0 ->
  let r := set_pin pin fuel name val w in
  (fst r = Hang \/ fst r = Ret 0)
  /\ exists evs, Forall is_wire evs
                 /\ trace (snd r) = trace w ++ EvSetPin name val :: evs.
Proof.
  intros Hm. cbn zeta.
  destruct (set_pin pin fuel name val w) as [o wf] eqn:E. cbn [fst snd].
  unfold set_pin in E. destruct (Z.eqb_spec (mask0 (pin name)) 0); [ contradiction | ].
  unfold ft245r_send_and_discard in E. monad_unfold.
  match type of E with
  | context [ft245r_send2 fuel ?b ?d ?w1] =>
      pose proof (send2_bystander fuel b d w1) as Hs;
      destruct (ft245r_send2 fuel b d w1) as [[r|] w2]
  end; cbn [fst snd] in *; inversion E; subst o wf; clear E;
    destruct Hs as (_ & _ & _ & _ & _ & evs & Ht & Hf);
    cbn [trace] in Ht;
    (split; [ auto | ]); exists evs; (split; [ exact Hf | ]);
    rewrite Ht, <- app_assoc; reflexivity.
Qed.

Lemma usleep_trace fuel usec (w : world T) :
  exists evs, Forall is_wire evs
              /\ trace (snd (ft245r_usleep fuel usec w)) = trace w ++ evs.
Proof.
  destruct (ft245r_usleep fuel usec w) as [o wf] eqn:E. cbn [snd].
  unfold ft245r_usleep in E. monad_unfold.
  pose proof (flush_fifo_only fuel w) as Hf.
  destruct (ft245r_flush fuel w) as [[r|] w1]; cbn [fst snd] in *;
    inversion E; subst o wf; clear E;
    destruct Hf as ((_ & _ & _ & _ & _ & evs & Ht & Hw) & _).
  - exists (evs ++ [EvUsleep usec]). cbn [trace].
    split; [ apply Forall_snoc; [ exact Hw | reflexivity ] | ].
    rewrite Ht, <- app_assoc. reflexivity.
  - exists evs. split; assumption.
Qed.

Lemma drain_trace display (w : world T) :
  exists r w' evs, ft245r_drain display w = (Ret r, w')
                   /\ Forall is_wire evs /\ trace w' = trace w ++ evs.
Proof.
  unfold ft245r_drain. monad_unfold.
  destruct (ftdi_set_bitmode (dev w) 0 BITMODE_RESET) as [r1 d1].
  cbn [fst snd drv dev image trace].
  destruct (negb (r1 =? 0)); cbn [fst snd drv dev image trace].
  - eexists; eexists; exists [EvBitmode 0 BITMODE_RESET].
    split; [ reflexivity | ]. split; [ repeat constructor | reflexivity ].
  - destruct (ftdi_set_bitmode d1 (ft245r_ddr (drv w)) BITMODE_SYNCBB) as [r2 d2].
    cbn [fst snd drv dev image trace].
    destruct (negb (r2 =? 0)); cbn [fst snd drv dev image trace];
      (eexists; eexists;
       exists [EvBitmode 0 BITMODE_RESET; EvBitmode (ft245r_ddr (drv w)) BITMODE_SYNCBB];
       split; [ reflexivity | ];
       split; [ repeat constructor | rewrite <- app_assoc; reflexivity ]).
Qed.

Lemma set_pin_total fuel name val (w : world T) :
  cooperative tr -> (128 <= fuel)%nat -> settled w ->
  exists w', set_pin pin fuel name val w = (Ret 0, w') /\ settled w'.
Proof.
  intros coop enough Hs. unfold set_pin.
  destruct (mask0 (pin name) =? 0); [ exists w; split; [ reflexivity | exact Hs ] | ].
  unfold ft245r_send_and_discard. monad_unfold.
  destruct Hs as [Hr Hd].
  match goal with
  | |- context [ft245r_send2 fuel ?b ?d ?w1] =>
      destruct (send2_total coop fuel enough b d w1) as (w2 & E2 & Hr2 & _ & Hc2 & Hd2)
  end.
  { apply (ready_emit (mkWorld (set_out (drv w) _) (dev w) (image w) (trace w)));
      [ exact Hr | exact I ]. }
  rewrite E2. exists w2. split; [ reflexivity | ].
  split; [ exact Hr2 | ].
  cbn [length drv] in *.
  change (credit (set_out (drv w) (SET_BITS_0 (ft245r_out (drv w)) pin name (truthy val))))
    with (credit (drv w)) in Hc2.
  change (rx_discard (set_out (drv w) (SET_BITS_0 (ft245r_out (drv w)) pin name (truthy val))))
    with (rx_discard (drv w)) in Hd2.
  lia.
Qed.

Lemma usleep_total fuel usec (w : world T) :
  cooperative tr -> (128 <= fuel)%nat -> settled w ->
  exists w', ft245r_usleep fuel usec w = (Ret tt, w') /\ settled w'.
Proof.
  intros coop enough ((Hinv & Htx & Hrx) & Hd). unfold ft245r_usleep. monad_unfold.
  destruct (flush_total coop fuel enough w Hinv) as (w1 & E1 & Hinv1 & Hfo & Hrx1 & Hs1);
    [ lia | exact Hrx | ].
  rewrite E1. cbn [fst snd drv dev image trace].
  eexists. split; [ reflexivity | ].
  destruct Hfo as (_ & Ht1 & _ & Hd1).
  split.
  - apply (ready_emit (mkWorld (set_tx (drv w1) 0 (tx_buf (drv w1))) (dev w1)
                               (image w1) (trace w1))); [ | exact I ].
    split; [ exact Hinv1 | ]. cbn [drv tx_len rx_len set_tx].
    unfold FT245R_MIN_FIFO_SIZE. split; lia.
  - unfold credit in *. cbn [drv tx_len rx_len rx_pending rx_discard set_tx]. lia.
Qed.


(** ** Program enable *)

Lemma driver_events_app a b :
  driver_events (a ++ b) = driver_events a ++ driver_events b.
Proof. unfold driver_events. apply filter_app. Qed.

Lemma driver_events_wire evs : Forall is_wire evs -> driver_events evs = [].
Proof.
  induction 1 as [|e evs He _ IH]; [ reflexivity | ].
  unfold driver_events in *. cbn [filter]. unfold is_wire in He. rewrite He.
  cbn [negb]. exact IH.
Qed.

Context {OPCODE : Type}.
Variable p : AVRPART OPCODE.

Lemma program_enable_loop_trace fuel cmd k : forall i (w : world T),
  mask0 (pin PIN_AVR_RESET) <> 0 ->
  let r := program_enable_loop pin fuel k i p cmd w in
  match fst r with
  | Ret rc =>
      exists fails,
        Forall (fun res => ~ acknowledged p res) fails
        /\ ((rc = 0 /\ (length fails < k)%nat
             /\ exists res, acknowledged p res
                  /\ driver_events (trace (snd r)) =
                     driver_events (trace w)
                     ++ flat_map (failed_round cmd) fails ++ [EvCmd cmd res])
            \/ (rc = -1 /\ length fails = k
                /\ driver_events (trace (snd r)) =
                   driver_events (trace w) ++ flat_map (failed_round cmd) fails))
  | Hang => True
  end.
Proof.
  induction k as [|k IH]; intros i w Hm; cbn zeta.
  - cbn [program_enable_loop ret fst snd]. exists []. split; [ constructor | ].
    right. split; [ reflexivity | ]. split; [ reflexivity | ].
    cbn [flat_map]. rewrite app_nil_r. reflexivity.
  - destruct (program_enable_loop pin fuel (S k) i p cmd w) as [o wf] eqn:E.
    cbn [fst snd]. cbn [program_enable_loop] in E. unfold bind at 1 in E.
    pose proof (cmd_trace fuel cmd w) as Hc. cbn zeta in Hc.
    destruct (ft245r_cmd pin fuel cmd w) as [[[rc0 res]|] w1]; cbn [fst snd] in *.
    2:{ inversion E; subst; exact I. }
    destruct Hc as (evs1 & Hw1 & _ & _ & _ & _ & _ & Ht1).
    assert (D1 : driver_events (trace w1) = driver_events (trace w) ++ [EvCmd cmd res]).
    { rewrite Ht1, !driver_events_app, (driver_events_wire evs1 Hw1). reflexivity. }
    clear Ht1 Hw1 evs1.
    destruct (Z.eqb_spec (rd res (pollindex p - 1)) (pollvalue p)) as [Hack|Hnack].
    { unfold ret in E. inversion E; subst o wf; clear E.
      exists []. split; [ constructor | ]. left.
      split; [ reflexivity | ]. split; [ cbn; lia | ].
      exists res. split; [ exact Hack | ]. rewrite D1. reflexivity. }
    unfold bind at 1 in E.
    pose proof (set_pin_trace fuel PIN_AVR_RESET ON w1 Hm) as Hp2. cbn zeta in Hp2.
    destruct (set_pin pin fuel PIN_AVR_RESET ON w1) as [[r2|] w2]; cbn [fst snd] in *.
    2:{ inversion E; subst; exact I. }
    destruct Hp2 as (_ & evs2 & Hw2 & Ht2).
    unfold bind at 1 in E.
    destruct (usleep_trace fuel 20 w2) as (evs3 & Hw3 & Ht3).
    destruct (ft245r_usleep fuel 20 w2) as [[r3|] w3]; cbn [fst snd] in *.
    2:{ inversion E; subst; exact I. }
    unfold bind at 1 in E.
    pose proof (set_pin_trace fuel PIN_AVR_RESET OFF w3 Hm) as Hp4. cbn zeta in Hp4.
    destruct (set_pin pin fuel PIN_AVR_RESET OFF w3) as [[r4|] w4]; cbn [fst snd] in *.
    2:{ inversion E; subst; exact I. }
    destruct Hp4 as (_ & evs4 & Hw4 & Ht4).
    assert (D4 : driver_events (trace w4) =
                 driver_events (trace w) ++ failed_round cmd res).
    { rewrite Ht4, Ht3, Ht2. rewrite !driver_events_app.
      change (EvSetPin PIN_AVR_RESET ON :: evs2)
        with ([EvSetPin PIN_AVR_RESET ON] ++ evs2).
      change (EvSetPin PIN_AVR_RESET OFF :: evs4)
        with ([EvSetPin PIN_AVR_RESET OFF] ++ evs4).
      rewrite !driver_events_app.
      rewrite (driver_events_wire evs2 Hw2), (driver_events_wire evs3 Hw3),
        (driver_events_wire evs4 Hw4), D1.
      cbn. rewrite <- !app_assoc. reflexivity. }
    clear Ht4 Ht3 Ht2 Hw2 Hw3 Hw4 evs2 evs3 evs4 D1.
    unfold bind at 1 in E.
    assert (Htail : exists w5,
               (if i =? 3
                then ft245r_drain 0 ;;; modify_drv ft245r_rx_buf_purge
                else ret tt) w4 = (Ret tt, w5)
               /\ driver_events (trace w5) = driver_events (trace w4)).
    { destruct (i =? 3).
      - destruct (drain_trace 0 w4) as (r5 & w5 & evs5 & E5 & Hw5 & Ht5).
        unfold bind. rewrite E5. unfold modify_drv. eexists. split; [ reflexivity | ].
        cbn [trace]. rewrite Ht5, driver_events_app, (driver_events_wire evs5 Hw5).
        apply app_nil_r.
      - exists w4. split; reflexivity. }
    destruct Htail as (w5 & E5 & D5). rewrite E5 in E.
    specialize (IH (i + 1) w5 Hm). cbn zeta in IH. rewrite E in IH. cbn [fst snd] in IH.
    destruct o as [rc|]; [ | exact I ].
    destruct IH as (fails & Hf & Hcase).
    exists (res :: fails). split; [ constructor; assumption | ].
    rewrite D5, D4 in Hcase.
    destruct Hcase as [(H0 & Hl & res' & Ha & Hd) | (H1 & Hl & Hd)].
    + left. split; [ exact H0 | ]. split; [ cbn [length]; lia | ].
      exists res'. split; [ exact Ha | ].
      rewrite Hd. cbn [flat_map]. rewrite <- !app_assoc. reflexivity.
    + right. split; [ exact H1 | ]. split; [ cbn [length]; lia | ].
      rewrite Hd. cbn [flat_map]. rewrite <- !app_assoc. reflexivity.
Qed.


Lemma program_enable_loop_total fuel cmd k : forall i (w : world T),
  cooperative tr -> (128 <= fuel)%nat ->
  i + Z.of_nat k = 4 -> settled w ->
  returns (program_enable_loop pin fuel k i p cmd) w.
Proof.
  induction k as [|k IH]; intros i w coop enough Hik Hs.
  - apply returns_ret.
  - cbn [program_enable_loop].
    destruct (cmd_total fuel cmd w coop enough Hs) as (res & w1 & E1 & Hs1 & _).
    apply returns_bind; [ eexists; eexists; exact E1 | ].
    intros [rc' res'] w1' E1'. rewrite E1 in E1'. inversion E1'; subst rc' res' w1'.
    destruct (rd res (pollindex p - 1) =? pollvalue p); [ apply returns_ret | ].
    destruct (set_pin_total fuel PIN_AVR_RESET ON w1 coop enough Hs1) as (w2 & E2 & Hs2).
    apply returns_bind; [ eexists; eexists; exact E2 | ].
    intros r2 w2' E2'. rewrite E2 in E2'. inversion E2'; subst r2 w2'.
    destruct (usleep_total fuel 20 w2 coop enough Hs2) as (w3 & E3 & Hs3).
    apply returns_bind; [ eexists; eexists; exact E3 | ].
    intros r3 w3' E3'. rewrite E3 in E3'. inversion E3'; subst r3 w3'.
    destruct (set_pin_total fuel PIN_AVR_RESET OFF w3 coop enough Hs3) as (w4 & E4 & Hs4).
    apply returns_bind; [ eexists; eexists; exact E4 | ].
    intros r4 w4' E4'. rewrite E4 in E4'. inversion E4'; subst r4 w4'.
    destruct (Z.eqb_spec i 3) as [Hi|Hi].
    + assert (k = 0%nat) by lia. subst k.
      apply returns_bind.
      * apply returns_bind.
        -- destruct (drain_trace 0 w4) as (r5 & w5 & evs5 & E5 & _).
           eexists; eexists; exact E5.
        -- intros. eexists; eexists; reflexivity.
      * intros. apply returns_ret.
    + apply returns_bind; [ apply returns_ret | ].
      intros r5 w5 E5. inversion E5; subst r5 w5.
      apply IH; [ assumption | assumption | lia | assumption ].
Qed.


Lemma attempts_failed_rounds cmd fails :
  attempts (flat_map (failed_round cmd) fails) = length fails.
Proof.
  induction fails as [|res fails IH]; [ reflexivity | ].
  cbn [flat_map failed_round app]. unfold attempts in *.
  cbn [filter length]. rewrite IH. reflexivity.
Qed.

Lemma reset_pulses_failed_rounds cmd fails :
  reset_pulses (flat_map (failed_round cmd) fails) = length fails.
Proof.
  induction fails as [|res fails IH]; [ reflexivity | ].
  cbn [flat_map failed_round app]. unfold reset_pulses in *.
  cbn [filter]. change (truthy ON) with true. change (truthy OFF) with false.
  cbn [length]. rewrite IH. reflexivity.
Qed.

Lemma attempts_app a b : attempts (a ++ b) = (attempts a + attempts b)%nat.
Proof. unfold attempts. rewrite filter_app, length_app. reflexivity. Qed.

Lemma reset_pulses_app a b :
  reset_pulses (a ++ b) = (reset_pulses a + reset_pulses b)%nat.
Proof. unfold reset_pulses. rewrite filter_app, length_app. reflexivity. Qed.

End Commands.

(** * Properties of the paged operations *)

Section Paged.
Context {T : Type} {tr : FtdiTransport T}.
Variable pin : pinmap.
Variable fuel : nat.
Context {OPCODE : Type}.
Variable avr_set_bits : OPCODE -> list Z -> list Z.
Variable avr_set_addr : OPCODE -> list Z -> Z -> list Z.
Variable avr_set_input : OPCODE -> list Z -> Z -> list Z.
Variable avr_write_page : AVRMEM OPCODE -> Z -> M T Z.
Variable avr_write_byte_default : AVRMEM OPCODE -> Z -> Z -> M T Z.
Variable avr_read_byte_default : AVRMEM OPCODE -> Z -> M T (Z * Z).

Lemma yields_ret {A} (P : A -> Prop) (a : A) : P a -> yields (T := T) P (ret a).
Proof. intros Ha w a' w' E. inversion E; subst. exact Ha. Qed.

Lemma yields_bind {A B} (P : B -> Prop) (c : M T A) (k : A -> M T B) :
  (forall a, yields P (k a)) -> yields P (bind c k).
Proof.
  intros Hk w b w' E. unfold bind in E.
  destruct (c w) as [[a|] w1]; [ | discriminate ].
  exact (Hk a w1 b w' E).
Qed.

Lemma paged_write_gen_loop_yields m n_bytes k : forall addr,
  yields (fun rc => rc = to_int n_bytes \/ rc = -2)
         (paged_write_gen_loop avr_write_byte_default k m addr n_bytes).
Proof.
  induction k as [|k IH]; intros addr; cbn [paged_write_gen_loop].
  - apply yields_ret. left. reflexivity.
  - apply yields_bind. intros img. apply yields_bind. intros rc.
    destruct (negb (rc =? 0)); [ apply yields_ret; right; reflexivity | apply IH ].
Qed.

Lemma paged_write_flash_loop_yields m lo hi n_bytes k :
  forall i j addr addr_save buf req_count,
  yields (fun rc => rc = to_int n_bytes \/ rc = -2)
         (paged_write_flash_loop pin fuel avr_set_bits avr_set_addr avr_set_input
            avr_write_page k m lo hi n_bytes i j addr addr_save buf req_count).
Proof.
  induction k as [|k IH]; intros i j addr addr_save buf req_count;
    cbn [paged_write_flash_loop].
  - apply yields_bind. intros _. apply yields_ret. left. reflexivity.
  - apply yields_bind. intros img. apply yields_bind. intros enc.
    cbn zeta.
    destruct (_ || _ || _); [ | apply IH ].
    apply yields_bind. intros buf'. apply yields_bind. intros _.
    apply yields_bind. intros _. apply yields_bind. intros _.
    destruct (paged m && _).
    + apply yields_bind. intros _. apply yields_bind. intros pd.
      apply yields_bind. intros _. apply yields_bind. intros rc.
      destruct (negb (rc =? 0)); [ apply yields_ret; right; reflexivity | apply IH ].
    + apply IH.
Qed.

Lemma to_int_full_or_negative n :
  0 <= n < 2 ^ 32 -> to_int n = n \/ to_int n < 0.
Proof.
  intros Hn. unfold to_int. rewrite Z.mod_small by assumption.
  destruct (Z.ltb_spec n (2 ^ 31)); [ left; reflexivity | right; lia ].
Qed.

Lemma paged_write_yields m page_size addr n_bytes :
  0 <= n_bytes < 2 ^ 32 ->
  yields (fun rc => rc = n_bytes \/ rc < 0)
         (ft245r_paged_write pin fuel avr_set_bits avr_set_addr avr_set_input
            avr_write_page avr_write_byte_default m page_size addr n_bytes).
Proof.
  intros Hn. unfold ft245r_paged_write.
  destruct (Z.eqb_spec n_bytes 0) as [->|Hnz]; [ apply yields_ret; left; reflexivity | ].
  assert (Hw : forall c : M T Z,
             yields (fun rc => rc = to_int n_bytes \/ rc = -2) c ->
             yields (fun rc => rc = n_bytes \/ rc < 0) c).
  { intros c Hc w rc w' E. destruct (Hc w rc w' E) as [-> | ->]; [ | right; lia ].
    apply to_int_full_or_negative. assumption. }
  destruct (mem_is_flash m).
  - unfold ft245r_paged_write_flash.
    destruct (op_LOADPAGE_LO m) as [lo|]; [ | apply yields_ret; right; lia ].
    destruct (op_LOADPAGE_HI m) as [hi|]; [ | apply yields_ret; right; lia ].
    apply Hw. apply paged_write_flash_loop_yields.
  - destruct (mem_is_eeprom m); [ | apply yields_ret; right; lia ].
    apply Hw. apply paged_write_gen_loop_yields.
Qed.


(** ** Request queue *)

Lemma qrun_app s a : forall b,
  qrun s (a ++ b) = match qrun s a with Some s' => qrun s' b | None => None end.
Proof.
  revert s. induction a as [|e a IH]; intros s b; cbn [qrun app].
  - reflexivity.
  - destruct (qstep s e); [ apply IH | reflexivity ].
Qed.




Section Tracking.
Variable tr0 : list event.









End Tracking.




Lemma quiet_get_drv : shell_quiet (@get_drv T).
Proof. intros w. split; [ reflexivity | apply extends_refl ]. Qed.









Section QueueOps.
Variable tr0 : list event.
Variable m : AVRMEM OPCODE.










Hypothesis shell_write_page : forall a, shell_quiet (avr_write_page m a).






End QueueOps.


End Paged.

(** ** What acceptance by the monitor means *)

Lemma qstep_put s r s' :
  qstep s (EvPut r) = Some s' ->
  due s = false
  /\ outstanding s' = outstanding s ++ [r]
  /\ due s' = (REQ_OUTSTANDINGS <? Z.of_nat (length (outstanding s')))
  /\ (sweeping s = true -> outstanding s = []).
Proof.
  cbn [qstep]. destruct (due s); [ discriminate | ].
  destruct (sweeping s); cbn [orb andb].
  - destruct (outstanding s) as [|x q]; cbn [is_nil negb]; [ | discriminate ].
    intros E. inversion E; subst s'. cbn. repeat split; reflexivity.
  - intros E. inversion E; subst s'. cbn. repeat split; try reflexivity.
    discriminate.
Qed.

Lemma qstep_due s e s' :
  due s = true -> qstep s e = Some s' ->
  exists r oldest q,
    e = EvDo r /\ outstanding s = oldest :: q /\ req_eqb r oldest = true
    /\ outstanding s' = q /\ due s' = false /\ sweeping s' = false.
Proof.
  intros Hd. destruct e; cbn [qstep]; rewrite ?Hd; cbn [orb]; try discriminate.
  destruct (outstanding s) as [|oldest q]; [ discriminate | ].
  destruct (req_eqb r oldest) eqn:Er; [ | discriminate ].
  intros E. inversion E; subst s'. exists r, oldest, q.
  cbn [outstanding due sweeping negb].
  repeat split; try reflexivity; assumption.
Qed.



Lemma req_eqb_eq a b : req_eqb a b = true -> a = b.
Proof.
  unfold req_eqb. intros E.
  apply andb_true_iff in E. destruct E as [E En].
  apply andb_true_iff in E. destruct E as [Ea Eb].
  apply Z.eqb_eq in Ea, Eb, En. destruct a, b. cbn in *. congruence.
Qed.




(** A post that leaves more than [REQ_OUTSTANDINGS] nodes outstanding is
    followed at once by the drain of the oldest node, and that drain does
    not start a sweep. *)
Lemma qrun_cap_drain pre r e post : forall s s',
  qrun s (pre ++ EvPut r :: e :: post) = Some s' ->
  exists s1 s3,
    qrun s pre = Some s1
    /\ qrun s3 post = Some s'
    /\ (REQ_OUTSTANDINGS < Z.of_nat (length (outstanding s1 ++ [r])) ->
        exists oldest,
          outstanding s1 ++ [r] = oldest :: outstanding s3
          /\ e = EvDo oldest /\ sweeping s3 = false).
Proof.
  intros s s' Hr. rewrite qrun_app in Hr.
  destruct (qrun s pre) as [s1|]; [ | discriminate ].
  cbn [qrun] in Hr.
  destruct (qstep s1 (EvPut r)) as [s2|] eqn:E2; [ | discriminate ].
  destruct (qstep s2 e) as [s3|] eqn:E3; [ | discriminate ].
  exists s1, s3. split; [ reflexivity | ]. split; [ exact Hr | ].
  intros Hcap. apply qstep_put in E2. destruct E2 as (_ & Ho & Hd & _).
  rewrite Ho in Hd.
  assert (Hdue : due s2 = true) by (rewrite Hd; apply Z.ltb_lt; exact Hcap).
  destruct (qstep_due s2 e s3 Hdue E3)
    as (r' & oldest & q & -> & Ho2 & Er & Ho3 & _ & Hsw).
  apply req_eqb_eq in Er. subst r'. exists oldest.
  rewrite <- Ho, Ho2, Ho3.
  split; [ reflexivity | split; [ reflexivity | exact Hsw ] ].
Qed.


(** * Termination of the paged flash operations *)

Section PagedTotal.
Context {T : Type} {tr : FtdiTransport T}.
Variable pin : pinmap.
Variable fuel : nat.
Hypothesis coop : cooperative tr.
Hypothesis enough : (128 <= fuel)%nat.
Context {OPCODE : Type}.
Variable avr_set_bits : OPCODE -> list Z -> list Z.
Variable avr_set_addr : OPCODE -> list Z -> Z -> list Z.
Variable avr_set_input : OPCODE -> list Z -> Z -> list Z.
Variable avr_write_page : AVRMEM OPCODE -> Z -> M T Z.
Variable m : AVRMEM OPCODE.

Lemma queued_bytes_app q r : queued_bytes (q ++ [r]) = queued_bytes q + bytes r.
Proof.
  induction q as [|x q IH]; cbn [app queued_bytes fold_right] in *; [ lia | ].
  unfold queued_bytes in IH. rewrite IH. lia.
Qed.

Lemma settled_same (w w' : world T) evs :
  settled w ->
  rx_pending (drv w') = rx_pending (drv w) ->
  tx_len (drv w') = tx_len (drv w) ->
  rx_len (drv w') = rx_len (drv w) ->
  rx_discard (drv w') = rx_discard (drv w) ->
  trace w' = trace w ++ evs -> Forall transfer_ok evs ->
  settled w'.
Proof.
  intros (((Hp & Ht) & Htx & Hrx) & Hd) Ep Etx Erx Ed Et Hev.
  unfold settled, ready, fifo_inv, credit in *.
  rewrite Ep, Etx, Erx, Ed, Et.
  repeat split; try lia. apply Forall_app. split; assumption.
Qed.

Lemma at_rest_balanced (w : world T) : at_rest w -> balanced w.
Proof.
  intros [Hs Hq]. split; [ exact Hs | ]. rewrite Hq.
  split; [ constructor | ]. cbn [queued_bytes fold_right].
  destruct Hs as [_ Hd]. lia.
Qed.

Lemma balanced_at_rest (w : world T) :
  balanced w -> req_queue (drv w) = [] -> at_rest w.
Proof. intros (Hs & _) Hq. split; assumption. Qed.

Lemma only_out_balanced e (w w' : world T) :
  only_out w w' -> balanced_by e w -> balanced_by e w'.
Proof. intros [o ->] Hb. exact Hb. Qed.

Lemma total_only_out {A} e (c : M T A) :
  (forall w, exists a w', c w = (Ret a, w') /\ only_out w w') ->
  total (balanced_by e) c (fun _ => balanced_by e).
Proof.
  intros Hc w Hw. destruct (Hc w) as (a & w' & E & Ho). exists a, w'.
  split; [ exact E | eapply only_out_balanced; eassumption ].
Qed.

Lemma total_encode_cmd e cmd :
  total (balanced_by e) (encode_cmd (T := T) pin cmd) (fun _ => balanced_by e).
Proof.
  apply total_only_out. intros w. unfold encode_cmd.
  destruct (set_data_seq_spec pin [rd cmd 0; rd cmd 1; rd cmd 2; rd cmd 3] w)
    as (bs & w' & E & Ho & _).
  exists bs, w'. split; assumption.
Qed.

Lemma total_close_fragment e last buf :
  total (balanced_by e) (close_fragment (T := T) pin last buf)
        (fun _ => balanced_by e).
Proof.
  apply total_only_out. intros w. unfold close_fragment.
  destruct last; monad_unfold.
  - eexists; eexists. split; [ reflexivity | ].
    exists (SET_BITS_0 (ft245r_out (drv w)) pin PIN_AVR_SCK false). reflexivity.
  - eexists; eexists. split; [ reflexivity | apply only_out_refl ].
Qed.

Lemma total_get_image (P : world T -> Prop) :
  total P get_image (fun _ => P).
Proof. intros w Hw. exists (image w), w. split; [ reflexivity | exact Hw ]. Qed.

Lemma total_get_drv (P : world T -> Prop) :
  total P get_drv (fun _ => P).
Proof. intros w Hw. exists (drv w), w. split; [ reflexivity | exact Hw ]. Qed.

Lemma total_send e buf :
  total (balanced_by e) (ft245r_send fuel buf)
        (fun _ => balanced_by (e + Z.of_nat (length buf))).
Proof.
  intros w ([Hr Hd] & Hq & Hle).
  destruct (send2_total coop fuel enough buf false w Hr)
    as (w' & E & Hr' & Hby & Hc & Hd').
  exists 0, w'. split; [ exact E | ].
  destruct Hby as (_ & _ & Hqe & _).
  split; [ split; [ exact Hr' | lia ] | ].
  rewrite Hqe. split; [ exact Hq | lia ].
Qed.

Lemma total_send_and_discard e buf :
  total (balanced_by e) (ft245r_send_and_discard fuel buf)
        (fun _ => balanced_by e).
Proof.
  intros w ([Hr Hd] & Hq & Hle).
  destruct (send2_total coop fuel enough buf true w Hr)
    as (w' & E & Hr' & Hby & Hc & Hd').
  exists 0, w'. split; [ exact E | ].
  destruct Hby as (_ & _ & Hqe & _).
  split; [ split; [ exact Hr' | lia ] | ].
  rewrite Hqe. split; [ exact Hq | lia ].
Qed.

Lemma total_put_request e a b k :
  0 <= b ->
  total (balanced_by (e + b)) (put_request (T := T) a b k)
        (fun _ => balanced_by e).
Proof.
  intros Hb w (Hs & Hq & Hle). unfold put_request. monad_unfold.
  eexists. eexists. split; [ reflexivity | ].
  split; [ | split ].
  - eapply (settled_same w _ [EvPut (mkReq a b k)] Hs); try reflexivity.
    constructor; [ exact I | constructor ].
  - cbn [drv req_queue set_reqs]. apply Forall_app. split; [ exact Hq | ].
    constructor; [ exact Hb | constructor ].
  - unfold credit in *.
    cbn [drv req_queue set_reqs rx_discard rx_len rx_pending tx_len].
    rewrite queued_bytes_app. cbn [bytes]. lia.
Qed.

Lemma total_do_request n0 :
  total (fun w => balanced w /\ length (req_queue (drv w)) = n0)
        (do_request pin fuel m)
        (fun r w' =>
           balanced w'
           /\ ((r = 0 /\ req_queue (drv w') = [])
               \/ (r = 1 /\ S (length (req_queue (drv w'))) = n0))).
Proof.
  intros w [(Hs & Hq & Hle) Hn]. unfold do_request. unfold bind at 1.
  unfold get_drv.
  destruct (req_queue (drv w)) as [|r q] eqn:Eq.
  - exists 0, w. split; [ reflexivity | ].
    split; [ | left; split; [ reflexivity | exact Eq ] ].
    split; [ exact Hs | ]. rewrite Eq. split; assumption.
  - set (w1 := mkWorld (set_reqs (drv w) q (mkReq 0 0 0 :: req_pool (drv w)))
                       (dev w) (image w) (trace w ++ [EvDo r])).
    change ((put_drv (set_reqs (drv w) q (mkReq 0 0 0 :: req_pool (drv w))) ;;;
             emit (EvDo r) ;;;
             x <- ft245r_recv fuel [] (bytes r) ;;
             (let (_, buf) := x in
              img <- get_image ;;
              put_image (store_data pin (Z.to_nat (n r)) 0 (addr r) buf img) ;;;
              ret 1)) w)
      with ((x <- ft245r_recv fuel [] (bytes r) ;;
             (let (_, buf) := x in
              img <- get_image ;;
              put_image (store_data pin (Z.to_nat (n r)) 0 (addr r) buf img) ;;;
              ret 1)) w1).
    assert (Hs1 : settled w1).
    { eapply (settled_same w w1 [EvDo r] Hs); try reflexivity.
      constructor; [ exact I | constructor ]. }
    rewrite ?Eq in Hq, Hle, Hn.
    apply Forall_cons_iff in Hq. destruct Hq as [Hr0 Hq'].
    cbn [queued_bytes fold_right] in Hle. fold (queued_bytes q) in Hle.
    assert (Hqb : 0 <= queued_bytes q).
    { clear - Hq'. induction Hq' as [|x l Hx _ IH]; cbn [queued_bytes fold_right];
        [ lia | fold (queued_bytes l); lia ]. }
    destruct (recv_total coop fuel enough [] (bytes r) w1 Hs1 Hr0)
      as (buf' & w3 & E3 & Hr3 & Hby3 & Hd3 & Ht3 & Hc3).
    { change (rx_discard (drv w1)) with (rx_discard (drv w)).
      change (credit (drv w1)) with (credit (drv w)). lia. }
    unfold bind at 1. rewrite E3. monad_unfold.
    eexists. eexists. split; [ reflexivity | ].
    destruct Hby3 as (_ & _ & Hq3 & _).
    change (credit (drv w1)) with (credit (drv w)) in Hc3.
    change (rx_discard (drv w1)) with (rx_discard (drv w)) in Hc3.
    change (req_queue (drv w1)) with q in Hq3.
    unfold balanced, balanced_by, settled, ready, fifo_inv.
    cbn [drv trace]. rewrite Hq3, Hd3.
    destruct Hr3 as ((Hp3 & Htr3) & Htx3 & Hrx3).
    split; [ | right; split; [ reflexivity | cbn [length] in Hn; exact Hn ] ].
    split; [ | split; [ exact Hq' | lia ] ].
    split; [ | lia ].
    split; [ split; assumption | split; assumption ].
Qed.

Lemma total_do_request_once :
  total balanced (do_request pin fuel m) (fun _ => balanced).
Proof.
  intros w Hw.
  destruct (total_do_request (length (req_queue (drv w))) w (conj Hw eq_refl))
    as (r & w' & E & Hb & _).
  exists r, w'. split; assumption.
Qed.

Lemma total_do_request_loop k : forall n0,
  (n0 < k)%nat ->
  total (fun w => balanced w /\ length (req_queue (drv w)) = n0)
        (do_request_loop pin fuel k m)
        (fun _ w' => balanced w' /\ req_queue (drv w') = []).
Proof.
  induction k as [|k IH]; intros n0 Hk; [ lia | ].
  cbn [do_request_loop].
  eapply total_bind; [ apply total_do_request | ].
  intros r w [Hb [(-> & Hq) | (-> & Hq)]]; cbn [Z.eqb].
  - exists tt, w. split; [ reflexivity | split; assumption ].
  - apply (IH (length (req_queue (drv w)))); [ lia | ].
    split; [ exact Hb | reflexivity ].
Qed.

Lemma total_do_all_requests :
  total balanced (do_all_requests pin fuel m)
        (fun _ w' => balanced w' /\ req_queue (drv w') = []).
Proof.
  intros w Hw. unfold do_all_requests, bind, get_drv.
  apply (total_do_request_loop (S (length (req_queue (drv w))))
           (length (req_queue (drv w)))); [ lia | ].
  split; [ exact Hw | reflexivity ].
Qed.

Lemma total_policy_step req_count :
  total balanced
        (if REQ_OUTSTANDINGS <? req_count then do_request pin fuel m else ret 0)
        (fun _ => balanced).
Proof.
  destruct (REQ_OUTSTANDINGS <? req_count);
    [ apply total_do_request_once | apply total_ret; auto ].
Qed.

(** The shell's page commit returns and takes a session at rest to a
    session at rest. *)
Hypothesis write_page_total : forall a,
  total at_rest (avr_write_page m a) (fun _ => at_rest).

Lemma total_emit_at_rest e :
  transfer_ok e ->
  total (fun w : world T => balanced w /\ req_queue (drv w) = []) (emit e)
        (fun _ => at_rest).
Proof.
  intros He w [(Hs & _) Hq]. eexists. eexists. split; [ reflexivity | ].
  split; [ | exact Hq ].
  eapply (settled_same w _ [e] Hs); try reflexivity.
  constructor; [ exact He | constructor ].
Qed.

Lemma paged_write_flash_loop_total lo hi n_bytes k :
  forall i j addr addr_save buf req_count,
  total balanced
        (paged_write_flash_loop pin fuel avr_set_bits avr_set_addr
           avr_set_input avr_write_page k m lo hi n_bytes i j addr addr_save
           buf req_count)
        (fun rc w' => at_rest w' /\ (rc = to_int n_bytes \/ rc = -2)).
Proof.
  induction k as [|k IH]; intros i j addr addr_save buf req_count;
    cbn [paged_write_flash_loop].
  - eapply total_bind; [ apply total_do_all_requests | ].
    intros u. apply total_ret. intros w [Hb Hq].
    split; [ apply balanced_at_rest; assumption | left; reflexivity ].
  - eapply total_bind; [ apply total_get_image | ]. intros img.
    eapply total_bind; [ apply total_encode_cmd | ]. intros enc.
    cbn zeta. fold (@balanced T).
    destruct (_ || _ || _); [ | apply IH ].
    eapply total_bind; [ apply total_close_fragment | ]. intros buf'.
    eapply total_bind; [ apply total_send | ]. intros r0.
    eapply total_bind; [ apply total_put_request; lia | ]. intros u.
    eapply total_bind; [ apply total_policy_step | ]. intros r1.
    destruct (paged m && _); [ | apply IH ].
    eapply total_bind; [ apply total_do_all_requests | ]. intros u'.
    eapply total_bind; [ apply total_get_drv | ]. intros p.
    eapply total_bind; [ apply total_emit_at_rest; exact I | ]. intros u''.
    eapply total_bind; [ apply write_page_total | ]. intros rc.
    destruct (negb (rc =? 0)).
    + apply total_ret. intros w Hw. split; [ exact Hw | right; reflexivity ].
    + eapply total_weaken; [ apply IH | apply at_rest_balanced | auto ].
Qed.

Lemma paged_load_flash_loop_total lo hi n_bytes k :
  forall i j addr addr_save buf req_count,
  total balanced
        (paged_load_flash_loop pin fuel avr_set_bits avr_set_addr
           k m lo hi n_bytes i j addr addr_save buf req_count)
        (fun rc w' => at_rest w' /\ rc = 0).
Proof.
  induction k as [|k IH]; intros i j addr addr_save buf req_count;
    cbn [paged_load_flash_loop].
  - eapply total_bind; [ apply total_do_all_requests | ].
    intros u. apply total_ret. intros w [Hb Hq].
    split; [ apply balanced_at_rest; assumption | reflexivity ].
  - eapply total_bind; [ apply total_encode_cmd | ]. intros enc.
    cbn zeta. fold (@balanced T).
    destruct (_ || _); [ | apply IH ].
    eapply total_bind; [ apply total_close_fragment | ]. intros buf'.
    eapply total_bind; [ apply total_send | ]. intros r0.
    eapply total_bind; [ apply total_put_request; lia | ]. intros u.
    eapply total_bind; [ apply total_policy_step | ]. intros r1.
    apply IH.
Qed.

Lemma paged_write_flash_total page_size addr n_bytes :
  total at_rest
        (ft245r_paged_write_flash pin fuel avr_set_bits avr_set_addr
           avr_set_input avr_write_page m page_size addr n_bytes)
        (fun rc w' => at_rest w'
                      /\ (rc = to_int n_bytes \/ rc = -2 \/ rc = -1)).
Proof.
  unfold ft245r_paged_write_flash.
  destruct (op_LOADPAGE_LO m) as [lo|], (op_LOADPAGE_HI m) as [hi|];
    try (apply total_ret; intros w Hw; split; [ exact Hw | auto ]).
  eapply total_weaken; [ apply paged_write_flash_loop_total | | ].
  - intros w. apply at_rest_balanced.
  - intros rc w [Hr [Hc | Hc]]; auto.
Qed.

Lemma paged_load_flash_total page_size addr n_bytes :
  total at_rest
        (ft245r_paged_load_flash pin fuel avr_set_bits avr_set_addr
           m page_size addr n_bytes)
        (fun rc w' => at_rest w' /\ (rc = 0 \/ rc = -1)).
Proof.
  unfold ft245r_paged_load_flash.
  destruct (op_READ_LO m) as [lo|], (op_READ_HI m) as [hi|];
    try (apply total_ret; intros w Hw; split; [ exact Hw | auto ]).
  eapply total_bind with (Q := fun _ => balanced).
  - destruct (op_LOAD_EXT_ADDR m) as [ext|].
    + eapply total_weaken with (P' := balanced) (Q' := fun _ => balanced);
        [ | intros w; apply at_rest_balanced | auto ].
      eapply total_bind; [ apply total_encode_cmd | ]. intros enc.
      eapply total_bind; [ apply total_send_and_discard | ]. intros r.
      apply total_ret. auto.
    + apply total_ret. intros w. apply at_rest_balanced.
  - intros u. eapply total_weaken; [ apply paged_load_flash_loop_total | auto | ].
    intros rc w [Hr Hc]. auto.
Qed.

End PagedTotal.

(** * Properties of the port parser *)

Section PortStrings.
Local Open Scope string_scope.



Lemma nonspace_cons c s : nonspace (String c s) -> isspace c = false /\ nonspace s.
Proof.
  unfold nonspace. cbn [list_ascii_of_string forallb]. intros H.
  apply andb_true_iff in H. destruct H as [Hc Hs].
  split; [ destruct (isspace c); [ discriminate | reflexivity ] | exact Hs ].
Qed.

Lemma scan_token_exact w : forall tok rest,
  nonspace tok -> String.length tok = w -> scan_token w (tok ++ rest) = tok.
Proof.
  induction w as [|w IH]; intros tok rest Hn Hl.
  - destruct tok; [ destruct rest; reflexivity | discriminate ].
  - destruct tok as [|c tok]; [ discriminate | ].
    apply nonspace_cons in Hn. destruct Hn as [Hc Hn].
    cbn [append scan_token]. rewrite Hc. f_equal. apply IH; [ exact Hn | ].
    cbn [String.length] in Hl. lia.
Qed.


Lemma skip_space_nonspace c s : isspace c = false -> skip_space (String c s) = String c s.
Proof. intros Hc. cbn [skip_space]. rewrite Hc. reflexivity. Qed.

Lemma parse_port_serial sn tok rest :
  nonspace tok -> String.length tok = 8%nat ->
  parse_port sn ("usb:" ++ tok ++ rest) = (0%Z, tok).
Proof.
  intros Hn Hl. unfold parse_port, sscanf_usb_8s.
  change (scan_literal "usb:" ("usb:" ++ tok ++ rest)) with (@inr Z string (tok ++ rest)).
  destruct tok as [|c tok]; [ discriminate | ].
  pose proof (nonspace_cons c tok Hn) as [Hc _].
  cbn [append]. rewrite (skip_space_nonspace c _ Hc).
  change (String c (tok ++ rest)) with (String c tok ++ rest).
  rewrite (scan_token_exact 8 (String c tok) rest Hn Hl).
  cbn [Z.eqb Pos.eqb negb]. rewrite Hl. reflexivity.
Qed.











End PortStrings.

Section Open.
Context {T : Type} {tr : FtdiTransport T}.
Variable pin : pinmap.
Variable fuel : nat.
Variable pins_check : pinmap -> list (pinname * bool) -> Z.


Lemma open_refused pgm portname (w : world T) devnum sn rv d' :
  pins_check pin pin_checklist = 0 ->
  parse_port (usbsn pgm) portname = (devnum, sn) -> 0 <= devnum ->
  ftdi_usb_open_desc_index (dev w)
    (if usbvid pgm =? 0 then USB_VENDOR_FTDI else usbvid pgm)
    (match usbpid pgm with [] => USB_DEVICE_FT245 | x :: _ => x end)
    (opt_string (usbproduct pgm)) (opt_string sn) devnum = (rv, d') ->
  rv <> 0 ->
  exists pgm',
    ft245r_open pin fuel pins_check pgm portname w =
    (Ret (-1, pgm'),
     mkWorld (drv w) d' (image w) (trace w ++ [EvOpenDev (opt_string sn) devnum rv])).
Proof.
  intros Hc Hp Hd Ho Hrv. unfold ft245r_open. rewrite Hc, Hp. cbn [Z.eqb negb].
  destruct (Z.ltb_spec devnum 0); [ lia | ].
  cbn [usbsn usbvid usbpid usbproduct]. monad_unfold. rewrite Ho. cbn [fst snd].
  destruct (Z.eqb_spec rv 0); [ contradiction | ]. cbn [negb].
  eexists. reflexivity.
Qed.












End Open.
(** * Tokens of the port string *)

Section PortTokens.
Local Open Scope string_scope.









(** ** Digits *)


Lemma digit_of_sign c d :
  digit_of c = Some d -> c <> "-"%char /\ c <> "+"%char /\ isspace c = false.
Proof.
  destruct c as [b0 b1 b2 b3 b4 b5 b6 b7].
  destruct b0, b1, b2, b3, b4, b5, b6, b7; cbn; intros E;
    try discriminate E; repeat split; discriminate.
Qed.













(** ** Every port string has one of the four forms *)





End PortTokens.

(** * The reference transports and the initial session *)

Lemma eager_cooperative respond : cooperative (eager_transport respond).
Proof.
  split.
  - intros d size Hs. reflexivity.
  - intros d data size. cbn [ftdi_write_data eager_transport].
    destruct (bb_clock respond (bb_pins d) data). reflexivity.
Qed.

Lemma failing_faulty : faulty failing_transport.
Proof. split; intros; cbn; lia. Qed.

Lemma world0_fifo_inv {T} (d : T) img : fifo_inv (world0 d img).
Proof.
  unfold fifo_inv, world0, pdata0, FT245R_MIN_FIFO_SIZE.
  cbn [drv trace rx_pending]. split; [ lia | constructor ].
Qed.

Lemma world0_settled {T} (d : T) img : settled (world0 d img).
Proof.
  split; [ split; [ apply world0_fifo_inv | ] | ];
    unfold world0, pdata0, credit, FT245R_MIN_FIFO_SIZE;
    cbn [drv tx_len rx_len rx_discard rx_pending]; lia.
Qed.



Lemma ref_commit_total {T} {tr : FtdiTransport T} pin fuel m a :
  cooperative tr -> (128 <= fuel)%nat ->
  total at_rest (@ref_commit T tr pin fuel m a) (fun _ => at_rest).
Proof.
  intros coop enough w [Hs Hq]. unfold ref_commit.
  destruct (cmd_total pin fuel [76; (a / 512) mod 256; (a / 2) mod 256; 0] w
              coop enough Hs) as (res & w' & E & Hs' & _).
  destruct (cmd_trace pin fuel [76; (a / 512) mod 256; (a / 2) mod 256; 0] w)
    as (_ & _ & Hq' & _).
  rewrite E in Hq'. cbn [snd] in Hq'.
  exists 0, w'. unfold bind. rewrite E. split; [ reflexivity | ].
  split; [ exact Hs' | congruence ].
Qed.

Lemma world0_at_rest {T} (d : T) img : at_rest (world0 d img).
Proof. split; [ apply world0_settled | reflexivity ]. Qed.

(** * The RX ring as a queue *)

Section Ring.

Lemma rd_upd_same buf i v :
  0 <= i < Z.of_nat (length buf) -> rd (upd buf i v) i = v.
Proof.
  intros Hi. unfold rd, upd. destruct (Z.ltb_spec i 0); [ lia | ].
  assert (Hn : (Z.to_nat i < length buf)%nat) by lia.
  generalize (Z.to_nat i) Hn. clear. intros k.
  revert buf. induction k as [|k IH]; intros [|h t] Hn; cbn in *; try lia.
  apply IH. lia.
Qed.

Lemma rd_upd_other buf i j v :
  0 <= i -> 0 <= j -> i <> j -> rd (upd buf i v) j = rd buf j.
Proof.
  intros Hi Hj Hne. unfold rd, upd. destruct (Z.ltb_spec i 0); [ lia | ].
  assert (Hn : Z.to_nat i <> Z.to_nat j) by lia.
  generalize (Z.to_nat i) (Z.to_nat j) Hn. clear. intros a b.
  revert buf b. induction a as [|a IH]; intros [|h t] [|b] Hn; cbn;
    try reflexivity; try lia.
  apply IH. lia.
Qed.

Lemma upd_length buf i v : length (upd buf i v) = length buf.
Proof.
  unfold upd. destruct (i <? 0); [ reflexivity | ].
  generalize (Z.to_nat i). intros k. revert buf.
  induction k as [|k IH]; intros [|h t]; cbn; try reflexivity.
  rewrite IH. reflexivity.
Qed.

Lemma wrap_succ pos :
  0 <= pos < FT245R_BUFSIZE ->
  (if FT245R_BUFSIZE <=? pos + 1 then 0 else pos + 1)
  = (pos + 1) mod FT245R_BUFSIZE.
Proof.
  intros Hp. unfold FT245R_BUFSIZE in *.
  destruct (Z.leb_spec 8192 (pos + 1)).
  - assert (pos + 1 = 8192) as -> by lia. reflexivity.
  - rewrite Z.mod_small by lia. reflexivity.
Qed.

(** The ring read cell by cell. *)
Lemma ring_from_cells buf k : forall pos,
  0 <= pos < FT245R_BUFSIZE ->
  ring_from buf pos k
  = map (fun i => rd buf ((pos + Z.of_nat i) mod FT245R_BUFSIZE)) (seq 0 k).
Proof.
  induction k as [|k IH]; intros pos Hp; [ reflexivity | ].
  cbn [ring_from seq map]. f_equal.
  - rewrite Z.add_0_r, Z.mod_small by assumption. reflexivity.
  - rewrite wrap_succ by assumption. rewrite IH
      by (apply Z.mod_pos_bound; unfold FT245R_BUFSIZE; lia).
    rewrite <- seq_shift, map_map. apply map_ext. intros i.
    rewrite Z.add_mod_idemp_l by (unfold FT245R_BUFSIZE; lia).
    f_equal. f_equal. lia.
Qed.

Lemma wrap_apart a b :
  0 <= a < b -> b < FT245R_BUFSIZE -> forall pos,
  (pos + a) mod FT245R_BUFSIZE <> (pos + b) mod FT245R_BUFSIZE.
Proof.
  intros Ha Hb pos E. unfold FT245R_BUFSIZE in *.
  assert (Hd : ((pos + b) - (pos + a)) mod 8192 = 0)
    by (rewrite Zminus_mod, E, Z.sub_diag; reflexivity).
  replace (pos + b - (pos + a)) with (b - a) in Hd by lia.
  rewrite Z.mod_small in Hd by lia. lia.
Qed.

Lemma ring_put p b :
  ring_ok p -> rx_len p < FT245R_BUFSIZE ->
  ring_ok (ft245r_rx_buf_put p b)
  /\ ring_contents (ft245r_rx_buf_put p b) = ring_contents p ++ [b mod 256].
Proof.
  intros (Hl & Hrd & Hlen & Hwr) Hroom.
  assert (Hw : 0 <= rx_wr p < FT245R_BUFSIZE)
    by (rewrite Hwr; apply Z.mod_pos_bound; unfold FT245R_BUFSIZE; lia).
  unfold ring_ok, ring_contents, ft245r_rx_buf_put.
  cbn [rx_buf rx_rd rx_len rx_wr set_ring].
  split.
  - rewrite upd_length. split; [ exact Hl | ]. split; [ exact Hrd | ].
    split; [ lia | ].
    rewrite wrap_succ by assumption. rewrite Hwr.
    rewrite Z.add_mod_idemp_l by (unfold FT245R_BUFSIZE; lia).
    f_equal. lia.
  - replace (Z.to_nat (rx_len p + 1)) with (Z.to_nat (rx_len p) + 1)%nat by lia.
    rewrite !ring_from_cells by assumption.
    rewrite seq_app, map_app. cbn [seq map Nat.add]. f_equal.
    + apply map_ext_in. intros i Hi. apply in_seq in Hi.
      apply rd_upd_other; [ lia | | ].
      * apply Z.mod_pos_bound. unfold FT245R_BUFSIZE. lia.
      * rewrite Hwr. intros E. symmetry in E. revert E.
        apply wrap_apart; lia.
    + f_equal. rewrite Z2Nat.id by lia. rewrite <- Hwr.
      apply rd_upd_same. rewrite Hl. unfold FT245R_BUFSIZE in *. lia.
Qed.

Lemma ring_put_all l : forall p,
  ring_ok p -> rx_len p + Z.of_nat (length l) <= FT245R_BUFSIZE ->
  ring_ok (fold_left ft245r_rx_buf_put l p)
  /\ ring_contents (fold_left ft245r_rx_buf_put l p)
     = ring_contents p ++ byte_list l.
Proof.
  induction l as [|b l IH]; intros p Hok Hroom; cbn [fold_left byte_list map].
  - rewrite app_nil_r. split; [ exact Hok | reflexivity ].
  - cbn [length] in Hroom.
    destruct (ring_put p b Hok ltac:(lia)) as [Hok1 Hc1].
    destruct (IH (ft245r_rx_buf_put p b) Hok1) as [Hok2 Hc2].
    { unfold ft245r_rx_buf_put. cbn [rx_len set_ring]. lia. }
    split; [ exact Hok2 | ].
    rewrite Hc2, Hc1, <- app_assoc. reflexivity.
Qed.

Lemma ring_get p :
  ring_ok p -> 0 < rx_len p ->
  exists x rest,
    ring_contents p = x :: rest
    /\ fst (ft245r_rx_buf_get p) = x mod 256
    /\ ring_contents (snd (ft245r_rx_buf_get p)) = rest
    /\ ring_ok (snd (ft245r_rx_buf_get p)).
Proof.
  intros (Hl & Hrd & Hlen & Hwr) Hpos.
  unfold ring_contents, ft245r_rx_buf_get.
  cbn [fst snd rx_buf rx_rd rx_len rx_wr set_ring].
  destruct (Z.to_nat (rx_len p)) as [|k] eqn:Ek; [ lia | ].
  replace (Z.to_nat (rx_len p - 1)) with k by lia.
  cbn [ring_from]. eexists. eexists. split; [ reflexivity | ].
  split; [ reflexivity | ]. split; [ reflexivity | ].
  unfold ring_ok. cbn [rx_buf rx_rd rx_len rx_wr set_ring].
  split; [ exact Hl | ].
  rewrite wrap_succ by assumption.
  split; [ apply Z.mod_pos_bound; unfold FT245R_BUFSIZE; lia | ].
  split; [ lia | ].
  rewrite Hwr, Z.add_mod_idemp_l by (unfold FT245R_BUFSIZE; lia).
  f_equal. lia.
Qed.

Lemma ring_purge p :
  length (rx_buf p) = Z.to_nat FT245R_BUFSIZE ->
  ring_ok (ft245r_rx_buf_purge p)
  /\ ring_contents (ft245r_rx_buf_purge p) = [].
Proof.
  intros Hl. unfold ring_ok, ring_contents, ft245r_rx_buf_purge.
  cbn [rx_buf rx_rd rx_len rx_wr set_ring]. unfold FT245R_BUFSIZE in *.
  repeat split; try lia; try exact Hl; reflexivity.
Qed.

Lemma ring_contents_length p : length (ring_contents p) = Z.to_nat (rx_len p).
Proof.
  unfold ring_contents. generalize (rx_rd p).
  induction (Z.to_nat (rx_len p)) as [|k IH]; intros pos; cbn [ring_from length];
    [ reflexivity | rewrite IH; reflexivity ].
Qed.

Lemma byte_list_bytes l x : In x (byte_list l) -> 0 <= x < 256.
Proof.
  unfold byte_list. intros Hin. apply in_map_iff in Hin.
  destruct Hin as (y & <- & _). apply Z.mod_pos_bound. lia.
Qed.

Lemma byte_list_app a b : byte_list (a ++ b) = byte_list a ++ byte_list b.
Proof. apply map_app. Qed.

Lemma byte_list_length l : length (byte_list l) = length l.
Proof. apply length_map. Qed.

Lemma byte_list_idem l : byte_list (byte_list l) = byte_list l.
Proof.
  unfold byte_list. rewrite map_map. apply map_ext. intros x.
  apply Z.mod_mod. lia.
Qed.

Lemma firstn_upd_snoc l v : forall n,
  (n < length l)%nat ->
  firstn (S n) (upd_nat l n v) = firstn n l ++ [v].
Proof.
  induction l as [|x l IH]; intros [|n] Hn; cbn in Hn |- *; try lia.
  - reflexivity.
  - f_equal. apply IH. lia.
Qed.

End Ring.

(** * What reaches the transport *)

Section Streams.
Context {T : Type} {tr : FtdiTransport T}.

Lemma fill_trace (w : world T) :
  trace (snd (ft245r_fill w))
  = trace w ++ [EvRead (rx_pending (drv w))
                       (fst (fst (ftdi_read_data (dev w) (rx_pending (drv w)))))].
Proof.
  unfold ft245r_fill. monad_unfold.
  destruct (ftdi_read_data (dev w) (rx_pending (drv w))) as [[nread raw] d'].
  cbn [fst snd drv dev image trace].
  destruct (nread <? 0); reflexivity.
Qed.

Lemma wire_bytes_app a b : wire_bytes (a ++ b) = wire_bytes a ++ wire_bytes b.
Proof. unfold wire_bytes. apply flat_map_app. Qed.

Lemma firstn_add {A} (l : list A) : forall a b,
  firstn (a + b) l = firstn a l ++ firstn b (skipn a l).
Proof.
  induction l as [|x l IH]; intros [|a] b; cbn [firstn skipn Nat.add app];
    try reflexivity.
  - rewrite firstn_nil. reflexivity.
  - f_equal. apply IH.
Qed.

Lemma slice_split buf src a len :
  0 <= src -> 0 <= a <= len ->
  slice buf src a ++ slice buf (src + a) (len - a) = slice buf src len.
Proof.
  intros Hs Ha. unfold slice.
  replace (Z.to_nat (src + a)) with (Z.to_nat a + Z.to_nat src)%nat by lia.
  rewrite <- skipn_skipn.
  replace (Z.to_nat len) with (Z.to_nat a + Z.to_nat (len - a))%nat by lia.
  rewrite firstn_add. reflexivity.
Qed.

(** With bytes in the ring, [ft245r_rx_buf_fill_and_get] takes the oldest
    one and does not touch the transport. *)
Lemma fill_and_get_pop k (w : world T) :
  ring_ok (drv w) -> 0 < rx_len (drv w) ->
  exists x rest w',
    ft245r_rx_buf_fill_and_get_loop k w = (Ret (x mod 256), w')
    /\ ring_contents (drv w) = x :: rest
    /\ ring_contents (drv w') = rest /\ ring_ok (drv w')
    /\ rx_len (drv w') = rx_len (drv w) - 1
    /\ rx_discard (drv w') = rx_discard (drv w)
    /\ popped w w'.
Proof.
  intros Hok Hpos.
  destruct (ring_get (drv w) Hok Hpos) as (x & rest & Hc & Hx & Hr & Hok').
  exists x, rest.
  assert (E : ft245r_rx_buf_fill_and_get_loop k w
              = (Ret (fst (ft245r_rx_buf_get (drv w))),
                 mkWorld (snd (ft245r_rx_buf_get (drv w))) (dev w) (image w)
                         (trace w))).
  { destruct k; cbn [ft245r_rx_buf_fill_and_get_loop]; monad_unfold;
      (destruct (Z.eqb_spec (rx_len (drv w)) 0); [ lia | ]);
      destruct (ft245r_rx_buf_get (drv w)); reflexivity. }
  eexists. split; [ rewrite E, Hx; reflexivity | ].
  cbn [drv dev image trace].
  split; [ exact Hc | ]. split; [ exact Hr | ]. split; [ exact Hok' | ].
  unfold ft245r_rx_buf_get. cbn [snd rx_len set_ring rx_discard].
  split; [ reflexivity | ]. split; [ reflexivity | ].
  repeat split.
Qed.

Lemma popped_refl (w : world T) : popped w w.
Proof. repeat split. Qed.

Lemma popped_trans (a b c : world T) : popped a b -> popped b c -> popped a c.
Proof.
  unfold popped. intros (?&?&?&?&?&?&?&?&?&?) (?&?&?&?&?&?&?&?&?&?).
  repeat split; congruence.
Qed.

(** The discard loop of [ft245r_recv] on a ring that holds enough bytes. *)
Lemma recv_discard_pop fuel k : forall w : world T,
  ring_ok (drv w) -> Z.of_nat k <= rx_len (drv w) ->
  exists w',
    recv_discard fuel k w = (Ret 0, w')
    /\ ring_contents (drv w') = skipn k (ring_contents (drv w))
    /\ ring_ok (drv w')
    /\ rx_len (drv w') = rx_len (drv w) - Z.of_nat k
    /\ rx_discard (drv w') = rx_discard (drv w) - Z.of_nat k
    /\ popped w w'.
Proof.
  induction k as [|k IH]; intros w Hok Hk.
  - exists w. cbn [recv_discard skipn]. monad_unfold.
    split; [ reflexivity | ]. split; [ reflexivity | ]. split; [ exact Hok | ].
    split; [ lia | ]. split; [ lia | ]. apply popped_refl.
  - destruct (fill_and_get_pop fuel w Hok) as
        (x & rest & w1 & E1 & Hc & Hr & Hok1 & Hl1 & Hd1 & Hp1); [ lia | ].
    cbn [recv_discard]. unfold ft245r_rx_buf_fill_and_get. monad_unfold.
    rewrite E1. cbn [fst snd].
    destruct (Z.ltb_spec (x mod 256) 0) as [Hneg|_];
      [ pose proof (Z.mod_pos_bound x 256); lia | ].
    cbn [fst snd drv dev image trace].
    set (w2 := mkWorld (set_discard (drv w1) (rx_discard (drv w1) - 1))
                       (dev w1) (image w1) (trace w1)).
    destruct (IH w2) as (w' & E' & Hc' & Hok' & Hl' & Hd' & Hp');
      [ exact Hok1 | subst w2; cbn [drv rx_len set_discard]; lia | ].
    exists w'. split; [ exact E' | ].
    subst w2. cbn [drv dev image trace rx_len rx_discard set_discard] in *.
    change (ring_contents (set_discard (drv w1) (rx_discard (drv w1) - 1)))
      with (ring_contents (drv w1)) in Hc'.
    rewrite Hc', Hr, Hc. cbn [skipn].
    split; [ reflexivity | ]. split; [ exact Hok' | ].
    split; [ lia | ]. split; [ lia | ].
    eapply popped_trans; [ exact Hp1 | ].
    eapply popped_trans; [ | exact Hp' ]. repeat split.
Qed.

(** The store loop of [ft245r_recv] on a ring that holds enough bytes. *)
Lemma recv_store_pop fuel k : forall got (w : world T),
  ring_ok (drv w) -> Z.of_nat k <= rx_len (drv w) ->
  exists w',
    recv_store fuel k got w
    = (Ret (0, got ++ byte_list (firstn k (ring_contents (drv w)))), w')
    /\ ring_contents (drv w') = skipn k (ring_contents (drv w))
    /\ ring_ok (drv w')
    /\ rx_len (drv w') = rx_len (drv w) - Z.of_nat k
    /\ rx_discard (drv w') = rx_discard (drv w)
    /\ popped w w'.
Proof.
  induction k as [|k IH]; intros got w Hok Hk.
  - exists w. cbn [recv_store skipn firstn byte_list map]. monad_unfold.
    rewrite app_nil_r.
    split; [ reflexivity | ]. split; [ reflexivity | ]. split; [ exact Hok | ].
    split; [ lia | ]. split; [ reflexivity | ]. apply popped_refl.
  - destruct (fill_and_get_pop fuel w Hok) as
        (x & rest & w1 & E1 & Hc & Hr & Hok1 & Hl1 & Hd1 & Hp1); [ lia | ].
    cbn [recv_store]. unfold ft245r_rx_buf_fill_and_get. monad_unfold.
    rewrite E1. cbn [fst snd].
    destruct (Z.ltb_spec (x mod 256) 0) as [Hneg|_];
      [ pose proof (Z.mod_pos_bound x 256); lia | ].
    destruct (IH (got ++ [(x mod 256) mod 256]) w1)
      as (w' & E' & Hc' & Hok' & Hl' & Hd' & Hp'); [ exact Hok1 | lia | ].
    exists w'. rewrite E', Hc', Hr, Hc. cbn [skipn firstn byte_list map].
    rewrite Z.mod_mod by lia. rewrite <- app_assoc. cbn [app].
    split; [ reflexivity | ]. split; [ reflexivity | ]. split; [ exact Hok' | ].
    split; [ lia | ]. split; [ lia | ].
    eapply popped_trans; eassumption.
Qed.

Hypothesis coop : cooperative tr.

(** Reasoning about the loop of [ft245r_flush] round by round: a property
    kept by a fill and advanced by each write holds at the end. *)
Lemma flush_loop_rule (R : world T -> Z -> Prop) (stop : Z) k :
  (forall w s, fifo_inv w -> rx_pending (drv w) = FT245R_MIN_FIFO_SIZE ->
               s < stop -> R w s -> R (snd (ft245r_fill w)) s) ->
  (forall w s avail,
      fifo_inv w -> 0 < avail ->
      rx_pending (drv w) + avail <= FT245R_MIN_FIFO_SIZE ->
      s + avail <= stop -> R w s -> R (after_write w s avail) (s + avail)) ->
  forall src len (w : world T),
  fifo_inv w -> len <= Z.of_nat k -> src + Z.max 0 len = stop -> R w src ->
  R (snd (ft245r_flush_loop k src len w)) stop.
Proof.
  intros Hfill Hwrite.
  induction k as [|k IH]; intros src len w Hinv Hk Hstop HR;
    cbn [ft245r_flush_loop].
  - destruct (Z.ltb_spec 0 len); [ lia | ]. cbn [ret snd].
    replace stop with src by lia. exact HR.
  - destruct (Z.ltb_spec 0 len).
    2:{ cbn [ret snd]. replace stop with src by lia. exact HR. }
    monad_unfold.
    destruct (Z.leb_spec (FT245R_MIN_FIFO_SIZE - rx_pending (drv w)) 0) as [Hfull|Hroom].
    + assert (Hp : rx_pending (drv w) = FT245R_MIN_FIFO_SIZE)
        by (destruct Hinv as [? _]; lia).
      pose proof (Hfill w src Hinv Hp ltac:(lia) HR) as HR1.
      destruct (fill_coop coop w Hinv) as (w1 & E1 & Hinv1 & Hp1 & Hl1).
      rewrite E1 in *. cbn [snd andb] in *.
      destruct (Z.ltb_spec (rx_pending (drv w)) 0);
        [ unfold FT245R_MIN_FIFO_SIZE in *; lia | ].
      set (avail := if len <? rx_pending (drv w) then len else rx_pending (drv w)).
      assert (Hav : 0 < avail <= FT245R_MIN_FIFO_SIZE /\ avail <= len).
      { subst avail. unfold FT245R_MIN_FIFO_SIZE in *.
        destruct (Z.ltb_spec len (rx_pending (drv w))); lia. }
      pose proof (Hwrite w1 src avail Hinv1 ltac:(lia) ltac:(lia) ltac:(lia) HR1)
        as HR2.
      unfold after_write in HR2.
      destruct coop as [_ Hcw].
      specialize (Hcw (dev w1) (slice (tx_buf (drv w1)) src avail) avail).
      destruct (ftdi_write_data (dev w1) (slice (tx_buf (drv w1)) src avail) avail)
        as [rv d2]. cbn [fst] in Hcw. subst rv.
      cbn [fst snd drv dev image trace]. rewrite Z.eqb_refl. cbn [negb].
      apply IH; [ | lia | lia | exact HR2 ].
      unfold fifo_inv. cbn [drv trace rx_pending set_pending].
      destruct Hinv1 as [Hq Ht1]. split; [ lia | ].
      apply Forall_snoc; [ assumption | ].
      unfold transfer_ok, FT245R_MIN_FIFO_SIZE in *; lia.
    + cbn [andb].
      set (a0 := FT245R_MIN_FIFO_SIZE - rx_pending (drv w)) in *.
      set (avail := if len <? a0 then len else a0).
      assert (Hav : 0 < avail <= a0 /\ avail <= len).
      { subst avail. destruct (Z.ltb_spec len a0); lia. }
      pose proof (Hwrite w src avail Hinv ltac:(lia) ltac:(lia) ltac:(lia) HR)
        as HR2.
      unfold after_write in HR2.
      destruct coop as [_ Hcw].
      specialize (Hcw (dev w) (slice (tx_buf (drv w)) src avail) avail).
      destruct (ftdi_write_data (dev w) (slice (tx_buf (drv w)) src avail) avail)
        as [rv d2]. cbn [fst] in Hcw. subst rv.
      cbn [fst snd drv dev image trace]. rewrite Z.eqb_refl. cbn [negb].
      apply IH; [ | lia | lia | exact HR2 ].
      unfold fifo_inv. cbn [drv trace rx_pending set_pending].
      destruct Hinv as [Hq Ht1]. subst a0. split; [ lia | ].
      apply Forall_snoc; [ assumption | ].
      unfold transfer_ok, FT245R_MIN_FIFO_SIZE in *; lia.
Qed.

Variable fuel : nat.

Lemma flush_rule (R : world T -> Z -> Prop) (w0 : world T) :
  (forall w s, fifo_inv w -> rx_pending (drv w) = FT245R_MIN_FIFO_SIZE ->
               s < tx_len (drv w0) -> R w s -> R (snd (ft245r_fill w)) s) ->
  (forall w s avail,
      fifo_inv w -> 0 < avail ->
      rx_pending (drv w) + avail <= FT245R_MIN_FIFO_SIZE ->
      s + avail <= tx_len (drv w0) -> R w s ->
      R (after_write w s avail) (s + avail)) ->
  fifo_inv w0 -> 0 <= tx_len (drv w0) <= Z.of_nat fuel -> R w0 0 ->
  R (snd (ft245r_flush fuel w0)) (tx_len (drv w0)).
Proof.
  intros Hfill Hwrite Hinv Hlen HR. unfold ft245r_flush. monad_unfold.
  destruct (Z.eqb_spec (tx_len (drv w0)) 0) as [E|E].
  - cbn [snd]. rewrite E. exact HR.
  - apply (flush_loop_rule R (tx_len (drv w0))); try assumption; lia.
Qed.

(** When the device FIFO has room for all that is staged, [ft245r_flush]
    writes without reading: the ring is not touched. *)
Lemma flush_no_fill (w0 : world T) :
  fifo_inv w0 -> 0 <= tx_len (drv w0) <= Z.of_nat fuel ->
  rx_pending (drv w0) + tx_len (drv w0) <= FT245R_MIN_FIFO_SIZE ->
  rx_len (drv (snd (ft245r_flush fuel w0))) = rx_len (drv w0)
  /\ rx_pending (drv (snd (ft245r_flush fuel w0)))
     = rx_pending (drv w0) + tx_len (drv w0).
Proof.
  intros Hinv Hlen Hroom.
  set (R := fun (w : world T) s =>
              rx_len (drv w) = rx_len (drv w0)
              /\ rx_pending (drv w) = rx_pending (drv w0) + s).
  assert (Hend : R (snd (ft245r_flush fuel w0)) (tx_len (drv w0))).
  { apply flush_rule; try assumption; subst R; cbv beta.
    - intros w s Hi Hp Hs (Hl & Hq). lia.
    - intros w s avail Hi Ha Hp Hstop (Hl & Hq). unfold after_write.
      destruct (ftdi_write_data (dev w) (slice (tx_buf (drv w)) s avail) avail)
        as [rv d2].
      cbn [drv rx_len rx_pending set_pending]. split; [ exact Hl | lia ].
    - split; [ reflexivity | lia ]. }
  exact Hend.
Qed.

Lemma flush_wire (w0 : world T) :
  fifo_inv w0 -> 0 <= tx_len (drv w0) <= Z.of_nat fuel ->
  wire_bytes (trace (snd (ft245r_flush fuel w0))) = outbound w0.
Proof.
  intros Hinv Hlen.
  set (R := fun (w : world T) s =>
              tx_buf (drv w) = tx_buf (drv w0)
              /\ 0 <= s
              /\ wire_bytes (trace w)
                 = wire_bytes (trace w0) ++ slice (tx_buf (drv w0)) 0 s).
  assert (Hend : R (snd (ft245r_flush fuel w0)) (tx_len (drv w0))).
  { apply flush_rule; try assumption; subst R; cbv beta.
    - intros w s Hi Hp _ (Hb & Hs & Hw).
      destruct (fill_fifo_only w) as (_ & _ & Hb' & _).
      split; [ congruence | ]. split; [ exact Hs | ].
      rewrite fill_trace, wire_bytes_app, Hw. cbn [wire_bytes flat_map].
      rewrite !app_nil_r. reflexivity.
    - intros w s avail Hi Ha Hp Hstop (Hb & Hs & Hw). unfold after_write.
      destruct (ftdi_write_data (dev w) (slice (tx_buf (drv w)) s avail) avail)
        as [rv d2].
      cbn [drv trace tx_buf set_pending].
      split; [ exact Hb | ]. split; [ lia | ].
      rewrite wire_bytes_app, Hw. cbn [wire_bytes flat_map]. rewrite app_nil_r.
      rewrite Hb, <- app_assoc. f_equal.
      rewrite <- (slice_split (tx_buf (drv w0)) 0 s (s + avail)) by lia.
      f_equal. f_equal. lia.
    - split; [ reflexivity | ]. split; [ lia | ].
      unfold slice. cbn [Z.to_nat firstn]. rewrite app_nil_r. reflexivity. }
  destruct Hend as (_ & _ & Hw).
  rewrite Hw. unfold outbound, staged, slice. cbn [Z.to_nat skipn].
  reflexivity.
Qed.

Hypothesis enough : (128 <= fuel)%nat.

(** [ft245r_send2] byte by byte. *)
Lemma send2_unroll b rest d (w : world T) :
  ready w ->
  ft245r_send2 fuel (b :: rest) d w
  = ft245r_send2 fuel rest d (send_step fuel w b d)
  /\ ready (send_step fuel w b d)
  /\ bystander w (send_step fuel w b d)
  /\ rx_discard (drv (send_step fuel w b d))
     = rx_discard (drv w) + (if d then 1 else 0)
  /\ credit (drv (send_step fuel w b d)) = credit (drv w) + 1.
Proof.
  intros (Hinv & Htx & Hrx). cbn [ft245r_send2]. unfold send_step, after_stage.
  monad_unfold.
  set (p1 := if d then set_discard (drv w) (rx_discard (drv w) + 1) else drv w).
  assert (Hp1 : rx_pending p1 = rx_pending (drv w) /\ tx_len p1 = tx_len (drv w)
                /\ rx_len p1 = rx_len (drv w) /\ ft245r_out p1 = ft245r_out (drv w)
                /\ ft245r_ddr p1 = ft245r_ddr (drv w)
                /\ req_queue p1 = req_queue (drv w) /\ req_pool p1 = req_pool (drv w)
                /\ rx_discard p1 = rx_discard (drv w) + (if d then 1 else 0)).
  { subst p1. destruct d; cbn; repeat split; lia. }
  destruct Hp1 as (Ha & Hb & Hc & Hd & He & Hf & Hg & Hh).
  cbn [drv tx_len set_tx].
  destruct (Z.leb_spec FT245R_MIN_FIFO_SIZE (tx_len p1 + 1)) as [Hfull|Hroom].
  - match goal with
    | |- context [ft245r_flush fuel ?w1] =>
        destruct (flush_total coop fuel enough w1)
          as (w2 & E2 & Hinv2 & Hfo & Hrx2 & Hcr)
    end.
    { apply (fifo_inv_same w); [ exact Ha | reflexivity | exact Hinv ]. }
    { cbn [drv tx_len set_tx]. unfold FT245R_MIN_FIFO_SIZE in *. lia. }
    { cbn [drv rx_len set_tx]. lia. }
    rewrite E2. cbn [fst snd]. unfold after_reset.
    destruct Hfo as ((Ho2 & Hd2 & Hq2 & Hpl2 & Hi2 & He2) & Ht2 & Htb2 & Hdi2).
    cbn [drv image tx_len set_tx rx_discard ft245r_out ft245r_ddr req_queue
         req_pool trace] in *.
    split; [ reflexivity | ].
    split.
    { split; [ exact Hinv2 | ]. cbn [drv tx_len set_tx rx_len].
      unfold FT245R_MIN_FIFO_SIZE. split; lia. }
    split.
    { unfold bystander.
      cbn [drv image ft245r_out ft245r_ddr req_queue req_pool set_tx trace].
      repeat split; try congruence.
      destruct He2 as (evs & Hev & Hwire). exists evs. split; assumption. }
    unfold credit in *.
    cbn [drv tx_len set_tx rx_len rx_pending rx_discard] in *.
    split; lia.
  - cbn [fst snd].
    split; [ reflexivity | ].
    split.
    { split; [ | cbn [drv tx_len set_tx rx_len]; split; lia ].
      apply (fifo_inv_same w); [ exact Ha | reflexivity | exact Hinv ]. }
    split.
    { unfold bystander.
      cbn [drv image ft245r_out ft245r_ddr req_queue req_pool set_tx trace].
      repeat split; try congruence. apply extends_same. }
    unfold credit.
    cbn [drv tx_len set_tx rx_len rx_pending rx_discard].
    split; lia.
Qed.

Lemma send_step_outbound b d (w : world T) :
  ready w -> tx_ok (drv w) ->
  outbound (send_step fuel w b d) = outbound w ++ [b mod 256]
  /\ tx_ok (drv (send_step fuel w b d)).
Proof.
  intros (Hinv & Htx & Hrx) Hok. unfold send_step.
  set (w1 := after_stage w b d).
  assert (Hs1 : staged (drv w1) = staged (drv w) ++ [b mod 256]
                /\ tx_ok (drv w1) /\ trace w1 = trace w
                /\ tx_len (drv w1) = tx_len (drv w) + 1
                /\ rx_pending (drv w1) = rx_pending (drv w)).
  { subst w1. unfold after_stage, staged, tx_ok in *.
    destruct d; cbn [drv tx_len tx_buf set_tx set_discard trace rx_pending];
      (split; [ | split; [ rewrite upd_length; exact Hok
                         | split; [ reflexivity | split; reflexivity ] ] ]);
      unfold upd; (destruct (Z.ltb_spec (tx_len (drv w)) 0); [ lia | ]);
      (replace (Z.to_nat (tx_len (drv w) + 1)) with (S (Z.to_nat (tx_len (drv w))))
         by lia);
      apply firstn_upd_snoc; rewrite Hok; unfold FT245R_MIN_FIFO_SIZE in *; lia. }
  destruct Hs1 as (Hst & Hok1 & Htr & Hlen & Hpe).
  destruct (Z.leb_spec FT245R_MIN_FIFO_SIZE (tx_len (drv w1))) as [Hfull|Hroom].
  - assert (Hinv1 : fifo_inv w1)
      by (apply (fifo_inv_same w); assumption).
    pose proof (flush_wire w1 Hinv1) as Hw.
    destruct (flush_fifo_only fuel w1) as (_ & _ & Hb' & _).
    unfold outbound at 1, staged at 1, after_reset.
    cbn [drv trace tx_len tx_buf set_tx Z.to_nat firstn].
    rewrite app_nil_r, Hw by (unfold FT245R_MIN_FIFO_SIZE in *; lia).
    unfold outbound. rewrite Hst, Htr, app_assoc.
    split; [ reflexivity | ]. unfold tx_ok in *. unfold after_reset.
    cbn [drv tx_buf set_tx]. congruence.
  - unfold outbound. rewrite Hst, Htr, app_assoc. split; [ reflexivity | exact Hok1 ].
Qed.

(** Every byte passed to [ft245r_send2] joins the outbound stream, in
    order, as a byte. *)
Lemma send2_outbound buf d : forall w : world T,
  ready w -> tx_ok (drv w) ->
  exists w', ft245r_send2 fuel buf d w = (Ret 0, w')
             /\ ready w' /\ tx_ok (drv w') /\ bystander w w'
             /\ outbound w' = outbound w ++ byte_list buf
             /\ rx_discard (drv w')
                = rx_discard (drv w) + (if d then Z.of_nat (length buf) else 0)
             /\ credit (drv w') = credit (drv w) + Z.of_nat (length buf).
Proof.
  induction buf as [|b rest IH]; intros w Hr Hok.
  - exists w. cbn [ft245r_send2 byte_list map length]. rewrite app_nil_r.
    split; [ reflexivity | ]. split; [ exact Hr | ]. split; [ exact Hok | ].
    split; [ apply bystander_refl | ]. split; [ reflexivity | ].
    destruct d; split; lia.
  - destruct (send2_unroll b rest d w Hr) as (E & Hr1 & Hb1 & Hd1 & Hc1).
    destruct (send_step_outbound b d w Hr Hok) as (Ho1 & Hok1).
    destruct (IH (send_step fuel w b d) Hr1 Hok1)
      as (w' & E' & Hr' & Hok' & Hb' & Ho' & Hd' & Hc').
    exists w'. rewrite E. split; [ exact E' | ].
    split; [ exact Hr' | ]. split; [ exact Hok' | ].
    split; [ eapply bystander_trans; eassumption | ].
    split; [ rewrite Ho', Ho1, <- app_assoc; reflexivity | ].
    cbn [length]. destruct d; split; lia.
Qed.

End Streams.

(** * The driver on a bit-bang device *)

Section Echo.
Variable respond : Z -> Z.
Context {tr : FtdiTransport bitbang}.
Hypothesis device : tr = eager_transport respond.

Lemma device_cooperative : cooperative tr.
Proof. rewrite device. apply eager_cooperative. Qed.

Lemma bb_clock_app a : forall pins b,
  bb_clock respond pins (a ++ b)
  = (fst (bb_clock respond (fst (bb_clock respond pins a)) b),
     snd (bb_clock respond pins a)
     ++ snd (bb_clock respond (fst (bb_clock respond pins a)) b)).
Proof.
  induction a as [|x a IH]; intros pins b; cbn [app bb_clock fst snd].
  - destruct (bb_clock respond pins b). reflexivity.
  - rewrite IH. destruct (bb_clock respond x a) as [p e]. cbn [fst snd].
    reflexivity.
Qed.

Lemma bb_clock_length data : forall pins,
  length (snd (bb_clock respond pins data)) = length data.
Proof.
  induction data as [|b rest IH]; intros pins; cbn [bb_clock]; [ reflexivity | ].
  specialize (IH b). destruct (bb_clock respond b rest) as [p e].
  cbn [snd length] in *. rewrite IH. reflexivity.
Qed.

Lemma last_cons {A} (l : list A) : forall x d, last (x :: l) d = last l x.
Proof.
  induction l as [|y l IH]; intros x d; [ reflexivity | ].
  change (last (x :: y :: l) d) with (last (y :: l) d).
  rewrite !IH. reflexivity.
Qed.

Lemma bb_clock_last data : forall pins,
  fst (bb_clock respond pins data) = last data pins.
Proof.
  induction data as [|b rest IH]; intros pins; cbn [bb_clock]; [ reflexivity | ].
  specialize (IH b). destruct (bb_clock respond b rest) as [p e].
  cbn [fst] in *. rewrite IH. symmetry. apply last_cons.
Qed.

Lemma cells_all raw : cells raw (Z.of_nat (length raw)) = raw.
Proof.
  unfold cells, rd. rewrite Nat2Z.id.
  induction raw as [|x raw IH]; [ reflexivity | ].
  cbn [length seq map]. f_equal.
  rewrite <- seq_shift, map_map. rewrite <- IH at 2.
  apply map_ext. intros i. rewrite !Nat2Z.id. reflexivity.
Qed.

Lemma slice_length buf src len :
  0 <= src -> 0 <= len -> src + len <= Z.of_nat (length buf) ->
  length (slice buf src len) = Z.to_nat len.
Proof.
  intros Hs Hl Hb. unfold slice. rewrite length_firstn, length_skipn. lia.
Qed.

(** [ft245r_fill] empties the device's queue into the ring. *)
Lemma fill_eager (w : world bitbang) :
  linked w -> ring_ok (drv w) ->
  rx_len (drv w) + rx_pending (drv w) <= FT245R_BUFSIZE ->
  exists w',
    ft245r_fill w = (Ret (rx_pending (drv w)), w')
    /\ rx_pending (drv w') = 0 /\ bb_fifo (dev w') = []
    /\ bb_pins (dev w') = bb_pins (dev w)
    /\ ring_ok (drv w') /\ ring_contents (drv w') = inbound w
    /\ rx_len (drv w') = rx_len (drv w) + rx_pending (drv w).
Proof.
  intros Hl Hok Hcap. unfold ft245r_fill. monad_unfold. rewrite device.
  cbn [ftdi_read_data eager_transport]. cbn [fst snd drv dev image trace].
  unfold linked in Hl. rewrite Hl, Nat2Z.id.
  destruct (Z.ltb_spec (Z.of_nat (length (bb_fifo (dev w)))) 0); [ lia | ].
  cbn [fst snd drv dev image trace].
  rewrite firstn_app, Nat.sub_diag, firstn_O, app_nil_r, firstn_all, skipn_all.
  rewrite cells_all.
  eexists. split; [ reflexivity | ]. cbn [drv dev bb_fifo bb_pins].
  set (p0 := set_pending (drv w) _).
  assert (Hok0 : ring_ok p0) by exact Hok.
  destruct (ring_put_all (bb_fifo (dev w)) p0 Hok0) as [Hok1 Hc1].
  { subst p0. cbn [rx_len set_pending]. lia. }
  pose proof (put_fold_fields (bb_fifo (dev w)) p0) as Hf.
  cbn zeta in Hf. destruct Hf as (a & _ & _ & _ & _ & _ & _ & _ & i).
  split; [ rewrite a; subst p0; cbn [rx_pending set_pending]; lia | ].
  split; [ reflexivity | ]. split; [ reflexivity | ].
  split; [ exact Hok1 | ]. split; [ rewrite Hc1; reflexivity | ].
  rewrite i. subst p0. cbn [rx_len set_pending]. lia.
Qed.

Variable fuel : nat.
Hypothesis enough : (128 <= fuel)%nat.

(** [ft245r_flush] clocks the staged bytes out: their echo joins the
    inbound stream and the pins are left at the last byte. *)
Lemma flush_eager (w0 : world bitbang) :
  linked w0 -> fifo_inv w0 ->
  0 <= tx_len (drv w0) <= FT245R_MIN_FIFO_SIZE ->
  ring_ok (drv w0) -> tx_ok (drv w0) ->
  credit (drv w0) <= FT245R_BUFSIZE ->
  exists w',
    ft245r_flush fuel w0 = (Ret 0, w')
    /\ linked w' /\ fifo_inv w' /\ ring_ok (drv w') /\ fifo_only w0 w'
    /\ inbound w' = echo_due respond w0
    /\ bb_pins (dev w') = pins_due respond w0
    /\ rx_len (drv w') + rx_pending (drv w') = credit (drv w0).
Proof.
  intros Hl Hinv Htx Hok Htok Hcap.
  assert (Hrx : 0 <= rx_len (drv w0)) by (destruct Hok as (_ & _ & ? & _); lia).
  pose proof device_cooperative as coop.
  destruct (flush_total coop fuel enough w0 Hinv)
    as (w' & E & Hinv' & Hfo & Hrx' & Hcr);
    [ unfold FT245R_MIN_FIFO_SIZE in *; lia | exact Hrx | ].
  exists w'. split; [ exact E | ].
  set (B := tx_buf (drv w0)).
  set (R := fun (w : world bitbang) s =>
              linked w /\ ring_ok (drv w) /\ tx_buf (drv w) = B
              /\ 0 <= s <= tx_len (drv w0)
              /\ rx_len (drv w) + rx_pending (drv w) + (tx_len (drv w0) - s)
                 <= FT245R_BUFSIZE
              /\ inbound w
                 = inbound w0
                   ++ byte_list (snd (bb_clock respond (bb_pins (dev w0))
                                               (slice B 0 s)))
              /\ bb_pins (dev w)
                 = fst (bb_clock respond (bb_pins (dev w0)) (slice B 0 s))).
  assert (Hend : R (snd (ft245r_flush fuel w0)) (tx_len (drv w0))).
  { apply (flush_rule coop); try assumption;
      try (unfold FT245R_MIN_FIFO_SIZE in *; lia); subst R; cbv beta.
    - intros w s Hi Hp _ (Hlw & Hokw & Hb & Hs & Hc & Hin & Hpin).
      destruct (fill_eager w Hlw Hokw ltac:(lia))
        as (w1 & E1 & Hp1 & Hf1 & Hpin1 & Hok1 & Hc1 & Hlen1).
      destruct (fill_fifo_only w) as (_ & _ & Hb' & _).
      rewrite E1 in *. cbn [snd] in *.
      split; [ unfold linked; rewrite Hp1, Hf1; reflexivity | ].
      split; [ exact Hok1 | ]. split; [ congruence | ]. split; [ exact Hs | ].
      split; [ lia | ].
      split; [ | congruence ].
      unfold inbound at 1. rewrite Hc1, Hf1. cbn [byte_list map].
      rewrite app_nil_r. exact Hin.
    - intros w s avail Hi Ha Hp Hstop (Hlw & Hokw & Hb & Hs & Hc & Hin & Hpin).
      unfold after_write. rewrite device.
      cbn [ftdi_write_data eager_transport]. rewrite Hb.
      assert (Hdl : length (slice B s avail) = Z.to_nat avail).
      { apply slice_length; try lia. subst B. unfold tx_ok in Htok.
        rewrite Htok. unfold FT245R_MIN_FIFO_SIZE in *. lia. }
      rewrite <- (slice_split B 0 s (s + avail)) by lia.
      replace (s + avail - s) with avail by lia. rewrite Z.add_0_l.
      rewrite bb_clock_app. cbn [fst snd]. rewrite <- Hpin.
      pose proof (bb_clock_length (slice B s avail) (bb_pins (dev w))) as Hel.
      destruct (bb_clock respond (bb_pins (dev w)) (slice B s avail))
        as [pins' echo]. cbn [fst snd] in *.
      unfold linked, inbound in *.
      cbn [drv dev bb_fifo bb_pins rx_pending rx_len set_pending tx_buf].
      split; [ rewrite length_app, Hel, Hdl; lia | ].
      split; [ exact Hokw | ]. split; [ exact Hb | ]. split; [ lia | ].
      split; [ lia | ].
      split; [ | reflexivity ].
      rewrite !byte_list_app, app_assoc.
      change (ring_contents (set_pending (drv w) (rx_pending (drv w) + avail)))
        with (ring_contents (drv w)).
      rewrite Hin, <- !app_assoc. reflexivity.
    - split; [ exact Hl | ]. split; [ exact Hok | ]. split; [ reflexivity | ].
      split; [ lia | ]. unfold credit in Hcap. split; [ lia | ].
      unfold slice. cbn [Z.to_nat firstn bb_clock fst snd byte_list map].
      rewrite app_nil_r. split; reflexivity. }
  rewrite E in Hend. cbn [snd] in Hend.
  destruct Hend as (Hl' & Hok' & _ & _ & _ & Hin & Hpin).
  split; [ exact Hl' | ]. split; [ exact Hinv' | ]. split; [ exact Hok' | ].
  split; [ exact Hfo | ].
  unfold echo_due, pins_due, staged.
  split; [ exact Hin | ]. split; [ exact Hpin | exact Hcr ].
Qed.

Lemma after_stage_facts (w : world bitbang) b d :
  0 <= tx_len (drv w) < FT245R_MIN_FIFO_SIZE -> tx_ok (drv w) ->
  let w1 := after_stage w b d in
  staged (drv w1) = staged (drv w) ++ [b mod 256]
  /\ tx_ok (drv w1) /\ trace w1 = trace w /\ dev w1 = dev w
  /\ tx_len (drv w1) = tx_len (drv w) + 1
  /\ rx_pending (drv w1) = rx_pending (drv w)
  /\ rx_len (drv w1) = rx_len (drv w)
  /\ ring_contents (drv w1) = ring_contents (drv w)
  /\ (ring_ok (drv w) -> ring_ok (drv w1)).
Proof.
  intros Htx Hok w1. subst w1. unfold after_stage, staged, tx_ok in *.
  destruct d;
    cbn [drv dev tx_len tx_buf set_tx set_discard trace rx_pending rx_len];
    (split; [ | split; [ rewrite upd_length; exact Hok
                       | do 6 (split; [ reflexivity | ]); intros Hk; exact Hk ] ]);
    unfold upd; (destruct (Z.ltb_spec (tx_len (drv w)) 0); [ lia | ]);
    (replace (Z.to_nat (tx_len (drv w) + 1)) with (S (Z.to_nat (tx_len (drv w))))
       by lia);
    apply firstn_upd_snoc; rewrite Hok; unfold FT245R_MIN_FIFO_SIZE in *; lia.
Qed.

(** One byte through [ft245r_send2]: its echo will be what the pins
    answered before it, and it is the byte the pins are left at. *)
Lemma send_step_eager b d (w : world bitbang) :
  tidy w -> credit (drv w) + 1 <= FT245R_BUFSIZE ->
  tidy (send_step fuel w b d)
  /\ echo_due respond (send_step fuel w b d)
     = echo_due respond w ++ [respond (pins_due respond w) mod 256]
  /\ pins_due respond (send_step fuel w b d) = b mod 256.
Proof.
  intros (Hl & (Hinv & Htx & Hrx) & Hok & Htok & Hcap) Hroom.
  pose proof device_cooperative as coop.
  destruct (send2_unroll coop fuel enough b [] d w (conj Hinv (conj Htx Hrx)))
    as (_ & Hr1 & _ & _ & Hc1).
  unfold send_step in *.
  destruct (after_stage_facts w b d Htx Htok)
    as (Hst & Htok1 & Htr & Hdev & Hlen & Hpe & Hrl & Hrc & Hok1).
  set (w1 := after_stage w b d) in *.
  assert (Hdue : echo_due respond w1
                 = echo_due respond w ++ [respond (pins_due respond w) mod 256]
                 /\ pins_due respond w1 = b mod 256).
  { unfold echo_due, pins_due, inbound. rewrite Hst, Hdev, Hrc, bb_clock_app.
    cbn [fst snd bb_clock]. rewrite byte_list_app, !app_assoc.
    split; reflexivity. }
  destruct Hdue as (Hecho & Hpins).
  assert (Hl1 : linked w1) by (unfold linked in *; rewrite Hpe, Hdev; exact Hl).
  assert (Hinv1 : fifo_inv w1) by (apply (fifo_inv_same w); assumption).
  destruct (Z.leb_spec FT245R_MIN_FIFO_SIZE (tx_len (drv w1))) as [Hfull|Hless].
  - destruct (flush_eager w1 Hl1 Hinv1) as
        (w2 & E2 & Hl2 & Hinv2 & Hok2 & Hfo2 & Hin2 & Hpin2 & Hcr2);
      [ lia | exact (Hok1 Hok) | exact Htok1 | unfold credit in *; lia | ].
    rewrite E2 in *. cbn [snd] in *.
    destruct Hfo2 as (_ & _ & Hb2 & _).
    unfold after_reset in *.
    split.
    { split; [ exact Hl2 | ]. split; [ exact Hr1 | ].
      split; [ exact Hok2 | ].
      split; [ unfold tx_ok in *; cbn [drv tx_buf set_tx]; congruence | ].
      rewrite Hc1. lia. }
    unfold echo_due, pins_due, inbound, staged.
    cbn [drv dev tx_len tx_buf set_tx Z.to_nat firstn bb_clock fst snd
         byte_list map].
    rewrite app_nil_r.
    change (ring_contents (set_tx (drv w2) 0 (tx_buf (drv w2))))
      with (ring_contents (drv w2)).
    fold (inbound w2). rewrite Hin2, Hpin2. split; assumption.
  - split; [ | split; assumption ].
    split; [ exact Hl1 | ]. split; [ exact Hr1 | ].
    split; [ exact (Hok1 Hok) | ]. split; [ exact Htok1 | ].
    rewrite Hc1. lia.
Qed.

(** [ft245r_send2] on the device: the echo of every byte sent is due, in
    order. *)
Lemma send2_eager buf d : forall w : world bitbang,
  tidy w -> credit (drv w) + Z.of_nat (length buf) <= FT245R_BUFSIZE ->
  exists w',
    ft245r_send2 fuel buf d w = (Ret 0, w')
    /\ tidy w' /\ bystander w w'
    /\ echo_due respond w'
       = echo_due respond w
         ++ byte_list (snd (bb_clock respond (pins_due respond w) (byte_list buf)))
    /\ pins_due respond w'
       = fst (bb_clock respond (pins_due respond w) (byte_list buf))
    /\ rx_discard (drv w')
       = rx_discard (drv w) + (if d then Z.of_nat (length buf) else 0)
    /\ credit (drv w') = credit (drv w) + Z.of_nat (length buf).
Proof.
  pose proof device_cooperative as coop.
  induction buf as [|b rest IH]; intros w Ht Hroom.
  - exists w. cbn [ft245r_send2 byte_list map length bb_clock fst snd].
    rewrite app_nil_r.
    split; [ reflexivity | ]. split; [ exact Ht | ].
    split; [ apply bystander_refl | ]. split; [ reflexivity | ].
    split; [ reflexivity | ]. destruct d; split; lia.
  - cbn [length] in Hroom.
    pose proof Ht as (_ & Hr & _).
    destruct (send2_unroll coop fuel enough b rest d w Hr)
      as (E & _ & Hb1 & Hd1 & Hc1).
    destruct (send_step_eager b d w Ht ltac:(lia)) as (Ht1 & He1 & Hp1).
    destruct (IH (send_step fuel w b d) Ht1 ltac:(lia))
      as (w' & E' & Ht' & Hb' & He' & Hp' & Hd' & Hc').
    exists w'. rewrite E. split; [ exact E' | ]. split; [ exact Ht' | ].
    split; [ eapply bystander_trans; eassumption | ].
    cbn [byte_list map bb_clock]. fold (byte_list rest).
    rewrite He', Hp', He1, Hp1.
    destruct (bb_clock respond (b mod 256) (byte_list rest)) as [pe ee].
    cbn [fst snd byte_list map]. fold (byte_list ee).
    rewrite <- app_assoc. cbn [app].
    split; [ reflexivity | ]. split; [ reflexivity | ].
    cbn [length]. destruct d; split; lia.
Qed.

(** [ft245r_recv] on the device: the caller gets, of the echoes due, the
    first [len] after the ones marked for discarding. *)
Lemma recv_eager buf len (w : world bitbang) :
  tidy w -> 0 <= rx_discard (drv w) -> 0 <= len ->
  rx_discard (drv w) + len <= credit (drv w) ->
  let got := byte_list (firstn (Z.to_nat len)
                          (skipn (Z.to_nat (rx_discard (drv w)))
                                 (echo_due respond w))) in
  exists w',
    ft245r_recv fuel buf len w = (Ret (0, got ++ skipn (length got) buf), w')
    /\ tidy w' /\ bystander w w'
    /\ echo_due respond w'
       = skipn (Z.to_nat (rx_discard (drv w) + len)) (echo_due respond w)
    /\ pins_due respond w' = pins_due respond w
    /\ rx_discard (drv w') = 0 /\ tx_len (drv w') = 0
    /\ credit (drv w') = credit (drv w) - rx_discard (drv w) - len.
Proof.
  intros (Hl & (Hinv & Htx & Hrx) & Hok & Htok & Hcap) Hd0 Hlen Hcr got.
  pose proof device_cooperative as coop.
  destruct (recv_total coop fuel enough buf len w)
    as (buf' & w' & E & Hr' & Hby & Hdis' & Htx' & Hcr');
    [ split; [ split; [ exact Hinv | split; assumption ] | lia ] | exact Hlen
    | exact Hcr | ].
  exists w'.
  assert (Hrun : exists wf,
    ft245r_recv fuel buf len w = (Ret (0, got ++ skipn (length got) buf), wf)
    /\ linked wf /\ ring_ok (drv wf) /\ tx_ok (drv wf)
    /\ bb_fifo (dev wf) = []
    /\ bb_pins (dev wf) = pins_due respond w
    /\ ring_contents (drv wf)
       = skipn (Z.to_nat (rx_discard (drv w) + len)) (echo_due respond w)).
  { clear E. unfold ft245r_recv. monad_unfold.
    destruct (flush_eager w Hl Hinv) as
        (w1 & E1 & Hl1 & Hinv1 & Hok1 & Hfo1 & Hin1 & Hpin1 & Hcr1);
      [ lia | exact Hok | exact Htok | exact Hcap | ].
    rewrite E1. cbn [fst snd drv dev image trace].
    destruct Hfo1 as (_ & Ht1 & Hb1 & Hd1).
    match goal with
    | |- context [ft245r_fill ?w2] =>
        destruct (fill_eager w2) as
          (w3 & E3 & Hp3 & Hf3 & Hpin3 & Hok3 & Hc3 & Hl3);
        [ exact Hl1 | exact Hok1
        | cbn [drv rx_len rx_pending set_tx]; lia
        | pose proof (fill_fifo_only w2) as Hfo3 ]
    end.
    rewrite E3 in *. cbn [fst snd drv dev image trace] in *.
    destruct Hfo3 as (_ & Ht3 & Hb3 & Hd3).
    cbn [drv dev tx_len tx_buf rx_len rx_pending rx_discard set_tx] in *.
    change (inbound {| drv := set_tx (drv w1) 0 (tx_buf (drv w1));
                       dev := dev w1; image := image w1; trace := trace w1 |})
      with (inbound w1) in Hc3.
    destruct (recv_discard_pop fuel (Z.to_nat (rx_discard (drv w3))) w3 Hok3)
      as (w4 & E4 & Hc4 & Hok4 & Hl4 & Hd4 & Hp4); [ lia | ].
    rewrite E4. cbn [fst snd]. change (0 <? 0) with false. cbn iota.
    destruct (recv_store_pop fuel (Z.to_nat len) [] w4 Hok4)
      as (w5 & E5 & Hc5 & Hok5 & Hl5 & Hd5 & Hp5); [ lia | ].
    rewrite E5. cbn [fst snd app].
    pose proof (popped_trans _ _ _ Hp4 Hp5)
      as (Pdev & _ & _ & Ptl & Ptb & Ppe & _).
    exists w5. rewrite Hc4, Hc3, Hin1, Hd3, Hd1.
    split; [ reflexivity | ].
    split; [ unfold linked; rewrite Ppe, Pdev, Hp3, Hf3; reflexivity | ].
    split; [ exact Hok5 | ].
    split; [ unfold tx_ok in *; rewrite Ptb, Hb3, Hb1; exact Htok | ].
    split; [ rewrite Pdev; exact Hf3 | ].
    split; [ rewrite Pdev, Hpin3; exact Hpin1 | ].
    rewrite Hc5, Hc4, Hc3, Hin1, Hd3, Hd1, skipn_skipn.
    f_equal. lia. }
  destruct Hrun as (wf & Ef & Hlf & Hokf & Htokf & Hff & Hpf & Hcf).
  rewrite E in Ef. injection Ef as Eb Ew. subst wf buf'.
  split; [ exact E | ].
  split.
  { split; [ exact Hlf | ]. split; [ exact Hr' | ]. split; [ exact Hokf | ].
    split; [ exact Htokf | ]. lia. }
  split; [ exact Hby | ].
  split.
  { unfold echo_due, inbound, staged. rewrite Htx', Hff.
    cbn [Z.to_nat firstn bb_clock fst snd byte_list map]. rewrite !app_nil_r.
    exact Hcf. }
  split.
  { unfold pins_due, staged. rewrite Htx'.
    cbn [Z.to_nat firstn bb_clock fst snd]. exact Hpf. }
  split; [ exact Hdis' | ]. split; [ exact Htx' | exact Hcr' ].
Qed.

Lemma tidy_emit (w : world bitbang) e :
  tidy w -> transfer_ok e ->
  tidy (mkWorld (drv w) (dev w) (image w) (trace w ++ [e])).
Proof.
  intros (Hl & Hr & Hok & Htok & Hcap) He.
  split; [ exact Hl | ]. split; [ apply ready_emit; assumption | ].
  split; [ exact Hok | ]. split; [ exact Htok | exact Hcap ].
Qed.

(** [set_pin] on a wired pin: the new output register is staged for the
    device, and its echo will be dropped. *)
Lemma set_pin_eager pin name val (w : world bitbang) :
  mask0 (pin name) <> 0 ->
  tidy w -> credit (drv w) + 1 <= FT245R_BUFSIZE ->
  let out' := SET_BITS_0 (ft245r_out (drv w)) pin name (truthy val) in
  exists w',
    set_pin pin fuel name val w = (Ret 0, w')
    /\ tidy w'
    /\ ft245r_out (drv w') = out'
    /\ pins_due respond w' = out'
    /\ echo_due respond w'
       = echo_due respond w ++ [respond (pins_due respond w) mod 256]
    /\ rx_discard (drv w') = rx_discard (drv w) + 1
    /\ credit (drv w') = credit (drv w) + 1
    /\ ft245r_ddr (drv w') = ft245r_ddr (drv w)
    /\ exists evs, trace w' = trace w ++ evs
                   /\ driver_events evs = [EvSetPin name val].
Proof.
  intros Hm Ht Hroom out'. unfold set_pin.
  destruct (Z.eqb_spec (mask0 (pin name)) 0); [ contradiction | ].
  unfold ft245r_send_and_discard. monad_unfold.
  cbn [drv dev image trace ft245r_out set_out].
  fold out'.
  set (w1 := mkWorld (set_out (drv w) out') (dev w) (image w)
                     (trace w ++ [EvSetPin name val])).
  assert (Ht1 : tidy w1).
  { apply (tidy_emit (mkWorld (set_out (drv w) out') (dev w) (image w) (trace w)));
      [ exact Ht | exact I ]. }
  destruct (send2_eager [out'] true w1 Ht1)
    as (w2 & E2 & Ht2 & Hb2 & He2 & Hp2 & Hd2 & Hc2).
  { cbn [length]. change (credit (drv w1)) with (credit (drv w)). lia. }
  rewrite E2. cbn [fst snd]. exists w2. split; [ reflexivity | ].
  split; [ exact Ht2 | ].
  assert (Hbyte : out' mod 256 = out').
  { subst out'. unfold SET_BITS_0. apply Z.mod_mod. lia. }
  destruct Hb2 as (Ho2 & Hddr2 & _ & _ & _ & (ev2 & Hev2 & Hw2)).
  split; [ exact Ho2 | ].
  split; [ rewrite Hp2; cbn [byte_list map bb_clock fst]; exact Hbyte | ].
  split; [ rewrite He2; reflexivity | ].
  split; [ rewrite Hd2; reflexivity | ].
  split; [ rewrite Hc2; reflexivity | ].
  split; [ exact Hddr2 | ].
  exists ([EvSetPin name val] ++ ev2).
  split; [ rewrite Hev2; subst w1; cbn [trace]; rewrite <- app_assoc; reflexivity | ].
  rewrite driver_events_app, (driver_events_wire ev2 Hw2). reflexivity.
Qed.

(** [get_pin] flushes what is staged and then reports the level the device
    answers with to the pins as last driven. *)
Lemma get_pin_eager pin name (w : world bitbang) :
  tidy w ->
  exists w',
    get_pin pin fuel name w
    = (Ret (if truthy (GET_BITS_0 (respond (pins_due respond w) mod 256) pin name)
            then 1 else 0), w')
    /\ tidy w'
    /\ tx_len (drv w') = 0
    /\ bb_pins (dev w') = pins_due respond w
    /\ pins_due respond w' = pins_due respond w
    /\ echo_due respond w' = echo_due respond w
    /\ rx_discard (drv w') = rx_discard (drv w)
    /\ credit (drv w') = credit (drv w)
    /\ ft245r_out (drv w') = ft245r_out (drv w)
    /\ exists evs, trace w' = trace w ++ evs /\ driver_events evs = [].
Proof.
  intros (Hl & (Hinv & Htx & Hrx) & Hok & Htok & Hcap).
  unfold get_pin. monad_unfold.
  destruct (flush_eager w Hl Hinv) as
      (w1 & E1 & Hl1 & Hinv1 & Hok1 & Hfo1 & Hin1 & Hpin1 & Hcr1);
    [ lia | exact Hok | exact Htok | exact Hcap | ].
  rewrite E1. cbn [fst snd drv dev image trace].
  rewrite device. cbn [ftdi_read_pins eager_transport fst snd].
  change (0 =? 0) with true. cbn [negb].
  rewrite Hpin1.
  eexists. split; [ reflexivity | ].
  destruct Hfo1 as ((Ho1 & _ & _ & _ & _ & (ev1 & Hev1 & Hw1)) & Ht1 & Hb1 & Hd1).
  assert (Hrx1 : 0 <= rx_len (drv w1)) by (destruct Hok1 as (_ & _ & ? & _); lia).
  split.
  { split; [ exact Hl1 | ].
    split.
    { apply (ready_emit (mkWorld (set_tx (drv w1) 0 (tx_buf (drv w1))) (dev w1)
                                 (image w1) (trace w1))); [ | exact I ].
      split; [ exact Hinv1 | ].
      cbn [drv tx_len rx_len set_tx]. unfold FT245R_MIN_FIFO_SIZE. lia. }
    split; [ exact Hok1 | ].
    split; [ unfold tx_ok in *; cbn [drv tx_buf set_tx]; congruence | ].
    unfold credit in *. cbn [drv tx_len rx_len rx_pending set_tx]. lia. }
  cbn [drv dev tx_len set_tx].
  split; [ reflexivity | ]. split; [ exact Hpin1 | ].
  split; [ unfold pins_due at 1, staged; cbn [drv dev tx_len tx_buf set_tx Z.to_nat
                                                firstn bb_clock fst]; exact Hpin1 | ].
  split.
  { unfold echo_due at 1, staged, inbound.
    cbn [drv dev tx_len tx_buf set_tx Z.to_nat firstn bb_clock snd byte_list map].
    rewrite app_nil_r.
    change (ring_contents (set_tx (drv w1) 0 (tx_buf (drv w1))))
      with (ring_contents (drv w1)).
    exact Hin1. }
  split; [ exact Hd1 | ].
  split; [ unfold credit in *; cbn [drv tx_len rx_len rx_pending set_tx]; lia | ].
  split; [ exact Ho1 | ].
  exists (ev1 ++ [EvReadPins 0]). cbn [trace].
  split; [ rewrite Hev1, <- app_assoc; reflexivity | ].
  rewrite driver_events_app, (driver_events_wire ev1 Hw1). reflexivity.
Qed.

(** [ft245r_usleep]: the device has seen every staged byte before the
    pause. *)
Lemma usleep_eager usec (w : world bitbang) :
  tidy w ->
  exists w',
    ft245r_usleep fuel usec w = (Ret tt, w')
    /\ tidy w'
    /\ tx_len (drv w') = 0
    /\ bb_pins (dev w') = pins_due respond w
    /\ pins_due respond w' = pins_due respond w
    /\ echo_due respond w' = echo_due respond w
    /\ rx_discard (drv w') = rx_discard (drv w)
    /\ credit (drv w') = credit (drv w)
    /\ ft245r_out (drv w') = ft245r_out (drv w)
    /\ exists evs, trace w' = trace w ++ evs /\ driver_events evs = [].
Proof.
  intros (Hl & (Hinv & Htx & Hrx) & Hok & Htok & Hcap).
  unfold ft245r_usleep. monad_unfold.
  destruct (flush_eager w Hl Hinv) as
      (w1 & E1 & Hl1 & Hinv1 & Hok1 & Hfo1 & Hin1 & Hpin1 & Hcr1);
    [ lia | exact Hok | exact Htok | exact Hcap | ].
  rewrite E1. cbn [fst snd drv dev image trace].
  eexists. split; [ reflexivity | ].
  destruct Hfo1 as ((Ho1 & _ & _ & _ & _ & (ev1 & Hev1 & Hw1)) & Ht1 & Hb1 & Hd1).
  assert (Hrx1 : 0 <= rx_len (drv w1)) by (destruct Hok1 as (_ & _ & ? & _); lia).
  split.
  { split; [ exact Hl1 | ].
    split.
    { apply (ready_emit (mkWorld (set_tx (drv w1) 0 (tx_buf (drv w1))) (dev w1)
                                 (image w1) (trace w1))); [ | exact I ].
      split; [ exact Hinv1 | ].
      cbn [drv tx_len rx_len set_tx]. unfold FT245R_MIN_FIFO_SIZE. lia. }
    split; [ exact Hok1 | ].
    split; [ unfold tx_ok in *; cbn [drv tx_buf set_tx]; congruence | ].
    unfold credit in *. cbn [drv tx_len rx_len rx_pending set_tx]. lia. }
  cbn [drv dev tx_len set_tx trace].
  split; [ reflexivity | ]. split; [ exact Hpin1 | ].
  split; [ unfold pins_due at 1, staged; cbn [drv dev tx_len tx_buf set_tx Z.to_nat
                                                firstn bb_clock fst]; exact Hpin1 | ].
  split.
  { unfold echo_due at 1, staged, inbound.
    cbn [drv dev tx_len tx_buf set_tx Z.to_nat firstn bb_clock snd byte_list map].
    rewrite app_nil_r.
    change (ring_contents (set_tx (drv w1) 0 (tx_buf (drv w1))))
      with (ring_contents (drv w1)).
    exact Hin1. }
  split; [ exact Hd1 | ].
  split; [ unfold credit in *; cbn [drv tx_len rx_len rx_pending set_tx]; lia | ].
  split; [ exact Ho1 | ].
  exists (ev1 ++ [EvUsleep usec]).
  split; [ rewrite Hev1, <- app_assoc; reflexivity | ].
  rewrite driver_events_app, (driver_events_wire ev1 Hw1). reflexivity.
Qed.

End Echo.

(** * Commands on the reference device *)

Lemma set_data_all_acc pin xs : forall out acc,
  fold_left (fun a x => let r := set_data pin (fst a) x in
                        (fst r, snd a ++ snd r)) xs (out, acc)
  = (fst (set_data_all pin out xs), acc ++ snd (set_data_all pin out xs)).
Proof.
  unfold set_data_all.
  induction xs as [|x xs IH]; intros out acc; cbn [fold_left fst snd].
  - rewrite app_nil_r. reflexivity.
  - rewrite IH. rewrite (IH _ (nil ++ _)). cbn [fst snd app].
    rewrite app_assoc. reflexivity.
Qed.

Lemma set_data_all_cons pin out x xs :
  set_data_all pin out (x :: xs)
  = (fst (set_data_all pin (fst (set_data pin out x)) xs),
     snd (set_data pin out x) ++ snd (set_data_all pin (fst (set_data pin out x)) xs)).
Proof.
  unfold set_data_all at 1. cbn [fold_left fst snd app].
  apply set_data_all_acc.
Qed.

Lemma set_data_all_length pin xs : forall out,
  length (snd (set_data_all pin out xs)) = (16 * length xs)%nat.
Proof.
  induction xs as [|x xs IH]; intros out; [ reflexivity | ].
  rewrite set_data_all_cons.
  pose proof (set_data_length pin out x) as Hl.
  cbn [snd]. rewrite length_app, IH, Hl. cbn [length]. lia.
Qed.

Lemma echo_due_length respond (w : world bitbang) :
  tidy w -> length (echo_due respond w) = Z.to_nat (credit (drv w)).
Proof.
  intros (Hl & (Hinv & Htx & Hrx) & Hok & Htok & Hcap).
  unfold echo_due, inbound, credit, staged, linked, tx_ok in *.
  rewrite !length_app, !byte_list_length, bb_clock_length, ring_contents_length,
    length_firstn, Htok.
  unfold FT245R_MIN_FIFO_SIZE in *. destruct Hinv as [Hp _]. lia.
Qed.

Section CmdEcho.
Variable pin : pinmap.
Variable respond : Z -> Z.
Context {tr : FtdiTransport bitbang}.
Hypothesis device : tr = eager_transport respond.
Variable fuel : nat.
Hypothesis enough : (128 <= fuel)%nat.

Lemma set_out_same (p : pdata) : set_out p (ft245r_out p) = p.
Proof. destruct p; reflexivity. Qed.

Lemma set_data_seq_exact xs : forall w : world bitbang,
  set_data_seq pin xs w
  = (Ret (snd (set_data_all pin (ft245r_out (drv w)) xs)),
     mkWorld (set_out (drv w) (fst (set_data_all pin (ft245r_out (drv w)) xs)))
             (dev w) (image w) (trace w)).
Proof.
  induction xs as [|x xs IH]; intros w; cbn [set_data_seq].
  - cbn [set_data_all fold_left fst snd]. unfold set_data_all.
    cbn [fold_left fst snd]. rewrite set_out_same. destruct w; reflexivity.
  - rewrite set_data_all_cons. unfold set_data_out. monad_unfold.
    destruct (set_data pin (ft245r_out (drv w)) x) as [o1 bs].
    cbn [fst snd]. rewrite IH. cbn [drv dev image trace ft245r_out set_out fst snd].
    reflexivity.
Qed.

(** One command: the result is decoded from the device's answers to the 65
    bytes of the frame, and the frame's last byte, 0, is what the pins are
    left at. *)
Lemma cmd_eager cmd (w : world bitbang) :
  clear w -> credit (drv w) + 65 <= FT245R_BUFSIZE ->
  let frame := cmd_frame pin (ft245r_out (drv w)) cmd in
  let echo := byte_list (snd (bb_clock respond (pins_due respond w)
                                       (byte_list frame))) in
  let res := map (extract_data pin echo) [0; 1; 2; 3] in
  exists w',
    ft245r_cmd pin fuel cmd w = (Ret (0, res), w')
    /\ clear w' /\ credit (drv w') = 0
    /\ pins_due respond w' = 0
    /\ ft245r_out (drv w')
       = fst (set_data_all pin (ft245r_out (drv w))
                [rd cmd 0; rd cmd 1; rd cmd 2; rd cmd 3])
    /\ exists evs, trace w' = trace w ++ evs
                   /\ driver_events evs = [EvCmd cmd res].
Proof.
  intros (Ht & Hdc) Hroom frame echo res.
  unfold ft245r_cmd, cmd_encode. monad_unfold.
  rewrite set_data_seq_exact. cbn [fst snd drv dev image trace].
  set (xs := [rd cmd 0; rd cmd 1; rd cmd 2; rd cmd 3]) in *.
  change (snd (set_data_all pin (ft245r_out (drv w)) xs) ++ [0]) with frame.
  set (w1 := mkWorld (set_out (drv w) (fst (set_data_all pin (ft245r_out (drv w)) xs)))
                     (dev w) (image w) (trace w)).
  assert (Ht1 : tidy w1) by exact Ht.
  assert (Hfl : length frame = 65%nat).
  { unfold frame, cmd_frame. rewrite length_app, set_data_all_length. reflexivity. }
  unfold ft245r_send.
  destruct (send2_eager respond device fuel enough frame false w1 Ht1)
    as (w2 & E2 & Ht2 & Hb2 & He2 & Hp2 & Hd2 & Hc2).
  { rewrite Hfl. change (credit (drv w1)) with (credit (drv w)). lia. }
  rewrite E2. cbn [fst snd]. rewrite Hfl in *.
  change (credit (drv w1)) with (credit (drv w)) in *.
  change (rx_discard (drv w1)) with (rx_discard (drv w)) in *.
  change (echo_due respond w1) with (echo_due respond w) in *.
  change (pins_due respond w1) with (pins_due respond w) in *.
  assert (Hc0 : 0 <= credit (drv w)).
  { destruct Ht as (_ & (( Hp & _) & Htx & Hrx) & _). unfold credit. lia. }
  destruct (recv_eager respond device fuel enough frame (Z.of_nat 65) w2 Ht2)
    as (w3 & E3 & Ht3 & Hb3 & He3 & Hp3 & Hd3 & Htx3 & Hc3); [ lia | lia | lia | ].
  rewrite E3. cbn [fst snd drv dev image trace].
  assert (Hgot : byte_list
                   (firstn (Z.to_nat (Z.of_nat 65))
                      (skipn (Z.to_nat (rx_discard (drv w2)))
                             (echo_due respond w2))) = echo).
  { rewrite He2, Hd2, Hdc, Z.add_0_r.
    rewrite skipn_app, <- (echo_due_length respond w Ht), skipn_all, Nat.sub_diag.
    cbn [skipn app]. rewrite firstn_all2.
    - rewrite byte_list_idem. reflexivity.
    - rewrite byte_list_length, bb_clock_length, byte_list_length, Hfl. lia. }
  rewrite Hgot.
  assert (Hel : length echo = 65%nat).
  { unfold echo. rewrite byte_list_length, bb_clock_length, byte_list_length.
    exact Hfl. }
  rewrite Hel, <- Hfl, skipn_all, app_nil_r. fold res.
  eexists. split; [ reflexivity | ]. cbn [drv dev image trace].
  destruct Ht3 as (Hl3 & Hr3 & Hok3 & Htok3 & Hcap3).
  split.
  { split; [ | cbn [drv]; lia ].
    split; [ exact Hl3 | ].
    split; [ apply ready_emit; [ exact Hr3 | exact I ] | ].
    split; [ exact Hok3 | ]. split; [ exact Htok3 | exact Hcap3 ]. }
  split; [ lia | ].
  split.
  { change (pins_due respond w3 = 0). rewrite Hp3, Hp2, bb_clock_last.
    unfold frame, cmd_frame. rewrite byte_list_app.
    change (byte_list [0]) with [0]. rewrite last_last. reflexivity. }
  split.
  { destruct Hb2 as (Ho2 & _). destruct Hb3 as (Ho3 & _). rewrite Ho3, Ho2.
    reflexivity. }
  destruct Hb2 as (_ & _ & _ & _ & _ & (ev2 & Hev2 & Hw2)).
  destruct Hb3 as (_ & _ & _ & _ & _ & (ev3 & Hev3 & Hw3)).
  exists (ev2 ++ ev3 ++ [EvCmd cmd res]).
  split.
  { rewrite Hev3, Hev2. change (trace w1) with (trace w).
    rewrite <- !app_assoc. reflexivity. }
  rewrite !driver_events_app, (driver_events_wire ev2 Hw2),
    (driver_events_wire ev3 Hw3). reflexivity.
Qed.

End CmdEcho.

Lemma levels_byte_list pin name l :
  wired pin name -> levels pin name (byte_list l) = levels pin name l.
Proof.
  intros [H0 H1]. unfold levels, byte_list. rewrite map_map.
  apply map_ext. intros x. unfold GET_BITS_0.
  rewrite lxor_mod_land by lia. reflexivity.
Qed.

Lemma levels_app pin name a b :
  levels pin name (a ++ b) = levels pin name a ++ levels pin name b.
Proof. apply map_app. Qed.

Lemma set_data_all_levels pin xs : forall out,
  wired pin PIN_AVR_SDO -> separate pin PIN_AVR_SCK PIN_AVR_SDO ->
  levels pin PIN_AVR_SDO (snd (set_data_all pin out xs))
  = flat_map (fun x => clock_pairs (bits_msb x)) xs.
Proof.
  intros out Hw Hs. revert out.
  induction xs as [|x xs IH]; intros out; [ reflexivity | ].
  rewrite set_data_all_cons. cbn [snd flat_map].
  rewrite levels_app, IH, set_data_add_bits, add_bits_levels_sdo by assumption.
  reflexivity.
Qed.

Lemma bits_msb_mod x : bits_msb (x mod 256) = bits_msb x.
Proof.
  unfold bits_msb. cbn [map]. change 256 with (2 ^ 8).
  rewrite !Z.mod_pow2_bits_low by lia. reflexivity.
Qed.

Lemma value_msb_byte x : value_msb (bits_msb x) = x mod 256.
Proof.
  rewrite <- bits_msb_mod. apply value_msb_bits. apply Z.mod_pos_bound. lia.
Qed.

(** What [extract_data] reads in the answers of a device to a command
    frame: the levels the device put on SDI while it saw the SDO levels of
    the frame, one byte late. *)
Lemma cmd_frame_sampled pin respond out prev cmd k :
  wired pin PIN_AVR_SDI -> 0 <= k < 4 ->
  extract_data pin
    (byte_list (snd (bb_clock respond prev (byte_list (cmd_frame pin out cmd))))) k
  = value_msb
      (map (fun j => nth (Z.to_nat (k * 16 + j))
                      (levels pin PIN_AVR_SDI
                         (map respond
                            (prev :: byte_list
                               (snd (set_data_all pin out
                                       [rd cmd 0; rd cmd 1; rd cmd 2; rd cmd 3])))))
                      (truthy (GET_BITS_0 0 pin PIN_AVR_SDI)))
           sample_cells).
Proof.
  intros Hi Hk. rewrite extract_data_value. f_equal.
  apply map_ext. intros j. rewrite level_rd.
  rewrite levels_byte_list by assumption. rewrite bb_clock_echo.
  set (enc := snd (set_data_all pin out [rd cmd 0; rd cmd 1; rd cmd 2; rd cmd 3])).
  assert (Hl : length (byte_list enc) = 64%nat).
  { subst enc. rewrite byte_list_length, set_data_all_length. reflexivity. }
  assert (Hf : firstn (length (byte_list (cmd_frame pin out cmd)))
                      (prev :: byte_list (cmd_frame pin out cmd))
               = prev :: byte_list enc).
  { unfold cmd_frame. fold enc. rewrite byte_list_app, length_app, Hl.
    change (64 + length (byte_list [0%Z]))%nat with (S 64).
    rewrite firstn_cons, firstn_app, Hl, Nat.sub_diag, firstn_O, app_nil_r.
    rewrite firstn_all2 by lia. reflexivity. }
  rewrite Hf. reflexivity.
Qed.

(** Through a strap from SDO to SDI the four results of a command are its
    four bytes. *)
Lemma cmd_frame_loopback pin out prev cmd :
  wired pin PIN_AVR_SDO -> wired pin PIN_AVR_SDI ->
  separate pin PIN_AVR_SCK PIN_AVR_SDO ->
  map (extract_data pin
         (byte_list (snd (bb_clock (loopback pin) prev
                                   (byte_list (cmd_frame pin out cmd))))))
      [0; 1; 2; 3]
  = byte_list [rd cmd 0; rd cmd 1; rd cmd 2; rd cmd 3].
Proof.
  intros Ho Hi Hs. cbn [map byte_list].
  rewrite !cmd_frame_sampled by (assumption || lia).
  rewrite levels_loopback by assumption.
  change (levels pin PIN_AVR_SDO (?p :: ?l))
    with (truthy (GET_BITS_0 p pin PIN_AVR_SDO) :: levels pin PIN_AVR_SDO l).
  rewrite levels_byte_list, set_data_all_levels by assumption.
  unfold sample_cells. cbn [flat_map clock_pairs bits_msb map app].
  cbn [Z.mul Z.add Pos.mul Pos.add Pos.succ Z.to_nat Pos.to_nat Pos.iter_op
       Nat.add nth].
  rewrite <- !value_msb_byte. reflexivity.
Qed.

(** A target that holds SDI low answers every command with zeros. *)
Lemma cmd_frame_silent pin out prev cmd :
  wired pin PIN_AVR_SDI ->
  map (extract_data pin
         (byte_list (snd (bb_clock (silent pin) prev
                                   (byte_list (cmd_frame pin out cmd))))))
      [0; 1; 2; 3]
  = [0; 0; 0; 0].
Proof.
  intros Hi. cbn [map].
  rewrite !cmd_frame_sampled by (assumption || lia).
  assert (Hl : forall l, levels pin PIN_AVR_SDI (map (silent pin) l)
                         = repeat false (length l)).
  { intros l. unfold levels. rewrite map_map.
    induction l as [|x l IH]; [ reflexivity | ].
    cbn [map length repeat]. rewrite IH. unfold silent.
    rewrite level_SET_same by assumption. reflexivity. }
  rewrite Hl. cbn [length]. rewrite byte_list_length, set_data_all_length.
  cbn [length Nat.mul Nat.add repeat].
  unfold sample_cells. cbn [map].
  cbn [Z.mul Z.add Pos.mul Pos.add Pos.succ Z.to_nat Pos.to_nat Pos.iter_op
       Nat.add nth].
  reflexivity.
Qed.

(** * Ring, fill and failing transports *)

Lemma rx_buf_gets_spec k : forall p,
  ring_ok p -> Z.of_nat k <= rx_len p ->
  fst (rx_buf_gets k p) = byte_list (firstn k (ring_contents p))
  /\ ring_ok (snd (rx_buf_gets k p))
  /\ ring_contents (snd (rx_buf_gets k p)) = skipn k (ring_contents p)
  /\ rx_len (snd (rx_buf_gets k p)) = rx_len p - Z.of_nat k.
Proof.
  induction k as [|k IH]; intros p Hok Hk; cbn [rx_buf_gets fst snd].
  - cbn [firstn skipn byte_list map]. split; [ reflexivity | ].
    split; [ exact Hok | ]. split; [ reflexivity | lia ].
  - destruct (ring_get p Hok) as (x & rest & Hc & Hx & Hr & Hok1); [ lia | ].
    assert (Hl1 : rx_len (snd (ft245r_rx_buf_get p)) = rx_len p - 1) by reflexivity.
    destruct (IH (snd (ft245r_rx_buf_get p)) Hok1) as (Hf & Hok2 & Hc2 & Hl2);
      [ lia | ].
    rewrite Hf, Hc2, Hr, Hc, Hx, Hl2, Hl1. cbn [firstn skipn byte_list map].
    split; [ reflexivity | ]. split; [ exact Hok2 | ].
    split; [ reflexivity | lia ].
Qed.

Lemma since_app {T} (w w' : world T) evs :
  trace w' = trace w ++ evs -> since w w' = evs.
Proof.
  intros E. unfold since. rewrite E, skipn_app, skipn_all, Nat.sub_diag.
  reflexivity.
Qed.

Lemma world0_tidy img : tidy (world0 idle img).
Proof.
  split; [ reflexivity | ].
  split; [ exact (proj1 (world0_settled idle img)) | ].
  split; [ | split; [ reflexivity | ] ].
  - unfold ring_ok, world0, pdata0, FT245R_BUFSIZE.
    cbn [drv rx_buf rx_rd rx_len rx_wr]. rewrite repeat_length.
    repeat split; lia.
  - unfold credit, world0, pdata0, FT245R_BUFSIZE.
    cbn [drv rx_len rx_pending tx_len]. lia.
Qed.

Lemma world0_calm img room :
  0 <= room <= FT245R_BUFSIZE -> calm (world0 idle img) room.
Proof.
  intros Hr. split; [ split; [ apply world0_tidy | reflexivity ] | ].
  split; [ lia | ]. unfold credit, world0, pdata0.
  cbn [drv rx_len rx_pending tx_len]. lia.
Qed.

Section Faults.
Context {T : Type} {tr : FtdiTransport T}.
Variable fuel : nat.

(** What [ft245r_fill] does with the transport's answer. *)
Lemma fill_spec (w : world T) nread raw d' :
  ftdi_read_data (dev w) (rx_pending (drv w)) = ((nread, raw), d') ->
  (nread < 0 ->
   ft245r_fill w
   = (Ret (-1), mkWorld (drv w) d' (image w)
                        (trace w ++ [EvRead (rx_pending (drv w)) nread])))
  /\ (0 <= nread -> ring_ok (drv w) ->
      rx_len (drv w) + nread <= FT245R_BUFSIZE ->
      exists w',
        ft245r_fill w = (Ret nread, w')
        /\ dev w' = d'
        /\ rx_pending (drv w') = rx_pending (drv w) - nread
        /\ ring_ok (drv w')
        /\ ring_contents (drv w')
           = ring_contents (drv w) ++ byte_list (cells raw nread)
        /\ fifo_only w w').
Proof.
  intros E. pose proof (fill_fifo_only w) as Hfo.
  unfold ft245r_fill in *. monad_unfold. rewrite E in *.
  cbn [fst snd drv dev image trace] in *.
  split.
  - intros Hneg. destruct (Z.ltb_spec nread 0); [ reflexivity | lia ].
  - intros Hpos Hok Hroom. destruct (Z.ltb_spec nread 0); [ lia | ].
    cbn [fst snd drv dev image trace] in *.
    eexists. split; [ reflexivity | ]. cbn [drv dev].
    split; [ reflexivity | ].
    set (p0 := set_pending (drv w) (rx_pending (drv w) - nread)) in *.
    assert (Hlen : length (cells raw nread) = Z.to_nat nread)
      by (unfold cells; rewrite length_map, length_seq; reflexivity).
    destruct (ring_put_all (cells raw nread) p0 Hok) as [Hok1 Hc1].
    { subst p0. cbn [rx_len set_pending]. rewrite Hlen. lia. }
    pose proof (put_fold_fields (cells raw nread) p0) as Hf. cbn zeta in Hf.
    destruct Hf as (Hp & _).
    split; [ rewrite Hp; reflexivity | ].
    split; [ exact Hok1 | ]. split; [ exact Hc1 | exact Hfo ].
Qed.

(** A write the transport does not take in full ends [ft245r_flush] at
    once. *)
Lemma flush_short_write (w : world T) :
  short_writes tr -> (1 <= fuel)%nat ->
  0 < tx_len (drv w) -> 0 <= rx_pending (drv w) < FT245R_MIN_FIFO_SIZE ->
  let avail := Z.min (tx_len (drv w)) (FT245R_MIN_FIFO_SIZE - rx_pending (drv w)) in
  let data := slice (tx_buf (drv w)) 0 avail in
  let r := ftdi_write_data (dev w) data avail in
  ft245r_flush fuel w
  = (Ret (-1), mkWorld (drv w) (snd r) (image w)
                       (trace w ++ [EvWrite (rx_pending (drv w)) data avail (fst r)])).
Proof.
  intros Hshort Hfuel Htx Hp avail data r.
  unfold ft245r_flush. monad_unfold.
  destruct (Z.eqb_spec (tx_len (drv w)) 0); [ lia | ].
  destruct fuel as [|k]; [ lia | ]. cbn [ft245r_flush_loop]. monad_unfold.
  destruct (Z.ltb_spec 0 (tx_len (drv w))); [ | lia ].
  destruct (Z.leb_spec (FT245R_MIN_FIFO_SIZE - rx_pending (drv w)) 0); [ lia | ].
  cbn [andb fst snd drv dev image trace].
  assert (Ha : (if tx_len (drv w) <? FT245R_MIN_FIFO_SIZE - rx_pending (drv w)
                then tx_len (drv w)
                else FT245R_MIN_FIFO_SIZE - rx_pending (drv w)) = avail).
  { subst avail.
    destruct (Z.ltb_spec (tx_len (drv w))
                (FT245R_MIN_FIFO_SIZE - rx_pending (drv w))); lia. }
  rewrite Ha. fold data. fold r.
  assert (Hav : 0 <= avail) by (subst avail; lia).
  pose proof (Hshort (dev w) data avail Hav) as Hne. fold r in Hne.
  destruct r as [rv d2]. cbn [fst snd] in *.
  destruct (Z.eqb_spec rv avail); [ contradiction | ]. reflexivity.
Qed.

End Faults.

Section Dropped.
Context {T : Type} {tr : FtdiTransport T}.
Hypothesis bad : faulty tr.
Variable fuel : nat.
Hypothesis some_fuel : (1 <= fuel)%nat.

Lemma fill_faulty_drv (w : world T) :
  exists w', ft245r_fill w = (Ret (-1), w') /\ drv w' = drv w.
Proof.
  destruct (ftdi_read_data (dev w) (rx_pending (drv w))) as [[nread raw] d'] eqn:E.
  destruct (fill_spec w nread raw d' E) as [Hneg _].
  destruct bad as [Hread _]. specialize (Hread (dev w) (rx_pending (drv w))).
  rewrite E in Hread. cbn [fst] in Hread.
  eexists. split; [ apply Hneg; exact Hread | reflexivity ].
Qed.

Lemma flush_faulty_drv (w : world T) :
  exists r w', ft245r_flush fuel w = (Ret r, w') /\ drv w' = drv w
               /\ (0 < tx_len (drv w) -> r = -1).
Proof.
  unfold ft245r_flush. monad_unfold.
  destruct (Z.eqb_spec (tx_len (drv w)) 0) as [E0|E0].
  { exists 0, w. split; [ reflexivity | ]. split; [ reflexivity | lia ]. }
  destruct fuel as [|k]; [ lia | ]. cbn [ft245r_flush_loop]. monad_unfold.
  destruct (Z.ltb_spec 0 (tx_len (drv w))) as [Hpos|Hneg].
  2:{ exists 0, w. split; [ reflexivity | ]. split; [ reflexivity | lia ]. }
  destruct (Z.leb_spec (FT245R_MIN_FIFO_SIZE - rx_pending (drv w)) 0) as [Hfull|Hroom].
  - destruct (fill_faulty_drv w) as (w1 & E1 & Hd1). rewrite E1.
    cbn [fst snd andb]. change (-1 <? 0) with true. cbn iota.
    exists (-1), w1. split; [ reflexivity | ]. split; [ exact Hd1 | reflexivity ].
  - cbn [andb fst snd drv dev image trace].
    destruct bad as [_ Hwrite].
    match goal with
    | |- context [ftdi_write_data ?a ?b ?c] =>
        specialize (Hwrite a b c); destruct (ftdi_write_data a b c) as [rv d2]
    end.
    cbn [fst snd] in *.
    match goal with
    | |- context [rv =? ?x] => destruct (Z.eqb_spec rv x) as [Heq|Hne]
    end.
    + exfalso.
      destruct (Z.ltb_spec (tx_len (drv w))
                  (FT245R_MIN_FIFO_SIZE - rx_pending (drv w))); lia.
    + cbn [negb]. eexists _, _. split; [ reflexivity | ].
      split; [ reflexivity | reflexivity ].
Qed.

(** [ft245r_send2] reports success whatever the transport does: the bytes
    of a failed flush are dropped, and the discard counter has been raised
    for them all the same. *)
Lemma send2_faulty_drv buf d : forall w : world T,
  exists w',
    ft245r_send2 fuel buf d w = (Ret 0, w')
    /\ rx_pending (drv w') = rx_pending (drv w)
    /\ rx_len (drv w') = rx_len (drv w)
    /\ rx_discard (drv w')
       = rx_discard (drv w) + (if d then Z.of_nat (length buf) else 0).
Proof.
  induction buf as [|b rest IH]; intros w; cbn [ft245r_send2].
  - exists w. split; [ reflexivity | ]. split; [ reflexivity | ].
    split; [ reflexivity | ]. destruct d; cbn [length]; lia.
  - monad_unfold. cbn [drv dev image trace].
    set (p1 := if d then set_discard (drv w) (rx_discard (drv w) + 1) else drv w).
    assert (Hp1 : rx_pending p1 = rx_pending (drv w)
                  /\ rx_len p1 = rx_len (drv w)
                  /\ rx_discard p1 = rx_discard (drv w) + (if d then 1 else 0)).
    { subst p1. destruct d; cbn [rx_pending rx_len rx_discard set_discard];
        repeat split; lia. }
    destruct Hp1 as (Hpe & Hrl & Hdi).
    set (p2 := set_tx p1 (tx_len p1 + 1) (upd (tx_buf p1) (tx_len p1) (b mod 256))).
    destruct (FT245R_MIN_FIFO_SIZE <=? tx_len p2).
    + destruct (flush_faulty_drv (mkWorld p2 (dev w) (image w) (trace w)))
        as (r & w1 & E1 & Hd1 & _).
      rewrite E1. cbn [fst snd drv dev image trace].
      match goal with
      | |- context [ft245r_send2 fuel rest d ?w2] =>
          destruct (IH w2) as (w' & E' & Hpe' & Hrl' & Hdi')
      end.
      exists w'. split; [ exact E' | ].
      cbn [drv rx_pending rx_len rx_discard set_tx] in *.
      rewrite Hd1 in *. subst p2.
      cbn [drv rx_pending rx_len rx_discard set_tx] in *.
      split; [ congruence | ]. split; [ congruence | ].
      rewrite Hdi', Hdi. cbn [length]. destruct d; lia.
    + cbn [fst snd drv dev image trace].
      match goal with
      | |- context [ft245r_send2 fuel rest d ?w2] =>
          destruct (IH w2) as (w' & E' & Hpe' & Hrl' & Hdi')
      end.
      exists w'. split; [ exact E' | ].
      subst p2. cbn [drv rx_pending rx_len rx_discard set_tx] in *.
      split; [ congruence | ]. split; [ congruence | ].
      rewrite Hdi', Hdi. cbn [length]. destruct d; lia.
Qed.

(** With nothing in the ring, [ft245r_recv] gives up at the first byte it
    needs and leaves the caller's buffer alone. *)
Lemma recv_faulty_drv buf len (w : world T) :
  rx_len (drv w) = 0 -> 0 <= rx_discard (drv w) -> 0 <= len ->
  0 < rx_discard (drv w) + len ->
  exists w', ft245r_recv fuel buf len w = (Ret (-1, buf), w')
             /\ rx_discard (drv w') = rx_discard (drv w).
Proof.
  intros Hempty Hd Hlen Hneed. unfold ft245r_recv. monad_unfold.
  destruct (flush_faulty_drv w) as (r1 & w1 & E1 & Hd1 & _). rewrite E1.
  cbn [fst snd drv dev image trace].
  match goal with
  | |- context [ft245r_fill ?w2] =>
      destruct (fill_faulty_drv w2) as (w3 & E3 & Hd3)
  end.
  rewrite E3. cbn [fst snd drv dev image trace] in *.
  assert (Hrl3 : rx_len (drv w3) = 0) by (rewrite Hd3, Hd1; exact Hempty).
  assert (Hdi3 : rx_discard (drv w3) = rx_discard (drv w))
    by (rewrite Hd3, Hd1; reflexivity).
  assert (Hget : forall w4 : world T, rx_len (drv w4) = 0 ->
            exists w5, ft245r_rx_buf_fill_and_get fuel w4 = (Ret (-1), w5)
                       /\ drv w5 = drv w4).
  { intros w4 H4. unfold ft245r_rx_buf_fill_and_get.
    destruct fuel as [|k]; [ lia | ].
    cbn [ft245r_rx_buf_fill_and_get_loop]. monad_unfold. rewrite H4.
    change (0 =? 0) with true. cbn iota.
    destruct (fill_faulty_drv w4) as (w5 & E5 & Hd5). rewrite E5.
    cbn [fst snd]. change (-1 <? 0) with true. cbn iota.
    exists w5. split; [ reflexivity | exact Hd5 ]. }
  destruct (Z.to_nat (rx_discard (drv w3))) as [|k] eqn:Ek.
  - cbn [recv_discard]. monad_unfold. change (0 <? 0) with false. cbn iota.
    destruct (Z.to_nat len) as [|j] eqn:Ej; [ lia | ].
    cbn [recv_store]. monad_unfold.
    destruct (Hget w3 Hrl3) as (w5 & E5 & Hd5). rewrite E5. cbn [fst snd].
    change (-1 <? 0) with true. cbn iota.
    cbn [fst snd app length skipn].
    exists w5. split; [ reflexivity | ]. rewrite Hd5. exact Hdi3.
  - cbn [recv_discard]. monad_unfold.
    destruct (Hget w3 Hrl3) as (w5 & E5 & Hd5). rewrite E5. cbn [fst snd].
    change (-1 <? 0) with true. cbn iota.
    exists w5. split; [ reflexivity | ]. rewrite Hd5. exact Hdi3.
Qed.

End Dropped.

Section Events.
Context {T : Type} {tr : FtdiTransport T}.
Hypothesis coop : cooperative tr.
Variable fuel : nat.
Hypothesis enough : (128 <= fuel)%nat.

Lemma flush_events (v : world T) :
  fifo_inv v -> 0 <= tx_len (drv v) <= FT245R_MIN_FIFO_SIZE ->
  0 <= rx_len (drv v) ->
  exists v' evs,
    ft245r_flush fuel v = (Ret 0, v')
    /\ trace v' = trace v ++ evs
    /\ wire_bytes evs = staged (drv v)
    /\ fifo_inv v' /\ fifo_only v v' /\ 0 <= rx_len (drv v').
Proof.
  intros Hi Ht Hr.
  destruct (flush_total coop fuel enough v Hi Ht Hr)
    as (v' & E & Hi' & Hfo & Hr' & _).
  assert (Hfl : 0 <= tx_len (drv v) <= Z.of_nat fuel)
    by (unfold FT245R_MIN_FIFO_SIZE in Ht; lia).
  pose proof (flush_wire coop fuel v Hi Hfl) as Hw.
  rewrite E in Hw. cbn [snd] in Hw.
  pose proof Hfo as ((_ & _ & _ & _ & _ & (evs & Hev & _)) & _).
  exists v', evs. split; [ exact E | ]. split; [ exact Hev | ].
  split.
  - unfold outbound in Hw. rewrite Hev, wire_bytes_app in Hw.
    apply app_inv_head in Hw. exact Hw.
  - split; [ exact Hi' | ]. split; [ exact Hfo | exact Hr' ].
Qed.

End Events.

(** * A TPI frame through encoder and decoder *)

Lemma clock_pairs_app a b : clock_pairs (a ++ b) = clock_pairs a ++ clock_pairs b.
Proof. apply flat_map_app. Qed.

Lemma clock_pairs_repeat b n : clock_pairs (repeat b n) = repeat b (2 * n).
Proof.
  induction n as [|n IH]; [ reflexivity | ].
  cbn [repeat clock_pairs flat_map app]. fold (clock_pairs (repeat b n)).
  rewrite IH. replace (2 * S n)%nat with (S (S (2 * n))) by lia. reflexivity.
Qed.

Lemma nth_clock_pairs bits d : forall k,
  nth (2 * k + 1) (clock_pairs bits) d = nth k bits d.
Proof.
  induction bits as [|b bits IH]; intros k.
  - cbn [clock_pairs flat_map]. destruct (2 * k + 1)%nat; destruct k; reflexivity.
  - destruct k as [|k]; [ reflexivity | ].
    replace (2 * S k + 1)%nat with (S (S (2 * k + 1))) by lia.
    cbn [clock_pairs flat_map app nth]. apply IH.
Qed.

Lemma levels_repeat pin name x n :
  levels pin name (repeat x n) = repeat (truthy (GET_BITS_0 x pin name)) n.
Proof.
  unfold levels. induction n as [|n IH]; [ reflexivity | ].
  cbn [repeat map]. rewrite IH. reflexivity.
Qed.

Lemma tpi_reply_levels pin out idle byte :
  wired pin PIN_AVR_SDO -> wired pin PIN_AVR_SDI ->
  separate pin PIN_AVR_SCK PIN_AVR_SDO ->
  levels pin PIN_AVR_SDI (tpi_reply pin out idle byte)
  = clock_pairs (tpi_line idle byte).
Proof.
  intros Ho Hi Hs. unfold tpi_reply, tpi_line.
  rewrite levels_loopback by assumption.
  rewrite !levels_app, !levels_repeat, level_SET_same by assumption.
  rewrite set_tpi_data_add_bits, add_bits_levels_sdo by assumption.
  rewrite !clock_pairs_app, !clock_pairs_repeat. reflexivity.
Qed.

Lemma tpi_line_length idle byte :
  (idle <= 4)%nat -> length (tpi_line idle byte) = 16%nat.
Proof.
  intros Hi. unfold tpi_line, bits_lsb.
  rewrite !length_app, !repeat_length. cbn [length map app]. lia.
Qed.

Lemma tpi_reply_sample pin out idle byte :
  wired pin PIN_AVR_SDO -> wired pin PIN_AVR_SDI ->
  separate pin PIN_AVR_SCK PIN_AVR_SDO -> (idle <= 4)%nat ->
  tpi_sample pin (tpi_reply pin out idle byte) = value_lsb (tpi_line idle byte).
Proof.
  intros Ho Hi Hs Hidle.
  destruct (tpi_sample_bits pin (tpi_reply pin out idle byte)) as [Hr Hb].
  pose proof (value_lsb_range (tpi_line idle byte)) as Hv.
  rewrite tpi_line_length in Hv by assumption.
  apply Z.bits_inj'. intros k Hk.
  destruct (Z.ltb_spec k 16) as [Hlt|Hge].
  - rewrite Hb by lia. rewrite level_rd, tpi_reply_levels by assumption.
    rewrite testbit_value_lsb by lia.
    replace (Z.to_nat (2 * k + 1)) with (2 * Z.to_nat k + 1)%nat by lia.
    rewrite nth_clock_pairs. apply nth_indep.
    rewrite tpi_line_length by assumption. lia.
  - rewrite word16_bit_high by assumption.
    symmetry. apply (word16_bit_high _ k); [ exact Hv | exact Hge ].
Qed.

Lemma tpi_line_frame idle byte :
  0 <= byte < 256 -> (idle <= 4)%nat ->
  tpi_frame (value_lsb (tpi_line idle byte))
  = if (idle <? 4)%nat then Some byte else None.
Proof.
  intros Hb Hidle.
  assert (Hall : forall i, (i <= 4)%nat ->
            forallb (fun b =>
                       match tpi_frame (value_lsb (tpi_line i b)),
                             (if (i <? 4)%nat then Some b else None) with
                       | Some x, Some y => x =? y
                       | None, None => true
                       | _, _ => false
                       end) (map Z.of_nat (seq 0 256)) = true).
  { intros i Hi4.
    assert (Hc : i = 0%nat \/ i = 1%nat \/ i = 2%nat \/ i = 3%nat \/ i = 4%nat)
      by lia.
    destruct Hc as [->|[->|[->|[->| ->]]]]; vm_compute; reflexivity. }
  pose proof (forall_byte _ (Hall idle Hidle) byte Hb) as Hcheck.
  cbv beta in Hcheck.
  destruct (tpi_frame (value_lsb (tpi_line idle byte))) as [x|];
    destruct (idle <? 4)%nat; try discriminate; try reflexivity.
  apply Z.eqb_eq in Hcheck. subst x. reflexivity.
Qed.

(** * TPI commands *)


Section TpiCmd.
Context {T : Type} {tr : FtdiTransport T}.
Variable pin : pinmap.
Variable fuel : nat.



Hypothesis coop : cooperative tr.
Hypothesis enough : (128 <= fuel)%nat.






End TpiCmd.

Section TpiEcho.
Variable pin : pinmap.
Variable respond : Z -> Z.
Variable fuel : nat.
Hypothesis enough : (128 <= fuel)%nat.

(** Bytes sent and read back in one go on a clear link. *)
Lemma exchange_eager buf (w : world bitbang) :
  clear w -> credit (drv w) + Z.of_nat (length buf) <= FT245R_BUFSIZE ->
  let echo := byte_list (snd (bb_clock respond (pins_due respond w)
                                       (byte_list buf))) in
  exists w2 w3,
    @ft245r_send2 bitbang (eager_transport respond) fuel buf false w = (Ret 0, w2)
    /\ @ft245r_recv bitbang (eager_transport respond) fuel buf (Z.of_nat (length buf)) w2
       = (Ret (0, echo), w3)
    /\ clear w3 /\ credit (drv w3) = 0
    /\ pins_due respond w3 = last (byte_list buf) (pins_due respond w)
    /\ ft245r_out (drv w3) = ft245r_out (drv w)
    /\ exists evs, trace w3 = trace w ++ evs /\ Forall is_wire evs.
Proof.
  intros (Ht & Hdc) Hroom echo.
  destruct (@send2_eager respond (eager_transport respond) eq_refl fuel enough buf false w Ht Hroom)
    as (w2 & E2 & Ht2 & Hb2 & He2 & Hp2 & Hd2 & Hc2).
  assert (Hc0 : 0 <= credit (drv w)).
  { destruct Ht as (_ & (( Hp & _) & Htx & Hrx) & _). unfold credit. lia. }
  destruct (@recv_eager respond (eager_transport respond) eq_refl fuel enough buf
              (Z.of_nat (length buf)) w2 Ht2)
    as (w3 & E3 & Ht3 & Hb3 & He3 & Hp3 & Hd3 & Htx3 & Hc3); [ lia | lia | lia | ].
  assert (Hgot : byte_list
                   (firstn (Z.to_nat (Z.of_nat (length buf)))
                      (skipn (Z.to_nat (rx_discard (drv w2)))
                             (echo_due respond w2))) = echo).
  { rewrite He2, Hd2, Hdc, Z.add_0_r.
    rewrite skipn_app, <- (echo_due_length respond w Ht), skipn_all, Nat.sub_diag.
    cbn [skipn app]. rewrite firstn_all2.
    - rewrite byte_list_idem. reflexivity.
    - rewrite byte_list_length, bb_clock_length, byte_list_length. lia. }
  rewrite Hgot in E3.
  assert (Hel : length echo = length buf).
  { unfold echo. rewrite byte_list_length, bb_clock_length, byte_list_length.
    reflexivity. }
  rewrite Hel, skipn_all, app_nil_r in E3.
  exists w2, w3. split; [ exact E2 | ]. split; [ exact E3 | ].
  split; [ split; [ exact Ht3 | lia ] | ].
  split; [ lia | ].
  split; [ rewrite Hp3, Hp2; apply bb_clock_last | ].
  destruct Hb2 as (Ho2 & _ & _ & _ & _ & (ev2 & Hev2 & Hw2)).
  destruct Hb3 as (Ho3 & _ & _ & _ & _ & (ev3 & Hev3 & Hw3)).
  split; [ congruence | ].
  exists (ev2 ++ ev3). split; [ rewrite Hev3, Hev2, app_assoc; reflexivity | ].
  apply Forall_app. split; assumption.
Qed.

Lemma set_tpi_data_length out byte :
  length (snd (set_tpi_data pin out byte)) = 24%nat.
Proof.
  rewrite set_tpi_data_add_bits, add_bits_length. unfold bits_lsb.
  cbn [length map app]. reflexivity.
Qed.

(** [ft245r_tpi_tx]: 24 bytes whose echoes will all be dropped. *)
Lemma tpi_tx_eager byte (w : world bitbang) :
  clear w -> credit (drv w) + 24 <= FT245R_BUFSIZE ->
  exists w',
    @ft245r_tpi_tx bitbang (eager_transport respond) pin fuel byte w = (Ret 0, w')
    /\ clear w' /\ credit (drv w') = credit (drv w) + 24
    /\ exists evs, trace w' = trace w ++ evs /\ Forall is_wire evs
                   /\ wire_bytes evs ++ staged (drv w')
                      = staged (drv w)
                        ++ snd (set_tpi_data pin (ft245r_out (drv w)) byte).
Proof.
  intros (Ht & Hdc) Hroom.
  unfold ft245r_tpi_tx, ft245r_send_and_discard. monad_unfold.
  pose proof (set_tpi_data_length (ft245r_out (drv w)) byte) as Hl.
  assert (Hbytes : byte_list (snd (set_tpi_data pin (ft245r_out (drv w)) byte))
                   = snd (set_tpi_data pin (ft245r_out (drv w)) byte)).
  { rewrite set_tpi_data_add_bits.
    generalize (false :: bits_lsb byte ++ [parity_of (bits_lsb byte); true; true]).
    intros bits. generalize (ft245r_out (drv w)).
    assert (Hgen : forall bs o acc, byte_list acc = acc ->
              byte_list (snd (add_bits pin o acc bs)) = snd (add_bits pin o acc bs)).
    { induction bs as [|b bs IH]; intros o acc Hacc; cbn [add_bits].
      - exact Hacc.
      - unfold add_bit. apply IH. rewrite byte_list_app, Hacc.
        cbn [byte_list map]. unfold SET_BITS_0. rewrite !Z.mod_mod by lia.
        reflexivity. }
    intros o. apply Hgen. reflexivity. }
  destruct (set_tpi_data pin (ft245r_out (drv w)) byte) as [o buf].
  cbn [fst snd drv dev image trace] in *.
  set (w1 := mkWorld (set_out (drv w) o) (dev w) (image w) (trace w)).
  assert (Ht1 : tidy w1) by exact Ht.
  destruct (@send2_eager respond (eager_transport respond) eq_refl fuel enough buf true w1 Ht1)
    as (w2 & E2 & Ht2 & Hb2 & _ & _ & Hd2 & Hc2).
  { rewrite Hl. change (credit (drv w1)) with (credit (drv w)). lia. }
  destruct (send2_outbound (eager_cooperative respond) fuel enough buf true w1)
    as (w2' & E2' & _ & _ & _ & Hout & _);
    [ exact (proj1 (proj2 Ht1)) | exact (proj1 (proj2 (proj2 (proj2 Ht1)))) | ].
  rewrite E2 in E2'. injection E2' as <-.
  rewrite E2. cbn [fst snd]. exists w2. split; [ reflexivity | ].
  rewrite Hl in *.
  change (credit (drv w1)) with (credit (drv w)) in *.
  change (rx_discard (drv w1)) with (rx_discard (drv w)) in *.
  split; [ split; [ exact Ht2 | lia ] | ].
  split; [ lia | ].
  destruct Hb2 as (_ & _ & _ & _ & _ & (evs & Hev & Hw)).
  exists evs. split; [ exact Hev | ]. split; [ exact Hw | ].
  unfold outbound in Hout. rewrite Hev, wire_bytes_app, <- !app_assoc in Hout.
  apply app_inv_head in Hout. rewrite Hout, Hbytes. reflexivity.
Qed.

(** [ft245r_tpi_rx]: the window is decoded from the device's answers to
    sixteen bit times of high SDO. *)
Lemma tpi_rx_eager old (w : world bitbang) :
  clear w -> credit (drv w) + 32 <= FT245R_BUFSIZE ->
  let frame := snd (set_data_all pin (ft245r_out (drv w)) [255; 255]) in
  let echo := byte_list (snd (bb_clock respond (pins_due respond w)
                                       (byte_list frame))) in
  exists w',
    @ft245r_tpi_rx bitbang (eager_transport respond) pin fuel old w
    = (Ret (tpi_rx_decode (tpi_sample pin echo) old), w')
    /\ clear w' /\ credit (drv w') = 0
    /\ exists evs, trace w' = trace w ++ evs /\ Forall is_wire evs.
Proof.
  intros Hc Hroom frame echo.
  unfold ft245r_tpi_rx, tpi_rx_exchange, ft245r_send. monad_unfold.
  rewrite set_data_seq_exact. cbn [fst snd drv dev image trace]. fold frame.
  set (w1 := mkWorld (set_out (drv w) (fst (set_data_all pin (ft245r_out (drv w))
                                              [255; 255])))
                     (dev w) (image w) (trace w)).
  assert (Hc1 : clear w1) by exact Hc.
  assert (Hfl : length frame = 32%nat)
    by (unfold frame; rewrite set_data_all_length; reflexivity).
  destruct (exchange_eager frame w1 Hc1) as
      (w2 & w3 & E2 & E3 & Hc3 & Hcr3 & _ & _ & Hev3).
  { rewrite Hfl. change (credit (drv w1)) with (credit (drv w)). lia. }
  rewrite E2. cbn [fst snd]. rewrite E3. cbn [fst snd].
  exists w3. split; [ reflexivity | ]. split; [ exact Hc3 | ].
  split; [ exact Hcr3 | exact Hev3 ].
Qed.

Lemma cmd_tpi_tx_eager cmd : forall w : world bitbang,
  clear w -> credit (drv w) + 24 * Z.of_nat (length cmd) <= FT245R_BUFSIZE ->
  exists w',
    @cmd_tpi_tx bitbang (eager_transport respond) pin fuel cmd w = (Ret tt, w')
    /\ clear w'
    /\ credit (drv w') = credit (drv w) + 24 * Z.of_nat (length cmd).
Proof.
  induction cmd as [|c rest IH]; intros w Hc Hroom; cbn [cmd_tpi_tx].
  - exists w. split; [ reflexivity | ]. split; [ exact Hc | cbn [length]; lia ].
  - cbn [length] in Hroom.
    destruct (tpi_tx_eager c w Hc) as (w1 & E1 & Hc1 & Hcr1 & _); [ lia | ].
    destruct (IH w1 Hc1) as (w2 & E2 & Hc2 & Hcr2); [ lia | ].
    unfold bind. rewrite E1. exists w2. split; [ exact E2 | ].
    split; [ exact Hc2 | ]. cbn [length]. lia.
Qed.

End TpiEcho.

(** Through a strap no start bit is seen. *)
Lemma strap_sample pin out prev :
  wired pin PIN_AVR_SDO -> wired pin PIN_AVR_SDI ->
  separate pin PIN_AVR_SCK PIN_AVR_SDO ->
  tpi_sample pin
    (byte_list (snd (bb_clock (loopback pin) prev
                       (byte_list (snd (set_data_all pin out [255; 255]))))))
  = 65535.
Proof.
  intros Ho Hi Hs.
  match goal with |- tpi_sample pin ?b = _ => set (echo := b) end.
  destruct (tpi_sample_bits pin echo) as [Hr Hb].
  apply Z.bits_inj'. intros k Hk.
  destruct (Z.ltb_spec k 16) as [Hlt|Hge].
  2:{ rewrite !word16_bit_high by (assumption || lia). reflexivity. }
  rewrite Hb by lia. change 65535 with (Z.ones 16).
  rewrite Z.ones_spec_low by lia.
  rewrite level_rd. subst echo.
  rewrite levels_byte_list, bb_clock_echo, levels_loopback by assumption.
  rewrite byte_list_length, set_data_all_length. cbn [length Nat.mul Nat.add].
  change 32%nat with (S 31). rewrite firstn_cons.
  change (levels pin PIN_AVR_SDO (?p :: ?l))
    with (truthy (GET_BITS_0 p pin PIN_AVR_SDO) :: levels pin PIN_AVR_SDO l).
  replace (Z.to_nat (2 * k + 1)) with (S (2 * Z.to_nat k)) by lia.
  cbn [nth].
  unfold levels. rewrite <- firstn_map. fold (levels pin PIN_AVR_SDO
    (byte_list (snd (set_data_all pin out [255; 255])))).
  rewrite levels_byte_list, set_data_all_levels by assumption.
  cbn [flat_map clock_pairs bits_msb map app].
  assert (Hn : (2 * Z.to_nat k < 31)%nat) by lia.
  revert Hn. generalize (2 * Z.to_nat k)%nat. intros n Hn.
  do 31 (destruct n as [|n]; [ reflexivity | ]). lia.
Qed.

(** * Byte-wise load *)

Section GenLoad.
Context {T : Type} {OPCODE : Type}.
Variable avr_read_byte_default : AVRMEM OPCODE -> Z -> M T (Z * Z).
Variable m : AVRMEM OPCODE.
Variable rdf : Z -> Z * Z.
Hypothesis pure_read :
  forall a (w : world T), avr_read_byte_default m a w = (Ret (rdf a), w).
Variable addr f : Z.

Lemma paged_load_gen_loop_spec cnt : forall i (w : world T),
  0 <= addr -> 0 <= i -> i <= f <= i + Z.of_nat cnt ->
  addr + i + Z.of_nat cnt <= 2 ^ 32 ->
  addr + i + Z.of_nat cnt <= Z.of_nat (length (image w)) ->
  (forall j, i <= j < f -> fst (rdf (addr + j)) = 0) ->
  (f < i + Z.of_nat cnt -> fst (rdf (addr + f)) <> 0) ->
  exists w',
    paged_load_gen_loop avr_read_byte_default cnt m addr i w
    = (Ret (if f <? i + Z.of_nat cnt then -2 else 0), w')
    /\ drv w' = drv w /\ dev w' = dev w /\ trace w' = trace w
    /\ length (image w') = length (image w)
    /\ forall a, 0 <= a ->
         rd (image w') a
         = if (addr + i <=? a) && (a <? addr + f)
           then snd (rdf a) mod 256 else rd (image w) a.
Proof.
  induction cnt as [|cnt IH]; intros i w Ha Hi Hf H32 Hlen Hok Hbad;
    cbn [paged_load_gen_loop].
  - exists w. assert (f = i) by lia. subst f.
    destruct (Z.ltb_spec i (i + Z.of_nat 0)); [ lia | ].
    split; [ reflexivity | ]. do 4 (split; [ reflexivity | ]).
    intros a Ha0.
    destruct (Z.leb_spec (addr + i) a); destruct (Z.ltb_spec a (addr + i));
      cbn [andb]; try reflexivity; lia.
  - assert (Hu : to_uint (addr + i) = addr + i).
    { unfold to_uint. apply Z.mod_small. lia. }
    unfold bind. rewrite Hu, pure_read.
    destruct (rdf (addr + i)) as [rc rbyte] eqn:Er.
    destruct (Z.eq_dec f i) as [->|Hne].
    + assert (Hrc : rc <> 0).
      { specialize (Hbad ltac:(lia)). rewrite Er in Hbad. exact Hbad. }
      destruct (Z.eqb_spec rc 0); [ contradiction | ]. cbn [negb].
      destruct (Z.ltb_spec i (i + Z.of_nat (S cnt))); [ | lia ].
      exists w. split; [ reflexivity | ]. do 4 (split; [ reflexivity | ]).
      intros a Ha0.
      destruct (Z.leb_spec (addr + i) a); destruct (Z.ltb_spec a (addr + i));
        cbn [andb]; try reflexivity; lia.
    + assert (Hrc : rc = 0).
      { specialize (Hok i ltac:(lia)). rewrite Er in Hok. exact Hok. }
      subst rc. change (negb (0 =? 0)) with false. cbn iota.
      unfold get_image, put_image, ret. cbn [fst snd drv dev image trace].
      set (w1 := mkWorld (drv w) (dev w)
                         (upd (image w) (addr + i) (rbyte mod 256)) (trace w)).
      destruct (IH (i + 1) w1) as (w' & E & Hd & Hv & Ht & Hl & Himg);
        try lia.
      { subst w1. cbn [image]. rewrite upd_length. lia. }
      { intros j Hj. apply Hok. lia. }
      exists w'. split.
      { rewrite E. replace (i + 1 + Z.of_nat cnt) with (i + Z.of_nat (S cnt)) by lia.
        reflexivity. }
      split; [ exact Hd | ]. split; [ exact Hv | ]. split; [ exact Ht | ].
      split; [ rewrite Hl; subst w1; cbn [image]; apply upd_length | ].
      intros a Ha0. rewrite (Himg a Ha0). subst w1. cbn [image].
      destruct (Z.eq_dec a (addr + i)) as [->|Hai].
      * rewrite rd_upd_same by lia. rewrite Er. cbn [snd].
        destruct (Z.leb_spec (addr + (i + 1)) (addr + i)); [ lia | ].
        destruct (Z.leb_spec (addr + i) (addr + i)); [ | lia ].
        destruct (Z.ltb_spec (addr + i) (addr + f)); [ | lia ].
        reflexivity.
      * rewrite rd_upd_other by lia.
        destruct (Z.leb_spec (addr + (i + 1)) a);
          destruct (Z.leb_spec (addr + i) a); try lia; reflexivity.
Qed.

End GenLoad.

(** * Sequences of pin operations on a device *)

Section Ops.
Variable pin : pinmap.
Variable respond : Z -> Z.
Variable fuel : nat.
Hypothesis enough : (128 <= fuel)%nat.

Lemma set_pin_calm name val room (w : world bitbang) :
  calm w (room + 1) -> 0 <= room ->
  exists w' evs,
    @set_pin bitbang (eager_transport respond) pin fuel name val w = (Ret 0, w')
    /\ calm w' room
    /\ trace w' = trace w ++ evs
    /\ Forall pin_event (driver_events evs)
    /\ ft245r_out (drv w')
       = (if mask0 (pin name) =? 0 then ft245r_out (drv w)
          else SET_BITS_0 (ft245r_out (drv w)) pin name (truthy val))
    /\ pins_due respond w'
       = (if mask0 (pin name) =? 0 then pins_due respond w
          else SET_BITS_0 (ft245r_out (drv w)) pin name (truthy val)).
Proof.
  intros ((Ht & Hdc) & Hr0 & Hroom) Hr.
  destruct (Z.eqb_spec (mask0 (pin name)) 0) as [Hm|Hm].
  - exists w, []. rewrite set_pin_unwired by exact Hm.
    split; [ reflexivity | ].
    split; [ split; [ split; assumption | split; [ exact Hr | lia ] ] | ].
    split; [ symmetry; apply app_nil_r | ].
    split; [ constructor | ]. split; reflexivity.
  - destruct (@set_pin_eager respond (eager_transport respond) eq_refl fuel
                enough pin name val w Hm Ht)
      as (w' & E & Ht' & Ho' & Hp' & _ & Hd' & Hc' & _ & (evs & Hev & Hde));
      [ lia | ].
    exists w', evs. split; [ exact E | ].
    split; [ split; [ split; [ exact Ht' | lia ] | split; [ exact Hr | lia ] ] | ].
    split; [ exact Hev | ].
    split; [ rewrite Hde; constructor; [ exact I | constructor ] | ].
    split; assumption.
Qed.

Lemma usleep_calm usec room (w : world bitbang) :
  calm w room ->
  exists w' evs,
    @ft245r_usleep bitbang (eager_transport respond) fuel usec w = (Ret tt, w')
    /\ calm w' room
    /\ trace w' = trace w ++ evs
    /\ Forall pin_event (driver_events evs)
    /\ ft245r_out (drv w') = ft245r_out (drv w)
    /\ pins_due respond w' = pins_due respond w.
Proof.
  intros ((Ht & Hdc) & Hr0 & Hroom).
  destruct (@usleep_eager respond (eager_transport respond) eq_refl fuel enough
              usec w Ht)
    as (w' & E & Ht' & _ & _ & Hp' & _ & Hd' & Hc' & Ho' & (evs & Hev & Hde)).
  exists w', evs. split; [ exact E | ].
  split; [ split; [ split; [ exact Ht' | lia ] | split; [ exact Hr0 | lia ] ] | ].
  split; [ exact Hev | ]. split; [ rewrite Hde; constructor | ].
  split; assumption.
Qed.

Lemma get_pin_calm name room (w : world bitbang) :
  calm w room ->
  exists w' evs,
    @get_pin bitbang (eager_transport respond) pin fuel name w
    = (Ret (if truthy (GET_BITS_0 (respond (pins_due respond w) mod 256) pin name)
            then 1 else 0), w')
    /\ calm w' room
    /\ trace w' = trace w ++ evs
    /\ Forall pin_event (driver_events evs)
    /\ ft245r_out (drv w') = ft245r_out (drv w)
    /\ pins_due respond w' = pins_due respond w.
Proof.
  intros ((Ht & Hdc) & Hr0 & Hroom).
  destruct (@get_pin_eager respond (eager_transport respond) eq_refl fuel enough
              pin name w Ht)
    as (w' & E & Ht' & _ & _ & Hp' & _ & Hd' & Hc' & Ho' & (evs & Hev & Hde)).
  exists w', evs. split; [ exact E | ].
  split; [ split; [ split; [ exact Ht' | lia ] | split; [ exact Hr0 | lia ] ] | ].
  split; [ exact Hev | ]. split; [ rewrite Hde; constructor | ].
  split; assumption.
Qed.

(** The steps of [ft245r_initialize] before the part is addressed. *)
Lemma initialize_reset_pulse room (w : world bitbang) :
  calm w (room + 5) -> 0 <= room ->
  exists w' evs,
    (forall A (k : M bitbang A),
    (@set_sck bitbang (eager_transport respond) pin fuel OFF ;;;
     @ft245r_powerup bitbang (eager_transport respond) pin fuel ;;;
     @set_reset bitbang (eager_transport respond) pin fuel OFF ;;;
     @ft245r_usleep bitbang (eager_transport respond) fuel 5000 ;;;
     @set_reset bitbang (eager_transport respond) pin fuel ON ;;;
     @ft245r_usleep bitbang (eager_transport respond) fuel 5000 ;;;
     @set_reset bitbang (eager_transport respond) pin fuel OFF ;;;
     @ft245r_usleep bitbang (eager_transport respond) fuel 20000 ;;; k) w
    = k w')
    /\ calm w' room
    /\ trace w' = trace w ++ evs
    /\ Forall pin_event (driver_events evs).
Proof.
  intros Hc Hr. unfold ft245r_powerup, set_sck, set_reset, set_vcc.
  replace (room + 5) with (room + 4 + 1) in Hc by lia.
  destruct (set_pin_calm PIN_AVR_SCK OFF (room + 4) w Hc)
    as (w1 & e1 & E1 & Hc1 & T1 & P1 & _); [ lia | ].
  replace (room + 4) with (room + 3 + 1) in Hc1 by lia.
  destruct (set_pin_calm PPI_AVR_VCC ON (room + 3) w1 Hc1)
    as (w2 & e2 & E2 & Hc2 & T2 & P2 & _); [ lia | ].
  destruct (usleep_calm 100 (room + 3) w2 Hc2)
    as (w3 & e3 & E3 & Hc3 & T3 & P3 & _).
  replace (room + 3) with (room + 2 + 1) in Hc3 by lia.
  destruct (set_pin_calm PIN_AVR_RESET OFF (room + 2) w3 Hc3)
    as (w4 & e4 & E4 & Hc4 & T4 & P4 & _); [ lia | ].
  destruct (usleep_calm 5000 (room + 2) w4 Hc4)
    as (w5 & e5 & E5 & Hc5 & T5 & P5 & _).
  replace (room + 2) with (room + 1 + 1) in Hc5 by lia.
  destruct (set_pin_calm PIN_AVR_RESET ON (room + 1) w5 Hc5)
    as (w6 & e6 & E6 & Hc6 & T6 & P6 & _); [ lia | ].
  destruct (usleep_calm 5000 (room + 1) w6 Hc6)
    as (w7 & e7 & E7 & Hc7 & T7 & P7 & _).
  destruct (set_pin_calm PIN_AVR_RESET OFF room w7 Hc7)
    as (w8 & e8 & E8 & Hc8 & T8 & P8 & _); [ lia | ].
  destruct (usleep_calm 20000 room w8 Hc8)
    as (w9 & e9 & E9 & Hc9 & T9 & P9 & _).
  exists w9, (e1 ++ e2 ++ e3 ++ e4 ++ e5 ++ e6 ++ e7 ++ e8 ++ e9).
  split; [ intros A k; unfold bind;
           rewrite E1, E2, E3, E4, E5, E6, E7, E8, E9; reflexivity | ].
  split; [ exact Hc9 | ].
  split.
  { rewrite T9, T8, T7, T6, T5, T4, T3, T2, T1, <- !app_assoc. reflexivity. }
  rewrite !driver_events_app. repeat (apply Forall_app; split); assumption.
Qed.

End Ops.

(** * Program enable on a target that does not answer *)

(** [set_pin] on a wired pin with room in the TX buffer only stages. *)
Lemma set_pin_stages {T} {tr : FtdiTransport T} pin fuel name val (w : world T) :
  mask0 (pin name) <> 0 -> tx_len (drv w) + 1 < FT245R_MIN_FIFO_SIZE ->
  exists w', set_pin pin fuel name val w = (Ret 0, w')
             /\ dev w' = dev w
             /\ rx_pending (drv w') = rx_pending (drv w)
             /\ rx_len (drv w') = rx_len (drv w)
             /\ tx_len (drv w') = tx_len (drv w) + 1
             /\ rx_discard (drv w') = rx_discard (drv w) + 1
             /\ ft245r_out (drv w')
                = SET_BITS_0 (ft245r_out (drv w)) pin name (truthy val)
             /\ trace w' = trace w ++ [EvSetPin name val]
             /\ tx_buf (drv w')
                = upd (tx_buf (drv w)) (tx_len (drv w))
                      (SET_BITS_0 (ft245r_out (drv w)) pin name (truthy val)).
Proof.
  intros Hm Htx. unfold set_pin.
  destruct (Z.eqb_spec (mask0 (pin name)) 0); [ contradiction | ].
  unfold ft245r_send_and_discard. cbn [ft245r_send2]. monad_unfold.
  cbn [tx_len set_tx set_discard set_out].
  destruct (Z.leb_spec FT245R_MIN_FIFO_SIZE (tx_len (drv w) + 1)); [ lia | ].
  cbn [fst snd]. eexists. split; [ reflexivity | ].
  cbn [drv dev trace rx_pending rx_len tx_len tx_buf rx_discard ft245r_out
       set_tx set_discard set_out].
  do 7 (split; [ reflexivity | ]).
  unfold SET_BITS_0. rewrite Z.mod_mod by lia. reflexivity.
Qed.

Section Mute.
Variable pin : pinmap.
Variable fuel : nat.
Hypothesis enough : (128 <= fuel)%nat.
Hypothesis sdi : wired pin PIN_AVR_SDI.
Hypothesis reset : mask0 (pin PIN_AVR_RESET) <> 0.

(** One failed attempt: the command is answered with zeros, then RESET is
    raised, held across the pause, and lowered. *)
Lemma failed_round_eager cmd (w : world bitbang) :
  clear w -> credit (drv w) + 65 <= FT245R_BUFSIZE ->
  exists w1 w2 w3 w4,
    @ft245r_cmd bitbang (eager_transport (silent pin)) pin fuel cmd w
    = (Ret (0, [0; 0; 0; 0]), w1)
    /\ @set_pin bitbang (eager_transport (silent pin)) pin fuel PIN_AVR_RESET ON w1
       = (Ret 0, w2)
    /\ @ft245r_usleep bitbang (eager_transport (silent pin)) fuel 20 w2
       = (Ret tt, w3)
    /\ @set_pin bitbang (eager_transport (silent pin)) pin fuel PIN_AVR_RESET OFF w3
       = (Ret 0, w4)
    /\ clear w4
    /\ rx_len (drv w4) = 0 /\ rx_pending (drv w4) = 1 /\ tx_len (drv w4) = 1
    /\ rx_discard (drv w4) = 2
    /\ length (bb_fifo (dev w4)) = 1%nat.
Proof.
  intros Hc Hroom.
  destruct (@cmd_eager pin (silent pin) (eager_transport (silent pin)) eq_refl
              fuel enough cmd w Hc Hroom)
    as (w1 & E1 & (Ht1 & Hdc1) & Hcr1 & _).
  rewrite cmd_frame_silent in E1 by exact sdi.
  assert (Hz1 : rx_len (drv w1) = 0 /\ rx_pending (drv w1) = 0
                /\ tx_len (drv w1) = 0).
  { destruct Ht1 as (_ & ((Hp & _) & Htx & Hrx) & _). unfold credit in Hcr1. lia. }
  destruct Hz1 as (Hrl1 & Hpe1 & Htl1).
  assert (Hroom1 : credit (drv w1) + 1 <= FT245R_BUFSIZE)
    by (unfold FT245R_BUFSIZE; lia).
  destruct (@set_pin_eager (silent pin) (eager_transport (silent pin)) eq_refl
              fuel enough pin PIN_AVR_RESET ON w1 reset Ht1 Hroom1)
    as (w2 & E2 & Ht2 & _ & _ & _ & Hd2 & Hc2 & _).
  destruct (@set_pin_stages bitbang (eager_transport (silent pin)) pin fuel
              PIN_AVR_RESET ON w1 reset)
    as (w2' & E2' & _ & Hpe2 & Hrl2 & Htl2 & _ & _ & _ & _);
    [ unfold FT245R_MIN_FIFO_SIZE; lia | ].
  rewrite E2 in E2'. injection E2' as <-.
  destruct (@usleep_eager (silent pin) (eager_transport (silent pin)) eq_refl
              fuel enough 20 w2 Ht2)
    as (w3 & E3 & Ht3 & Htx3 & _ & _ & _ & Hd3 & Hc3 & _).
  assert (Hfill : rx_len (drv w3) = 0 /\ rx_pending (drv w3) = 1).
  { pose proof E3 as E3'. unfold ft245r_usleep in E3'. monad_unfold.
    destruct Ht2 as (_ & (Hinv2 & _) & _).
    destruct (flush_no_fill (eager_cooperative (silent pin)) fuel w2 Hinv2)
      as (Hl & Hp); [ lia | unfold FT245R_MIN_FIFO_SIZE; lia | ].
    destruct (ft245r_flush fuel w2) as [[r|] wf]; [ | discriminate ].
    cbn [fst snd] in *. injection E3' as <-.
    cbn [drv rx_len rx_pending set_tx]. lia. }
  destruct Hfill as (Hrl3 & Hpe3).
  assert (Hroom3 : credit (drv w3) + 1 <= FT245R_BUFSIZE)
    by (unfold FT245R_BUFSIZE; lia).
  destruct (@set_pin_eager (silent pin) (eager_transport (silent pin)) eq_refl
              fuel enough pin PIN_AVR_RESET OFF w3 reset Ht3 Hroom3)
    as (w4 & E4 & Ht4 & _ & _ & _ & Hd4 & Hc4 & _).
  destruct (@set_pin_stages bitbang (eager_transport (silent pin)) pin fuel
              PIN_AVR_RESET OFF w3 reset)
    as (w4' & E4' & _ & Hpe4 & Hrl4 & Htl4 & _ & _ & _ & _);
    [ unfold FT245R_MIN_FIFO_SIZE; lia | ].
  rewrite E4 in E4'. injection E4' as <-.
  exists w1, w2, w3, w4.
  split; [ exact E1 | ]. split; [ exact E2 | ]. split; [ exact E3 | ].
  split; [ exact E4 | ].
  split; [ split; [ exact Ht4 | lia ] | ].
  split; [ lia | ]. split; [ lia | ]. split; [ lia | ]. split; [ lia | ].
  destruct Ht4 as (Hlk4 & _). unfold linked in Hlk4. lia.
Qed.

End Mute.

(** * Reads that deliver nothing *)

Section Dry.
Context {T : Type} {tr : FtdiTransport T}.
Hypothesis dry : reads_nothing tr.

Lemma fill_dry (w : world T) :
  exists w', ft245r_fill w = (Ret 0, w')
             /\ rx_len (drv w') = rx_len (drv w)
             /\ rx_discard (drv w') = rx_discard (drv w)
             /\ tx_len (drv w') = tx_len (drv w).
Proof.
  unfold ft245r_fill. monad_unfold.
  pose proof (dry (dev w) (rx_pending (drv w))) as H0.
  destruct (ftdi_read_data (dev w) (rx_pending (drv w))) as [[nread raw] d'].
  cbn [fst snd] in *. subst nread.
  change (0 <? 0) with false. cbn iota. cbn [fst snd drv dev image trace].
  eexists. split; [ reflexivity | ].
  unfold cells. cbn [Z.to_nat seq map fold_left drv rx_len rx_discard tx_len
                     set_pending].
  repeat split.
Qed.

Lemma fill_and_get_dry k : forall w : world T,
  rx_len (drv w) = 0 ->
  fst (ft245r_rx_buf_fill_and_get_loop k w) = Hang.
Proof.
  induction k as [|k IH]; intros w Hl; cbn [ft245r_rx_buf_fill_and_get_loop];
    monad_unfold; rewrite Hl; change (0 =? 0) with true; cbn iota.
  - reflexivity.
  - destruct (fill_dry w) as (w1 & E1 & Hl1 & _). rewrite E1. cbn [fst snd].
    change (0 <? 0) with false. cbn iota. apply IH. rewrite Hl1. exact Hl.
Qed.

Lemma recv_dry fuel buf len (w : world T) :
  tx_len (drv w) = 0 -> rx_len (drv w) = 0 ->
  0 <= rx_discard (drv w) -> 0 <= len -> 0 < rx_discard (drv w) + len ->
  fst (ft245r_recv fuel buf len w) = Hang.
Proof.
  intros Htx Hrl Hd Hlen Hneed. unfold ft245r_recv, ft245r_flush. monad_unfold.
  rewrite Htx. change (0 =? 0) with true. cbn iota.
  cbn [fst snd drv dev image trace].
  match goal with
  | |- context [ft245r_fill ?w2] =>
      destruct (fill_dry w2) as (w3 & E3 & Hl3 & Hd3 & _)
  end.
  rewrite E3. cbn [fst snd drv dev image trace] in *.
  cbn [drv rx_len rx_discard set_tx] in Hl3, Hd3.
  assert (Hget : forall v : world T, rx_len (drv v) = 0 ->
            fst (ft245r_rx_buf_fill_and_get fuel v) = Hang)
    by (intros v Hv; apply fill_and_get_dry; exact Hv).
  rewrite Hd3.
  destruct (Z.to_nat (rx_discard (drv w))) as [|k] eqn:Ek.
  - cbn [recv_discard]. monad_unfold. change (0 <? 0) with false. cbn iota.
    destruct (Z.to_nat len) as [|j] eqn:Ej; [ lia | ].
    cbn [recv_store]. monad_unfold.
    specialize (Hget w3 ltac:(lia)).
    destruct (ft245r_rx_buf_fill_and_get fuel w3) as [[r|] w4];
      [ discriminate | reflexivity ].
  - cbn [recv_discard]. monad_unfold.
    specialize (Hget w3 ltac:(lia)).
    destruct (ft245r_rx_buf_fill_and_get fuel w3) as [[r|] w4];
      [ discriminate | reflexivity ].
Qed.

End Dry.

(** * Byte-wise write *)

Section GenWrite.
Context {T : Type} {OPCODE : Type}.
Variable avr_write_byte_default : AVRMEM OPCODE -> Z -> Z -> M T Z.
Variable m : AVRMEM OPCODE.
Variable wrf : Z -> Z -> Z.
Hypothesis pure_write :
  forall a v (w : world T), avr_write_byte_default m a v w = (Ret (wrf a v), w).
Variable addr n_bytes f : Z.

Lemma paged_write_gen_loop_spec cnt : forall i (w : world T),
  0 <= addr -> 0 <= i -> i <= f <= i + Z.of_nat cnt ->
  addr + i + Z.of_nat cnt < 2 ^ 32 ->
  (forall j, i <= j < f -> wrf (addr + j) (rd (image w) (addr + j)) = 0) ->
  (f < i + Z.of_nat cnt -> wrf (addr + f) (rd (image w) (addr + f)) <> 0) ->
  paged_write_gen_loop avr_write_byte_default cnt m (addr + i) n_bytes w
  = (Ret (if f <? i + Z.of_nat cnt then -2 else to_int n_bytes), w).
Proof.
  induction cnt as [|cnt IH]; intros i w Ha Hi Hf H32 Hok Hbad;
    cbn [paged_write_gen_loop].
  - destruct (Z.ltb_spec f (i + Z.of_nat 0)); [ lia | reflexivity ].
  - unfold bind, get_image. rewrite pure_write.
    destruct (Z.eq_dec f i) as [->|Hne].
    + destruct (Z.eqb_spec (wrf (addr + i) (rd (image w) (addr + i))) 0) as [E|E].
      * exfalso. apply Hbad; [ lia | exact E ].
      * cbn [negb]. destruct (Z.ltb_spec i (i + Z.of_nat (S cnt))); [ | lia ].
        reflexivity.
    + rewrite (Hok i) by lia. change (negb (0 =? 0)) with false. cbn iota.
      assert (Hu : to_uint (addr + i + 1) = addr + (i + 1)).
      { unfold to_uint. rewrite Z.mod_small by lia. lia. }
      rewrite Hu, (IH (i + 1) w) by (try lia; intros; (apply Hok || apply Hbad); lia).
      replace (i + 1 + Z.of_nat cnt) with (i + Z.of_nat (S cnt)) by lia.
      reflexivity.
Qed.

End GenWrite.

(** * Storing the bytes of a request *)

Lemma store_data_spec pin buf k : forall j addr img,
  0 <= addr -> addr + Z.of_nat k <= Z.of_nat (length img) ->
  length (store_data pin k j addr buf img) = length img
  /\ forall a, 0 <= a ->
       rd (store_data pin k j addr buf img) a
       = if (addr <=? a) && (a <? addr + Z.of_nat k)
         then extract_data pin buf ((j + (a - addr)) * 4 + 3)
         else rd img a.
Proof.
  induction k as [|k IH]; intros j addr img Ha Hlen; cbn [store_data].
  - split; [ reflexivity | ]. intros a Ha0.
    destruct (Z.leb_spec addr a); destruct (Z.ltb_spec a (addr + Z.of_nat 0));
      cbn [andb]; try reflexivity; lia.
  - destruct (IH (j + 1) (addr + 1)
                 (upd img addr (extract_data pin buf (j * 4 + 3))))
      as (Hl & Hrd); [ lia | rewrite upd_length; lia | ].
    split; [ rewrite Hl; apply upd_length | ].
    intros a Ha0. rewrite (Hrd a Ha0).
    destruct (Z.eq_dec a addr) as [->|Hne].
    + rewrite rd_upd_same by lia.
      destruct (Z.leb_spec (addr + 1) addr); [ lia | ].
      destruct (Z.leb_spec addr addr); [ | lia ].
      destruct (Z.ltb_spec addr (addr + Z.of_nat (S k))); [ | lia ].
      cbn [andb]. f_equal. lia.
    + rewrite rd_upd_other by lia.
      destruct (Z.leb_spec (addr + 1) a); destruct (Z.leb_spec addr a);
        try lia; cbn [andb]; try reflexivity.
      destruct (Z.ltb_spec a (addr + 1 + Z.of_nat k));
        destruct (Z.ltb_spec a (addr + Z.of_nat (S k))); try lia.
      f_equal. lia.
Qed.

(** ** One command on any transport *)

Lemma set_data_all_levels_sck pin xs : forall out,
  wired pin PIN_AVR_SCK ->
  levels pin PIN_AVR_SCK (snd (set_data_all pin out xs))
  = flat_map (fun x => clock_edges (bits_msb x)) xs.
Proof.
  intros out Hw. revert out.
  induction xs as [|x xs IH]; intros out; [ reflexivity | ].
  rewrite set_data_all_cons. cbn [snd flat_map].
  rewrite levels_app, IH, set_data_add_bits, add_bits_levels_sck by assumption.
  reflexivity.
Qed.

Section CmdAny.
Context {T : Type} {tr : FtdiTransport T}.
Variable pin : pinmap.
Variable fuel : nat.

Lemma set_data_seq_frame xs : forall w : world T,
  set_data_seq pin xs w
  = (Ret (snd (set_data_all pin (ft245r_out (drv w)) xs)),
     mkWorld (set_out (drv w) (fst (set_data_all pin (ft245r_out (drv w)) xs)))
             (dev w) (image w) (trace w)).
Proof.
  induction xs as [|x xs IH]; intros w; cbn [set_data_seq].
  - unfold set_data_all. cbn [fold_left fst snd].
    destruct w as [p d i t]. destruct p. reflexivity.
  - rewrite set_data_all_cons. unfold set_data_out. monad_unfold.
    destruct (set_data pin (ft245r_out (drv w)) x) as [o1 bs].
    cbn [fst snd]. rewrite IH. cbn [drv dev image trace ft245r_out set_out fst snd].
    reflexivity.
Qed.

Lemma cmd_encode_frame cmd (w : world T) :
  cmd_encode pin cmd w
  = (Ret (cmd_frame pin (ft245r_out (drv w)) cmd),
     mkWorld (set_out (drv w)
                (fst (set_data_all pin (ft245r_out (drv w))
                        [rd cmd 0; rd cmd 1; rd cmd 2; rd cmd 3])))
             (dev w) (image w) (trace w)).
Proof.
  unfold cmd_encode. unfold bind at 1. rewrite set_data_seq_frame. reflexivity.
Qed.

(** The steps of [ft245r_cmd] when it returns: the frame is sent, the same
    number of bytes is received into the same buffer, and the results are
    read from that buffer. *)
Lemma cmd_steps cmd (w : world T) enc w1 rc res w' :
  cmd_encode pin cmd w = (Ret (enc ++ [0]), w1) ->
  length enc = 64%nat ->
  ft245r_cmd pin fuel cmd w = (Ret (rc, res), w') ->
  rc = 0
  /\ exists r2 w2 r3 buf' w3,
       ft245r_send fuel (enc ++ [0]) w1 = (Ret r2, w2)
       /\ ft245r_recv fuel (enc ++ [0]) 65 w2 = (Ret (r3, buf'), w3)
       /\ res = map (extract_data pin buf') [0; 1; 2; 3]
       /\ drv w' = drv w3 /\ dev w' = dev w3 /\ image w' = image w3
       /\ trace w' = trace w3 ++ [EvCmd cmd res].
Proof.
  intros E1 Hl E. unfold ft245r_cmd in E. unfold bind at 1 in E.
  rewrite E1 in E. unfold bind at 1 in E.
  destruct (ft245r_send fuel (enc ++ [0]) w1) as [[r2|] w2] eqn:E2;
    [ | discriminate ].
  unfold bind at 1 in E.
  replace (Z.of_nat (length (enc ++ [0]))) with 65 in E
    by (rewrite length_app, Hl; reflexivity).
  destruct (ft245r_recv fuel (enc ++ [0]) 65 w2) as [[[r3 buf']|] w3] eqn:E3;
    [ | discriminate ].
  monad_unfold. inversion E; subst rc res w'. cbn [drv dev image trace].
  split; [ reflexivity | ].
  exists r2, w2, r3, buf', w3.
  split; [ reflexivity | ]. split; [ exact E3 | ].
  repeat (split; [ reflexivity | ]). reflexivity.
Qed.

End CmdAny.

Section CmdDropped.
Context {T : Type} {tr : FtdiTransport T}.
Hypothesis bad : faulty tr.
Variable pin : pinmap.
Variable fuel : nat.
Hypothesis some_fuel : (1 <= fuel)%nat.

(** When every transfer fails and the ring is empty, the results are read
    from the frame that was to be sent. *)
Lemma cmd_faulty_frame cmd (w : world T) :
  rx_len (drv w) = 0 -> 0 <= rx_discard (drv w) ->
  exists w',
    ft245r_cmd pin fuel cmd w
    = (Ret (0, map (extract_data pin (cmd_frame pin (ft245r_out (drv w)) cmd))
                   [0; 1; 2; 3]), w').
Proof.
  intros Hr Hd. unfold ft245r_cmd. unfold bind at 1.
  rewrite cmd_encode_frame.
  set (frame := cmd_frame pin (ft245r_out (drv w)) cmd).
  set (w1 := mkWorld _ (dev w) (image w) (trace w)).
  assert (Hfl : length frame = 65%nat).
  { unfold frame, cmd_frame. rewrite length_app, set_data_all_length. reflexivity. }
  unfold ft245r_send.
  destruct (send2_faulty_drv bad fuel some_fuel frame false w1)
    as (w2 & E2 & _ & Hr2 & Hd2).
  unfold bind at 1. rewrite E2.
  destruct (recv_faulty_drv bad fuel some_fuel frame (Z.of_nat (length frame)) w2)
    as (w3 & E3 & _).
  { rewrite Hr2. exact Hr. }
  { rewrite Hd2. cbn [drv rx_discard set_out w1]. subst w1. cbn. lia. }
  { lia. }
  { rewrite Hd2, Hfl. subst w1. cbn. lia. }
  unfold bind at 1. rewrite E3. monad_unfold.
  eexists. reflexivity.
Qed.

End CmdDropped.

(** * The driver against its specification *)

(** ** FIFO flow control *)

(** C1: against a cooperative transport, whatever sequence of send and
    receive calls is run (and however far it gets), [rx_pending] ends in
    [0, FT245R_MIN_FIFO_SIZE] and every transport write of [size] bytes was
    issued with [pending + size <= FT245R_MIN_FIFO_SIZE] and completed in
    full; the headroom is made by [ft245r_fill], which reads the pending
    bytes, takes them off [rx_pending] and appends them to the ring; a
    flush step with enough fuel for the staged bytes returns 0 and keeps
    the bound. *)
Theorem pending_stays_within_fifo {T} {tr : FtdiTransport T}
        (fuel : nat) (ops : list io_op) (w : world T) :
  cooperative tr -> fifo_inv w ->
  let w' := snd (run_ops fuel ops w) in
  0 <= rx_pending (drv w') <= FT245R_MIN_FIFO_SIZE
  /\ Forall transfer_ok (trace w')
  /\ (exists wf, ft245r_fill w' = (Ret (rx_pending (drv w')), wf)
                 /\ rx_pending (drv wf) = 0
                 /\ rx_len (drv wf) = rx_len (drv w') + rx_pending (drv w'))
  /\ (tx_len (drv w') <= Z.of_nat fuel ->
      fst (ft245r_flush fuel w') = Ret 0
      /\ 0 <= rx_pending (drv (snd (ft245r_flush fuel w')))
         <= FT245R_MIN_FIFO_SIZE).
Proof.
  intros coop Hinv w'.
  pose proof (run_ops_keeps_fifo coop fuel ops w Hinv) as Hk. fold w' in Hk.
  destruct Hk as [Hp Ht].
  split; [ exact Hp | ]. split; [ exact Ht | ].
  split.
  - destruct (fill_coop coop w' (conj Hp Ht)) as (wf & E & _ & H0 & Hl).
    exists wf. split; [ exact E | split; assumption ].
  - intros Hfuel.
    destruct (flush_coop coop fuel w' (conj Hp Ht)) as ((Hp' & _) & _ & Hr).
    split; [ exact (proj1 (Hr Hfuel)) | exact Hp' ].
Qed.

Lemma pending_stays_within_fifo_witness :
  cooperative echo_device /\ fifo_inv (world0 idle [])
  /\ 0 <= rx_pending
            (drv (snd (@run_ops bitbang echo_device 128
                         [OpSend [1; 2; 3] false; OpRecv 3; OpSend [4] true]
                         (world0 idle []))))
     <= FT245R_MIN_FIFO_SIZE.
Proof.
  split; [ apply eager_cooperative | ].
  split; [ apply world0_fifo_inv | ].
  exact (proj1 (@pending_stays_within_fifo bitbang echo_device 128
                  [OpSend [1; 2; 3] false; OpRecv 3; OpSend [4] true]
                  (world0 idle []) (eager_cooperative _)
                  (world0_fifo_inv idle []))).
Defined.

(** Two hundred bytes sent and received through the loopback device: the
    first 128 go out when the staging buffer is full, the other 72 only
    after the 128 pending bytes have been read. *)
Example send_recv_run :
  let r := @run_ops bitbang echo_device 128
             [OpSend (repeat 5 200) false; OpRecv 200] (world0 idle []) in
  fst r = Ret tt
  /\ rx_pending (drv (snd r)) = 0
  /\ map (fun e => match e with
                   | EvWrite pending _ size rv => [pending; size; rv]
                   | EvRead size nread => [size; nread]
                   | _ => []
                   end) (trace (snd r))
     = [[0; 128; 128]; [128; 128]; [0; 72; 72]; [72; 72]].
Proof. vm_compute. repeat split; reflexivity. Qed.

(** ** ISP bit codec *)

(** C2 (as stated) fails: when the echo carries the SDO level of each byte
    on SDI of the same byte, decoding the encoding of 128 does not give 128
    back, whatever byte follows the sixteen encoded ones; and the decoder
    does not read the second byte of each pair: two buffers that agree on
    all cells at offset 1 of a pair decode differently. *)
Lemma extract_data_exact_echo_cex :
  (forall t,
      extract_data default_pins
        (map (loopback default_pins) (snd (set_data default_pins 0 128) ++ [t])) 0
      <> 128)
  /\ (exists buf buf',
        (forall k, 0 <= k < 8 -> rd buf (2 * k + 1) = rd buf' (2 * k + 1))
        /\ extract_data default_pins buf 0 <> extract_data default_pins buf' 0).
Proof.
  split.
  - intros t. rewrite extract_data_value. unfold sample_cells. cbn [map].
    rewrite !level_rd. unfold levels. rewrite !map_app.
    set (L := map _ (map _ (snd (set_data default_pins 0 128)))).
    assert (HL : L = [true; true; false; false; false; false; false; false;
                      false; false; false; false; false; false; false; false])
      by (vm_compute; reflexivity).
    rewrite HL. cbn [map app].
    set (x := truthy (GET_BITS_0 (loopback default_pins t) default_pins PIN_AVR_SDI)).
    change (Z.to_nat (0 * 16 + 2)) with 2%nat.
    change (Z.to_nat (0 * 16 + 4)) with 4%nat.
    change (Z.to_nat (0 * 16 + 6)) with 6%nat.
    change (Z.to_nat (0 * 16 + 8)) with 8%nat.
    change (Z.to_nat (0 * 16 + 10)) with 10%nat.
    change (Z.to_nat (0 * 16 + 12)) with 12%nat.
    change (Z.to_nat (0 * 16 + 14)) with 14%nat.
    change (Z.to_nat (0 * 16 + 16)) with 16%nat.
    cbn [nth]. destruct x; vm_compute; discriminate.
  - exists [0; 0; 2], [0; 0; 0]. split.
    + intros k Hk. assert (k = 0 \/ k = 1 \/ k = 2 \/ k = 3 \/ k = 4 \/ k = 5 \/ k = 6 \/ k = 7) by lia.
      intuition (subst; reflexivity).
    + vm_compute. discriminate.
Qed.

(** C2 (amended): for every byte [b] in [0, 256), with SDO and SDI wired and
    SCK apart from SDO, the decoder gives [b] back from the echo of the
    encoder's sixteen bytes and one trailing byte through a device that
    returns, for each byte written, the pins sampled just before that byte
    is driven; the decoder reads SDI in cells 2, 4, ..., 16 after
    [offset * 16], the first byte of the following pair, and depends on
    nothing else. *)
Theorem extract_data_round_trip pin out prev b t :
  wired pin PIN_AVR_SDO -> wired pin PIN_AVR_SDI ->
  separate pin PIN_AVR_SCK PIN_AVR_SDO ->
  0 <= b < 256 ->
  extract_data pin
    (snd (bb_clock (loopback pin) prev (snd (set_data pin out b) ++ [t]))) 0 = b
  /\ (forall buf buf' offset,
        (forall k, In k sample_cells ->
                   rd buf (offset * 16 + k) = rd buf' (offset * 16 + k)) ->
        extract_data pin buf offset = extract_data pin buf' offset).
Proof.
  intros Hsdo Hsdi Hsep Hb. split.
  - rewrite extract_data_value. unfold sample_cells. cbn [map].
    rewrite !level_rd. rewrite bb_clock_echo.
    rewrite levels_loopback by assumption.
    assert (Hlen : length (snd (set_data pin out b) ++ [t]) = 17%nat).
    { rewrite length_app, set_data_add_bits, add_bits_length. reflexivity. }
    rewrite Hlen.
    assert (Hl : levels pin PIN_AVR_SDO
                   (firstn 17 (prev :: snd (set_data pin out b) ++ [t])) =
                 truthy (GET_BITS_0 prev pin PIN_AVR_SDO) :: clock_pairs (bits_msb b)).
    { change 17%nat with (S 16). rewrite firstn_cons.
      unfold levels at 1. cbn [map]. f_equal.
      fold (levels pin PIN_AVR_SDO (firstn 16 (snd (set_data pin out b) ++ [t]))).
      rewrite firstn_app.
      assert (Hl16 : length (snd (set_data pin out b)) = 16%nat)
        by (rewrite set_data_add_bits, add_bits_length; reflexivity).
      rewrite Hl16. change (16 - 16)%nat with 0%nat.
      rewrite firstn_O, app_nil_r, firstn_all2 by lia.
      rewrite set_data_add_bits, add_bits_levels_sdo by assumption. reflexivity. }
    rewrite Hl. 
    change (value_msb (bits_msb b) = b).
    apply value_msb_bits. assumption.
  - intros buf buf' offset Hagree. rewrite !extract_data_value.
    f_equal. apply map_ext_in. intros k Hk. rewrite Hagree by assumption.
    reflexivity.
Qed.

Lemma extract_data_round_trip_witness :
  wired default_pins PIN_AVR_SDO /\ wired default_pins PIN_AVR_SDI
  /\ separate default_pins PIN_AVR_SCK PIN_AVR_SDO /\ 0 <= 165 < 256
  /\ extract_data default_pins
       (snd (bb_clock (loopback default_pins) 0
               (snd (set_data default_pins 0 165) ++ [0]))) 0 = 165.
Proof.
  assert (Hw : wired default_pins PIN_AVR_SDO) by (unfold wired; cbn; lia).
  assert (Hi : wired default_pins PIN_AVR_SDI) by (unfold wired; cbn; lia).
  assert (Hs : separate default_pins PIN_AVR_SCK PIN_AVR_SDO) by reflexivity.
  assert (Hb : 0 <= 165 < 256) by lia.
  split; [ exact Hw | ]. split; [ exact Hi | ]. split; [ exact Hs | ].
  split; [ exact Hb | ].
  exact (proj1 (extract_data_round_trip default_pins 0 0 165 0 Hw Hi Hs Hb)).
Defined.

Example set_data_165 :
  snd (set_data default_pins 0 165)
  = [4; 5; 0; 1; 4; 5; 0; 1; 0; 1; 4; 5; 0; 1; 4; 5].
Proof. reflexivity. Qed.

(** ** Request queue *)



(** Sixteen bytes written to flash through the loopback device: the call
    returns 16; two fragments are posted; both are drained, the older one
    first, before the page commit, which finds the queue empty. *)
Example paged_write_flash_run :
  let r := @ft245r_paged_write_flash bitbang echo_device default_pins 128
             (list Z) ref_set_bits ref_set_addr ref_set_input
             (@ref_commit bitbang echo_device default_pins 128)
             ref_flash 128 0 16 (world0 idle (repeat 7 16)) in
  fst r = Ret 16
  /\ queue_events (trace (snd r)) =
     [EvPut (mkReq 0 513 0); EvPut (mkReq 8 513 0);
      EvDo (mkReq 0 513 0); EvDo (mkReq 8 513 0); EvWritePage 0 []]
  /\ req_queue (drv (snd r)) = [].
Proof. vm_compute. repeat split; reflexivity. Qed.

(** ** Program enable *)

(** C4 (as stated) fails: against a target that never answers, program
    enable returns -1 after four attempts and has raised RESET four times,
    not three; four rising edges of RESET reach the wire. *)
Lemma program_enable_three_pulses_cex :
  let r := @ft245r_program_enable bitbang mute_device default_pins 128
             (list Z) ref_set_bits ref_tpi_program_enable ref_part
             (world0 idle []) in
  fst r = Ret (-1)
  /\ attempts (driver_events (trace (snd r))) = 4%nat
  /\ reset_pulses (driver_events (trace (snd r))) = 4%nat
  /\ reset_pulses (driver_events (trace (snd r))) <> 3%nat
  /\ rising_edges default_pins PIN_AVR_RESET false
       (wire_bytes (trace (snd r))) = 4%nat.
Proof.
  vm_compute. split; [ reflexivity | ]. split; [ reflexivity | ].
  split; [ reflexivity | ]. split; [ discriminate | reflexivity ].
Qed.

(** C4 (amended): for an ISP part with a program-enable opcode, RESET wired
    and a cooperative transport, program enable returns; it makes at most
    four attempts, returns 0 at the first attempt whose response byte at
    [pollindex - 1] equals [pollvalue] and -1 when all four attempts fail;
    every failed attempt, the fourth included, is followed by one RESET
    pulse, so that the number of pulses equals the number of failed
    attempts: four when it returns -1. *)
Theorem program_enable_attempts {T} {tr : FtdiTransport T} (pin : pinmap)
        (fuel : nat) {OPCODE : Type}
        (avr_set_bits : OPCODE -> list Z -> list Z)
        (avr_tpi_program_enable : AVRPART OPCODE -> Z -> M T Z)
        (p : AVRPART OPCODE) (op : OPCODE) (w : world T) :
  cooperative tr -> (128 <= fuel)%nat -> settled w ->
  mask0 (pin PIN_AVR_RESET) <> 0 ->
  is_tpi p = false -> op_PGM_ENABLE p = Some op ->
  let cmd := avr_set_bits op [0; 0; 0; 0] in
  exists rc w' fails,
    ft245r_program_enable pin fuel avr_set_bits avr_tpi_program_enable p w
    = (Ret rc, w')
    /\ Forall (fun res => ~ acknowledged p res) fails
    /\ ((rc = 0 /\ (length fails < 4)%nat
         /\ exists res,
              acknowledged p res
              /\ driver_events (trace w') =
                 driver_events (trace w)
                 ++ flat_map (failed_round cmd) fails ++ [EvCmd cmd res])
        \/ (rc = -1 /\ length fails = 4%nat
            /\ driver_events (trace w') =
               driver_events (trace w) ++ flat_map (failed_round cmd) fails))
    /\ reset_pulses (driver_events (trace w')) =
       (reset_pulses (driver_events (trace w)) + length fails)%nat.
Proof.
  intros coop enough Hs Hm Htpi Hop cmd.
  unfold ft245r_program_enable. rewrite Htpi, Hop. fold cmd.
  destruct (program_enable_loop_total pin p fuel cmd 4 0 w coop enough
              eq_refl Hs) as (rc & w' & E).
  pose proof (program_enable_loop_trace pin p fuel cmd 4 0 w Hm) as Ht.
  cbn zeta in Ht. rewrite E in Ht. cbn [fst snd] in Ht.
  destruct Ht as (fails & Hf & Hcase).
  exists rc, w', fails. split; [ exact E | ]. split; [ exact Hf | ].
  split; [ exact Hcase | ].
  destruct Hcase as [(_ & _ & res & _ & Hev) | (_ & _ & Hev)]; rewrite Hev.
  - rewrite !reset_pulses_app, reset_pulses_failed_rounds.
    cbn. lia.
  - rewrite reset_pulses_app, reset_pulses_failed_rounds. reflexivity.
Qed.

Lemma program_enable_attempts_witness :
  cooperative mute_device /\ (128 <= 128)%nat /\ settled (world0 idle [])
  /\ mask0 (default_pins PIN_AVR_RESET) <> 0
  /\ is_tpi ref_part = false
  /\ op_PGM_ENABLE ref_part = Some [172; 83; 0; 0]
  /\ exists rc w',
       @ft245r_program_enable bitbang mute_device default_pins 128 (list Z)
         ref_set_bits ref_tpi_program_enable ref_part (world0 idle [])
       = (Ret rc, w').
Proof.
  assert (Hm : mask0 (default_pins PIN_AVR_RESET) <> 0) by (cbn; lia).
  split; [ apply eager_cooperative | ]. split; [ apply le_n | ].
  split; [ apply world0_settled | ]. split; [ exact Hm | ].
  split; [ reflexivity | ]. split; [ reflexivity | ].
  destruct (@program_enable_attempts bitbang mute_device default_pins 128
              (list Z) ref_set_bits ref_tpi_program_enable ref_part
              [172; 83; 0; 0] (world0 idle []) (eager_cooperative _)
              (le_n 128) (world0_settled idle []) Hm eq_refl eq_refl)
    as (rc & w' & fails & E & _).
  exists rc, w'. exact E.
Defined.

(** ** Open *)




Example parse_port_cases :
  map (parse_port "sn")
      ["usb:"; "usb:ft0"; "usb:ft12"; "usb:A6008isP"; "usb:A6008isPxyz";
       "/dev/ttyUSB0"; "usb:ft"; "usb:ft-1"]%string
  = [(0, ""); (0, "sn"); (12, "sn"); (0, "A6008isP"); (0, "A6008isP");
     (0, ""); (-1, "sn"); (-1, "sn")]%string.
Proof. vm_compute. reflexivity. Qed.

(** ** Paged operations *)

(** C6: with [n_bytes = 0] paged write and paged load return 0 and leave
    the session, the device and the trace as they were; for a memory that
    is neither flash nor EEPROM they return -2, again without touching
    anything; whenever paged write returns, its result is [n_bytes] or
    negative; and on flash, with a cooperative transport and a session at
    rest, both do return. *)
Theorem paged_edge_cases {T} {tr : FtdiTransport T} (pin : pinmap)
        (fuel : nat) {OPCODE : Type}
        (avr_set_bits : OPCODE -> list Z -> list Z)
        (avr_set_addr avr_set_input : OPCODE -> list Z -> Z -> list Z)
        (avr_write_page : AVRMEM OPCODE -> Z -> M T Z)
        (avr_write_byte_default : AVRMEM OPCODE -> Z -> Z -> M T Z)
        (avr_read_byte_default : AVRMEM OPCODE -> Z -> M T (Z * Z))
        (m : AVRMEM OPCODE) (page_size addr n_bytes : Z) (w : world T) :
  0 <= n_bytes < 2 ^ 32 ->
  let write := ft245r_paged_write pin fuel avr_set_bits avr_set_addr
                 avr_set_input avr_write_page avr_write_byte_default
                 m page_size addr n_bytes in
  let load := ft245r_paged_load pin fuel avr_set_bits avr_set_addr
                avr_read_byte_default m page_size addr n_bytes in
  (n_bytes = 0 -> write w = (Ret 0, w) /\ load w = (Ret 0, w))
  /\ (n_bytes <> 0 -> mem_is_flash m = false -> mem_is_eeprom m = false ->
      write w = (Ret (-2), w) /\ load w = (Ret (-2), w))
  /\ (forall rc w', write w = (Ret rc, w') -> rc = n_bytes \/ rc < 0)
  /\ (cooperative tr -> (128 <= fuel)%nat -> at_rest w ->
      (forall a, total at_rest (avr_write_page m a) (fun _ => at_rest)) ->
      mem_is_flash m = true ->
      (exists rc w', write w = (Ret rc, w') /\ (rc = n_bytes \/ rc < 0))
      /\ (exists rc w', load w = (Ret rc, w') /\ rc <= 0)).
Proof.
  intros Hn write load.
  assert (Hyield : forall rc w', write w = (Ret rc, w') -> rc = n_bytes \/ rc < 0).
  { intros rc w' E.
    exact (paged_write_yields pin fuel avr_set_bits avr_set_addr avr_set_input
             avr_write_page avr_write_byte_default m page_size addr n_bytes
             Hn w rc w' E). }
  split; [ | split; [ | split ] ].
  - intros H0. subst n_bytes write load.
    unfold ft245r_paged_write, ft245r_paged_load. cbn [Z.eqb].
    split; reflexivity.
  - intros Hnz Hf He. subst write load.
    unfold ft245r_paged_write, ft245r_paged_load.
    destruct (Z.eqb_spec n_bytes 0); [ contradiction | ].
    rewrite Hf, He. split; reflexivity.
  - exact Hyield.
  - intros coop enough Hrest Hpage Hflash. split.
    + assert (Hret : returns write w).
      { subst write. unfold ft245r_paged_write.
        destruct (n_bytes =? 0); [ exists 0, w; reflexivity | ].
        rewrite Hflash.
        destruct (paged_write_flash_total pin fuel coop enough avr_set_bits
                    avr_set_addr avr_set_input avr_write_page m Hpage
                    page_size addr n_bytes w Hrest) as (rc & w' & E & _).
        exists rc, w'. exact E. }
      destruct Hret as (rc & w' & E). exists rc, w'.
      split; [ exact E | exact (Hyield rc w' E) ].
    + subst load. unfold ft245r_paged_load.
      destruct (n_bytes =? 0); [ exists 0, w; split; [ reflexivity | lia ] | ].
      rewrite Hflash.
      destruct (paged_load_flash_total pin fuel coop enough avr_set_bits
                  avr_set_addr m page_size addr n_bytes w Hrest)
        as (rc & w' & E & _ & Hrc).
      exists rc, w'. split; [ exact E | lia ].
Qed.

Lemma paged_edge_cases_witness :
  0 <= 0 < 2 ^ 32
  /\ @ft245r_paged_write bitbang echo_device default_pins 128 (list Z)
       ref_set_bits ref_set_addr ref_set_input
       (@ref_commit bitbang echo_device default_pins 128) ref_write_byte
       ref_flash 128 0 0 (world0 idle []) = (Ret 0, world0 idle [])
  /\ @ft245r_paged_load bitbang echo_device default_pins 128 (list Z)
       ref_set_bits ref_set_addr ref_read_byte
       ref_flash 128 0 0 (world0 idle []) = (Ret 0, world0 idle []).
Proof.
  assert (Hn : 0 <= 0 < 2 ^ 32) by lia.
  split; [ exact Hn | ].
  exact (proj1 (@paged_edge_cases bitbang echo_device default_pins 128 (list Z)
                  ref_set_bits ref_set_addr ref_set_input
                  (@ref_commit bitbang echo_device default_pins 128)
                  ref_write_byte ref_read_byte ref_flash 128 0 0
                  (world0 idle []) Hn) eq_refl).
Defined.

(** ** TPI *)

(** C7: for every byte in [0, 256), with SDO and SCK wired apart, the TPI
    encoder emits twelve bits as twenty-four bytes, each bit as a pair with
    SCK low then high and SDO held: a start bit 0, the eight bits of the
    byte from the least significant one, a parity bit that makes the number
    of ones among data and parity even, and two stop bits 1. *)
Theorem tpi_frame_layout pin out byte :
  wired pin PIN_AVR_SDO -> wired pin PIN_AVR_SCK ->
  separate pin PIN_AVR_SCK PIN_AVR_SDO ->
  0 <= byte < 256 ->
  let buf := snd (set_tpi_data pin out byte) in
  let data := bits_lsb byte in
  let frame := false :: data ++ [parity_of data; true; true] in
  length frame = 12%nat
  /\ length buf = 24%nat
  /\ levels pin PIN_AVR_SDO buf = clock_pairs frame
  /\ levels pin PIN_AVR_SCK buf = clock_edges frame
  /\ value_lsb data = byte
  /\ Nat.even (ones (data ++ [parity_of data])) = true.
Proof.
  intros Hsdo Hsck Hsep Hb buf data frame. subst buf data frame.
  rewrite set_tpi_data_add_bits.
  split; [ reflexivity | ].
  split; [ rewrite add_bits_length; reflexivity | ].
  split; [ rewrite add_bits_levels_sdo by assumption; reflexivity | ].
  split; [ rewrite add_bits_levels_sck by assumption; reflexivity | ].
  split; [ apply value_lsb_bits; assumption | apply even_parity; assumption ].
Qed.

Lemma tpi_frame_layout_witness :
  wired default_pins PIN_AVR_SDO /\ wired default_pins PIN_AVR_SCK /\
  separate default_pins PIN_AVR_SCK PIN_AVR_SDO /\ 0 <= 128 < 256 /\
  levels default_pins PIN_AVR_SDO (snd (set_tpi_data default_pins 0 128)) =
  clock_pairs [false; false; false; false; false; false; false; false; true;
               true; true; true].
Proof.
  assert (Hw : wired default_pins PIN_AVR_SDO) by (unfold wired; cbn; lia).
  assert (Hc : wired default_pins PIN_AVR_SCK) by (unfold wired; cbn; lia).
  assert (Hs : separate default_pins PIN_AVR_SCK PIN_AVR_SDO) by reflexivity.
  assert (Hb : 0 <= 128 < 256) by lia.
  split; [ exact Hw | ]. split; [ exact Hc | ]. split; [ exact Hs | ].
  split; [ exact Hb | ].
  exact (proj1 (proj2 (proj2 (tpi_frame_layout default_pins 0 128 Hw Hc Hs Hb)))).
Defined.

(** C8: [ft245r_tpi_rx] exchanges two encoded bytes, samples the sixteen SDI
    bits of the echo (the second byte of each pair) and returns 0 with the
    data byte exactly when they hold a frame: the first zero bit within the
    first four positions, then eight data bits from the least significant
    one, a parity bit equal to their parity, and two stop bits 1; otherwise
    it returns -1 and the byte at [bytep] stays as it was.  With a
    cooperative transport the exchange returns. *)
Theorem tpi_rx_framing {T} {tr : FtdiTransport T} (pin : pinmap) (fuel : nat)
        (bytep : Z) (w : world T) :
  ft245r_tpi_rx pin fuel bytep w =
  match tpi_rx_exchange pin fuel w with
  | (Ret buf, w') =>
      (Ret (match tpi_frame (tpi_sample pin buf) with
            | Some d => (0, d)
            | None => (-1, bytep)
            end), w')
  | (Hang, w') => (Hang, w')
  end
  /\ (forall buf k,
         0 <= k < 16 ->
         Z.testbit (tpi_sample pin buf) k =
         truthy (GET_BITS_0 (rd buf (2 * k + 1)) pin PIN_AVR_SDI))
  /\ (cooperative tr -> (128 <= fuel)%nat -> settled w ->
      exists r w', ft245r_tpi_rx pin fuel bytep w = (Ret r, w')).
Proof.
  split; [ | split ].
  - rewrite tpi_rx_unfold.
    destruct (tpi_rx_exchange pin fuel w) as [[buf|] w']; [ | reflexivity ].
    rewrite tpi_rx_decode_frame; [ reflexivity | ].
    exact (proj1 (tpi_sample_bits pin buf)).
  - intros buf k Hk. exact (proj2 (tpi_sample_bits pin buf) k Hk).
  - intros coop enough Hs. rewrite tpi_rx_unfold.
    destruct (tpi_rx_exchange_total pin fuel w coop enough Hs)
      as (buf & w' & E & _).
    rewrite E. eexists. eexists. reflexivity.
Qed.

Lemma tpi_rx_framing_witness :
  cooperative echo_device /\ (128 <= 128)%nat /\ settled (world0 idle [])
  /\ exists r w',
       @ft245r_tpi_rx bitbang echo_device default_pins 128 0 (world0 idle [])
       = (Ret r, w').
Proof.
  split; [ apply eager_cooperative | ]. split; [ apply le_n | ].
  split; [ apply world0_settled | ].
  exact (proj2 (proj2 (@tpi_rx_framing bitbang echo_device default_pins 128 0
                         (world0 idle [])))
               (eager_cooperative _) (le_n 128) (world0_settled idle [])).
Defined.

(** Sampled bits with the start bit at position 1 and the data byte 128:
    accepted; with the parity bit flipped, without a start bit, with the
    start bit at position 4 or with a stop bit low: refused, and the byte
    at [bytep] is kept. *)
Example tpi_rx_decode_cases :
  tpi_rx_decode 65025 7 = (0, 128)
  /\ tpi_rx_decode 64001 7 = (-1, 7)
  /\ tpi_rx_decode 65535 7 = (-1, 7)
  /\ tpi_rx_decode 65519 7 = (-1, 7)
  /\ tpi_rx_decode 60929 7 = (-1, 7).
Proof. vm_compute. repeat split; reflexivity. Qed.

(** With SDO strapped to SDI and kept high, no start bit comes back. *)
Example tpi_rx_idle_line :
  fst (@ft245r_tpi_rx bitbang echo_device default_pins 128 42 (world0 idle []))
  = Ret (-1, 42).
Proof. vm_compute. reflexivity. Qed.

(** ** ISP command *)

(** C9: [ft245r_cmd] encodes the four command bytes into 64 bus bytes and
    one trailing byte, 0: on wired pins the SDO levels of the 64 bytes are
    the 32 command bits, first byte first and most significant bit first,
    each on two bytes in a row, the first with SCK low and the second with
    SCK high.  Whenever it returns it returns 0, having sent these 65
    bytes with [ft245r_send] and received 65 bytes into the same buffer
    with [ft245r_recv], whatever these two returned; the four response
    bytes are decoded from the buffer [ft245r_recv] left, byte [k] from the
    SDI levels of the cells 2, 4, .., 16 after offset [k] times 16.  It
    returns 0 when every transport read and write reports an error, the
    results then being decoded, when the ring is empty, from the frame
    that was to be sent; and it returns 0 when the transport is
    cooperative.  On a device that answers every byte written with the
    pins it sampled, the results are decoded from the device's 65 answers
    to the frame. *)
Theorem cmd_never_fails {T} {tr : FtdiTransport T} (pin : pinmap)
        (fuel : nat) (cmd : list Z) (w : world T) :
  (exists enc w1,
      cmd_encode pin cmd w = (Ret (enc ++ [0]), w1)
      /\ length enc = 64%nat
      /\ (wired pin PIN_AVR_SDO -> wired pin PIN_AVR_SCK ->
          separate pin PIN_AVR_SCK PIN_AVR_SDO ->
          levels pin PIN_AVR_SDO enc
          = clock_pairs
              (flat_map bits_msb [rd cmd 0; rd cmd 1; rd cmd 2; rd cmd 3])
          /\ levels pin PIN_AVR_SCK enc
             = clock_edges
                 (flat_map bits_msb [rd cmd 0; rd cmd 1; rd cmd 2; rd cmd 3]))
      /\ (forall rc res w',
             ft245r_cmd pin fuel cmd w = (Ret (rc, res), w') ->
             rc = 0
             /\ exists r2 w2 r3 buf' w3,
                  ft245r_send fuel (enc ++ [0]) w1 = (Ret r2, w2)
                  /\ ft245r_recv fuel (enc ++ [0]) 65 w2 = (Ret (r3, buf'), w3)
                  /\ res = map (extract_data pin buf') [0; 1; 2; 3]
                  /\ res = map (fun k =>
                                  value_msb
                                    (map (fun j =>
                                            truthy (GET_BITS_0
                                                      (rd buf' (k * 16 + j))
                                                      pin PIN_AVR_SDI))
                                         sample_cells))
                               [0; 1; 2; 3]
                  /\ drv w' = drv w3 /\ dev w' = dev w3
                  /\ trace w' = trace w3 ++ [EvCmd cmd res])
      /\ (faulty tr -> (1 <= fuel)%nat ->
          rx_len (drv w) = 0 -> 0 <= rx_discard (drv w) ->
          exists w',
            ft245r_cmd pin fuel cmd w
            = (Ret (0, map (extract_data pin (enc ++ [0])) [0; 1; 2; 3]), w')))
  /\ (faulty tr -> (1 <= fuel)%nat ->
      exists res w', ft245r_cmd pin fuel cmd w = (Ret (0, res), w'))
  /\ (cooperative tr -> (128 <= fuel)%nat -> settled w ->
      exists res w', ft245r_cmd pin fuel cmd w = (Ret (0, res), w'))
  /\ (forall (respond : Z -> Z) (wb : world bitbang),
         (128 <= fuel)%nat -> clear wb ->
         credit (drv wb) + 65 <= FT245R_BUFSIZE ->
         exists enc w1 w',
           cmd_encode pin cmd wb = (Ret (enc ++ [0]), w1)
           /\ @ft245r_cmd bitbang (eager_transport respond) pin fuel cmd wb
              = (Ret (0, map (extract_data pin
                                (byte_list
                                   (snd (bb_clock respond
                                           (pins_due respond wb)
                                           (byte_list (enc ++ [0]))))))
                             [0; 1; 2; 3]), w')).
Proof.
  split; [ | split; [ | split ] ].
  - pose proof (cmd_encode_frame pin cmd w) as E. unfold cmd_frame in E.
    set (xs := [rd cmd 0; rd cmd 1; rd cmd 2; rd cmd 3]) in *.
    assert (Hl : length (snd (set_data_all pin (ft245r_out (drv w)) xs))
                 = 64%nat)
      by (rewrite set_data_all_length; reflexivity).
    eexists. eexists. split; [ exact E | ]. split; [ exact Hl | ].
    split; [ | split ].
    + intros Ho Hk Hs.
      rewrite set_data_all_levels, set_data_all_levels_sck by assumption.
      split; reflexivity.
    + intros rc res w' Er.
      destruct (cmd_steps pin fuel cmd w _ _ rc res w' E Hl Er)
        as (Hrc & r2 & w2 & r3 & buf' & w3 & E2 & E3 & Hres & Hd & Hv & _ & Ht).
      split; [ exact Hrc | ].
      exists r2, w2, r3, buf', w3.
      split; [ exact E2 | ]. split; [ exact E3 | ]. split; [ exact Hres | ].
      split; [ | split; [ exact Hd | split; [ exact Hv | exact Ht ] ] ].
      rewrite Hres. cbn [map]. rewrite !extract_data_value. reflexivity.
    + intros bad some_fuel Hr Hd.
      exact (cmd_faulty_frame bad pin fuel some_fuel cmd w Hr Hd).
  - intros bad some_fuel. exact (cmd_faulty pin bad fuel some_fuel cmd w).
  - intros coop enough Hs.
    destruct (cmd_total pin fuel cmd w coop enough Hs) as (res & w' & E & _).
    exists res, w'. exact E.
  - intros respond wb enough Hc Hroom.
    destruct (@cmd_eager pin respond (eager_transport respond) eq_refl fuel
                enough cmd wb Hc Hroom) as (w' & E & _).
    pose proof (cmd_encode_frame pin cmd wb) as Ee.
    eexists. eexists. exists w'. split; [ exact Ee | exact E ].
Qed.

Lemma cmd_never_fails_witness :
  (faulty failing_transport /\ (1 <= 1)%nat
   /\ exists res w',
        @ft245r_cmd unit failing_transport default_pins 1 [172; 83; 0; 0]
          (world0 tt []) = (Ret (0, res), w'))
  /\ ((128 <= 128)%nat /\ clear (world0 idle [])
      /\ credit (drv (world0 idle [])) + 65 <= FT245R_BUFSIZE
      /\ exists res w',
           @ft245r_cmd bitbang echo_device default_pins 128 [172; 83; 0; 0]
             (world0 idle []) = (Ret (0, res), w')).
Proof.
  assert (Hc : clear (world0 idle []))
    by (split; [ apply world0_tidy | reflexivity ]).
  assert (Hroom : credit (drv (world0 idle [])) + 65 <= FT245R_BUFSIZE)
    by (vm_compute; discriminate).
  split.
  - split; [ apply failing_faulty | ]. split; [ apply le_n | ].
    exact (proj1 (proj2 (@cmd_never_fails unit failing_transport
                           default_pins 1 [172; 83; 0; 0] (world0 tt [])))
                 failing_faulty (le_n 1)).
  - split; [ apply le_n | ]. split; [ exact Hc | ]. split; [ exact Hroom | ].
    destruct (proj2 (proj2 (proj2 (@cmd_never_fails bitbang echo_device
                                     default_pins 128 [172; 83; 0; 0]
                                     (world0 idle []))))
                    (loopback default_pins) (world0 idle []) (le_n 128)
                    Hc Hroom) as (enc & w1 & w' & _ & E).
    eexists. exists w'. exact E.
Defined.

Example cmd_echo_run :
  fst (@ft245r_cmd bitbang echo_device default_pins 128 [172; 83; 0; 0]
         (world0 idle []))
  = Ret (0, [172; 83; 0; 0]).
Proof. vm_compute. reflexivity. Qed.

(** ** Pins *)

(** C10: [set_pin] on a logical pin whose mask is zero returns 0 and leaves
    the world as it was: the output byte, the TX buffer and its length, the
    discard counter, the device and the trace of transport calls are
    unchanged. *)
Theorem set_pin_zero_mask {T} {tr : FtdiTransport T} (pin : pinmap)
        (fuel : nat) (name : pinname) (val : Z) (w : world T) :
  mask0 (pin name) = 0 ->
  let r := set_pin pin fuel name val w in
  fst r = Ret 0
  /\ snd r = w
  /\ ft245r_out (drv (snd r)) = ft245r_out (drv w)
  /\ tx_buf (drv (snd r)) = tx_buf (drv w)
  /\ tx_len (drv (snd r)) = tx_len (drv w)
  /\ rx_discard (drv (snd r)) = rx_discard (drv w)
  /\ dev (snd r) = dev w
  /\ trace (snd r) = trace w.
Proof.
  intros Hm r. subst r. rewrite (set_pin_unwired pin fuel name val w Hm).
  cbn [fst snd]. repeat split; reflexivity.
Qed.

Lemma set_pin_zero_mask_witness :
  mask0 (default_pins PIN_LED_RDY) = 0
  /\ fst (@set_pin bitbang echo_device default_pins 128 PIN_LED_RDY ON
            (world0 idle [])) = Ret 0.
Proof.
  split; [ reflexivity | ].
  exact (proj1 (@set_pin_zero_mask bitbang echo_device default_pins 128
                  PIN_LED_RDY ON (world0 idle []) eq_refl)).
Defined.

(** * Further properties of the driver

    ** Receive ring *)

(** X1: the receive ring is a queue.  In a ring that satisfies its
    invariant and has room for the bytes [l], [ft245r_rx_buf_put] of each
    byte of [l] followed by as many [ft245r_rx_buf_get] as the ring holds
    yields first what was in the ring and then the bytes of [l], in the
    order they were put, across the wrap at the end of the array; the ring
    is empty afterwards and the invariant holds throughout. *)
Theorem rx_buf_fifo (p : pdata) (l : list Z) :
  ring_ok p -> rx_len p + Z.of_nat (length l) <= FT245R_BUFSIZE ->
  let p' := fold_left ft245r_rx_buf_put l p in
  let n := Z.to_nat (rx_len p) in
  ring_ok p'
  /\ rx_len p' = rx_len p + Z.of_nat (length l)
  /\ fst (rx_buf_gets (n + length l) p') = fst (rx_buf_gets n p) ++ byte_list l
  /\ ring_ok (snd (rx_buf_gets (n + length l) p'))
  /\ rx_len (snd (rx_buf_gets (n + length l) p')) = 0.
Proof.
  intros Hok Hroom p' n.
  destruct (ring_put_all l p Hok Hroom) as [Hok' Hc'].
  pose proof (put_fold_fields l p) as Hf. cbn zeta in Hf.
  destruct Hf as (_ & _ & _ & _ & _ & _ & _ & _ & Hlen).
  fold p' in Hok', Hc', Hlen.
  assert (Hn : 0 <= rx_len p) by (destruct Hok as (_ & _ & ? & _); lia).
  destruct (rx_buf_gets_spec (n + length l) p' Hok') as (Hg & Hok2 & _ & Hl2);
    [ subst n; lia | ].
  destruct (rx_buf_gets_spec n p Hok) as (Hg0 & _); [ subst n; lia | ].
  split; [ exact Hok' | ]. split; [ exact Hlen | ].
  split.
  - rewrite Hg, Hg0, Hc'.
    rewrite !firstn_all2.
    + rewrite byte_list_app, byte_list_idem. reflexivity.
    + rewrite ring_contents_length. subst n. lia.
    + rewrite length_app, ring_contents_length, byte_list_length. subst n. lia.
  - split; [ exact Hok2 | ]. rewrite Hl2, Hlen. subst n. lia.
Qed.

Lemma rx_buf_fifo_witness :
  let p := set_ring pdata0 1 0 8191 (rx_buf pdata0) in
  fst (rx_buf_gets 4 (fold_left ft245r_rx_buf_put [1; 2; 3] p))
  = fst (rx_buf_gets 1 p) ++ byte_list [1; 2; 3].
Proof.
  intros p.
  assert (Hok : ring_ok p).
  { unfold ring_ok, p, pdata0, FT245R_BUFSIZE.
    cbn [rx_buf rx_rd rx_len rx_wr set_ring]. rewrite repeat_length.
    split; [ reflexivity | ]. split; [ lia | ]. split; [ lia | reflexivity ]. }
  assert (Hroom : rx_len p + Z.of_nat (length [1; 2; 3]) <= FT245R_BUFSIZE)
    by (vm_compute; discriminate).
  exact (proj1 (proj2 (proj2 (rx_buf_fifo p [1; 2; 3] Hok Hroom)))).
Defined.

(** ** Transfers *)

(** X2: [ft245r_fill] asks the transport for exactly [rx.pending] bytes.
    When the transport reports an error the result is -1 and the driver's
    state is as before; when it delivers [nread] bytes, the result is
    [nread], [rx.pending] drops by [nread] and the bytes are appended to
    the ring in the order received. *)
Theorem fill_outcomes {T} {tr : FtdiTransport T} (w : world T)
        (nread : Z) (raw : list Z) (d' : T) :
  ftdi_read_data (dev w) (rx_pending (drv w)) = ((nread, raw), d') ->
  (nread < 0 ->
   exists w', ft245r_fill w = (Ret (-1), w') /\ drv w' = drv w /\ dev w' = d')
  /\ (0 <= nread -> ring_ok (drv w) ->
      rx_len (drv w) + nread <= FT245R_BUFSIZE ->
      exists w',
        ft245r_fill w = (Ret nread, w')
        /\ dev w' = d'
        /\ rx_pending (drv w') = rx_pending (drv w) - nread
        /\ ring_ok (drv w')
        /\ fst (rx_buf_gets (Z.to_nat (rx_len (drv w')) ) (drv w'))
           = fst (rx_buf_gets (Z.to_nat (rx_len (drv w))) (drv w))
             ++ byte_list (cells raw nread)
        /\ tx_len (drv w') = tx_len (drv w)
        /\ rx_discard (drv w') = rx_discard (drv w)).
Proof.
  intros E. destruct (fill_spec w nread raw d' E) as [Hneg Hpos]. split.
  - intros Hn. eexists. split; [ apply Hneg; exact Hn | ].
    split; reflexivity.
  - intros Hn Hok Hroom.
    destruct (Hpos Hn Hok Hroom) as (w' & E' & Hd & Hp & Hok' & Hc & Hfo).
    exists w'. split; [ exact E' | ]. split; [ exact Hd | ].
    split; [ exact Hp | ]. split; [ exact Hok' | ].
    destruct Hfo as (_ & Htl & _ & Hdi).
    split; [ | split; assumption ].
    assert (H0 : 0 <= rx_len (drv w)) by (destruct Hok as (_ & _ & ? & _); lia).
    assert (H1 : 0 <= rx_len (drv w')) by (destruct Hok' as (_ & _ & ? & _); lia).
    destruct (rx_buf_gets_spec (Z.to_nat (rx_len (drv w'))) (drv w') Hok')
      as (Hg & _); [ lia | ].
    destruct (rx_buf_gets_spec (Z.to_nat (rx_len (drv w))) (drv w) Hok)
      as (Hg0 & _); [ lia | ].
    rewrite Hg, Hg0, Hc, !firstn_all2.
    + rewrite byte_list_app, byte_list_idem. reflexivity.
    + rewrite ring_contents_length. lia.
    + rewrite <- Hc, ring_contents_length. lia.
Qed.

Lemma fill_outcomes_witness :
  let w := mkWorld (set_pending pdata0 2) (mkBitbang 0 [7; 8]) [] [] in
  exists w',
    @ft245r_fill bitbang echo_device w = (Ret 2, w')
    /\ dev w' = mkBitbang 0 []
    /\ rx_pending (drv w') = rx_pending (drv w) - 2
    /\ ring_ok (drv w')
    /\ fst (rx_buf_gets (Z.to_nat (rx_len (drv w'))) (drv w'))
       = fst (rx_buf_gets (Z.to_nat (rx_len (drv w))) (drv w))
         ++ byte_list (cells [7; 8] 2)
    /\ tx_len (drv w') = tx_len (drv w)
    /\ rx_discard (drv w') = rx_discard (drv w).
Proof.
  intros w.
  assert (E : @ftdi_read_data bitbang echo_device (dev w) (rx_pending (drv w))
              = ((2, [7; 8]), mkBitbang 0 [])) by reflexivity.
  assert (Hok : ring_ok (drv w)).
  { unfold ring_ok, w, pdata0, FT245R_BUFSIZE.
    cbn [drv rx_buf rx_rd rx_len rx_wr set_pending]. rewrite repeat_length.
    split; [ reflexivity | ]. split; [ lia | ]. split; [ lia | reflexivity ]. }
  assert (Hroom : rx_len (drv w) + 2 <= FT245R_BUFSIZE)
    by (vm_compute; discriminate).
  assert (Hpos : 0 <= 2) by lia.
  exact (proj2 (fill_outcomes w 2 [7; 8] (mkBitbang 0 []) E) Hpos Hok Hroom).
Defined.

(** X3: on a transport that completes every transfer, [ft245r_flush]
    returns 0 and hands the transport exactly the staged bytes
    [tx.buf[0 .. tx.len-1]], in order, however they are split into writes.
    It does not reset [tx.len] or touch [tx.buf]: a caller that flushes
    again without resetting sends the same bytes again. *)
Theorem flush_writes_staged {T} {tr : FtdiTransport T} (fuel : nat)
        (w : world T) :
  cooperative tr -> (128 <= fuel)%nat ->
  fifo_inv w -> 0 <= tx_len (drv w) <= FT245R_MIN_FIFO_SIZE ->
  0 <= rx_len (drv w) ->
  exists w',
    ft245r_flush fuel w = (Ret 0, w')
    /\ wire_bytes (since w w') = staged (drv w)
    /\ tx_len (drv w') = tx_len (drv w)
    /\ tx_buf (drv w') = tx_buf (drv w)
    /\ (exists w'',
          ft245r_flush fuel w' = (Ret 0, w'')
          /\ wire_bytes (since w w'') = staged (drv w) ++ staged (drv w)).
Proof.
  intros coop enough Hinv Htx Hrx.
  pose proof (flush_events coop fuel enough) as Hstep.
  destruct (Hstep w Hinv Htx Hrx) as (w' & evs & E & Hev & Hw & Hi' & Hfo & Hr').
  pose proof Hfo as (_ & Htl & Htb & _).
  exists w'. split; [ exact E | ].
  split; [ rewrite (since_app w w' evs Hev); exact Hw | ].
  split; [ exact Htl | ]. split; [ exact Htb | ].
  destruct (Hstep w' Hi') as (w'' & evs' & E' & Hev' & Hw' & _); [ lia | exact Hr' | ].
  exists w''. split; [ exact E' | ].
  rewrite (since_app w w'' (evs ++ evs')).
  - rewrite wire_bytes_app, Hw, Hw'. unfold staged. rewrite Htl, Htb. reflexivity.
  - rewrite Hev', Hev, app_assoc. reflexivity.
Qed.

Lemma flush_writes_staged_witness :
  let w := mkWorld (set_tx pdata0 3 [10; 20; 30]) idle [] [] in
  exists w',
    @ft245r_flush bitbang echo_device 128 w = (Ret 0, w')
    /\ wire_bytes (since w w') = staged (drv w)
    /\ tx_len (drv w') = tx_len (drv w)
    /\ tx_buf (drv w') = tx_buf (drv w)
    /\ (exists w'',
          @ft245r_flush bitbang echo_device 128 w' = (Ret 0, w'')
          /\ wire_bytes (since w w'') = staged (drv w) ++ staged (drv w)).
Proof.
  intros w.
  assert (Hinv : fifo_inv w).
  { unfold fifo_inv, w, FT245R_MIN_FIFO_SIZE. cbn [drv trace rx_pending set_tx pdata0].
    split; [ lia | constructor ]. }
  apply (@flush_writes_staged bitbang echo_device 128 w
           (eager_cooperative (loopback default_pins)));
    [ lia | exact Hinv | vm_compute; split; discriminate | vm_compute; discriminate ].
Defined.

(** X4: a write that the transport does not take in full ends
    [ft245r_flush] with -1 after that one write, of as many staged bytes
    as the device FIFO has room for: nothing more is written, [rx.pending]
    is not raised and the staged bytes stay staged. *)
Theorem flush_short_write_fails {T} {tr : FtdiTransport T} (fuel : nat)
        (w : world T) :
  short_writes tr -> (1 <= fuel)%nat ->
  0 < tx_len (drv w) -> 0 <= rx_pending (drv w) < FT245R_MIN_FIFO_SIZE ->
  let avail := Z.min (tx_len (drv w))
                     (FT245R_MIN_FIFO_SIZE - rx_pending (drv w)) in
  exists w' rv,
    ft245r_flush fuel w = (Ret (-1), w')
    /\ drv w' = drv w
    /\ rv <> avail
    /\ since w w'
       = [EvWrite (rx_pending (drv w)) (slice (tx_buf (drv w)) 0 avail) avail rv].
Proof.
  intros Hshort Hfuel Htx Hp avail.
  pose proof (flush_short_write fuel w Hshort Hfuel Htx Hp) as E.
  cbn zeta in E. fold avail in E.
  eexists _, _. split; [ exact E | ].
  cbn [drv]. split; [ reflexivity | ].
  split; [ apply Hshort; subst avail; lia | ].
  apply since_app. reflexivity.
Qed.

Lemma flush_short_write_fails_witness :
  let w := mkWorld (set_tx pdata0 3 (tx_buf pdata0)) tt [] [] in
  exists w' rv,
    @ft245r_flush unit failing_transport 1 w = (Ret (-1), w')
    /\ drv w' = drv w
    /\ rv <> 3
    /\ since w w' = [EvWrite 0 [0; 0; 0] 3 rv].
Proof.
  intros w.
  assert (Hs : short_writes failing_transport).
  { intros d data size Hsz. cbn [ftdi_write_data failing_transport fst]. lia. }
  apply (@flush_short_write_fails unit failing_transport 1 w Hs);
    [ lia | vm_compute; reflexivity | vm_compute; split; [ discriminate | reflexivity ] ].
Defined.

(** X5: on a transport that completes every transfer, [ft245r_send2]
    returns 0 and no byte is lost, repeated or reordered across the
    flushes it triggers: what the transport has been handed since the call,
    followed by what is still staged, is what was staged before followed by
    the bytes of [buf].  Fewer than [FT245R_MIN_FIFO_SIZE] bytes stay
    staged, and [rx.discard] is raised by the length of [buf] exactly when
    the echoes are to be dropped. *)
Theorem send2_in_order {T} {tr : FtdiTransport T} (fuel : nat)
        (buf : list Z) (discard_rx_data : bool) (w : world T) :
  cooperative tr -> (128 <= fuel)%nat -> ready w -> tx_ok (drv w) ->
  exists w',
    ft245r_send2 fuel buf discard_rx_data w = (Ret 0, w')
    /\ wire_bytes (since w w') ++ staged (drv w')
       = staged (drv w) ++ byte_list buf
    /\ 0 <= tx_len (drv w') < FT245R_MIN_FIFO_SIZE
    /\ rx_discard (drv w')
       = rx_discard (drv w)
         + (if discard_rx_data then Z.of_nat (length buf) else 0).
Proof.
  intros coop enough Hr Hok.
  destruct (send2_outbound coop fuel enough buf discard_rx_data w Hr Hok)
    as (w' & E & Hr' & _ & Hby & Hout & Hd & _).
  exists w'. split; [ exact E | ].
  destruct Hby as (_ & _ & _ & _ & _ & (evs & Hev & _)).
  split.
  - rewrite (since_app w w' evs Hev).
    unfold outbound in Hout. rewrite Hev, wire_bytes_app, <- !app_assoc in Hout.
    apply app_inv_head in Hout. exact Hout.
  - split; [ exact (proj1 (proj2 Hr')) | exact Hd ].
Qed.

Lemma send2_in_order_witness :
  let w := world0 idle [] in
  exists w',
    @ft245r_send2 bitbang echo_device 128 [1; 2; 3] true w = (Ret 0, w')
    /\ wire_bytes (since w w') ++ staged (drv w')
       = staged (drv w) ++ byte_list [1; 2; 3]
    /\ 0 <= tx_len (drv w') < FT245R_MIN_FIFO_SIZE
    /\ rx_discard (drv w') = rx_discard (drv w) + 3.
Proof.
  intros w.
  apply (@send2_in_order bitbang echo_device 128 [1; 2; 3] true w
           (eager_cooperative (loopback default_pins)));
    [ lia | exact (proj1 (world0_settled idle [])) | reflexivity ].
Defined.

(** X6: [ft245r_send2] returns 0 even when every read and write of the
    transport fails: the bytes of a failed flush are dropped without a
    trace in [rx.pending], while [rx.discard] has been raised for them. *)
Theorem send2_swallows_errors {T} {tr : FtdiTransport T} (fuel : nat)
        (buf : list Z) (discard_rx_data : bool) (w : world T) :
  faulty tr -> (1 <= fuel)%nat ->
  exists w',
    ft245r_send2 fuel buf discard_rx_data w = (Ret 0, w')
    /\ rx_pending (drv w') = rx_pending (drv w)
    /\ rx_len (drv w') = rx_len (drv w)
    /\ rx_discard (drv w')
       = rx_discard (drv w)
         + (if discard_rx_data then Z.of_nat (length buf) else 0).
Proof.
  intros bad some_fuel.
  exact (send2_faulty_drv bad fuel some_fuel buf discard_rx_data w).
Qed.

Lemma send2_swallows_errors_witness :
  let w := world0 tt [] in
  exists w',
    @ft245r_send2 unit failing_transport 1 (repeat 5 200) true w = (Ret 0, w')
    /\ rx_pending (drv w') = rx_pending (drv w)
    /\ rx_len (drv w') = rx_len (drv w)
    /\ rx_discard (drv w') = rx_discard (drv w) + Z.of_nat (length (repeat 5 200)).
Proof.
  intros w.
  apply (@send2_swallows_errors unit failing_transport 1 (repeat 5 200) true w
           failing_faulty).
  lia.
Defined.

(** X7: [ft245r_recv] on a device that answers every byte written with the
    pins it sampled just before.  With the driver's bookkeeping in step
    with the device, [rx.discard + len] echoes owed and room for them in
    the ring, the call returns 0 and stores in [buf], of the echoes owed
    in their order, the [len] ones after the first [rx.discard]; the cells
    of [buf] beyond [len] keep their content, [rx.discard] is 0 afterwards
    and the remaining echoes stay owed. *)
Theorem recv_returns_echoes (respond : Z -> Z) (fuel : nat)
        (buf : list Z) (len : Z) (w : world bitbang) :
  (128 <= fuel)%nat -> tidy w ->
  0 <= rx_discard (drv w) -> 0 <= len ->
  rx_discard (drv w) + len <= credit (drv w) ->
  let got := byte_list (firstn (Z.to_nat len)
                          (skipn (Z.to_nat (rx_discard (drv w)))
                                 (echo_due respond w))) in
  exists w',
    @ft245r_recv bitbang (eager_transport respond) fuel buf len w
    = (Ret (0, got ++ skipn (length got) buf), w')
    /\ length got = Z.to_nat len
    /\ tidy w'
    /\ echo_due respond w'
       = skipn (Z.to_nat (rx_discard (drv w) + len)) (echo_due respond w)
    /\ rx_discard (drv w') = 0
    /\ tx_len (drv w') = 0.
Proof.
  intros enough Ht Hd Hlen Hcr got.
  destruct (@recv_eager respond (eager_transport respond) eq_refl fuel enough
              buf len w Ht Hd Hlen Hcr)
    as (w' & E & Ht' & _ & He & _ & Hd' & Htx' & _).
  exists w'. split; [ exact E | ].
  split.
  { subst got. rewrite byte_list_length, length_firstn, length_skipn.
    rewrite (echo_due_length respond w Ht). lia. }
  split; [ exact Ht' | ]. split; [ exact He | ]. split; assumption.
Qed.

Lemma recv_returns_echoes_witness :
  let w := mkWorld (set_discard (set_pending pdata0 3) 1)
                   (mkBitbang 0 [11; 12; 13]) [] [] in
  exists w',
    @ft245r_recv bitbang (eager_transport (loopback default_pins)) 128
                 [0; 0; 0; 0] 2 w
    = (Ret (0, [12; 13; 0; 0]), w')
    /\ length [12; 13] = Z.to_nat 2
    /\ tidy w'
    /\ echo_due (loopback default_pins) w' = []
    /\ rx_discard (drv w') = 0
    /\ tx_len (drv w') = 0.
Proof.
  intros w.
  assert (Ht : tidy w).
  { split; [ reflexivity | ].
    split; [ split; [ split; [ vm_compute; split; discriminate | constructor ]
                    | vm_compute; repeat split; discriminate ] | ].
    split; [ | split; [ reflexivity | vm_compute; discriminate ] ].
    unfold ring_ok, w, pdata0, FT245R_BUFSIZE.
    cbn [drv rx_buf rx_rd rx_len rx_wr set_pending set_discard].
    rewrite repeat_length.
    split; [ reflexivity | ]. split; [ lia | ]. split; [ lia | reflexivity ]. }
  apply (recv_returns_echoes (loopback default_pins) 128 [0; 0; 0; 0] 2 w);
    [ lia | exact Ht | vm_compute; discriminate | lia
    | vm_compute; discriminate ].
Defined.

(** X8: when every read and write of the transport fails and the ring is
    empty, [ft245r_recv] returns -1 as soon as it needs a byte, to drop or
    to store; the caller's buffer and [rx.discard] are as before. *)
Theorem recv_gives_up {T} {tr : FtdiTransport T} (fuel : nat)
        (buf : list Z) (len : Z) (w : world T) :
  faulty tr -> (1 <= fuel)%nat ->
  rx_len (drv w) = 0 -> 0 <= rx_discard (drv w) -> 0 <= len ->
  0 < rx_discard (drv w) + len ->
  exists w', ft245r_recv fuel buf len w = (Ret (-1, buf), w')
             /\ rx_discard (drv w') = rx_discard (drv w).
Proof.
  intros bad some_fuel Hempty Hd Hlen Hneed.
  exact (recv_faulty_drv bad fuel some_fuel buf len w Hempty Hd Hlen Hneed).
Qed.

Lemma recv_gives_up_witness :
  let w := world0 tt [] in
  exists w', @ft245r_recv unit failing_transport 1 [9; 9] 2 w
             = (Ret (-1, [9; 9]), w')
             /\ rx_discard (drv w') = rx_discard (drv w).
Proof.
  intros w.
  apply (@recv_gives_up unit failing_transport 1 [9; 9] 2 w failing_faulty);
    [ lia | reflexivity | vm_compute; discriminate | lia | vm_compute; reflexivity ].
Defined.

(** ** Commands and pins on a device *)

(** X9: [ft245r_cmd] through a device whose SDI is strapped to SDO, with
    SDO and SDI wired and SCK apart from SDO: the four result bytes are the
    four command bytes.  All echoes owed before the call being marked for
    dropping, the call consumes them and its own 65, and leaves nothing
    owed. *)
Theorem cmd_through_loopback (pin : pinmap) (fuel : nat) (cmd : list Z)
        (w : world bitbang) :
  wired pin PIN_AVR_SDO -> wired pin PIN_AVR_SDI ->
  separate pin PIN_AVR_SCK PIN_AVR_SDO ->
  (128 <= fuel)%nat ->
  clear w -> credit (drv w) + 65 <= FT245R_BUFSIZE ->
  exists w',
    @ft245r_cmd bitbang (eager_transport (loopback pin)) pin fuel cmd w
    = (Ret (0, [rd cmd 0 mod 256; rd cmd 1 mod 256;
                rd cmd 2 mod 256; rd cmd 3 mod 256]), w')
    /\ clear w' /\ credit (drv w') = 0.
Proof.
  intros Ho Hi Hs enough Hc Hroom.
  destruct (@cmd_eager pin (loopback pin) (eager_transport (loopback pin))
              eq_refl fuel enough cmd w Hc Hroom)
    as (w' & E & Hc' & Hcr' & _).
  exists w'. rewrite cmd_frame_loopback in E by assumption.
  split; [ exact E | ]. split; assumption.
Qed.

Lemma cmd_through_loopback_witness :
  exists w',
    @ft245r_cmd bitbang (eager_transport (loopback default_pins)) default_pins
                128 [172; 83; 0; 0] (world0 idle [])
    = (Ret (0, [172 mod 256; 83 mod 256; 0 mod 256; 0 mod 256]), w')
    /\ clear w' /\ credit (drv w') = 0.
Proof.
  destruct default_pins_wired as (Ho & _ & Hi & _ & Hs).
  apply (cmd_through_loopback default_pins 128 [172; 83; 0; 0] (world0 idle [])
           Ho Hi Hs);
    [ lia | split; [ apply world0_tidy | reflexivity ] | vm_compute; discriminate ].
Defined.

(** X10: [ft245r_cmd] on any device that answers every byte written with
    the pins it sampled just before: the results are decoded from the
    device's answers to the 65 bytes of the frame, the first answer being
    for the pins as they were before the frame.  The last byte of the
    frame is 0, so the call leaves every pin of the device at 0 while
    [ft245r_out] keeps the levels of the last encoded bit; nothing is
    staged or owed afterwards, and the only driver action recorded is the
    command. *)
Theorem cmd_on_device (pin : pinmap) (respond : Z -> Z) (fuel : nat)
        (cmd : list Z) (w : world bitbang) :
  (128 <= fuel)%nat ->
  clear w -> credit (drv w) + 65 <= FT245R_BUFSIZE ->
  let frame := cmd_frame pin (ft245r_out (drv w)) cmd in
  let echo := byte_list (snd (bb_clock respond (pins_due respond w)
                                       (byte_list frame))) in
  let res := map (extract_data pin echo) [0; 1; 2; 3] in
  exists w',
    @ft245r_cmd bitbang (eager_transport respond) pin fuel cmd w
    = (Ret (0, res), w')
    /\ bb_pins (dev w') = 0
    /\ ft245r_out (drv w')
       = fst (set_data_all pin (ft245r_out (drv w))
                [rd cmd 0; rd cmd 1; rd cmd 2; rd cmd 3])
    /\ tx_len (drv w') = 0 /\ rx_pending (drv w') = 0 /\ rx_len (drv w') = 0
    /\ rx_discard (drv w') = 0
    /\ driver_events (since w w') = [EvCmd cmd res].
Proof.
  intros enough Hc Hroom frame echo res.
  destruct (@cmd_eager pin respond (eager_transport respond) eq_refl fuel enough
              cmd w Hc Hroom)
    as (w' & E & (Ht' & Hdc') & Hcr' & Hp' & Ho' & (evs & Hev & Hde)).
  exists w'. split; [ exact E | ].
  destruct Ht' as (Hl' & (( Hpe' & _) & Htx' & Hrx') & _).
  unfold credit in Hcr'.
  assert (Hz : tx_len (drv w') = 0 /\ rx_pending (drv w') = 0
               /\ rx_len (drv w') = 0) by lia.
  destruct Hz as (Z1 & Z2 & Z3).
  split.
  { unfold pins_due, staged in Hp'. rewrite Z1 in Hp'.
    cbn [Z.to_nat firstn bb_clock fst] in Hp'. exact Hp'. }
  split; [ exact Ho' | ].
  split; [ exact Z1 | ]. split; [ exact Z2 | ]. split; [ exact Z3 | ].
  split; [ unfold credit in Hdc'; lia | ].
  rewrite (since_app w w' evs Hev). exact Hde.
Qed.

Lemma cmd_on_device_witness :
  let w := world0 idle [] in
  let frame := cmd_frame default_pins (ft245r_out (drv w)) [172; 83; 0; 0] in
  let echo := byte_list (snd (bb_clock (silent default_pins)
                                       (pins_due (silent default_pins) w)
                                       (byte_list frame))) in
  let res := map (extract_data default_pins echo) [0; 1; 2; 3] in
  exists w',
    @ft245r_cmd bitbang (eager_transport (silent default_pins)) default_pins
                128 [172; 83; 0; 0] w
    = (Ret (0, res), w')
    /\ bb_pins (dev w') = 0
    /\ ft245r_out (drv w')
       = fst (set_data_all default_pins (ft245r_out (drv w)) [172; 83; 0; 0])
    /\ tx_len (drv w') = 0 /\ rx_pending (drv w') = 0 /\ rx_len (drv w') = 0
    /\ rx_discard (drv w') = 0
    /\ driver_events (since w w') = [EvCmd [172; 83; 0; 0] res].
Proof.
  intros w.
  apply (cmd_on_device default_pins (silent default_pins) 128 [172; 83; 0; 0] w);
    [ lia | split; [ apply world0_tidy | reflexivity ] | vm_compute; discriminate ].
Defined.

(** X11: [set_pin] on a wired pin followed by [get_pin], on a device that
    answers with the pins it sampled: [set_pin] returns 0 after staging the
    new output register, its echo marked for dropping; [get_pin] flushes
    the staged bytes and returns the level of its pin in the device's
    answer to that register, 1 or 0. *)
Theorem set_pin_then_get_pin (pin : pinmap) (respond : Z -> Z) (fuel : nat)
        (name name' : pinname) (val : Z) (w : world bitbang) :
  (128 <= fuel)%nat ->
  mask0 (pin name) <> 0 ->
  tidy w -> credit (drv w) + 1 <= FT245R_BUFSIZE ->
  let out' := SET_BITS_0 (ft245r_out (drv w)) pin name (truthy val) in
  exists w1 w',
    @set_pin bitbang (eager_transport respond) pin fuel name val w = (Ret 0, w1)
    /\ ft245r_out (drv w1) = out'
    /\ rx_discard (drv w1) = rx_discard (drv w) + 1
    /\ @get_pin bitbang (eager_transport respond) pin fuel name' w1
       = (Ret (if truthy (GET_BITS_0 (respond out' mod 256) pin name')
               then 1 else 0), w')
    /\ bb_pins (dev w') = out'
    /\ tx_len (drv w') = 0
    /\ tidy w'.
Proof.
  intros enough Hm Ht Hroom out'.
  destruct (@set_pin_eager respond (eager_transport respond) eq_refl fuel enough
              pin name val w Hm Ht Hroom)
    as (w1 & E1 & Ht1 & Ho1 & Hp1 & _ & Hd1 & _).
  destruct (@get_pin_eager respond (eager_transport respond) eq_refl fuel enough
              pin name' w1 Ht1)
    as (w' & E' & Ht' & Htx' & Hb' & _).
  exists w1, w'. split; [ exact E1 | ]. split; [ exact Ho1 | ].
  split; [ exact Hd1 | ].
  rewrite Hp1 in E', Hb'. fold out' in E', Hb'.
  split; [ exact E' | ]. split; [ exact Hb' | ]. split; assumption.
Qed.

Lemma set_pin_then_get_pin_witness :
  let w := world0 idle [] in
  let out' := SET_BITS_0 (ft245r_out (drv w)) default_pins PIN_AVR_SDO
                         (truthy 1) in
  exists w1 w',
    @set_pin bitbang (eager_transport (loopback default_pins)) default_pins 128
             PIN_AVR_SDO 1 w = (Ret 0, w1)
    /\ ft245r_out (drv w1) = out'
    /\ rx_discard (drv w1) = rx_discard (drv w) + 1
    /\ @get_pin bitbang (eager_transport (loopback default_pins)) default_pins
                128 PIN_AVR_SDI w1
       = (Ret (if truthy (GET_BITS_0 (loopback default_pins out' mod 256)
                                     default_pins PIN_AVR_SDI)
               then 1 else 0), w')
    /\ bb_pins (dev w') = out'
    /\ tx_len (drv w') = 0
    /\ tidy w'.
Proof.
  intros w.
  apply (set_pin_then_get_pin default_pins (loopback default_pins) 128
           PIN_AVR_SDO PIN_AVR_SDI 1 w);
    [ lia | vm_compute; discriminate | apply world0_tidy
    | vm_compute; discriminate ].
Defined.

(** X12: the check of the SDO-SDI link: through a device whose SDI is
    strapped to SDO, with both pins wired, [get_pin] of SDI after [set_pin]
    of SDO to [val] returns 1 when [val] is not 0 and 0 when it is. *)
Theorem link_reads_back (pin : pinmap) (fuel : nat) (val : Z)
        (w : world bitbang) :
  (128 <= fuel)%nat ->
  wired pin PIN_AVR_SDO -> wired pin PIN_AVR_SDI ->
  tidy w -> credit (drv w) + 1 <= FT245R_BUFSIZE ->
  exists w',
    (@set_pin bitbang (eager_transport (loopback pin)) pin fuel PIN_AVR_SDO val ;;;
     @get_pin bitbang (eager_transport (loopback pin)) pin fuel PIN_AVR_SDI) w
    = (Ret (if val =? 0 then 0 else 1), w')
    /\ tidy w'.
Proof.
  intros enough Ho Hi Ht Hroom.
  assert (Hm : mask0 (pin PIN_AVR_SDO) <> 0) by (destruct Ho; lia).
  destruct (@set_pin_eager (loopback pin) (eager_transport (loopback pin)) eq_refl
              fuel enough pin PIN_AVR_SDO val w Hm Ht Hroom)
    as (w1 & E1 & Ht1 & _ & Hp1 & _).
  destruct (@get_pin_eager (loopback pin) (eager_transport (loopback pin)) eq_refl
              fuel enough pin PIN_AVR_SDI w1 Ht1)
    as (w' & E' & Ht' & _).
  exists w'. monad_unfold. rewrite E1. cbn [fst snd]. rewrite E'.
  split; [ | exact Ht' ].
  f_equal. f_equal. rewrite Hp1.
  unfold GET_BITS_0 at 1. rewrite lxor_mod_land by (destruct Hi; lia).
  fold (GET_BITS_0 (loopback pin
                      (SET_BITS_0 (ft245r_out (drv w)) pin PIN_AVR_SDO (truthy val)))
                   pin PIN_AVR_SDI).
  rewrite level_loopback by assumption.
  rewrite level_SET_same by assumption.
  unfold truthy. destruct (val =? 0); reflexivity.
Qed.

Lemma link_reads_back_witness :
  exists w',
    (@set_pin bitbang (eager_transport (loopback default_pins)) default_pins 128
              PIN_AVR_SDO 1 ;;;
     @get_pin bitbang (eager_transport (loopback default_pins)) default_pins 128
              PIN_AVR_SDI) (world0 idle [])
    = (Ret (if 1 =? 0 then 0 else 1), w')
    /\ tidy w'.
Proof.
  destruct default_pins_wired as (Ho & _ & Hi & _).
  apply (link_reads_back default_pins 128 1 (world0 idle []));
    [ lia | exact Ho | exact Hi | apply world0_tidy | vm_compute; discriminate ].
Defined.

(** X13: [ft245r_usleep] on a transport that completes every transfer:
    every staged byte has been handed to the transport, in order, before
    the pause, which is the last thing recorded; nothing is staged
    afterwards. *)
Theorem usleep_flushes_first {T} {tr : FtdiTransport T} (fuel : nat)
        (usec : Z) (w : world T) :
  cooperative tr -> (128 <= fuel)%nat -> ready w ->
  exists w' evs,
    ft245r_usleep fuel usec w = (Ret tt, w')
    /\ since w w' = evs ++ [EvUsleep usec]
    /\ wire_bytes evs = staged (drv w)
    /\ tx_len (drv w') = 0
    /\ ready w'.
Proof.
  intros coop enough (Hinv & Htx & Hrx).
  destruct (flush_events coop fuel enough w Hinv) as
      (w1 & evs & E1 & Hev & Hw & Hi1 & Hfo & Hr1);
    [ lia | exact Hrx | ].
  unfold ft245r_usleep. monad_unfold. rewrite E1.
  cbn [fst snd drv dev image trace].
  eexists _, evs. split; [ reflexivity | ].
  split; [ apply since_app; cbn [trace]; rewrite Hev, app_assoc; reflexivity | ].
  split; [ exact Hw | ].
  cbn [drv tx_len set_tx]. split; [ reflexivity | ].
  apply (ready_emit (mkWorld (set_tx (drv w1) 0 (tx_buf (drv w1))) (dev w1)
                             (image w1) (trace w1))); [ | exact I ].
  split; [ exact Hi1 | ].
  cbn [drv tx_len rx_len set_tx]. unfold FT245R_MIN_FIFO_SIZE. lia.
Qed.

Lemma usleep_flushes_first_witness :
  let w := mkWorld (set_tx pdata0 2 [5; 6]) idle [] [] in
  exists w' evs,
    @ft245r_usleep bitbang echo_device 128 20 w = (Ret tt, w')
    /\ since w w' = evs ++ [EvUsleep 20]
    /\ wire_bytes evs = staged (drv w)
    /\ tx_len (drv w') = 0
    /\ ready w'.
Proof.
  intros w.
  apply (@usleep_flushes_first bitbang echo_device 128 20 w
           (eager_cooperative (loopback default_pins))); [ lia | ].
  split; [ split; [ vm_compute; split; discriminate | constructor ] | ].
  vm_compute. repeat split; discriminate.
Defined.

(** ** TPI *)

(** X14: the TPI decoder accepts the encoder's frames.  With SDO and SDI
    wired and SCK apart from SDO, let a frame for [byte], encoded as
    [set_tpi_data] encodes it, arrive on SDI after [idle] bit times of high
    line within the sixteen bit times that [ft245r_tpi_rx] samples.  With
    at most three idle bit times the decoding part of [ft245r_tpi_rx]
    returns 0 and stores [byte]; with four, the start bit comes too late:
    it returns -1 and the byte at [bytep] stays as it was. *)
Theorem tpi_frame_round_trip (pin : pinmap) (out : Z) (idle : nat)
        (byte old : Z) :
  wired pin PIN_AVR_SDO -> wired pin PIN_AVR_SDI ->
  separate pin PIN_AVR_SCK PIN_AVR_SDO ->
  0 <= byte < 256 -> (idle <= 4)%nat ->
  tpi_rx_decode (tpi_sample pin (tpi_reply pin out idle byte)) old
  = if (idle <? 4)%nat then (0, byte) else (-1, old).
Proof.
  intros Ho Hi Hs Hb Hidle.
  rewrite tpi_rx_decode_frame by apply tpi_sample_bits.
  rewrite tpi_reply_sample, tpi_line_frame by assumption.
  destruct (idle <? 4)%nat; reflexivity.
Qed.

Lemma tpi_frame_round_trip_witness :
  tpi_rx_decode (tpi_sample default_pins (tpi_reply default_pins 0 2 165)) 7
  = (0, 165).
Proof.
  destruct default_pins_wired as (Ho & _ & Hi & _ & Hs).
  assert (Hb : 0 <= 165 < 256) by lia.
  assert (Hidle : (2 <= 4)%nat) by lia.
  exact (tpi_frame_round_trip default_pins 0 2 165 7 Ho Hi Hs Hb Hidle).
Defined.



(** X16: [ft245r_cmd_tpi] through a device whose SDI is strapped to SDO
    (both wired, SCK apart from SDO), on a link with nothing owed but
    echoes to drop.  Every command byte is sent as a frame whose echoes are
    dropped; the first receive then sees its own high line and no start
    bit, so the call returns -1 with [res] untouched when a byte is asked
    for, and 0 when none is. *)
Theorem cmd_tpi_through_strap (pin : pinmap) (fuel : nat) (cmd res : list Z)
        (w : world bitbang) :
  wired pin PIN_AVR_SDO -> wired pin PIN_AVR_SDI ->
  separate pin PIN_AVR_SCK PIN_AVR_SDO ->
  (128 <= fuel)%nat ->
  clear w ->
  credit (drv w) + 24 * Z.of_nat (length cmd) + 32 <= FT245R_BUFSIZE ->
  exists w',
    @ft245r_cmd_tpi bitbang (eager_transport (loopback pin)) pin fuel cmd res w
    = (Ret (match res with [] => 0 | _ => -1 end, res), w')
    /\ clear w'
    /\ credit (drv w')
       = match res with
         | [] => credit (drv w) + 24 * Z.of_nat (length cmd)
         | _ => 0
         end.
Proof.
  intros Ho Hi Hs enough Hc Hroom. unfold ft245r_cmd_tpi.
  destruct (cmd_tpi_tx_eager pin (loopback pin) fuel enough cmd w Hc)
    as (w1 & E1 & Hc1 & Hcr1); [ lia | ].
  unfold bind. rewrite E1.
  destruct res as [|old rest]; cbn [cmd_tpi_rx].
  - exists w1. split; [ reflexivity | ]. split; assumption.
  - destruct (tpi_rx_eager pin (loopback pin) fuel enough old w1 Hc1)
      as (w2 & E2 & Hc2 & Hcr2 & _); [ lia | ].
    rewrite strap_sample in E2 by assumption.
    unfold bind. rewrite E2.
    change (tpi_rx_decode 65535 old) with (-1, old).
    change (-1 <? 0) with true. cbn iota.
    exists w2. split; [ reflexivity | ]. split; assumption.
Qed.

Lemma cmd_tpi_through_strap_witness :
  exists w',
    @ft245r_cmd_tpi bitbang (eager_transport (loopback default_pins))
                    default_pins 128 [1; 2] [7; 8] (world0 idle [])
    = (Ret (-1, [7; 8]), w')
    /\ clear w'
    /\ credit (drv w') = 0.
Proof.
  destruct default_pins_wired as (Ho & _ & Hi & _ & Hs).
  apply (cmd_tpi_through_strap default_pins 128 [1; 2] [7; 8] (world0 idle [])
           Ho Hi Hs);
    [ lia | split; [ apply world0_tidy | reflexivity ]
    | vm_compute; discriminate ].
Defined.

(** ** Byte-wise EEPROM load *)

(** X17: [ft245r_paged_load] on EEPROM reads byte by byte through the
    shell and stops at the first read that fails.  Let the shell's read be
    a function of the address that leaves the session alone, the range
    [addr .. addr+n_bytes-1] lie within [m->buf], and [k] be the offset of
    the first failing read ([k = n_bytes] if there is none).  The call
    returns 0 if no read failed, not the number of bytes, and -2 otherwise;
    in both cases exactly the cells [addr .. addr+k-1] of [m->buf] hold the
    bytes read, every other cell is as before, and driver, device and
    trace are untouched. *)
Theorem eeprom_load_stops_at_failure {T} {tr : FtdiTransport T} (pin : pinmap)
        (fuel : nat) {OPCODE : Type}
        (avr_set_bits : OPCODE -> list Z -> list Z)
        (avr_set_addr : OPCODE -> list Z -> Z -> list Z)
        (avr_read_byte_default : AVRMEM OPCODE -> Z -> M T (Z * Z))
        (m : AVRMEM OPCODE) (rdf : Z -> Z * Z)
        (page_size addr n_bytes k : Z) (w : world T) :
  mem_is_flash m = false -> mem_is_eeprom m = true ->
  (forall a (v : world T), avr_read_byte_default m a v = (Ret (rdf a), v)) ->
  0 < n_bytes < 2 ^ 31 -> 0 <= addr -> addr + n_bytes <= 2 ^ 32 ->
  addr + n_bytes <= Z.of_nat (length (image w)) ->
  0 <= k <= n_bytes ->
  (forall j, 0 <= j < k -> fst (rdf (addr + j)) = 0) ->
  (k < n_bytes -> fst (rdf (addr + k)) <> 0) ->
  exists w',
    ft245r_paged_load pin fuel avr_set_bits avr_set_addr avr_read_byte_default
                      m page_size addr n_bytes w
    = (Ret (if k <? n_bytes then -2 else 0), w')
    /\ drv w' = drv w /\ dev w' = dev w /\ trace w' = trace w
    /\ length (image w') = length (image w)
    /\ forall a, 0 <= a ->
         rd (image w') a
         = if (addr <=? a) && (a <? addr + k)
           then snd (rdf a) mod 256 else rd (image w) a.
Proof.
  intros Hfl Hee Hpure Hn Ha H32 Hlen Hk Hok Hbad.
  unfold ft245r_paged_load, ft245r_paged_load_gen.
  destruct (Z.eqb_spec n_bytes 0); [ lia | ]. rewrite Hfl, Hee.
  assert (Hti : to_int n_bytes = n_bytes).
  { unfold to_int. rewrite Z.mod_small by lia.
    destruct (Z.ltb_spec n_bytes (2 ^ 31)); [ reflexivity | lia ]. }
  rewrite Hti.
  destruct (paged_load_gen_loop_spec avr_read_byte_default m rdf Hpure addr k
              (Z.to_nat n_bytes) 0 w) as (w' & E & Hrest);
    try lia.
  { intros j Hj. apply Hok. lia. }
  exists w'. rewrite E.
  replace (0 + Z.of_nat (Z.to_nat n_bytes)) with n_bytes by lia.
  replace (addr + 0) with addr in Hrest by lia.
  split; [ reflexivity | exact Hrest ].
Qed.

Lemma eeprom_load_stops_at_failure_witness :
  let m := mkMem false true false 4 (@None (list Z)) None None None None in
  let rdf := fun a => (if a =? 3 then 1 else 0, 100 + a) in
  let w := mkWorld pdata0 idle [0; 0; 0; 0; 0; 0] [] in
  exists w',
    @ft245r_paged_load bitbang echo_device default_pins 128 (list Z)
       ref_set_bits ref_set_addr (fun _ a => ret (rdf a)) m 4 1 4 w
    = (Ret (if 2 <? 4 then -2 else 0), w')
    /\ drv w' = drv w /\ dev w' = dev w /\ trace w' = trace w
    /\ length (image w') = length (image w)
    /\ forall a, 0 <= a ->
         rd (image w') a
         = if (1 <=? a) && (a <? 1 + 2)
           then snd (rdf a) mod 256 else rd (image w) a.
Proof.
  intros m rdf w.
  apply (@eeprom_load_stops_at_failure bitbang echo_device default_pins 128
           (list Z) ref_set_bits ref_set_addr (fun _ a => ret (rdf a)) m rdf
           4 1 4 2 w);
    try reflexivity; try lia.
  - cbn [image w length]. lia.
  - intros j Hj. assert (Hc : j = 0 \/ j = 1) by lia.
    destruct Hc as [-> | ->]; reflexivity.
  - intros _. cbn. discriminate.
Defined.

(** ** Initialisation *)

(** X18: the SDO-SDI link check of [ft245r_initialize] for a TPI part.  On
    a device whose SDI level does not follow SDO but is stuck, high or low,
    and with [ovsigck] off, [ft245r_initialize] returns -1: after power-up
    and the reset pulse the first or the second [get_pin] reads the wrong
    level.  Up to then the driver has only driven pins: no TPI frame and no
    command has been sent, and program enable is not attempted. *)
Theorem initialize_link_check (pin : pinmap) (respond : Z -> Z) (fuel : nat)
        {OPCODE : Type} (avr_set_bits : OPCODE -> list Z -> list Z)
        (avr_tpi_program_enable : AVRPART OPCODE -> Z -> M bitbang Z)
        (TPI_CMD_SSTCS TPI_CMD_SLDCS TPI_REG_TPIPCR TPI_REG_TPIIR byte0 : Z)
        (p : AVRPART OPCODE) (stuck_at : bool) (w : world bitbang) :
  (128 <= fuel)%nat ->
  is_tpi p = true ->
  (forall x, truthy (GET_BITS_0 (respond x mod 256) pin PIN_AVR_SDI) = stuck_at) ->
  calm w 7 ->
  exists w',
    @ft245r_initialize bitbang (eager_transport respond) pin fuel OPCODE
       avr_set_bits avr_tpi_program_enable false
       TPI_CMD_SSTCS TPI_CMD_SLDCS TPI_REG_TPIPCR TPI_REG_TPIIR byte0 p w
    = (Ret (-1), w')
    /\ Forall pin_event (driver_events (since w w'))
    /\ clear w'.
Proof.
  intros enough Htpi Hstuck Hc.
  destruct (initialize_reset_pulse pin respond fuel enough 2 w Hc)
    as (w1 & e1 & E1 & Hc1 & T1 & P1); [ lia | ].
  unfold ft245r_initialize. rewrite E1, Htpi. unfold initialize_tpi.
  change 2 with (1 + 1) in Hc1.
  destruct (set_pin_calm pin respond fuel enough PIN_AVR_SDO 0 1 w1 Hc1)
    as (w2 & e2 & E2 & Hc2 & T2 & P2 & _); [ lia | ].
  destruct (get_pin_calm pin respond fuel enough PIN_AVR_SDI 1 w2 Hc2)
    as (w3 & e3 & E3 & Hc3 & T3 & P3 & _).
  rewrite Hstuck in E3.
  unfold bind at 1. unfold bind at 1. rewrite E2.
  unfold bind at 1. rewrite E3.
  destruct stuck_at.
  - change (negb (1 =? 0) && negb false) with true. cbn iota.
    exists w3. split; [ reflexivity | ].
    split; [ | exact (proj1 Hc3) ].
    rewrite (since_app w w3 (e1 ++ e2 ++ e3)).
    + rewrite !driver_events_app. repeat (apply Forall_app; split); assumption.
    + rewrite T3, T2, T1, <- !app_assoc. reflexivity.
  - change (negb (0 =? 0) && negb false) with false. cbn iota.
    change 1 with (0 + 1) in Hc3.
    destruct (set_pin_calm pin respond fuel enough PIN_AVR_SDO 1 0 w3 Hc3)
      as (w4 & e4 & E4 & Hc4 & T4 & P4 & _); [ lia | ].
    destruct (get_pin_calm pin respond fuel enough PIN_AVR_SDI 0 w4 Hc4)
      as (w5 & e5 & E5 & Hc5 & T5 & P5 & _).
    rewrite Hstuck in E5.
    unfold bind at 1. rewrite E4. unfold bind at 1. rewrite E5.
    change (negb (0 =? 1) && negb false) with true. cbn iota.
    exists w5. split; [ reflexivity | ].
    split; [ | exact (proj1 Hc5) ].
    rewrite (since_app w w5 (e1 ++ e2 ++ e3 ++ e4 ++ e5)).
    + rewrite !driver_events_app. repeat (apply Forall_app; split); assumption.
    + rewrite T5, T4, T3, T2, T1, <- !app_assoc. reflexivity.
Qed.

Lemma initialize_link_check_witness :
  exists w',
    @ft245r_initialize bitbang (eager_transport (silent default_pins))
       default_pins 128 (list Z) ref_set_bits ref_tpi_program_enable false
       192 128 2 15 0 (mkPart true None None 0 0 0) (world0 idle [])
    = (Ret (-1), w')
    /\ Forall pin_event (driver_events (since (world0 idle []) w'))
    /\ clear w'.
Proof.
  assert (Hi : wired default_pins PIN_AVR_SDI)
    by exact (proj1 (proj2 (proj2 default_pins_wired))).
  apply (initialize_link_check default_pins (silent default_pins) 128
           ref_set_bits ref_tpi_program_enable 192 128 2 15 0
           (mkPart true None None 0 0 0) false (world0 idle []));
    [ lia | reflexivity | | apply world0_calm; vm_compute; split; discriminate ].
  intros x. unfold GET_BITS_0. rewrite lxor_mod_land by (destruct Hi; lia).
  fold (GET_BITS_0 (silent default_pins x) default_pins PIN_AVR_SDI).
  unfold silent. apply level_SET_same. exact Hi.
Defined.

(** ** Opening the device *)

(** X19: a successful [ft245r_open].  With an accepted pin configuration,
    a port that parses and a transport whose configuration calls succeed,
    open returns 0 after these calls, in this order: USB open with the
    parsed serial number and index, latency timer 1, synchronous bit-bang
    with the output mask, the baud rate, and the drain's mode reset and
    synchronous bit-bang again.  Nothing is read or written: the initial
    output byte is only staged, its echo marked for dropping.  The ring is
    emptied by the drain, which leaves [rx.pending] as it was. *)
Theorem open_stages_initial_byte {T} {tr : FtdiTransport T} (pin : pinmap)
        (fuel : nat) (pins_check : pinmap -> list (pinname * bool) -> Z)
        (pgm : PROGRAMMER) (portname : string) (w : world T) :
  obliging tr ->
  pins_check pin pin_checklist = 0 ->
  0 <= fst (parse_port (usbsn pgm) portname) ->
  0 <= tx_len (drv w) < FT245R_MIN_FIFO_SIZE - 1 -> tx_ok (drv w) ->
  let devnum := fst (parse_port (usbsn pgm) portname) in
  let sn := snd (parse_port (usbsn pgm) portname) in
  exists pgm' w',
    ft245r_open pin fuel pins_check pgm portname w = (Ret (0, pgm'), w')
    /\ port pgm' = portname /\ usbsn pgm' = sn
    /\ since w w'
       = [EvOpenDev (opt_string sn) devnum 0; EvTransport 1 1 0;
          EvBitmode (output_ddr pin) BITMODE_SYNCBB;
          EvTransport 2 (bitclock_of pgm) 0;
          EvBitmode 0 BITMODE_RESET;
          EvBitmode (output_ddr pin) BITMODE_SYNCBB]
    /\ ft245r_ddr (drv w') = output_ddr pin
    /\ ft245r_out (drv w') = initial_out pin
    /\ staged (drv w') = staged (drv w) ++ [initial_out pin]
    /\ rx_discard (drv w') = rx_discard (drv w) + 1
    /\ rx_len (drv w') = 0
    /\ rx_pending (drv w') = rx_pending (drv w).
Proof.
  intros (Hopen & Hlat & Hmode & Hbaud) Hc Hdev Htx Hok devnum sn.
  unfold ft245r_open. rewrite Hc. cbn [Z.eqb negb].
  subst devnum sn.
  destruct (parse_port (usbsn pgm) portname) as [devnum sn]. cbn [fst snd] in *.
  destruct (Z.ltb_spec devnum 0); [ lia | ].
  cbn [usbsn usbvid usbpid usbproduct port baudrate bitclock_rate].
  unfold ft245r_set_bitclock, ft245r_drain, ft245r_send_and_discard.
  cbn [ft245r_send2 baudrate bitclock_rate]. monad_unfold.
  match goal with
  | |- context [ftdi_usb_open_desc_index ?a ?b ?c ?d ?e ?f] =>
      pose proof (Hopen a b c d e f) as H1;
      destruct (ftdi_usb_open_desc_index a b c d e f) as [r1 d1]
  end.
  cbn [fst snd] in *. subst r1. cbn [Z.eqb negb fst snd drv dev image trace].
  match goal with
  | |- context [ftdi_set_latency_timer ?a ?b] =>
      pose proof (Hlat a b) as H2;
      destruct (ftdi_set_latency_timer a b) as [r2 d2]
  end.
  cbn [fst snd] in *. subst r2. cbn [Z.eqb negb fst snd drv dev image trace].
  match goal with
  | |- context [ftdi_set_bitmode ?a ?b ?c] =>
      pose proof (Hmode a b c) as H3;
      destruct (ftdi_set_bitmode a b c) as [r3 d3]
  end.
  cbn [fst snd] in *. subst r3. cbn [Z.eqb negb fst snd drv dev image trace].
  match goal with
  | |- context [ftdi_set_baudrate ?a ?b] =>
      pose proof (Hbaud a b) as H4;
      destruct (ftdi_set_baudrate a b) as [r4 d4]
  end.
  cbn [fst snd] in *. subst r4. cbn [Z.eqb negb fst snd drv dev image trace].
  match goal with
  | |- context [ftdi_set_bitmode ?a ?b ?c] =>
      pose proof (Hmode a b c) as H5;
      destruct (ftdi_set_bitmode a b c) as [r5 d5]
  end.
  cbn [fst snd] in *. subst r5. cbn [Z.eqb negb fst snd drv dev image trace].
  cbn [ft245r_ddr set_out set_ddr].
  match goal with
  | |- context [ftdi_set_bitmode ?a ?b ?c] =>
      pose proof (Hmode a b c) as H6;
      destruct (ftdi_set_bitmode a b c) as [r6 d6]
  end.
  cbn [fst snd] in *. subst r6. cbn [Z.eqb negb fst snd drv dev image trace].
  cbn [ft245r_rx_buf_purge set_ring set_out set_ddr set_discard set_tx
       tx_len tx_buf rx_discard ft245r_out ft245r_ddr rx_len rx_pending rx_buf].
  destruct (Z.leb_spec FT245R_MIN_FIFO_SIZE (tx_len (drv w) + 1)); [ lia | ].
  cbn [fst snd drv dev image trace].
  eexists _, _. split; [ reflexivity | ].
  cbn [port usbsn drv trace ft245r_ddr ft245r_out tx_len tx_buf rx_discard
       rx_len rx_pending].
  split; [ reflexivity | ]. split; [ reflexivity | ].
  split.
  { apply since_app. rewrite <- !app_assoc. reflexivity. }
  split; [ reflexivity | ]. split; [ reflexivity | ].
  split.
  { unfold staged. cbn [tx_len tx_buf set_tx].
    cbn [tx_len tx_buf set_tx set_discard ft245r_rx_buf_purge set_ring set_out
         set_ddr].
    assert (Hb : initial_out pin mod 256 = initial_out pin).
    { unfold initial_out, SET_BITS_0. apply Z.mod_mod. lia. }
    rewrite Hb. unfold upd.
    destruct (Z.ltb_spec (tx_len (drv w)) 0); [ lia | ].
    replace (Z.to_nat (tx_len (drv w) + 1)) with (S (Z.to_nat (tx_len (drv w))))
      by lia.
    apply firstn_upd_snoc. unfold tx_ok in Hok. rewrite Hok.
    unfold FT245R_MIN_FIFO_SIZE in *. lia. }
  split; [ reflexivity | ]. split; reflexivity.
Qed.

Lemma open_stages_initial_byte_witness :
  let pgm := mkPgm "" "" 0 [] "" 0 None in
  exists pgm' w',
    @ft245r_open bitbang echo_device default_pins 128 ref_pins_check pgm
                 "usb:ft0" (world0 idle [])
    = (Ret (0, pgm'), w')
    /\ port pgm' = "usb:ft0"%string
    /\ usbsn pgm' = snd (parse_port (usbsn pgm) "usb:ft0")
    /\ since (world0 idle []) w'
       = [EvOpenDev (opt_string (snd (parse_port (usbsn pgm) "usb:ft0")))
                    (fst (parse_port (usbsn pgm) "usb:ft0")) 0;
          EvTransport 1 1 0;
          EvBitmode (output_ddr default_pins) BITMODE_SYNCBB;
          EvTransport 2 (bitclock_of pgm) 0;
          EvBitmode 0 BITMODE_RESET;
          EvBitmode (output_ddr default_pins) BITMODE_SYNCBB]
    /\ ft245r_ddr (drv w') = output_ddr default_pins
    /\ ft245r_out (drv w') = initial_out default_pins
    /\ staged (drv w') = staged (drv (world0 idle [])) ++ [initial_out default_pins]
    /\ rx_discard (drv w') = rx_discard (drv (world0 idle [])) + 1
    /\ rx_len (drv w') = 0
    /\ rx_pending (drv w') = rx_pending (drv (world0 idle [])).
Proof.
  intros pgm.
  assert (Hob : obliging echo_device).
  { unfold obliging, echo_device. cbn. repeat split. }
  apply (@open_stages_initial_byte bitbang echo_device default_pins 128
           ref_pins_check pgm "usb:ft0" (world0 idle []) Hob);
    [ reflexivity | vm_compute; discriminate
    | vm_compute; split; [ discriminate | reflexivity ] | reflexivity ].
Defined.

(** ** Program enable *)

(** X20: what a failed [ft245r_program_enable] leaves behind.  On a device
    that answers with the pins it sampled and holds SDI low, for an ISP
    part whose poll value is not 0, with RESET and SDI wired: every command
    is answered with zeros, so the call returns -1 after the fourth
    attempt.  Its last steps are a write of the raised RESET, a staged
    byte lowering it, and the drain, which empties the ring and the
    device's queue but leaves the counters alone: afterwards [rx.pending]
    is 1 although the device holds no byte, [rx.discard] is 2 and one byte
    is still staged. *)
Theorem program_enable_leaves_counters (pin : pinmap) (fuel : nat)
        {OPCODE : Type} (avr_set_bits : OPCODE -> list Z -> list Z)
        (avr_tpi_program_enable : AVRPART OPCODE -> Z -> M bitbang Z)
        (p : AVRPART OPCODE) (op : OPCODE) (w : world bitbang) :
  (128 <= fuel)%nat ->
  wired pin PIN_AVR_SDI -> mask0 (pin PIN_AVR_RESET) <> 0 ->
  is_tpi p = false -> op_PGM_ENABLE p = Some op ->
  1 <= pollindex p <= 4 -> pollvalue p <> 0 ->
  clear w -> credit (drv w) <= 2 ->
  exists w',
    @ft245r_program_enable bitbang (eager_transport (silent pin)) pin fuel
       OPCODE avr_set_bits avr_tpi_program_enable p w
    = (Ret (-1), w')
    /\ rx_len (drv w') = 0
    /\ rx_pending (drv w') = 1 /\ bb_fifo (dev w') = []
    /\ rx_discard (drv w') = 2
    /\ tx_len (drv w') = 1.
Proof.
  intros enough Hsdi Hreset Htpi Hop Hidx Hval Hc Hcr.
  unfold ft245r_program_enable. rewrite Htpi, Hop.
  set (cmd := avr_set_bits op [0; 0; 0; 0]).
  assert (Hzero : forall j, rd [0; 0; 0; 0] j = 0).
  { intros j. unfold rd.
    destruct (Z.to_nat j) as [|[|[|[|[|n]]]]]; reflexivity. }
  assert (Hloop : forall k i (v : world bitbang),
            i + Z.of_nat k = 4 -> (1 <= k)%nat ->
            clear v -> credit (drv v) <= 2 ->
            exists w',
              @program_enable_loop bitbang (eager_transport (silent pin)) pin
                 fuel OPCODE k i p cmd v
              = (Ret (-1), w')
              /\ rx_len (drv w') = 0
              /\ rx_pending (drv w') = 1 /\ bb_fifo (dev w') = []
              /\ rx_discard (drv w') = 2
              /\ tx_len (drv w') = 1).
  { induction k as [|k IH]; intros i v Hik Hk Hcv Hcrv; [ lia | ].
    destruct (failed_round_eager pin fuel enough Hsdi Hreset cmd v Hcv)
      as (w1 & w2 & w3 & w4 & E1 & E2 & E3 & E4 & Hc4 & Hl4 & Hp4 & Ht4 & Hd4 & Hf4);
      [ unfold FT245R_BUFSIZE; lia | ].
    cbn [program_enable_loop]. unfold bind at 1. rewrite E1.
    rewrite Hzero. destruct (Z.eqb_spec 0 (pollvalue p)); [ congruence | ].
    unfold bind at 1. rewrite E2. unfold bind at 1. rewrite E3.
    unfold bind at 1. rewrite E4. unfold bind at 1.
    destruct (Z.eqb_spec i 3) as [Hi3|Hi3].
    - assert (k = 0%nat) by lia. subst k. cbn [program_enable_loop].
      unfold ft245r_drain. monad_unfold.
      cbn [ftdi_set_bitmode eager_transport fst snd].
      change (BITMODE_RESET =? BITMODE_RESET) with true.
      change (BITMODE_SYNCBB =? BITMODE_RESET) with false.
      cbn [Z.eqb negb fst snd drv dev image trace].
      eexists. split; [ reflexivity | ].
      cbn [drv dev bb_fifo ft245r_rx_buf_purge set_ring rx_len rx_pending
           rx_discard tx_len].
      repeat split; assumption.
    - cbn [ret]. apply IH; [ lia | lia | exact Hc4 | ].
      unfold credit. lia. }
  apply (Hloop 4%nat 0 w); [ reflexivity | lia | exact Hc | exact Hcr ].
Qed.

Lemma program_enable_leaves_counters_witness :
  exists w',
    @ft245r_program_enable bitbang (eager_transport (silent default_pins))
       default_pins 128 (list Z) ref_set_bits ref_tpi_program_enable
       (mkPart false (Some [172; 83; 0; 0]) None 3 83 0) (world0 idle [])
    = (Ret (-1), w')
    /\ rx_len (drv w') = 0
    /\ rx_pending (drv w') = 1 /\ bb_fifo (dev w') = []
    /\ rx_discard (drv w') = 2
    /\ tx_len (drv w') = 1.
Proof.
  destruct default_pins_wired as (_ & _ & Hi & _).
  apply (program_enable_leaves_counters default_pins 128 ref_set_bits
           ref_tpi_program_enable (mkPart false (Some [172; 83; 0; 0]) None 3 83 0)
           [172; 83; 0; 0] (world0 idle []));
    [ lia | exact Hi | vm_compute; discriminate | reflexivity | reflexivity
    | cbn; lia | cbn; discriminate
    | split; [ apply world0_tidy | reflexivity ] | vm_compute; discriminate ].
Defined.

(** ** Enabling the buffer *)

(** X21: [ft245r_enable] pulls RESET low before the buffer is enabled.  On
    a transport that completes every transfer, with RESET and the buffer
    pin wired and room for one more staged byte: the output register with
    RESET low is staged and, with all that was staged before, written to
    the device before the pause; only after the pause is the register with
    the buffer pin on staged, and it is not written yet when the call
    returns. *)
Theorem enable_resets_first {T} {tr : FtdiTransport T} (pin : pinmap)
        (fuel : nat) (w : world T) :
  cooperative tr -> (128 <= fuel)%nat ->
  mask0 (pin PIN_AVR_RESET) <> 0 -> mask0 (pin PPI_AVR_BUFF) <> 0 ->
  ready w -> tx_ok (drv w) -> tx_len (drv w) + 1 < FT245R_MIN_FIFO_SIZE ->
  let low := SET_BITS_0 (ft245r_out (drv w)) pin PIN_AVR_RESET (truthy OFF) in
  let on := SET_BITS_0 low pin PPI_AVR_BUFF (truthy ON) in
  exists w' evs,
    ft245r_enable pin fuel w = (Ret tt, w')
    /\ since w w'
       = [EvSetPin PIN_AVR_RESET OFF] ++ evs
         ++ [EvUsleep 1; EvSetPin PPI_AVR_BUFF ON]
    /\ wire_bytes evs = staged (drv w) ++ [low]
    /\ staged (drv w') = [on]
    /\ ft245r_out (drv w') = on.
Proof.
  intros coop enough Hreset Hbuff (Hinv & Htx & Hrx) Hok Hroom low on.
  unfold ft245r_enable, set_reset, set_buff.
  destruct (set_pin_stages pin fuel PIN_AVR_RESET OFF w Hreset Hroom)
    as (w1 & E1 & _ & Hp1 & Hl1 & Ht1 & _ & Ho1 & Hev1 & Hb1).
  fold low in Ho1, Hb1.
  assert (Hst1 : staged (drv w1) = staged (drv w) ++ [low]).
  { unfold staged. rewrite Ht1, Hb1. unfold upd.
    destruct (Z.ltb_spec (tx_len (drv w)) 0); [ lia | ].
    replace (Z.to_nat (tx_len (drv w) + 1)) with (S (Z.to_nat (tx_len (drv w))))
      by lia.
    apply firstn_upd_snoc. unfold tx_ok in Hok. rewrite Hok.
    unfold FT245R_MIN_FIFO_SIZE in *. lia. }
  assert (Hinv1 : fifo_inv w1).
  { destruct Hinv as [Hp Hf]. split; [ rewrite Hp1; exact Hp | ].
    rewrite Hev1. apply Forall_snoc; [ exact Hf | exact I ]. }
  destruct (flush_events coop fuel enough w1 Hinv1) as
      (w2 & evs & E2 & Hev2 & Hw2 & Hi2 & Hfo2 & Hr2); [ lia | lia | ].
  destruct Hfo2 as ((Ho2 & _) & Htl2 & Htb2 & _).
  set (w3 := mkWorld (set_tx (drv w2) 0 (tx_buf (drv w2))) (dev w2) (image w2)
                     (trace w2 ++ [EvUsleep 1])).
  assert (E3 : ft245r_usleep fuel 1 w1 = (Ret tt, w3)).
  { unfold ft245r_usleep. monad_unfold. rewrite E2. reflexivity. }
  destruct (set_pin_stages pin fuel PPI_AVR_BUFF ON w3 Hbuff)
    as (w4 & E4 & _ & _ & _ & Ht4 & _ & Ho4 & Hev4 & Hb4).
  { subst w3. cbn [drv tx_len set_tx]. unfold FT245R_MIN_FIFO_SIZE. lia. }
  assert (Ho3 : ft245r_out (drv w3) = low).
  { subst w3. cbn [drv ft245r_out set_tx]. rewrite Ho2. exact Ho1. }
  rewrite Ho3 in Ho4, Hb4. fold on in Ho4, Hb4.
  exists w4, evs. unfold bind. rewrite E1, E3, E4.
  split; [ reflexivity | ].
  split.
  { apply since_app. rewrite Hev4. subst w3. cbn [trace].
    rewrite Hev2, Hev1, <- !app_assoc. reflexivity. }
  split; [ rewrite Hw2; exact Hst1 | ].
  split; [ | exact Ho4 ].
  unfold staged. rewrite Ht4, Hb4. subst w3. cbn [drv tx_len tx_buf set_tx].
  unfold upd. cbn [Z.ltb Z.compare Z.to_nat Z.add Pos.to_nat Pos.iter_op Nat.add].
  assert (Hlen : (0 < length (tx_buf (drv w2)))%nat).
  { rewrite Htb2, Hb1, upd_length. unfold tx_ok in Hok. rewrite Hok.
    unfold FT245R_MIN_FIFO_SIZE. lia. }
  destruct (tx_buf (drv w2)) as [|x l]; [ cbn [length] in Hlen; lia | ].
  reflexivity.
Qed.

Lemma enable_resets_first_witness :
  let pins := fun name => match name with
                          | PPI_AVR_BUFF => mkPindef 8 0
                          | _ => default_pins name
                          end in
  let w := world0 idle [] in
  let low := SET_BITS_0 (ft245r_out (drv w)) pins PIN_AVR_RESET (truthy OFF) in
  let on := SET_BITS_0 low pins PPI_AVR_BUFF (truthy ON) in
  exists w' evs,
    @ft245r_enable bitbang echo_device pins 128 w = (Ret tt, w')
    /\ since w w'
       = [EvSetPin PIN_AVR_RESET OFF] ++ evs
         ++ [EvUsleep 1; EvSetPin PPI_AVR_BUFF ON]
    /\ wire_bytes evs = staged (drv w) ++ [low]
    /\ staged (drv w') = [on]
    /\ ft245r_out (drv w') = on.
Proof.
  intros pins w.
  apply (@enable_resets_first bitbang echo_device pins 128 w
           (eager_cooperative (loopback default_pins)));
    [ lia | vm_compute; discriminate | vm_compute; discriminate
    | exact (proj1 (world0_settled idle [])) | reflexivity
    | vm_compute; reflexivity ].
Defined.

(** ** Byte-wise EEPROM write *)

(** X22: [ft245r_paged_write] on EEPROM writes byte by byte through the
    shell, passing for each address of [addr .. addr+n_bytes-1] in turn
    the byte that [m->buf] holds there, and stops at the first write that
    fails.  When the shell's write is a function of address and value that
    leaves the session alone, the call returns [n_bytes] if every write of
    the range succeeds and -2 as soon as one fails. *)
Theorem eeprom_write_stops_at_failure {T} {tr : FtdiTransport T}
        (pin : pinmap) (fuel : nat) {OPCODE : Type}
        (avr_set_bits : OPCODE -> list Z -> list Z)
        (avr_set_addr avr_set_input : OPCODE -> list Z -> Z -> list Z)
        (avr_write_page : AVRMEM OPCODE -> Z -> M T Z)
        (avr_write_byte_default : AVRMEM OPCODE -> Z -> Z -> M T Z)
        (m : AVRMEM OPCODE) (wrf : Z -> Z -> Z)
        (page_size addr n_bytes k : Z) (w : world T) :
  mem_is_flash m = false -> mem_is_eeprom m = true ->
  (forall a x (v : world T),
      avr_write_byte_default m a x v = (Ret (wrf a x), v)) ->
  0 < n_bytes < 2 ^ 31 -> 0 <= addr -> addr + n_bytes < 2 ^ 32 ->
  0 <= k <= n_bytes ->
  (forall j, 0 <= j < k -> wrf (addr + j) (rd (image w) (addr + j)) = 0) ->
  (k < n_bytes -> wrf (addr + k) (rd (image w) (addr + k)) <> 0) ->
  ft245r_paged_write pin fuel avr_set_bits avr_set_addr avr_set_input
                     avr_write_page avr_write_byte_default
                     m page_size addr n_bytes w
  = (Ret (if k <? n_bytes then -2 else n_bytes), w).
Proof.
  intros Hfl Hee Hpure Hn Ha H32 Hk Hok Hbad.
  unfold ft245r_paged_write, ft245r_paged_write_gen.
  destruct (Z.eqb_spec n_bytes 0); [ lia | ]. rewrite Hfl, Hee.
  assert (Hti : to_int n_bytes = n_bytes).
  { unfold to_int. rewrite Z.mod_small by lia.
    destruct (Z.ltb_spec n_bytes (2 ^ 31)); [ reflexivity | lia ]. }
  pose proof (paged_write_gen_loop_spec avr_write_byte_default m wrf Hpure addr
                n_bytes k (Z.to_nat (to_int n_bytes)) 0 w) as Hloop.
  rewrite Hti in *. rewrite Z.add_0_r in Hloop.
  rewrite Hloop; try lia.
  - replace (0 + Z.of_nat (Z.to_nat n_bytes)) with n_bytes by lia. reflexivity.
  - intros j Hj. apply Hok. lia.
Qed.

Lemma eeprom_write_stops_at_failure_witness :
  let m := mkMem false true false 4 (@None (list Z)) None None None None in
  let wrf := fun a x => if x =? 13 then 1 else 0 in
  let w := mkWorld pdata0 idle [10; 11; 12; 13; 14; 15] [] in
  @ft245r_paged_write bitbang echo_device default_pins 128 (list Z)
     ref_set_bits ref_set_addr ref_set_input (fun _ _ => ret 0)
     (fun _ a x => ret (wrf a x)) m 4 1 4 w
  = (Ret (if 2 <? 4 then -2 else 4), w).
Proof.
  intros m wrf w.
  apply (@eeprom_write_stops_at_failure bitbang echo_device default_pins 128
           (list Z) ref_set_bits ref_set_addr ref_set_input (fun _ _ => ret 0)
           (fun _ a x => ret (wrf a x)) m wrf 4 1 4 2 w);
    try reflexivity; try lia.
  - intros j Hj. assert (Hc : j = 0 \/ j = 1) by lia.
    destruct Hc as [-> | ->]; reflexivity.
  - intros _. cbn. discriminate.
Defined.

(** ** Waiting for the device *)

(** X23: [ft245r_recv] has no way out of waiting.  On a transport whose
    reads all come back with no byte and no error, with nothing staged and
    an empty ring, a call that needs at least one byte, to drop or to
    store, does not return: [ft245r_rx_buf_fill_and_get] keeps calling
    [ft245r_fill], whatever the number of rounds allowed. *)
Theorem recv_waits_forever {T} {tr : FtdiTransport T} (fuel : nat)
        (buf : list Z) (len : Z) (w : world T) :
  reads_nothing tr ->
  tx_len (drv w) = 0 -> rx_len (drv w) = 0 ->
  0 <= rx_discard (drv w) -> 0 <= len -> 0 < rx_discard (drv w) + len ->
  fst (ft245r_recv fuel buf len w) = Hang
  /\ fst (ft245r_rx_buf_fill_and_get fuel w) = Hang.
Proof.
  intros dry Htx Hrl Hd Hlen Hneed. split.
  - apply recv_dry; assumption.
  - apply fill_and_get_dry; assumption.
Qed.

Lemma recv_waits_forever_witness :
  fst (@ft245r_recv unit dry_transport 1000 [0] 1 (world0 tt [])) = Hang
  /\ fst (@ft245r_rx_buf_fill_and_get unit dry_transport 1000 (world0 tt []))
     = Hang.
Proof.
  apply (@recv_waits_forever unit dry_transport 1000 [0] 1 (world0 tt []));
    [ intros d size; reflexivity | reflexivity | reflexivity
    | vm_compute; discriminate | lia | vm_compute; reflexivity ].
Defined.

(** ** Serving a request *)

(** X24: [do_request] with a queued request, on a device that answers
    every byte written with the pins it sampled just before.  With the
    driver's bookkeeping in step with the device and the request's
    [bytes] echoes owed after the [rx.discard] to drop, the call returns 1,
    removes the oldest request from the queue and receives its [bytes]
    echoes; for each [j < n] it stores in [m->buf[addr + j]] the byte that
    [extract_data] decodes at offset [4*j + 3] of them, the fourth
    response byte of the [j]-th command, and leaves every other cell of
    [m->buf] as it was.  The request must cover what is decoded:
    [64*n + 1 <= bytes]. *)
Theorem do_request_stores (pin : pinmap) (respond : Z -> Z) (fuel : nat)
        {OPCODE : Type} (m : AVRMEM OPCODE) (r : ft245r_request)
        (rest : list ft245r_request) (w : world bitbang) :
  (128 <= fuel)%nat -> tidy w ->
  req_queue (drv w) = r :: rest ->
  0 <= rx_discard (drv w) -> 0 <= n r -> 64 * n r + 1 <= bytes r ->
  rx_discard (drv w) + bytes r <= credit (drv w) ->
  0 <= addr r -> addr r + n r <= Z.of_nat (length (image w)) ->
  let got := byte_list (firstn (Z.to_nat (bytes r))
                          (skipn (Z.to_nat (rx_discard (drv w)))
                                 (echo_due respond w))) in
  exists w',
    @do_request bitbang (eager_transport respond) pin fuel OPCODE m w
    = (Ret 1, w')
    /\ req_queue (drv w') = rest
    /\ length got = Z.to_nat (bytes r)
    /\ length (image w') = length (image w)
    /\ (forall a, 0 <= a ->
          rd (image w') a
          = if (addr r <=? a) && (a <? addr r + n r)
            then extract_data pin got ((a - addr r) * 4 + 3)
            else rd (image w) a)
    /\ rx_discard (drv w') = 0
    /\ echo_due respond w'
       = skipn (Z.to_nat (rx_discard (drv w) + bytes r)) (echo_due respond w).
Proof.
  intros enough Ht Hq Hd Hn Hcover Hcr Ha Hlen got.
  unfold do_request. monad_unfold. rewrite Hq.
  cbn [fst snd drv dev image trace].
  set (w1 := mkWorld (set_reqs (drv w) rest (mkReq 0 0 0 :: req_pool (drv w)))
                     (dev w) (image w) (trace w ++ [EvDo r])).
  assert (Ht1 : tidy w1).
  { apply (tidy_emit (mkWorld (set_reqs (drv w) rest
                                 (mkReq 0 0 0 :: req_pool (drv w)))
                              (dev w) (image w) (trace w)));
      [ exact Ht | exact I ]. }
  destruct (@recv_eager respond (eager_transport respond) eq_refl fuel enough
              [] (bytes r) w1 Ht1)
    as (w2 & E2 & Ht2 & Hb2 & He2 & _ & Hd2 & _);
    [ exact Hd | lia | exact Hcr | ].
  change (echo_due respond w1) with (echo_due respond w) in *.
  change (rx_discard (drv w1)) with (rx_discard (drv w)) in *.
  fold got in E2. rewrite E2. cbn [fst snd drv dev image trace].
  assert (Hnil : skipn (length got) (@nil Z) = []) by (destruct (length got); reflexivity).
  rewrite Hnil, app_nil_r.
  destruct Hb2 as (_ & _ & Hq2 & _ & Hi2 & _).
  destruct (store_data_spec pin got (Z.to_nat (n r)) 0 (addr r) (image w2) Ha)
    as (Hl & Hrd).
  { rewrite Hi2. subst w1. cbn [image]. lia. }
  eexists. split; [ reflexivity | ]. cbn [drv image].
  split; [ rewrite Hq2; reflexivity | ].
  split.
  { subst got. rewrite byte_list_length, length_firstn, length_skipn.
    rewrite (echo_due_length respond w Ht). lia. }
  split; [ rewrite Hl, Hi2; reflexivity | ].
  split.
  { intros a Ha0. rewrite (Hrd a Ha0), Hi2. subst w1. cbn [image].
    replace (addr r + Z.of_nat (Z.to_nat (n r))) with (addr r + n r) by lia.
    replace (0 + (a - addr r)) with (a - addr r) by lia. reflexivity. }
  split; [ exact Hd2 | exact He2 ].
Qed.

Lemma do_request_stores_witness :
  let r := mkReq 1 65 1 in
  let w := mkWorld (set_reqs (set_pending pdata0 65) [r] [])
                   (mkBitbang 0 (repeat 2 65)) [0; 0; 0] [] in
  let got := byte_list (firstn (Z.to_nat (bytes r))
                          (skipn (Z.to_nat (rx_discard (drv w)))
                                 (echo_due (loopback default_pins) w))) in
  exists w',
    @do_request bitbang (eager_transport (loopback default_pins)) default_pins
       128 (list Z) (mkMem true false true 4 None None None None None) w
    = (Ret 1, w')
    /\ req_queue (drv w') = []
    /\ length got = Z.to_nat (bytes r)
    /\ length (image w') = length (image w)
    /\ (forall a, 0 <= a ->
          rd (image w') a
          = if (addr r <=? a) && (a <? addr r + n r)
            then extract_data default_pins got ((a - addr r) * 4 + 3)
            else rd (image w) a)
    /\ rx_discard (drv w') = 0
    /\ echo_due (loopback default_pins) w'
       = skipn (Z.to_nat (rx_discard (drv w) + bytes r))
               (echo_due (loopback default_pins) w).
Proof.
  intros r w.
  assert (Ht : tidy w).
  { split; [ reflexivity | ].
    split; [ split; [ split; [ vm_compute; split; discriminate | constructor ]
                    | vm_compute; repeat split; discriminate ] | ].
    split; [ | split; [ reflexivity | vm_compute; discriminate ] ].
    unfold ring_ok, w, pdata0, FT245R_BUFSIZE.
    cbn [drv rx_buf rx_rd rx_len rx_wr set_pending set_reqs].
    rewrite repeat_length.
    split; [ reflexivity | ]. split; [ lia | ]. split; [ lia | reflexivity ]. }
  apply (do_request_stores default_pins (loopback default_pins) 128
           (mkMem true false true 4 None None None None None) r [] w);
    [ lia | exact Ht | reflexivity | vm_compute; discriminate
    | vm_compute; discriminate | vm_compute; discriminate
    | vm_compute; discriminate | vm_compute; discriminate
    | vm_compute; discriminate ].
Defined.
